(* ===== verification/_CoqProject ===== *)
-Q . S2P
Prelude.v
Transition.v
CStd.v
PicoHttp.v
PicoHttpFacts.v
Chunked.v
Codec.v
Utf8.v
Utils.v
FormDecode.v
Multipart.v
MultipartFacts.v
MultipartReader.v
Sha1.v
WebSocket.v
HeapTimer.v
Buffer.v
Itoa.v
ToStr.v
Cookie.v
Response.v
Router.v
Request.v
QueryValue.v
Upload.v
UploadMove.v
Connection.v
Server.v
RawConn.v
Rounds.v
ServerFacts.v
Forms.v
Uploads.v
WsServed.v
Mime.v
StaticFile.v
ListQueue.v
EventLoop.v
BlockQueue.v
FastCache.v
WsManager.v
WsSend.v
ThreadPool.v
PoolCount.v
CorePool.v
Coroutine.v
LockFree.v
Accept.v
Reactor.v
Session.v
HttpCache.v
Jeaiii.v
Uri.v
HttpParser.v
HttpClient.v
ClientFacts.v
Exchange.v
Download.v
ClientUpload.v
