(* ===== verification/Prelude.v ===== *)
(** * netcore: a verification development

    netcore (src/) is an HTTP/1.1 and WebSocket server in C++20 on coroutines and
    epoll, with a router, multipart uploads, static files, a client, and tools
    (thread pool, blocking queue, cache, timer heap, buffer).  This library models the
    code that makes up its logic as executable Gallina functions and step relations
    and proves what they do.  Lines and names of the sources are in PROJECT.json; file
    names below are relative to src/, headers without a directory are in
    include/netcore/.

    ** How the program works, and which file models what

    A connection is a coroutine.  [Server::handle] (http_server.hpp) awaits bytes,
    which the loops around ::recv in core.hpp deliver, stores them in the request's
    buffer, and lets [connection::process] (connection.hpp) react: parse the head,
    choose by content type how to read the body, call the handler, build the response,
    which the server sends with the loop around ::send.  The handler that
    [http_server] installs goes through the router.  WebSocket connections change
    protocol after the handshake.

    - Prelude.v, Transition.v, CStd.v: bytes are integers in [0,256), machine words
      are integers with their wrap-around written out ([wrap32], [wrap64]), positions
      are offsets; case-analysis tactics; step functions with reachability and rule
      induction; std::to_string, strtoll, atoi.
    - PicoHttp.v, PicoHttpFacts.v (picohttpparser.h): request, response and header
      parser, with both builds (SSE4.2 and portable) and every out parameter.  A
      pointer is a position with the bytes up to buf_end, and reading at buf_end is
      the outcome [POob].  Facts: no read outside the buffer, both builds agree, more
      bytes do not change a decision, parsing inverts printing.
    - Chunked.v (picohttpparser.h, response.hpp): the in-place chunk decoder against a
      byte-at-a-time reference; one call or several; encode/decode.
    - Codec.v, Utf8.v, Utils.v, FormDecode.v (url_encode_decode.hpp, lib/base64.hpp,
      utils.hpp): percent and Base64 codecs, UTF-8 validation against scalar values,
      string helpers.
    - Multipart.v, MultipartFacts.v, MultipartReader.v (multipart_parser.hpp,
      multipart_reader.hpp): the push parser with marks, skip table and lookbehind
      buffer refines a reference parser; its events do not depend on the cuts; a
      printed body is read back.
    - Sha1.v, WebSocket.v (sha1.hpp, websocket.hpp, ws_define.h): SHA-1 equals FIPS
      180, also in pieces; handshake and frames.
    - HeapTimer.v, Buffer.v, Itoa.v, Jeaiii.v (core/heaptimer.cpp, lib/buffer.cpp,
      itoa.hpp, core/itoa_jeaiii.hpp): tools with a sequential contract, each against a
      reference (ordered timers, a queue of bytes, decimal notation).
    - Cookie.v, Response.v, Router.v, Request.v, QueryValue.v, Upload.v, UploadMove.v
      (cookie.hpp, response.hpp, response_cv.hpp, http_router.hpp, request.hpp,
      upload_file.hpp): the data of an exchange.  Request.v has [message], a request
      as a client writes it.
    - Connection.v, Server.v (connection.hpp, http_server.hpp, core.hpp,
      ws_before_ap.hpp): every reaction of a connection and the serving loop; what
      handlers and hooks do are the fields of [environment].
    - RawConn.v, Rounds.v (core.hpp, http_server.hpp): the awaiters and the event callback
      of a connection, with any coroutine; and Server::handle as that coroutine.  Rounds.v
      relates the two views of the server: [answered] says what a request leads to in
      the loop over bursts and under the events of the socket, [conversed] the same for a
      connection that stays open.
    - ServerFacts.v, Forms.v, Uploads.v, WsServed.v and StaticFile.v (hs_utils.hpp) compose
      them: from registration to the bytes handed to ::send, for plain bodies, forms
      with uploads, WebSocket sessions and files;
      Mime.v (mime_types.hpp) is the table of media types with its case-insensitive map.
    - ListQueue.v, EventLoop.v (core.hpp, basic.hpp): the intrusive task queue over a store
      of nodes, the loop's pass over its tasks with timeouts and freed awaiters, and
      which awaiter an event of epoll reaches.
    - BlockQueue.v, ThreadPool.v, PoolCount.v, CorePool.v, LockFree.v, WsManager.v, WsSend.v,
      FastCache.v (lib/blockqueue.h, lib/threadpool.hpp, core/threadpool.h,
      lib/lockfree_queue.hpp, websocket_manager.h, connection.hpp, fastCache.hpp): concurrent tools as step functions on a
      shared state; who is woken is part of the step.
    - Accept.v (core.hpp, http_server.hpp): addresses, the listening socket, and the
      threads that accept from it.
    - Reactor.v (core/epoll_server.hpp, core/http_server.hpp, core/epoller.cpp): the
      older server, an epoll loop that hands events to a pool, over an interface
      [HttpConn] for its connections.
    - Coroutine.v (core.hpp): the frames of the coroutines, who resumes and who
      destroys them.
    - Session.v, HttpCache.v (core/session.hpp, core/session_manager.hpp,
      http_cache.hpp, lib/uuid.hpp): sessions as shared objects, cached responses.
    - Uri.v, HttpParser.v, HttpClient.v, ClientFacts.v, Exchange.v, Download.v,
      ClientUpload.v (core/uri.hpp, core/http_parser.hpp, core/http_client.hpp): the
      client with promises, callbacks and functions for chunks, and exchanges,
      downloads and uploads between client and server.
    - ToStr.v (utils.hpp): values as text, identifiers.

    ** What the theorems show

    End to end: a request that is registered, a form, an upload, a file, a WebSocket session and a
    client's request are answered with what was asked for, whatever pieces the bytes
    come in, under the conditions the code needs, which the error theorems show to be
    needed: the head comes in one piece ([split_head_rejected]), the message fits the first buffer
    ([long_request_unanswered]), a multipart body comes in one burst
    ([multipart_split_stuck]), files up to 5 MB ([large_file_not_sent]), one request
    per client connection ([second_request_unread]).  An answer is out as a whole when the
    socket takes it in one go, or in pieces when later events say only EPOLLOUT; an event
    that says EPOLLIN and EPOLLOUT ends in undefined behaviour when the answer is taken
    in part or the coroutine ends ([partial_answer_undefined], [end_in_event_undefined]).  Parsers: memory safety,
    refinement of references, independence of cuts, round trips.  Concurrency:
    invariants by rule induction over all interleavings, for any number of threads.
    Findings of the manifest name the lemmas that exhibit them.

    ** Fuel and bounds

    Most loops are structural on the bytes left.  Where fuel is needed ([handle] on
    the number of socket answers, [port_begin], the routing recursion of depth 2, the
    multipart skip loop) the theorems give an amount that suffices and prove the
    result for it; running out of it is an outcome of its own or [None], which they
    exclude.  Sizes are bounded by hypotheses that the code's own limits imply (the
    3 MB request limit, 32 headers); where the code casts a length to int, the model
    does, too ([to_int32]: the results of the parsers, Writen's nLeft).

    ** Not modelled, and why

    - lib/easyloggingpp: a vendored logger; lib/logWrapper.hpp only starts it.
    - The unused task types of basic.hpp, core/timer.hpp (a signal timer nobody starts):
      language and operating system machinery.
    - The connection class of core/epoll_server.hpp, whose header is not in the
      repository, and its handlers, which are those of http_server.hpp again.
    - gzip.hpp: calls of zlib, and not compiled in.
    - function_traits.hpp, core/modern_callback.h, core/client_factory.hpp,
      net_error.hpp, lib/mail.hpp, use_asio.hpp: type-level glue, empty or constants.
    - get_query_value as a floating point number, the aspects' any-typed data,
      std::wstring conversions, log lines.
    - tests, demo, example, docs, async: programs that use the library.

    ** Assumptions

    No axioms.  Parameters stand for what is not in the sources: the operating
    system's answers (lists of results), the clock (readings), std::hash, std::regex
    (sets of strings), file contents, and the handlers of the application. *)

From Stdlib Require Import ZArith Lia.
From stdpp Require Import base numbers list gmap strings decidable.

(** ** Bytes and strings

    A [char], [unsigned char] or [uint8_t] is an integer in [0, 256); the code
    that depends on the sign of [char] goes through [schar]. *)

Notation bytes := (list Z).

Definition is_byte (b : Z) : Prop := (0 <= b < 256)%Z.

#[export] Instance is_byte_dec (b : Z) : Decision (is_byte b).
Proof. unfold is_byte; apply _. Defined.

(** the value of a byte read through a (signed) [char] *)
Definition schar (b : Z) : Z := if (b <? 128)%Z then b else (b - 256)%Z.

(** a C string literal as its bytes *)
Fixpoint bs (s : string) : bytes :=
  match s with
  | EmptyString => []
  | String c s => Z.of_N (Ascii.N_of_ascii c) :: bs s
  end.

Definition CR : Z := 13.
Definition LF : Z := 10.
Definition CRLF : bytes := [13; 10]%Z.

(** ** Machine integers *)

Definition wrap32 (z : Z) : Z := (z mod 2 ^ 32)%Z.
Definition wrap64 (z : Z) : Z := (z mod 2 ^ 64)%Z.
Definition wrap16 (z : Z) : Z := (z mod 2 ^ 16)%Z.
Definition wrap8 (z : Z) : Z := (z mod 2 ^ 8)%Z.

(** ** Characters (the C locale of <cctype>) *)

Definition isdigit (c : Z) : bool := ((48 <=? c) && (c <=? 57))%Z.
Definition isupper (c : Z) : bool := ((65 <=? c) && (c <=? 90))%Z.
Definition islower (c : Z) : bool := ((97 <=? c) && (c <=? 122))%Z.
Definition isalpha (c : Z) : bool := isupper c || islower c.
Definition isalnum (c : Z) : bool := isalpha c || isdigit c.
Definition tolower (c : Z) : Z := if isupper c then (c + 32)%Z else c.
Definition toupper (c : Z) : Z := if islower c then (c - 32)%Z else c.

(** ** Sub-ranges and searches of <string_view>

    Positions are natural numbers and [npos] is [None]. *)

Definition slice (l : bytes) (off len : nat) : bytes := take len (drop off l).

Definition beq (a b : bytes) : bool := bool_decide (a = b).

(** [s.find(c)] *)
Fixpoint find_char (c : Z) (s : bytes) : option nat :=
  match s with
  | [] => None
  | x :: s' => if (x =? c)%Z then Some 0 else S <$> find_char c s'
  end.

(** [s.rfind(c)] *)
Fixpoint rfind_char (c : Z) (s : bytes) : option nat :=
  match s with
  | [] => None
  | x :: s' =>
      match rfind_char c s' with
      | Some i => Some (S i)
      | None => if (x =? c)%Z then Some 0 else None
      end
  end.

Fixpoint is_prefix (p s : bytes) : bool :=
  match p, s with
  | [], _ => true
  | x :: p', y :: s' => (x =? y)%Z && is_prefix p' s'
  | _ :: _, [] => false
  end.

(** [s.find(p)] for a string [p] *)
Fixpoint find_str (p s : bytes) : option nat :=
  if is_prefix p s then Some 0
  else match s with
       | [] => None
       | _ :: s' => S <$> find_str p s'
       end.

(** [s.rfind(p)] for a string [p] *)
Fixpoint rfind_str (p s : bytes) : option nat :=
  match s with
  | [] => if is_prefix p [] then Some 0 else None
  | _ :: s' =>
      match rfind_str p s' with
      | Some i => Some (S i)
      | None => if is_prefix p s then Some 0 else None
      end
  end.

(** ** Automation *)

Create HintDb netcore.

(** split boolean conjunctions and disjunctions and turn comparisons into
    propositions that [lia] reads *)
Ltac zbool :=
  repeat match goal with
  | H : _ && _ = true |- _ => apply andb_true_iff in H as [? ?]
  | H : _ || _ = false |- _ => apply orb_false_iff in H as [? ?]
  | H : negb _ = true |- _ => apply negb_true_iff in H
  | H : negb _ = false |- _ => apply negb_false_iff in H
  | H : (_ =? _)%Z = true |- _ => apply Z.eqb_eq in H
  | H : (_ =? _)%Z = false |- _ => apply Z.eqb_neq in H
  | H : (_ <? _)%Z = true |- _ => apply Z.ltb_lt in H
  | H : (_ <? _)%Z = false |- _ => apply Z.ltb_ge in H
  | H : (_ <=? _)%Z = true |- _ => apply Z.leb_le in H
  | H : (_ <=? _)%Z = false |- _ => apply Z.leb_gt in H
  | H : (_ =? _)%nat = true |- _ => apply Nat.eqb_eq in H
  | H : (_ =? _)%nat = false |- _ => apply Nat.eqb_neq in H
  | H : (_ <? _)%nat = true |- _ => apply Nat.ltb_lt in H
  | H : (_ <? _)%nat = false |- _ => apply Nat.ltb_ge in H
  | H : (_ <=? _)%nat = true |- _ => apply Nat.leb_le in H
  | H : (_ <=? _)%nat = false |- _ => apply Nat.leb_gt in H
  end.

(** the same, with the case analysis that negated conjunctions and
    disjunctions need *)
Ltac zsplit :=
  zbool;
  repeat match goal with
  | H : _ && _ = false |- _ => apply andb_false_iff in H as [H|H]; zbool
  | H : _ || _ = true |- _ => apply orb_true_iff in H as [H|H]; zbool
  end.

(** case analysis on the first [if] or [match] of the goal, with its equation *)
Ltac casif :=
  match goal with
  | |- context [if ?b then _ else _] => destruct b eqn:?
  | |- context [match ?x with _ => _ end] => destruct x eqn:?
  end.

Ltac casif_in H :=
  match type of H with
  | context [if ?b then _ else _] => destruct b eqn:?
  | context [match ?x with _ => _ end] => destruct x eqn:?
  end.

(** ** Generic lemmas *)

Lemma is_byte_forall_app l1 l2 :
  Forall is_byte (l1 ++ l2) <-> Forall is_byte l1 /\ Forall is_byte l2.
Proof. apply Forall_app. Qed.

Lemma slice_app_exact (a b c : bytes) :
  slice (a ++ b ++ c) (length a) (length b) = b.
Proof.
  unfold slice. rewrite drop_app_length, take_app_length. done.
Qed.

Lemma slice_all (l : bytes) : slice l 0 (length l) = l.
Proof. unfold slice. rewrite drop_0. by rewrite take_ge. Qed.

Lemma find_char_None c s : find_char c s = None <-> c ∉ s.
Proof.
  induction s as [|x s IH]; simpl; [set_solver|].
  destruct (x =? c)%Z eqn:E; zbool; simpl.
  - split; [done|]. set_solver.
  - rewrite not_elem_of_cons. destruct (find_char c s); simpl; naive_solver.
Qed.

Lemma rfind_char_None c s : c ∉ s -> rfind_char c s = None.
Proof.
  induction s as [|x s IH]; [done|]. rewrite not_elem_of_cons. intros [H1 H2]. cbn.
  rewrite IH by done. destruct (x =? c)%Z eqn:E; zbool; congruence.
Qed.

Lemma find_char_Some c s i :
  find_char c s = Some i ->
  s !! i = Some c /\ c ∉ take i s.
Proof.
  revert i; induction s as [|x s IH]; simpl; intros i; [done|].
  destruct (x =? c)%Z eqn:E; zbool.
  - intros [= <-]. subst. split; [done|]. set_solver.
  - destruct (find_char c s) as [j|]; simpl; [|done]. intros [= <-].
    destruct (IH j eq_refl) as [H1 H2]. split; [done|].
    simpl. rewrite not_elem_of_cons. split; [congruence|done].
Qed.

Lemma find_char_app_l c s t : c ∉ s -> find_char c (s ++ c :: t) = Some (length s).
Proof.
  induction s as [|x s IH]; simpl; intros H.
  - by rewrite Z.eqb_refl.
  - apply not_elem_of_cons in H as [H1 H2].
    destruct (x =? c)%Z eqn:E; zbool; [congruence|]. by rewrite IH.
Qed.

Lemma is_prefix_spec p s : is_prefix p s = true <-> exists t, s = p ++ t.
Proof.
  revert s; induction p as [|x p IH]; intros s; simpl.
  - split; [by exists s|done].
  - destruct s as [|y s]; [split; [done|intros [t ?]; done]|].
    rewrite andb_true_iff, IH, Z.eqb_eq. split.
    + intros [-> [t ->]]. by exists t.
    + intros [t [= -> ->]]. eauto.
Qed.

(** writing behind a known prefix *)
Lemma take_insert_snoc (l m : bytes) k c :
  k < length l -> take k l = m -> take (k + 1) (<[k := c]> l) = m ++ [c].
Proof.
  intros Hk <-. rewrite Nat.add_1_r. erewrite take_S_r by (by apply list_lookup_insert_eq).
  by rewrite take_insert_ge.
Qed.

Lemma beq_true a b : beq a b = true <-> a = b.
Proof. unfold beq. apply bool_decide_eq_true. Qed.

Lemma bs_bytes s : Forall is_byte (bs s).
Proof.
  induction s as [|c s IH]; simpl; constructor; [|done].
  unfold is_byte. pose proof (Ascii.N_ascii_bounded c). lia.
Qed.
#[export] Hint Resolve bs_bytes : netcore.

Lemma wrap64_small z : (0 <= z < 2 ^ 64)%Z -> wrap64 z = z.
Proof. apply Z.mod_small. Qed.

Lemma wrap32_small z : (0 <= z < 2 ^ 32)%Z -> wrap32 z = z.
Proof. apply Z.mod_small. Qed.

Lemma wrap64_range z : (0 <= wrap64 z < 2 ^ 64)%Z.
Proof. apply Z.mod_pos_bound. lia. Qed.

(** ** Checks over all byte values *)

Definition all_bytes : bytes := Z.of_nat <$> seq 0 256.

Lemma all_bytes_check (f : Z -> bool) :
  forallb f all_bytes = true -> forall c, is_byte c -> f c = true.
Proof.
  intros H c Hc. rewrite forallb_forall in H. apply H.
  apply list_elem_of_In. unfold all_bytes. apply list_elem_of_fmap.
  exists (Z.to_nat c). unfold is_byte in Hc. split; [lia|].
  apply elem_of_seq. lia.
Qed.

Lemma all_bytes_check2 (f : Z -> Z -> bool) :
  forallb (fun c => forallb (f c) all_bytes) all_bytes = true ->
  forall c d, is_byte c -> is_byte d -> f c d = true.
Proof.
  intros H c d Hc Hd. revert d Hd. apply all_bytes_check.
  exact (all_bytes_check (fun c => forallb (f c) all_bytes) H c Hc).
Qed.

Lemma schar_digit c :
  is_byte c ->
  ((schar c <? 48)%Z || (57 <? schar c)%Z) = negb (isdigit c).
Proof.
  intros Hc. apply eqb_prop. revert c Hc. apply all_bytes_check. vm_compute. done.
Qed.
