(* ===== verification/Transition.v ===== *)
(** * Transition systems

    Concurrent components are step functions on a state: an action names who moves
    and how the environment answers, and a step that is not possible is [None].
    Here is what they share: the states that can be reached by actions of a given
    kind, executions of a list of actions, and proofs of invariants. *)

From stdpp Require Import base list.

Section transition.
Context {A S : Type} (step : A -> S -> option S).

(** by actions that satisfy [ok] *)
Inductive reachable (ok : A -> Prop) (s0 : S) : S -> Prop :=
| reach_here : reachable ok s0 s0
| reach_step s a s' : reachable ok s0 s -> ok a -> step a s = Some s' -> reachable ok s0 s'.

Fixpoint run (acts : list A) (s : S) : option S :=
  match acts with
  | [] => Some s
  | a :: acts => s ← step a s; run acts s
  end.

Lemma run_reachable_from ok s0 acts s s' :
  reachable ok s0 s -> Forall ok acts -> run acts s = Some s' -> reachable ok s0 s'.
Proof.
  revert s; induction acts as [|a acts IH]; intros s R F H; simpl in H; [congruence|].
  apply Forall_cons in F as [Fa F]. destruct (step a s) as [s1|] eqn:E; [|done].
  eapply IH; [|exact F|exact H]. by eapply reach_step.
Qed.

Lemma run_reachable ok acts s s' : Forall ok acts -> run acts s = Some s' -> reachable ok s s'.
Proof. intros F H. eapply run_reachable_from; [apply reach_here|exact F|exact H]. Qed.

(** rule induction for an invariant *)
Lemma reachable_inv (ok : A -> Prop) (P : S -> Prop) s0 s :
  P s0 -> (forall a s s', ok a -> step a s = Some s' -> P s -> P s') -> reachable ok s0 s -> P s.
Proof. intros H0 Hs. induction 1; eauto. Qed.
End transition.

(** every action *)
Definition any {A : Type} (_ : A) : Prop := True.
Lemma any_all {A} (l : list A) : Forall any l.
Proof. by apply Forall_true. Qed.
