(* ===== verification/CStd.v ===== *)
(** * The parts of the C and C++ standard library the sources use

    Positional notation (std::to_string, std::hex streams, itoa), the numeric
    parsers strtoll/atoll and std::search/std::lexicographical_compare. *)

From Stdlib Require Import ZArith Lia.
From stdpp Require Import base numbers list strings.
From S2P Require Import Prelude.

Local Open Scope Z_scope.

(** ** Positional notation *)

Fixpoint digits_aux (fuel : nat) (b n : Z) (acc : list Z) : list Z :=
  match fuel with
  | O => acc
  | S fuel =>
      let acc := n mod b :: acc in
      if n <? b then acc else digits_aux fuel b (n / b) acc
  end.

(** the digits of [n] in base [b], most significant first *)
Definition digits (b n : Z) : list Z := digits_aux (S (Z.to_nat (Z.log2 n))) b n [].

Definition undigits (b : Z) (ds : list Z) : Z := fold_left (fun a d => a * b + d) ds 0.

Definition hex_lower (d : Z) : Z := if d <? 10 then 48 + d else 87 + d.
Definition hex_upper (d : Z) : Z := if d <? 10 then 48 + d else 55 + d.

(** std::to_string of a non-negative and of a signed integer *)
Definition dec_string (n : Z) : bytes := (fun d => 48 + d) <$> digits 10 n.
Definition to_string (n : Z) : bytes :=
  if n <? 0 then 45 :: dec_string (- n) else dec_string n.

(** stream << std::hex << value *)
Definition hex_string (n : Z) : bytes := hex_lower <$> digits 16 n.

(** ** strtoll and friends *)

Definition isspace (c : Z) : bool := (c =? 32) || ((9 <=? c) && (c <=? 13)).

Definition digit_value (c : Z) : option Z :=
  if isdigit c then Some (c - 48)
  else if islower c then Some (c - 87)
  else if isupper c then Some (c - 55)
  else None.

(** the digits of base [b] at the head of [s], as the accumulated value *)
Fixpoint read_digits (b acc : Z) (s : bytes) : Z :=
  match s with
  | [] => acc
  | c :: s =>
      match digit_value c with
      | Some d => if d <? b then read_digits b (acc * b + d) s else acc
      | None => acc
      end
  end.

Fixpoint skip_space (s : bytes) : bytes :=
  match s with
  | c :: s' => if isspace c then skip_space s' else s
  | [] => []
  end.

(** a 0x prefix counts only in front of a hexadecimal digit *)
Definition skip_0x (b : Z) (s : bytes) : bytes :=
  match s with
  | 48 :: x :: d :: r =>
      if (b =? 16) && ((x =? 120) || (x =? 88)) &&
         match digit_value d with Some v => v <? 16 | None => false end
      then d :: r else s
  | _ => s
  end.

Definition clamp64 (z : Z) : Z := Z.max (- 2 ^ 63) (Z.min (2 ^ 63 - 1) z).

Definition strtoll (b : Z) (s : bytes) : Z :=
  match skip_space s with
  | 45 :: r => clamp64 (- read_digits b 0 (skip_0x b r))
  | 43 :: r => clamp64 (read_digits b 0 (skip_0x b r))
  | r => clamp64 (read_digits b 0 (skip_0x b r))
  end.

Definition atoll (s : bytes) : Z := strtoll 10 s.

(** the value of a 64-bit integer truncated to int, as atoi does *)
Definition to_int32 (z : Z) : Z := (z + 2 ^ 31) mod 2 ^ 32 - 2 ^ 31.
Definition atoi (s : bytes) : Z := to_int32 (strtoll 10 s).

(** ** Lemmas on positional notation *)

Lemma to_int32_small z : - 2 ^ 31 <= z < 2 ^ 31 -> to_int32 z = z.
Proof. intros H. unfold to_int32. rewrite Z.mod_small; lia. Qed.

Lemma digits_aux_app fuel b n acc :
  digits_aux fuel b n acc = digits_aux fuel b n [] ++ acc.
Proof.
  revert n acc; induction fuel as [|fuel IH]; intros n acc; cbn [digits_aux]; [done|].
  destruct (n <? b); [done|]. rewrite IH, (IH _ [n mod b]), <-app_assoc. done.
Qed.

Lemma undigits_snoc b ds d : undigits b (ds ++ [d]) = undigits b ds * b + d.
Proof. unfold undigits. by rewrite fold_left_app. Qed.

Lemma digits_aux_ok fuel b n :
  2 <= b -> 0 <= n < 2 ^ Z.of_nat fuel ->
  undigits b (digits_aux fuel b n []) = n /\
  Forall (fun d => 0 <= d < b) (digits_aux fuel b n []).
Proof.
  intros Hb. revert n; induction fuel as [|fuel IH]; intros n Hn.
  - simpl in Hn. assert (n = 0) as -> by lia. split; [done|constructor].
  - cbn [digits_aux]. destruct (n <? b) eqn:E; zbool.
    + unfold undigits. simpl. rewrite Z.mod_small by lia.
      split; [lia|]. constructor; [lia|constructor].
    + rewrite digits_aux_app, undigits_snoc.
      destruct (IH (n / b)) as [IH1 IH2].
      { rewrite Nat2Z.inj_succ, Z.pow_succ_r in Hn by lia.
        split; [apply Z.div_pos; lia|]. apply Z.div_lt_upper_bound; nia. }
      rewrite IH1. split; [pose proof (Z_div_mod_eq_full n b); lia|].
      apply Forall_app. split; [done|]. constructor; [|constructor].
      apply Z.mod_pos_bound. lia.
Qed.

Lemma digits_fuel n : 0 <= n -> 0 <= n < 2 ^ Z.of_nat (S (Z.to_nat (Z.log2 n))).
Proof.
  intros Hn. split; [done|]. destruct (decide (n = 0)) as [->|]; [done|].
  rewrite Nat2Z.inj_succ, Z2Nat.id by apply Z.log2_nonneg.
  apply Z.log2_spec. lia.
Qed.

Lemma undigits_digits b n : 2 <= b -> 0 <= n -> undigits b (digits b n) = n.
Proof. intros Hb Hn. apply digits_aux_ok; [done|]. by apply digits_fuel. Qed.

Lemma digits_range b n : 2 <= b -> 0 <= n -> Forall (fun d => 0 <= d < b) (digits b n).
Proof. intros Hb Hn. apply digits_aux_ok; [done|]. by apply digits_fuel. Qed.

Lemma digits_nonempty b n : digits b n <> [].
Proof.
  unfold digits. cbn [digits_aux]. destruct (n <? b); [done|].
  rewrite digits_aux_app. by destruct (digits_aux _ b (n / b) []).
Qed.

Lemma digits_aux_length fuel b n k :
  2 <= b -> 0 <= n < b ^ Z.of_nat (S k) ->
  (length (digits_aux fuel b n []) <= S k)%nat.
Proof.
  intros Hb. revert n k; induction fuel as [|fuel IH]; intros n k Hn; cbn [digits_aux]; [simpl; lia|].
  destruct (n <? b) eqn:E; zbool; [simpl; lia|].
  rewrite digits_aux_app, length_app. simpl. destruct k as [|k].
  - rewrite Z.pow_1_r in Hn. lia.
  - specialize (IH (n / b) k). rewrite Nat2Z.inj_succ, Z.pow_succ_r in Hn by lia.
    assert (0 <= n / b < b ^ Z.of_nat (S k)).
    { split; [apply Z.div_pos; lia|]. apply Z.div_lt_upper_bound; lia. }
    specialize (IH H). lia.
Qed.

Lemma digits_length b n k :
  2 <= b -> 0 <= n < b ^ Z.of_nat (S k) -> (length (digits b n) <= S k)%nat.
Proof. apply digits_aux_length. Qed.

(** a positive number has no leading zero *)
Lemma digits_aux_head fuel b n :
  2 <= b -> 0 < n < 2 ^ Z.of_nat fuel -> exists d ds,
  digits_aux fuel b n [] = d :: ds /\ d <> 0.
Proof.
  intros Hb. revert n; induction fuel as [|fuel IH]; intros n Hn; [simpl in Hn; lia|].
  cbn [digits_aux]. destruct (n <? b) eqn:E; zbool.
  - exists (n mod b), []. split; [done|]. rewrite Z.mod_small; lia.
  - rewrite digits_aux_app. destruct (IH (n / b)) as (d & ds & -> & Hd).
    + rewrite Nat2Z.inj_succ, Z.pow_succ_r in Hn by lia.
      split; [apply Z.div_str_pos; lia|]. apply Z.div_lt_upper_bound; nia.
    + exists d, (ds ++ [n mod b]). done.
Qed.

Lemma digits_aux_S f b n :
  digits_aux (S f) b n [] = if n <? b then [n mod b] else digits_aux f b (n / b) [] ++ [n mod b].
Proof. cbn [digits_aux]. destruct (n <? b); [done|]. by rewrite digits_aux_app. Qed.

Lemma digits_aux_fuel f g b n :
  2 <= b -> 0 <= n < 2 ^ Z.of_nat (S f) -> n < 2 ^ Z.of_nat (S g) ->
  digits_aux (S f) b n [] = digits_aux (S g) b n [].
Proof.
  intros Hb. revert g n; induction f as [|f IH]; intros g n Hf Hg;
    rewrite digits_aux_S, (digits_aux_S g).
  - cbn in Hf. by rewrite (proj2 (Z.ltb_lt n b)) by lia.
  - destruct (n <? b) eqn:E; [done|]. zbool. destruct g as [|g]; [cbn in Hg; lia|].
    f_equal. rewrite Nat2Z.inj_succ, Z.pow_succ_r in Hf, Hg by lia.
    apply IH; [split; [apply Z.div_pos; lia|]|]; apply Z.div_lt_upper_bound; nia.
Qed.

Lemma digits_small b n : 0 <= n < b -> digits b n = [n].
Proof.
  intros H. unfold digits. cbn [digits_aux]. rewrite (proj2 (Z.ltb_lt n b)) by lia.
  by rewrite Z.mod_small.
Qed.

Lemma digits_snoc b q d : 2 <= b -> 0 < q -> 0 <= d < b -> digits b (q * b + d) = digits b q ++ [d].
Proof.
  intros Hb Hq Hd. unfold digits. rewrite digits_aux_S, (proj2 (Z.ltb_ge (q * b + d) b)) by nia.
  rewrite Z.div_add_l, (Z.div_small d), Z.add_0_r by lia.
  rewrite Z.add_comm, Z_mod_plus_full, (Z.mod_small d) by lia. f_equal.
  assert (Z.log2 q < Z.log2 (d + q * b)) as Hlog.
  { rewrite <-Z.le_succ_l, <-Z.log2_double by lia. apply Z.log2_le_mono. nia. }
  pose proof (Z.log2_nonneg q). pose proof (digits_fuel q ltac:(lia)) as Hf.
  replace (Z.to_nat (Z.log2 (d + q * b))) with (S (Z.to_nat (Z.log2 (d + q * b) - 1))) by lia.
  apply digits_aux_fuel; [done| |lia]. split; [lia|]. apply Z.lt_le_trans with (2 ^ Z.of_nat (S (Z.to_nat (Z.log2 q)))); [lia|].
  apply Z.pow_le_mono_r; lia.
Qed.

Lemma read_digits_value b f acc ds rest :
  Forall (fun d => 0 <= d < b) ds ->
  (forall d, 0 <= d < b -> digit_value (f d) = Some d) ->
  (match rest with [] => True | c :: _ =>
     match digit_value c with Some d => b <= d | None => True end end) ->
  read_digits b acc ((f <$> ds) ++ rest) = fold_left (fun a d => a * b + d) ds acc.
Proof.
  intros Hds Hf Hrest. revert acc; induction Hds as [|d ds Hd Hds IH]; intros acc.
  - simpl. destruct rest as [|c rest]; [done|]. cbn [read_digits].
    destruct (digit_value c); [|done]. by replace (_ <? b) with false
      by (symmetry; apply Z.ltb_ge; lia).
  - cbn [fmap list_fmap app read_digits]. rewrite Hf by done.
    replace (d <? b) with true by (symmetry; apply Z.ltb_lt; lia). apply IH.
Qed.

Lemma digit_value_dec d : 0 <= d < 10 -> digit_value (48 + d) = Some d.
Proof.
  intros H. unfold digit_value, isdigit.
  replace ((48 <=? 48 + d) && (48 + d <=? 57)) with true; [f_equal; lia|].
  symmetry. apply andb_true_iff. rewrite !Z.leb_le. lia.
Qed.

(** parse inverts print on decimal numbers *)
Lemma atoll_dec_string n rest :
  0 <= n < 2 ^ 63 ->
  (match rest with [] => True | c :: _ => isdigit c = false /\ islower c = false /\ isupper c = false end) ->
  atoll (dec_string n ++ rest) = n.
Proof.
  intros Hn Hrest. unfold atoll, strtoll.
  assert (exists d ds, digits 10 n = d :: ds /\ 0 <= d < 10) as (d & ds & Ed & Hd).
  { pose proof (digits_range 10 n ltac:(lia) ltac:(lia)) as Hr.
    destruct (digits 10 n) as [|d ds] eqn:E; [by apply digits_nonempty in E|].
    exists d, ds. split; [done|]. by inversion Hr. }
  assert (skip_space (dec_string n ++ rest) = dec_string n ++ rest) as ->.
  { unfold dec_string. rewrite Ed. cbn [fmap list_fmap app skip_space]. unfold isspace.
    destruct ((48 + d =? 32) || _) eqn:E; [|done].
    apply orb_true_iff in E as [E|E]; zbool; lia. }
  assert (forall s, match 48 + d :: s with
    | 45 :: r => clamp64 (- read_digits 10 0 (skip_0x 10 r))
    | 43 :: r => clamp64 (read_digits 10 0 (skip_0x 10 r))
    | r => clamp64 (read_digits 10 0 (skip_0x 10 r)) end =
    clamp64 (read_digits 10 0 (48 + d :: s))) as Hm.
  { intros s. assert (d = 0 \/ d = 1 \/ d = 2 \/ d = 3 \/ d = 4 \/ d = 5 \/ d = 6
      \/ d = 7 \/ d = 8 \/ d = 9) as Hcases by lia.
    destruct Hcases as [->|[->|[->|[->|[->|[->|[->|[->|[->| ->]]]]]]]]]; try done.
    cbn -[clamp64 read_digits]. destruct s as [|x [|y s]]; done. }
  assert (dec_string n ++ rest = 48 + d :: ((fun d => 48 + d) <$> ds) ++ rest) as E.
  { unfold dec_string. by rewrite Ed. }
  rewrite E, Hm, <-E. unfold dec_string.
  rewrite (read_digits_value 10 (fun d => 48 + d)).
  - change (fold_left _ (digits 10 n) 0) with (undigits 10 (digits 10 n)).
    rewrite undigits_digits by lia. unfold clamp64. lia.
  - apply digits_range; lia.
  - apply digit_value_dec.
  - destruct rest as [|c rest]; [done|]. destruct Hrest as (H1 & H2 & H3).
    unfold digit_value. by rewrite H1, H2, H3.
Qed.
