(* ===== verification/PicoHttp.v ===== *)
(** * picohttpparser: request, response and header parsing

    Models the parsing half of src/include/netcore/picohttpparser.h.  A
    pointer into the buffer is a position together with the bytes from that
    position up to [buf_end]: [buf == buf_end] is the empty list, [*buf] is the
    head, and reading the head of the empty list is an out-of-bounds read,
    [POob].  A function that returns NULL after storing [*ret] is [PRet].

    The flag [sse] selects between the two builds of the source: the one with
    __SSE4_2__ (16-byte [_mm_cmpestri] scans) and the portable one (an 8-fold
    unrolled scan). *)

From Stdlib Require Import ZArith Lia.
From stdpp Require Import base numbers list strings.
From S2P Require Import Prelude CStd.

Inductive pres (A : Type) : Type :=
| POk (a : A) (p : nat) (s : bytes)
| PRet (ret : Z)
| POob.
Arguments POk {A} _ _ _.
Arguments PRet {A} _.
Arguments POob {A}.

Definition pbind {A B} (m : pres A) (k : A -> nat -> bytes -> pres B) : pres B :=
  match m with
  | POk a p s => k a p s
  | PRet r => PRet r
  | POob => POob
  end.

Declare Scope pres_scope.
Notation "'let?' ' ( a , p , s ) ':=' m 'in' k" :=
  (pbind m (fun a p s => k))
  (at level 10, a name, p name, s name, m at level 100, k at level 200) : pres_scope.
Open Scope pres_scope.

(** [struct phr_header]; a NULL name (continuation line) is [None] *)
Record phr_header := mk_header {
  name : option nat;
  name_len : nat;
  value : nat;
  value_len : nat
}.

(** ** Macros and character classes *)

Definition IS_PRINTABLE_ASCII (c : Z) : bool := (wrap32 (c - 32) <? 95)%Z.

Definition CHECK_EOF (p : nat) (s : bytes) : pres unit :=
  match s with
  | [] => PRet (-2)
  | _ => POk tt p s
  end.

Definition EXPECT_CHAR_NO_CHECK (ch : Z) (p : nat) (s : bytes) : pres unit :=
  match s with
  | [] => POob
  | c :: s' => if (c =? ch)%Z then POk tt (S p) s' else PRet (-1)
  end.

Definition EXPECT_CHAR (ch : Z) (p : nat) (s : bytes) : pres unit :=
  let? '(_, p, s) := CHECK_EOF p s in EXPECT_CHAR_NO_CHECK ch p s.

(** the 256 flags of [token_char_map], eight rows of 32 *)
Definition token_char_map : bytes :=
  bs "00000000000000000000000000000000" ++
  bs "01011111001101101111111111000000" ++
  bs "01111111111111111111111111100011" ++
  bs "11111111111111111111111111101010" ++
  bs "00000000000000000000000000000000" ++
  bs "00000000000000000000000000000000" ++
  bs "00000000000000000000000000000000" ++
  bs "00000000000000000000000000000000".

Definition token_char (c : Z) : bool :=
  match token_char_map !! Z.to_nat c with
  | Some f => (f =? 49)%Z
  | None => false
  end.

(** ** findchar_fast *)

(** [_mm_cmpestri] in range mode: is the byte inside one of the pairs? *)
Fixpoint in_ranges (ranges : bytes) (c : Z) : bool :=
  match ranges with
  | lo :: hi :: rs => ((lo <=? c) && (c <=? hi))%Z || in_ranges rs c
  | _ => false
  end.

(** index of the first byte inside the ranges, or the length (16) if none *)
Fixpoint cmpestri (ranges : bytes) (block : bytes) : nat :=
  match block with
  | [] => 0
  | c :: b => if in_ranges ranges c then 0 else S (cmpestri ranges b)
  end.

(** the do-while over 16-byte blocks; [n] is [left / 16] *)
Fixpoint findchar_blocks (ranges : bytes) (n p : nat) (s : bytes) : nat * bytes * bool :=
  match n with
  | O => (p, s, false)
  | S n =>
      let r := cmpestri ranges (take 16 s) in
      if (r =? 16)%nat then findchar_blocks ranges n (p + 16) (drop 16 s)
      else (p + r, drop r s, true)
  end.

Definition findchar_fast (sse : bool) (ranges : bytes) (p : nat) (s : bytes)
  : nat * bytes * bool :=
  if sse then
    if (16 <=? length s)%nat then findchar_blocks ranges (length s / 16) p s
    else (p, s, false)
  else (p, s, false).

(** ** ADVANCE_TOKEN *)

Definition token_ranges2 : bytes := [0; 32; 127; 127]%Z.

Fixpoint advance_loop (p : nat) (s : bytes) : pres unit :=
  match s with
  | [] => POob
  | c :: s' =>
      if (c =? 32)%Z then POk tt p s
      else if negb (IS_PRINTABLE_ASCII c) && ((c <? 32) || (c =? 127))%Z then PRet (-1)
      else match s' with
           | [] => PRet (-2)
           | _ => advance_loop (S p) s'
           end
  end.

(** the token is the pair of its start and its length *)
Definition ADVANCE_TOKEN (sse : bool) (p : nat) (s : bytes) : pres (nat * nat) :=
  let '(p1, s1, found2) := findchar_fast sse token_ranges2 p s in
  let? '(_, p1, s1) := (if found2 : bool then POk tt p1 s1 else CHECK_EOF p1 s1) in
  let? '(_, p2, s2) := advance_loop p1 s1 in
  POk (p, p2 - p) p2 s2.

(** ** get_token_to_eol *)

Definition eol_ranges1 : bytes := [0; 8; 10; 31; 127; 127]%Z.

Definition is_ctl (c : Z) : bool :=
  (((c <? 32) && negb (c =? 9)) || (c =? 127))%Z.

(** the final byte-by-byte loop, up to the label FOUND_CTL *)
Fixpoint eol_tail (p : nat) (s : bytes) : pres unit :=
  match s with
  | [] => PRet (-2)
  | c :: s' =>
      if negb (IS_PRINTABLE_ASCII c) && is_ctl c then POk tt p s
      else eol_tail (S p) s'
  end.

(** the portable scan: while 8 bytes are left, eight DOIT; [k] counts the DOIT
    left in the current round *)
Fixpoint eol_unrolled (k p : nat) (s : bytes) : pres unit :=
  match s with
  | [] => if (k =? 0)%nat then eol_tail p [] else POob
  | c :: s' =>
      if (k =? 0)%nat && (length s <? 8)%nat then eol_tail p s
      else
        let k' := if (k =? 0)%nat then 7 else (k - 1)%nat in
        if IS_PRINTABLE_ASCII c then eol_unrolled k' (S p) s'
        else if is_ctl c then POk tt p s
        else eol_unrolled 0 (S p) s'
  end.

Definition eol_scan (sse : bool) (p : nat) (s : bytes) : pres unit :=
  if sse then
    let '(p1, s1, found) := findchar_fast sse eol_ranges1 p s in
    if found : bool then POk tt p1 s1 else eol_tail p1 s1
  else eol_unrolled 0 p s.

Definition get_token_to_eol (sse : bool) (token_start : nat) (s : bytes)
  : pres (nat * nat) :=
  let? '(_, p, s) := eol_scan sse token_start s in
  match s with
  | [] => POob
  | c :: s1 =>
      if (c =? 13)%Z then
        let? '(_, p2, s2) := EXPECT_CHAR 10 (S p) s1 in
        POk (token_start, p2 - 2 - token_start) p2 s2
      else if (c =? 10)%Z then POk (token_start, p - token_start) (S p) s1
      else PRet (-1)
  end.

(** ** is_complete *)

Fixpoint complete_loop (ret_cnt : nat) (p : nat) (s : bytes) : pres unit :=
  match s with
  | [] => PRet (-2)
  | c :: s1 =>
      if (c =? 13)%Z then
        match s1 with
        | [] => PRet (-2)
        | d :: s2 =>
            if (d =? 10)%Z then
              if (S ret_cnt =? 2)%nat then POk tt (S (S p)) s2
              else complete_loop (S ret_cnt) (S (S p)) s2
            else PRet (-1)
        end
      else if (c =? 10)%Z then
        if (S ret_cnt =? 2)%nat then POk tt (S p) s1
        else complete_loop (S ret_cnt) (S p) s1
      else complete_loop 0 (S p) s1
  end.

(** pointer arithmetic: [buf + n], out of bounds when it passes [buf_end] *)
Definition advance_ptr (n p : nat) (s : bytes) : pres unit :=
  if (n <=? length s)%nat then POk tt (p + n) (drop n s) else POob.

Definition is_complete (last_len p : nat) (s : bytes) : pres unit :=
  let? '(_, p, s) :=
    (if (last_len <? 3)%nat then POk tt p s else advance_ptr (last_len - 3) p s) in
  complete_loop 0 p s.

(** ** parse_http_version *)

Definition PARSE_INT (mul : Z) (p : nat) (s : bytes) : pres Z :=
  match s with
  | [] => POob
  | c :: s' =>
      if (schar c <? 48)%Z || (57 <? schar c)%Z then PRet (-1)
      else POk (mul * (c - 48))%Z (S p) s'
  end.

Fixpoint expect_all (l : bytes) (p : nat) (s : bytes) : pres unit :=
  match l with
  | [] => POk tt p s
  | ch :: l => let? '(_, p, s) := EXPECT_CHAR_NO_CHECK ch p s in expect_all l p s
  end.

Definition parse_http_version (p : nat) (s : bytes) : pres Z :=
  if (length s <? 9)%nat then PRet (-2)
  else let? '(_, p, s) := expect_all (bs "HTTP/1.") p s in PARSE_INT 1 p s.

(** ** parse_headers *)

(** ranges1 of parse_headers: controls and SP, the quote, parentheses, comma,
    slash, 0x3a-0x40, 0x5b-0x5d, 0x7b-0xff *)
Definition name_ranges1 : bytes :=
  [0; 32; 34; 34; 40; 41; 44; 44; 47; 47; 58; 64; 91; 93; 123; 255]%Z.

Fixpoint name_loop (p : nat) (s : bytes) : pres unit :=
  match s with
  | [] => POob
  | c :: s' =>
      if (c =? 58)%Z then POk tt p s
      else if negb (token_char c) then PRet (-1)
      else match s' with
           | [] => PRet (-2)
           | _ => name_loop (S p) s'
           end
  end.

(** for (;; ++buf) { CHECK_EOF(); if not SP or HT break; } *)
Fixpoint skip_blank (p : nat) (s : bytes) : pres unit :=
  match s with
  | [] => PRet (-2)
  | c :: s' =>
      if negb ((c =? 32) || (c =? 9))%Z then POk tt p s else skip_blank (S p) s'
  end.

Definition parse_name (sse : bool) (p : nat) (s : bytes) : pres (option nat * nat) :=
  let '(p1, s1, found) := findchar_fast sse name_ranges1 p s in
  let? '(_, p1, s1) := (if found : bool then POk tt p1 s1 else CHECK_EOF p1 s1) in
  let? '(_, p2, s2) := name_loop p1 s1 in
  if (p2 - p =? 0)%nat then PRet (-1)
  else
    match s2 with
    | [] => POob
    | _ :: s3 =>
        let? '(_, p4, s4) := skip_blank (S p2) s3 in
        POk (Some p, p2 - p) p4 s4
    end.

(** one header line, continuation lines included *)
Definition parse_header_line (sse : bool) (num_headers : nat) (c : Z) (p : nat) (s : bytes)
  : pres phr_header :=
  let? '(nm, p, s) :=
    (if negb (negb (num_headers =? 0)%nat && ((c =? 32) || (c =? 9))%Z)
     then parse_name sse p s
     else POk (None, 0) p s) in
  let? '(v, p, s) := get_token_to_eol sse p s in
  POk (mk_header nm.1 nm.2 v.1 v.2) p s.

(** [room] is [max_headers - *num_headers]; the headers parsed so far are
    returned on the error paths too, as [*num_headers] is an out parameter *)
Fixpoint parse_headers (sse : bool) (room : nat) (hs : list phr_header) (p : nat) (s : bytes)
  : list phr_header * pres unit :=
  match s with
  | [] => (hs, PRet (-2))
  | c :: s1 =>
      if (c =? 13)%Z then (hs, EXPECT_CHAR 10 (S p) s1)
      else if (c =? 10)%Z then (hs, POk tt (S p) s1)
      else
        match room with
        | O => (hs, PRet (-1))
        | S room =>
            match parse_header_line sse (length hs) c p s with
            | POk h p2 s2 => parse_headers sse room (hs ++ [h]) p2 s2
            | PRet r => (hs, PRet r)
            | POob => (hs, POob)
            end
        end
  end.

(** ** parse_request and phr_parse_request *)

(** the out parameters of phr_parse_request *)
Record req_out := mk_req_out {
  method : option (nat * nat);
  path : option (nat * nat);
  minor_version : Z;
  headers : list phr_header
}.

Definition req_out0 : req_out := mk_req_out None None (-1) [].

(** the line end after the version: CRLF or LF *)
Definition request_line_end (p : nat) (s : bytes) : pres unit :=
  match s with
  | [] => POob
  | c :: s1 =>
      if (c =? 13)%Z then EXPECT_CHAR 10 (S p) s1
      else if (c =? 10)%Z then POk tt (S p) s1
      else PRet (-1)
  end.

(** skip first empty line (some clients add CRLF after POST content) *)
Definition skip_empty_line (p : nat) (s : bytes) : pres unit :=
  match s with
  | [] => PRet (-2)
  | c :: s1 =>
      if (c =? 13)%Z then EXPECT_CHAR 10 (S p) s1
      else if (c =? 10)%Z then POk tt (S p) s1
      else POk tt p s
  end.

(** ADVANCE_TOKEN followed by [++buf] *)
Definition token_then_step (sse : bool) (p : nat) (s : bytes) : pres (nat * nat) :=
  let? '(t, p, s) := ADVANCE_TOKEN sse p s in
  match s with
  | [] => POob
  | _ :: s' => POk t (S p) s'
  end.

Definition parse_request (sse : bool) (max_headers : nat) (p : nat) (s : bytes)
  : req_out * pres unit :=
  match skip_empty_line p s with
  | PRet r => (req_out0, PRet r)
  | POob => (req_out0, POob)
  | POk _ p s =>
      match token_then_step sse p s with
      | PRet r => (req_out0, PRet r)
      | POob => (req_out0, POob)
      | POk m p s =>
          match token_then_step sse p s with
          | PRet r => (mk_req_out (Some m) None (-1) [], PRet r)
          | POob => (mk_req_out (Some m) None (-1) [], POob)
          | POk u p s =>
              match parse_http_version p s with
              | PRet r => (mk_req_out (Some m) (Some u) (-1) [], PRet r)
              | POob => (mk_req_out (Some m) (Some u) (-1) [], POob)
              | POk v p s =>
                  match request_line_end p s with
                  | PRet r => (mk_req_out (Some m) (Some u) v [], PRet r)
                  | POob => (mk_req_out (Some m) (Some u) v [], POob)
                  | POk _ p s =>
                      let '(hs, r) := parse_headers sse max_headers [] p s in
                      (mk_req_out (Some m) (Some u) v hs, r)
                  end
              end
          end
      end
  end.

(** the result of the public functions, a difference of pointers that is cast to int;
    [None] is an out-of-bounds read *)
Definition phr_ret (base : nat) (r : pres unit) : option Z :=
  match r with
  | POk _ p _ => Some (to_int32 (Z.of_nat p - Z.of_nat base))
  | PRet r => Some r
  | POob => None
  end.

Definition phr_parse_request (sse : bool) (buf : bytes) (max_headers last_len : nat)
  : req_out * option Z :=
  match (if (last_len =? 0)%nat then POk tt 0 buf else is_complete last_len 0 buf) with
  | POk _ _ _ =>
      match advance_ptr last_len 0 buf with
      | POk _ p s =>
          let '(o, r) := parse_request sse max_headers p s in (o, phr_ret last_len r)
      | r => (req_out0, phr_ret last_len r)
      end
  | r => (req_out0, phr_ret last_len r)
  end.

(** ** parse_response, phr_parse_response and phr_parse_headers *)

Record resp_out := mk_resp_out {
  r_minor_version : Z;
  status : Z;
  msg : option (nat * nat);
  r_headers : list phr_header
}.

Definition resp_out0 : resp_out := mk_resp_out (-1) 0 None [].

(** PARSE_INT_3: [*valp_] is updated digit by digit *)
Definition PARSE_INT_3 (st : Z) (p : nat) (s : bytes) : Z * pres unit :=
  match PARSE_INT 100 p s with
  | POk d1 p s =>
      match PARSE_INT 10 p s with
      | POk d2 p s =>
          match PARSE_INT 1 p s with
          | POk d3 p s => ((d1 + d2 + d3)%Z, POk tt p s)
          | PRet r => ((d1 + d2)%Z, PRet r)
          | POob => ((d1 + d2)%Z, POob)
          end
      | PRet r => (d1, PRet r)
      | POob => (d1, POob)
      end
  | PRet r => (st, PRet r)
  | POob => (st, POob)
  end.

Definition parse_response (sse : bool) (max_headers : nat) (p : nat) (s : bytes)
  : resp_out * pres unit :=
  match parse_http_version p s with
  | PRet r => (resp_out0, PRet r)
  | POob => (resp_out0, POob)
  | POk v p s =>
      match EXPECT_CHAR_NO_CHECK 32 p s with
      | PRet r => (mk_resp_out v 0 None [], PRet r)
      | POob => (mk_resp_out v 0 None [], POob)
      | POk _ p s =>
          if (length s <? 4)%nat then (mk_resp_out v 0 None [], PRet (-2))
          else
            match PARSE_INT_3 0 p s with
            | (st, PRet r) => (mk_resp_out v st None [], PRet r)
            | (st, POob) => (mk_resp_out v st None [], POob)
            | (st, POk _ p s) =>
                match EXPECT_CHAR_NO_CHECK 32 p s with
                | PRet r => (mk_resp_out v st None [], PRet r)
                | POob => (mk_resp_out v st None [], POob)
                | POk _ p s =>
                    match get_token_to_eol sse p s with
                    | PRet r => (mk_resp_out v st None [], PRet r)
                    | POob => (mk_resp_out v st None [], POob)
                    | POk m p s =>
                        let '(hs, r) := parse_headers sse max_headers [] p s in
                        (mk_resp_out v st (Some m) hs, r)
                    end
                end
            end
      end
  end.

Definition phr_parse_response (sse : bool) (buf : bytes) (max_headers last_len : nat)
  : resp_out * option Z :=
  match (if (last_len =? 0)%nat then POk tt 0 buf else is_complete last_len 0 buf) with
  | POk _ _ _ =>
      let '(o, r) := parse_response sse max_headers 0 buf in (o, phr_ret 0 r)
  | r => (resp_out0, phr_ret 0 r)
  end.

Definition phr_parse_headers (sse : bool) (buf : bytes) (max_headers last_len : nat)
  : list phr_header * option Z :=
  match (if (last_len =? 0)%nat then POk tt 0 buf else is_complete last_len 0 buf) with
  | POk _ _ _ =>
      let '(hs, r) := parse_headers sse max_headers [] 0 buf in (hs, phr_ret 0 r)
  | r => ([], phr_ret 0 r)
  end.
