(* ===== verification/PicoHttpFacts.v ===== *)
(** * picohttpparser: correctness

    Bounds of every sub-parser, equivalence of the SSE4.2 and the portable
    build, stability of a decision when more bytes arrive, and the parse of a
    printed request. *)

From Stdlib Require Import ZArith Lia.
From stdpp Require Import base numbers list strings.
From S2P Require Import Prelude CStd PicoHttp.

(** ** Results that stay inside the buffer *)

(** [p', s'] is reached from [p, s] by moving forward *)
Definition moved (p : nat) (s : bytes) (p' : nat) (s' : bytes) : Prop :=
  exists u, s = u ++ s' /\ p' = p + length u.

Definition in_bounds {A} (p : nat) (s : bytes) (r : pres A) : Prop :=
  match r with
  | POk _ p' s' => moved p s p' s'
  | PRet r => r = (-1)%Z \/ r = (-2)%Z
  | POob => False
  end.

Lemma moved_refl p s : moved p s p s.
Proof. exists []. simpl. auto with lia. Qed.

Lemma moved_step p c s : moved p (c :: s) (S p) s.
Proof. exists [c]. simpl. split; [done|lia]. Qed.

Lemma moved_trans p1 s1 p2 s2 p3 s3 :
  moved p1 s1 p2 s2 -> moved p2 s2 p3 s3 -> moved p1 s1 p3 s3.
Proof.
  intros (u & -> & ->) (v & -> & ->). exists (u ++ v).
  rewrite <-app_assoc, length_app. split; [done|lia].
Qed.

Lemma moved_le p s p' s' : moved p s p' s' -> p <= p' /\ p' + length s' = p + length s.
Proof. intros (u & -> & ->). rewrite length_app. lia. Qed.

Lemma moved_bytes p s p' s' :
  moved p s p' s' -> Forall is_byte s -> Forall is_byte s'.
Proof. intros (u & -> & ->). rewrite Forall_app. tauto. Qed.

#[export] Hint Resolve moved_refl moved_step moved_trans moved_bytes : netcore.

Lemma in_bounds_step {A} p c s (r : pres A) :
  in_bounds (S p) s r -> in_bounds p (c :: s) r.
Proof. destruct r; simpl; eauto with netcore. Qed.

Lemma in_bounds_bind {A B} p s (m : pres A) (k : A -> nat -> bytes -> pres B) :
  in_bounds p s m ->
  (forall a p' s', m = POk a p' s' -> moved p s p' s' -> in_bounds p' s' (k a p' s')) ->
  in_bounds p s (pbind m k).
Proof.
  intros Hm Hk. destruct m as [a p' s'|r|]; simpl in *; [|done|done].
  specialize (Hk a p' s' eq_refl Hm).
  destruct (k a p' s'); simpl in *; eauto with netcore.
Qed.

#[export] Hint Resolve in_bounds_step : netcore.

Lemma CHECK_EOF_bounds p s : in_bounds p s (CHECK_EOF p s).
Proof. destruct s; simpl; auto with netcore. Qed.

Lemma CHECK_EOF_nonempty p s u p' s' :
  CHECK_EOF p s = POk u p' s' -> s <> [] /\ p' = p /\ s' = s.
Proof. destruct s; simpl; [done|]. by intros [= _ <- <-]. Qed.

Lemma EXPECT_CHAR_bounds ch p s : in_bounds p s (EXPECT_CHAR ch p s).
Proof.
  unfold EXPECT_CHAR, EXPECT_CHAR_NO_CHECK. destruct s as [|c s]; simpl; [auto|].
  destruct (c =? ch)%Z; simpl; auto with netcore.
Qed.

Lemma advance_loop_bounds p s :
  s <> [] -> in_bounds p s (advance_loop p s).
Proof.
  revert p; induction s as [|c s IH]; intros p Hne; [done|]. cbn [advance_loop].
  destruct (c =? 32)%Z; [simpl; auto with netcore|].
  destruct (negb _ && _); [simpl; auto|].
  destruct s as [|d s]; [simpl; auto|]. apply in_bounds_step, IH. done.
Qed.

(** [advance_loop] and [name_loop] stop on a byte of the buffer *)
Lemma advance_loop_at_space p s u p' s' :
  advance_loop p s = POk u p' s' -> exists t, s' = 32%Z :: t.
Proof.
  revert p; induction s as [|c s IH]; intros p; [done|]. cbn [advance_loop].
  destruct (c =? 32)%Z eqn:E; zbool; [intros [= _ _ <-]; subst; eauto|].
  destruct (negb _ && _); [done|]. destruct s; [done|]. apply IH.
Qed.

Lemma ADVANCE_TOKEN_eq p s :
  ADVANCE_TOKEN false p s =
  pbind (CHECK_EOF p s) (fun _ p1 s1 =>
  pbind (advance_loop p1 s1) (fun _ p2 s2 => POk (p, p2 - p) p2 s2)).
Proof. reflexivity. Qed.

Lemma token_then_step_bounds p s :
  in_bounds p s (token_then_step false p s).
Proof.
  unfold token_then_step. rewrite ADVANCE_TOKEN_eq. unfold pbind.
  destruct s as [|c s]; simpl CHECK_EOF; [simpl; auto|]. cbv beta iota.
  pose proof (advance_loop_bounds p (c :: s) ltac:(done)) as H.
  destruct (advance_loop p (c :: s)) as [u p2 s2|r|] eqn:E; [|done|done].
  destruct (advance_loop_at_space _ _ _ _ _ E) as [t ->]. cbn -[moved] in *.
  eauto with netcore.
Qed.

Lemma eol_tail_bounds p s : in_bounds p s (eol_tail p s).
Proof.
  revert p; induction s as [|c s IH]; intros p; cbn [eol_tail]; [simpl; auto|].
  destruct (negb _ && _); [simpl; auto with netcore|]. apply in_bounds_step, IH.
Qed.

Lemma eol_tail_nonempty p s u p' s' :
  eol_tail p s = POk u p' s' -> s' <> [].
Proof.
  revert p; induction s as [|c s IH]; intros p; cbn [eol_tail]; [done|].
  destruct (negb _ && _); [by intros [= _ _ <-]|]. apply IH.
Qed.

(** the unrolled scan is the byte-by-byte scan *)
Lemma eol_unrolled_eq s k p :
  k <= length s -> eol_unrolled k p s = eol_tail p s.
Proof.
  revert k p; induction s as [|c s IH]; intros k p Hk.
  - simpl in Hk. replace k with 0 by lia. done.
  - cbn [eol_unrolled]. simpl in Hk.
    destruct ((k =? 0)%nat && (length (c :: s) <? 8)%nat) eqn:E; [done|].
    assert ((if (k =? 0)%nat then 7 else k - 1) <= length s).
    { destruct (k =? 0)%nat eqn:Ek; zbool; [|lia]. simpl in E. zbool. simpl in E. lia. }
    cbn [eol_tail]. destruct (IS_PRINTABLE_ASCII c); simpl; [by apply IH|].
    destruct (is_ctl c); [done|]. apply IH. lia.
Qed.

Lemma eol_scan_portable p s : eol_scan false p s = eol_tail p s.
Proof. apply eol_unrolled_eq. lia. Qed.

Lemma get_token_to_eol_bounds p s : in_bounds p s (get_token_to_eol false p s).
Proof.
  unfold get_token_to_eol. rewrite eol_scan_portable.
  apply in_bounds_bind; [apply eol_tail_bounds|].
  intros u p' s' E _. pose proof (eol_tail_nonempty _ _ _ _ _ E).
  destruct s' as [|c s']; [done|].
  destruct (c =? 13)%Z.
  - apply in_bounds_step, in_bounds_bind; [apply EXPECT_CHAR_bounds|].
    intros; simpl; auto with netcore.
  - destruct (c =? 10)%Z; simpl; auto with netcore.
Qed.

Lemma name_loop_bounds p s : s <> [] -> in_bounds p s (name_loop p s).
Proof.
  revert p; induction s as [|c s IH]; intros p Hne; [done|]. cbn [name_loop].
  destruct (c =? 58)%Z; [simpl; auto with netcore|].
  destruct (negb _); [simpl; auto|].
  destruct s as [|d s]; [simpl; auto|]. apply in_bounds_step, IH. done.
Qed.

Lemma name_loop_nonempty p s u p' s' :
  name_loop p s = POk u p' s' -> s' <> [].
Proof.
  revert p; induction s as [|c s IH]; intros p; [done|]. cbn [name_loop].
  destruct (c =? 58)%Z; [by intros [= _ _ <-]|].
  destruct (negb _); [done|]. destruct s; [done|]. apply IH.
Qed.

Lemma skip_blank_bounds p s : in_bounds p s (skip_blank p s).
Proof.
  revert p; induction s as [|c s IH]; intros p; cbn [skip_blank]; [simpl; auto|].
  destruct (negb _); [simpl; auto with netcore|]. apply in_bounds_step, IH.
Qed.

Lemma parse_name_eq p s :
  parse_name false p s =
  pbind (CHECK_EOF p s) (fun _ p1 s1 =>
  pbind (name_loop p1 s1) (fun _ p2 s2 =>
    if (p2 - p =? 0)%nat then PRet (-1)
    else match s2 with
         | [] => POob
         | _ :: s3 => pbind (skip_blank (S p2) s3) (fun _ p4 s4 => POk (Some p, p2 - p) p4 s4)
         end)).
Proof. reflexivity. Qed.

Lemma parse_name_bounds p s : in_bounds p s (parse_name false p s).
Proof.
  rewrite parse_name_eq. apply in_bounds_bind; [apply CHECK_EOF_bounds|].
  intros [] p1 s1 E1 _. apply CHECK_EOF_nonempty in E1 as (Hne & -> & ->).
  apply in_bounds_bind; [by apply name_loop_bounds|].
  intros [] p2 s2 E2 _. destruct (_ =? 0)%nat; [simpl; auto|].
  apply name_loop_nonempty in E2. destruct s2 as [|c s3]; [done|].
  apply in_bounds_step, in_bounds_bind; [apply skip_blank_bounds|].
  intros; simpl; auto with netcore.
Qed.

Lemma parse_header_line_bounds n c p s :
  in_bounds p s (parse_header_line false n c p s).
Proof.
  unfold parse_header_line. apply in_bounds_bind.
  - destruct (negb _); [apply parse_name_bounds|simpl; auto with netcore].
  - intros [nm nl] p1 s1 _ _. apply in_bounds_bind; [apply get_token_to_eol_bounds|].
    intros; simpl; auto with netcore.
Qed.

Lemma parse_headers_bounds room hs p s :
  in_bounds p s (parse_headers false room hs p s).2.
Proof.
  revert hs p s; induction room as [|room IH]; intros hs p [|c s]; simpl; auto.
  - destruct (c =? 13)%Z; [apply in_bounds_step, EXPECT_CHAR_bounds|].
    destruct (c =? 10)%Z; simpl; auto with netcore.
  - destruct (c =? 13)%Z; [apply in_bounds_step, EXPECT_CHAR_bounds|].
    destruct (c =? 10)%Z; [simpl; auto with netcore|].
    pose proof (parse_header_line_bounds (length hs) c p (c :: s)) as H.
    destruct (parse_header_line _ _ _ _ _) as [h p2 s2|r|]; simpl in *; [|done|done].
    specialize (IH (hs ++ [h]) p2 s2).
    destruct (parse_headers _ _ _ _ _).2; simpl in *; eauto with netcore.
Qed.

Lemma expect_all_bounds l p s :
  length l <= length s -> in_bounds p s (expect_all l p s).
Proof.
  revert p s; induction l as [|ch l IH]; intros p s H; simpl; [auto with netcore|].
  destruct s as [|c s]; simpl in *; [lia|].
  destruct (c =? ch)%Z; simpl; [|auto]. apply in_bounds_step, IH. lia.
Qed.

Lemma expect_all_Ok l p s u p' s' :
  expect_all l p s = POk u p' s' -> s = l ++ s' /\ p' = p + length l.
Proof.
  revert p s; induction l as [|ch l IH]; intros p s; simpl.
  - intros [= _ <- <-]. split; [done|lia].
  - destruct s as [|c s]; simpl; [done|]. destruct (c =? ch)%Z eqn:E; zbool; [|done].
    simpl. intros H. apply IH in H as [-> ->]. subst. split; [done|lia].
Qed.

(** the returned pointer is strictly inside the buffer *)
Lemma parse_http_version_bounds p s :
  in_bounds p s (parse_http_version p s) /\
  forall v p' s', parse_http_version p s = POk v p' s' -> s' <> [].
Proof.
  unfold parse_http_version. destruct (length s <? 9)%nat eqn:L; zbool.
  { simpl. split; [auto|done]. }
  pose proof (expect_all_bounds (bs "HTTP/1.") p s ltac:(simpl; lia)) as Hb.
  destruct (expect_all _ p s) as [u p1 s1|r|] eqn:E; [|split; done..].
  apply expect_all_Ok in E as [-> ->]. rewrite length_app in L. cbn [pbind in_bounds].
  destruct s1 as [|c [|d s1]]; [simpl in L; lia..|]. unfold PARSE_INT.
  destruct (_ || _); cbn [in_bounds].
  - split; [auto|done].
  - split; [eapply moved_trans; [exact Hb|apply moved_step]|]. by intros ??? [= _ _ <-].
Qed.

Lemma skip_empty_line_bounds p s : in_bounds p s (skip_empty_line p s).
Proof.
  destruct s as [|c s]; simpl; [auto|].
  destruct (c =? 13)%Z; [apply in_bounds_step, EXPECT_CHAR_bounds|].
  destruct (c =? 10)%Z; simpl; auto with netcore.
Qed.

Lemma request_line_end_bounds p s : s <> [] -> in_bounds p s (request_line_end p s).
Proof.
  destruct s as [|c s]; simpl; [done|]. intros _.
  destruct (c =? 13)%Z; [apply in_bounds_step, EXPECT_CHAR_bounds|].
  destruct (c =? 10)%Z; simpl; auto with netcore.
Qed.

Lemma complete_loop_bounds p s :
  forall n, in_bounds p s (complete_loop n p s).
Proof.
  remember (length s) as k eqn:Hk. assert (length s <= k) as Hle by lia. clear Hk.
  revert p s Hle; induction k as [|k IH]; intros p s Hle n.
  - destruct s; simpl in *; [auto|lia].
  - destruct s as [|c s]; cbn [complete_loop]; [simpl; auto|]. simpl in Hle.
    destruct (c =? 13)%Z.
    + destruct s as [|d s]; [simpl; auto|]. destruct (d =? 10)%Z; [|simpl; auto].
      destruct (_ =? 2)%nat; [simpl; eauto with netcore|].
      apply in_bounds_step, in_bounds_step, IH. simpl in Hle. lia.
    + destruct (c =? 10)%Z; [destruct (_ =? 2)%nat; [simpl; auto with netcore|]|];
        apply in_bounds_step, IH; lia.
Qed.

Lemma advance_ptr_Ok n p s :
  n <= length s -> advance_ptr n p s = POk tt (p + n) (drop n s).
Proof. intros H. unfold advance_ptr. apply Nat.leb_le in H. by rewrite H. Qed.

Lemma moved_drop n p s : n <= length s -> moved p s (p + n) (drop n s).
Proof.
  intros H. exists (take n s). rewrite take_drop, length_take. split; [done|lia].
Qed.

Lemma is_complete_bounds n p s :
  n <= length s -> in_bounds p s (is_complete n p s).
Proof.
  intros H. unfold is_complete. apply in_bounds_bind.
  - destruct (_ <? 3)%nat; [simpl; auto with netcore|].
    rewrite advance_ptr_Ok by lia. apply moved_drop. lia.
  - intros. apply complete_loop_bounds.
Qed.

(** ** The SSE4.2 scans agree with the portable ones *)

Lemma IS_PRINTABLE_ASCII_spec c :
  is_byte c -> IS_PRINTABLE_ASCII c = ((32 <=? c) && (c <=? 126))%Z.
Proof. intros H. apply eqb_prop. revert c H. apply all_bytes_check. by vm_compute. Qed.

(** a stop byte of [advance_loop], [name_loop] and [eol_tail] is in the ranges
    handed to [findchar_fast] *)
Definition skips (ranges : bytes) (L : nat -> bytes -> pres unit) : Prop :=
  forall p c s, is_byte c -> in_ranges ranges c = false ->
    L p (c :: s) = match s with [] => PRet (-2) | _ => L (S p) s end.

Lemma advance_loop_skips : skips token_ranges2 advance_loop.
Proof.
  intros p c s Hc H. cbn [advance_loop]. cbn in H. zbool. unfold is_byte in Hc.
  destruct (c =? 32)%Z eqn:E; zbool; [exfalso; subst; discriminate|].
  replace ((c <? 32) || (c =? 127))%Z with false; [by rewrite andb_false_r|].
  symmetry. apply orb_false_iff. split; [apply Z.ltb_ge|apply Z.eqb_neq].
  - destruct (0 <=? c)%Z eqn:?; zbool; [|lia].
    destruct (c <=? 32)%Z eqn:?; zbool; [done|lia].
  - intros ->. discriminate.
Qed.

Lemma eol_tail_skips : skips eol_ranges1 eol_tail.
Proof.
  intros p c s Hc H. cbn [eol_tail].
  assert (is_ctl c = false) as ->.
  { revert c Hc H. assert (forall c, is_byte c ->
      implb (negb (in_ranges eol_ranges1 c)) (negb (is_ctl c)) = true) as Hall.
    { apply all_bytes_check. by vm_compute. }
    intros c Hc H. specialize (Hall c Hc). rewrite H in Hall. by destruct (is_ctl c). }
  rewrite andb_false_r. by destruct s.
Qed.

Lemma name_loop_skips : skips name_ranges1 name_loop.
Proof.
  intros p c s Hc H. cbn [name_loop].
  assert (forall c, is_byte c -> implb (negb (in_ranges name_ranges1 c))
      (token_char c && negb (c =? 58)%Z) = true) as Hall.
  { apply all_bytes_check. by vm_compute. }
  specialize (Hall c Hc). rewrite H in Hall. simpl in Hall. zbool.
  apply Z.eqb_neq in H1. by rewrite H0, H1.
Qed.

Lemma skips_many ranges L k p s :
  skips ranges L -> k <= length s -> s <> [] -> Forall is_byte s ->
  Forall (fun c => in_ranges ranges c = false) (take k s) ->
  L p s = match drop k s with [] => PRet (-2) | s' => L (p + k) s' end.
Proof.
  intros HL. revert p s; induction k as [|k IH]; intros p s Hk Hne Hb Hr.
  - rewrite drop_0, Nat.add_0_r. by destruct s.
  - destruct s as [|c s]; [done|]. simpl in Hk. inversion Hb; subst.
    simpl in Hr. inversion Hr; subst. rewrite HL by done. simpl.
    destruct s as [|d s]; [by rewrite drop_nil|].
    rewrite IH by (done || lia). by rewrite Nat.add_succ_comm.
Qed.

Lemma cmpestri_spec ranges b :
  cmpestri ranges b <= length b /\
  Forall (fun c => in_ranges ranges c = false) (take (cmpestri ranges b) b) /\
  (cmpestri ranges b < length b ->
   exists c t, drop (cmpestri ranges b) b = c :: t /\ in_ranges ranges c = true).
Proof.
  induction b as [|c b (IH1 & IH2 & IH3)]; simpl; [repeat split; [done..|lia]|].
  destruct (in_ranges ranges c) eqn:E; simpl; [repeat split; [lia|constructor|eauto]|].
  repeat split; [lia|by constructor|]. intros H. apply IH3. lia.
Qed.

Lemma findchar_blocks_spec ranges n p s p' s' f :
  16 * n <= length s ->
  findchar_blocks ranges n p s = (p', s', f) ->
  exists k, k <= length s /\ p' = p + k /\ s' = drop k s /\
    Forall (fun c => in_ranges ranges c = false) (take k s) /\
    (f = true -> exists c t, s' = c :: t /\ in_ranges ranges c = true).
Proof.
  revert p s; induction n as [|n IH]; intros p s Hn; cbn [findchar_blocks].
  - intros [= <- <- <-]. exists 0. rewrite drop_0, take_0.
    repeat split; try lia; constructor.
  - destruct (cmpestri_spec ranges (take 16 s)) as (H1 & H2 & H3).
    assert (length (take 16 s) = 16) as L16 by (rewrite length_take; lia).
    destruct (_ =? 16)%nat eqn:E; zbool.
    + intros H. apply IH in H as (k & Hk1 & -> & -> & Hk2 & Hk3);
        [|rewrite length_drop; lia]. rewrite length_drop in *.
      exists (16 + k). rewrite drop_drop in *.
      split; [lia|]. split; [lia|]. split; [done|]. split; [|done].
      rewrite E in H2. rewrite take_take, Nat.min_id in H2.
      rewrite <-(take_drop 16 s) at 1. rewrite take_app, L16.
      rewrite (take_ge (take 16 s)) by lia.
      apply Forall_app. split; [done|]. by replace (16 + k - 16) with k by lia.
    + intros [= <- <- <-]. exists (cmpestri ranges (take 16 s)).
      rewrite take_take, Nat.min_l in H2 by lia.
      split; [lia|]. split; [done|]. split; [done|]. split; [done|]. intros _. destruct H3 as (c & t & H3 & H4); [lia|].
      exists c, (t ++ drop 16 s). split; [|done].
      rewrite <-(take_drop 16 s) at 2. rewrite drop_app_le by lia. by rewrite H3.
Qed.

Lemma findchar_fast_spec ranges p s p' s' f :
  findchar_fast true ranges p s = (p', s', f) ->
  exists k, k <= length s /\ p' = p + k /\ s' = drop k s /\
    Forall (fun c => in_ranges ranges c = false) (take k s) /\
    (f = true -> exists c t, s' = c :: t /\ in_ranges ranges c = true).
Proof.
  unfold findchar_fast. destruct (16 <=? length s)%nat eqn:E16; zbool.
  - apply findchar_blocks_spec. pose proof (Nat.div_mod_eq (length s) 16); lia.
  - intros [= <- <- <-]. exists 0. rewrite drop_0, take_0.
    repeat split; try lia; constructor.
Qed.

Lemma findchar_scan ranges L p s :
  skips ranges L -> Forall is_byte s ->
  (let '(p1, s1, f) := findchar_fast true ranges p s in
   pbind (if f : bool then POk tt p1 s1 else CHECK_EOF p1 s1) (fun _ => L)) =
  pbind (CHECK_EOF p s) (fun _ => L).
Proof.
  intros HL Hb. destruct (findchar_fast true ranges p s) as [[p1 s1] f] eqn:E.
  apply findchar_fast_spec in E as (k & Hk & -> & -> & Hr & Hf).
  destruct s as [|c s].
  { rewrite drop_nil in *. destruct f; [|done]. by destruct Hf as (? & ? & ? & _). }
  cbn [CHECK_EOF pbind].
  rewrite (skips_many ranges L k p (c :: s)) by done.
  destruct f; cbn [pbind].
  - by destruct Hf as (d & t & -> & _).
  - by destruct (drop k (c :: s)).
Qed.

Lemma pbind_assoc {A B C} (m : pres A) (k : A -> nat -> bytes -> pres B)
    (h : B -> nat -> bytes -> pres C) :
  pbind (pbind m k) h = pbind m (fun a p s => pbind (k a p s) h).
Proof. by destruct m. Qed.

Lemma pbind_if_unit {B} (f : bool) p1 s1 (k : nat -> bytes -> pres B) :
  pbind (if f then POk tt p1 s1 else CHECK_EOF p1 s1) (fun _ p s => k p s) =
  if f then k p1 s1 else pbind (CHECK_EOF p1 s1) (fun _ p s => k p s).
Proof. by destruct f. Qed.

Lemma scan_then_eq {B} ranges L (k : nat -> bytes -> pres B) p s :
  skips ranges L -> Forall is_byte s ->
  (let '(p1, s1, f) := findchar_fast true ranges p s in
   pbind (if f : bool then POk tt p1 s1 else CHECK_EOF p1 s1)
     (fun _ p1 s1 => pbind (L p1 s1) (fun _ p2 s2 => k p2 s2))) =
  pbind (CHECK_EOF p s) (fun _ p1 s1 => pbind (L p1 s1) (fun _ p2 s2 => k p2 s2)).
Proof.
  intros HL Hb. pose proof (findchar_scan ranges L p s HL Hb) as H.
  destruct (findchar_fast true ranges p s) as [[p1 s1] f].
  apply (f_equal (fun r => pbind r (fun _ p2 s2 => k p2 s2))) in H.
  rewrite !pbind_assoc in H. exact H.
Qed.

Lemma ADVANCE_TOKEN_sse p s :
  Forall is_byte s -> ADVANCE_TOKEN true p s = ADVANCE_TOKEN false p s.
Proof.
  intros Hb. unfold ADVANCE_TOKEN at 1.
  apply (scan_then_eq token_ranges2 advance_loop (fun p2 s2 => POk (p, p2 - p) p2 s2));
    [apply advance_loop_skips|done].
Qed.

Lemma eol_scan_sse p s :
  Forall is_byte s -> eol_scan true p s = eol_scan false p s.
Proof.
  intros Hb. rewrite eol_scan_portable. cbn [eol_scan].
  destruct (findchar_fast true eol_ranges1 p s) as [[p1 s1] f] eqn:E.
  apply findchar_fast_spec in E as (k & Hk & -> & -> & Hr & Hf).
  destruct s as [|c s].
  { rewrite drop_nil in *. destruct f; [|done]. by destruct Hf as (? & ? & ? & _). }
  rewrite (skips_many eol_ranges1 eol_tail k p (c :: s)) by (done || apply eol_tail_skips).
  destruct f; [|by destruct (drop k (c :: s))].
  destruct Hf as (d & t & Hd & Hdr); [done|]. rewrite Hd. cbn [eol_tail].
  assert (is_byte d) as Hdb.
  { assert (Forall is_byte (drop k (c :: s))) as Hb' by (by apply Forall_drop).
    rewrite Hd in Hb'. by inversion Hb'. }
  assert (forall c, is_byte c -> implb (in_ranges eol_ranges1 c)
    (negb (IS_PRINTABLE_ASCII c) && is_ctl c) = true) as Hall.
  { apply all_bytes_check. by vm_compute. }
  specialize (Hall d Hdb). rewrite Hdr in Hall. simpl in Hall. by rewrite Hall.
Qed.

Lemma get_token_to_eol_sse p s :
  Forall is_byte s -> get_token_to_eol true p s = get_token_to_eol false p s.
Proof. intros Hb. unfold get_token_to_eol. by rewrite eol_scan_sse. Qed.

Lemma parse_name_sse p s :
  Forall is_byte s -> parse_name true p s = parse_name false p s.
Proof.
  intros Hb. rewrite parse_name_eq. unfold parse_name.
  apply (scan_then_eq name_ranges1 name_loop); [apply name_loop_skips|done].
Qed.

Lemma token_then_step_sse p s :
  Forall is_byte s -> token_then_step true p s = token_then_step false p s.
Proof. intros Hb. unfold token_then_step. by rewrite ADVANCE_TOKEN_sse. Qed.

Lemma parse_header_line_sse n c p s :
  Forall is_byte s -> parse_header_line true n c p s = parse_header_line false n c p s.
Proof.
  intros Hb. unfold parse_header_line. destruct (negb _).
  - rewrite parse_name_sse by done. pose proof (parse_name_bounds p s) as Hn.
    destruct (parse_name false p s) as [nm p1 s1|r|]; [|done|done].
    cbn [pbind]. rewrite get_token_to_eol_sse; eauto with netcore.
  - cbn [pbind]. by rewrite get_token_to_eol_sse.
Qed.

Lemma parse_headers_sse room hs p s :
  Forall is_byte s -> parse_headers true room hs p s = parse_headers false room hs p s.
Proof.
  revert hs p s; induction room as [|room IH]; intros hs p [|c s] Hb; simpl; auto.
  destruct (c =? 13)%Z; [done|]. destruct (c =? 10)%Z; [done|].
  rewrite parse_header_line_sse by done.
  pose proof (parse_header_line_bounds (length hs) c p (c :: s)) as H.
  destruct (parse_header_line _ _ _ _ _) as [h p2 s2|r|]; [|done|done].
  apply IH. eauto with netcore.
Qed.

(** step over the next sub-parser of [parse_request] or [parse_response] *)
Ltac next_parser H :=
  let Hb := fresh "Hb" in
  pose proof H as Hb;
  match type of Hb with
  | in_bounds _ _ ?r => destruct r; [|try done|try done]; cbn [in_bounds] in Hb
  end.

Lemma parse_request_sse mh p s :
  Forall is_byte s -> parse_request true mh p s = parse_request false mh p s.
Proof.
  intros Hs. unfold parse_request.
  next_parser (skip_empty_line_bounds p s).
  rewrite token_then_step_sse by eauto with netcore.
  next_parser (token_then_step_bounds p0 s0).
  rewrite token_then_step_sse by eauto with netcore.
  next_parser (token_then_step_bounds p1 s1).
  destruct (parse_http_version_bounds p2 s2) as [Hv Hne].
  destruct (parse_http_version p2 s2) as [v p3 s3|r|]; [|done|done].
  specialize (Hne _ _ _ eq_refl). cbn [in_bounds] in Hv.
  next_parser (request_line_end_bounds p3 s3 Hne).
  rewrite parse_headers_sse; [done|]. eauto 10 with netcore.
Qed.

Lemma phr_parse_request_sse buf mh ll :
  Forall is_byte buf ->
  phr_parse_request true buf mh ll = phr_parse_request false buf mh ll.
Proof.
  intros Hb. unfold phr_parse_request. destruct (if (ll =? 0)%nat then _ else _); [|done|done].
  destruct (advance_ptr ll 0 buf) as [u q s'|r|] eqn:E; [|done|done].
  rewrite parse_request_sse; [done|]. unfold advance_ptr in E.
  destruct (_ <=? _)%nat; [|done]. injection E as _ <- <-. by apply Forall_drop.
Qed.

(** ** Tokens lie inside the buffer *)

Definition token_in (n : nat) (t : nat * nat) : Prop := t.1 + t.2 <= n.

Definition header_in (n : nat) (h : phr_header) : Prop :=
  match name h with Some o => o + name_len h <= n | None => True end /\
  value h + value_len h <= n.

Definition req_out_in (n : nat) (o : req_out) : Prop :=
  (forall t, method o = Some t -> token_in n t) /\
  (forall t, path o = Some t -> token_in n t) /\
  Forall (header_in n) (headers o).

Lemma token_then_step_token p s t p' s' :
  token_then_step false p s = POk t p' s' -> t.1 = p /\ t.1 + t.2 < p'.
Proof.
  unfold token_then_step. rewrite ADVANCE_TOKEN_eq.
  destruct s as [|c s]; [done|]. cbn [CHECK_EOF pbind].
  pose proof (advance_loop_bounds p (c :: s) ltac:(done)) as H.
  destruct (advance_loop p (c :: s)) as [u p2 s2|r|] eqn:E; [|done|done]. cbn [pbind].
  apply moved_le in H. destruct s2; [done|]. intros [= <- <- <-]. simpl. lia.
Qed.

Lemma EXPECT_CHAR_Ok ch p s u p' s' :
  EXPECT_CHAR ch p s = POk u p' s' -> s = ch :: s' /\ p' = S p.
Proof.
  destruct s as [|c s]; [done|]. cbn. destruct (c =? ch)%Z eqn:E; zbool; [|done].
  subst. by intros [= _ <- <-].
Qed.

Lemma get_token_to_eol_token p s t p' s' :
  get_token_to_eol false p s = POk t p' s' -> t.1 = p /\ t.1 + t.2 < p'.
Proof.
  unfold get_token_to_eol. rewrite eol_scan_portable.
  pose proof (eol_tail_bounds p s) as H.
  destruct (eol_tail p s) as [u p2 s2|r|] eqn:E; [|done|done]. cbn [pbind].
  apply moved_le in H. destruct s2 as [|c s2]; [done|].
  destruct (c =? 13)%Z.
  - destruct (EXPECT_CHAR 10 (S p2) s2) as [u' p3 s3|r|] eqn:E2; [|done|done].
    apply EXPECT_CHAR_Ok in E2 as [-> ->]. cbn [pbind]. intros [= <- <- <-]. simpl. lia.
  - destruct (c =? 10)%Z; [|done]. intros [= <- <- <-]. simpl. lia.
Qed.

Lemma parse_name_token p s nm p' s' :
  parse_name false p s = POk nm p' s' -> nm.1 = Some p /\ p + nm.2 <= p' /\ 0 < nm.2.
Proof.
  rewrite parse_name_eq. destruct s as [|c s]; [done|]. cbn [CHECK_EOF pbind].
  pose proof (name_loop_bounds p (c :: s) ltac:(done)) as H.
  destruct (name_loop p (c :: s)) as [u p2 s2|r|] eqn:E; [|done|done]. cbn [pbind].
  apply moved_le in H. destruct (_ =? 0)%nat eqn:E0; zbool; [done|].
  destruct s2 as [|d s3]; [done|]. pose proof (skip_blank_bounds (S p2) s3) as H4.
  destruct (skip_blank (S p2) s3) as [u' p4 s4|r|]; [|done|done]. cbn [pbind].
  apply moved_le in H4. intros [= <- <- <-]. simpl. split; [done|]. lia.
Qed.

Lemma parse_header_line_header n c p s h p' s' :
  parse_header_line false n c p s = POk h p' s' -> header_in p' h.
Proof.
  unfold parse_header_line. destruct (negb _).
  - destruct (parse_name false p s) as [[nm nl] p1 s1|r|] eqn:E; [|done|done].
    apply parse_name_token in E as (E1 & E2 & _). cbn [pbind fst snd] in *.
    pose proof (get_token_to_eol_bounds p1 s1) as H.
    destruct (get_token_to_eol false p1 s1) as [[v vl] p2 s2|r|] eqn:E3; [|done|done].
    apply moved_le in H. apply get_token_to_eol_token in E3 as [E3 E4].
    cbn [pbind fst snd] in *. intros [= <- <- <-]. subst. split; simpl; lia.
  - cbn [pbind fst snd].
    destruct (get_token_to_eol false p s) as [[v vl] p2 s2|r|] eqn:E3; [|done|done].
    apply get_token_to_eol_token in E3 as [E3 E4]. cbn [pbind fst snd] in *.
    intros [= <- <- <-]. split; simpl; [done|lia].
Qed.

Lemma header_in_mono n m h : n <= m -> header_in n h -> header_in m h.
Proof. unfold header_in. destruct (name h); lia. Qed.

Lemma parse_headers_headers n room hs p s :
  p + length s <= n -> Forall (header_in n) hs ->
  Forall (header_in n) (parse_headers false room hs p s).1 /\
  length (parse_headers false room hs p s).1 <= length hs + room.
Proof.
  revert hs p s; induction room as [|room IH]; intros hs p [|c s] Hn Hf; simpl;
    [split; [done|lia] | | split; [done|lia] | ].
  - destruct (c =? 13)%Z; [split; [done|simpl; lia]|].
    destruct (c =? 10)%Z; split; (done || (simpl; lia)).
  - destruct (c =? 13)%Z; [split; [done|simpl; lia]|].
    destruct (c =? 10)%Z; [split; (done || (simpl; lia))|].
    pose proof (parse_header_line_bounds (length hs) c p (c :: s)) as H.
    destruct (parse_header_line _ _ _ _ _) as [h p2 s2|r|] eqn:E;
      [|split; (done || (simpl; lia))..].
    apply parse_header_line_header in E. apply moved_le in H. simpl in H, Hn.
    destruct (IH (hs ++ [h]) p2 s2) as [H1 H2]; [lia| |].
    + apply Forall_app. split; [done|]. constructor; [|done].
      eapply header_in_mono; [|done]. lia.
    + split; [done|]. rewrite length_app in H2. simpl in H2. lia.
Qed.

Lemma token_in_le n m t : token_in n t -> n <= m -> token_in m t.
Proof. unfold token_in. lia. Qed.

Lemma parse_request_snd sse mh p s :
  (parse_request sse mh p s).2 =
  pbind (skip_empty_line p s) (fun _ p s =>
  pbind (token_then_step sse p s) (fun _ p s =>
  pbind (token_then_step sse p s) (fun _ p s =>
  pbind (parse_http_version p s) (fun _ p s =>
  pbind (request_line_end p s) (fun _ p s => (parse_headers sse mh [] p s).2))))).
Proof.
  unfold parse_request. destruct (skip_empty_line p s); [|done|done].
  cbn [pbind]. destruct (token_then_step sse p0 s0); [|done|done].
  cbn [pbind]. destruct (token_then_step sse p1 s1); [|done|done].
  cbn [pbind]. destruct (parse_http_version p2 s2); [|done|done].
  cbn [pbind]. destruct (request_line_end p3 s3); [|done|done].
  cbn [pbind]. by destruct (parse_headers sse mh [] p4 s4).
Qed.

Lemma parse_request_bounds mh p s : in_bounds p s (parse_request false mh p s).2.
Proof.
  rewrite parse_request_snd.
  apply in_bounds_bind; [apply skip_empty_line_bounds|]. intros _ p1 s1 _ _.
  apply in_bounds_bind; [apply token_then_step_bounds|]. intros _ p2 s2 _ _.
  apply in_bounds_bind; [apply token_then_step_bounds|]. intros _ p3 s3 _ _.
  destruct (parse_http_version_bounds p3 s3) as [Hv Hne].
  apply in_bounds_bind; [done|]. intros v p4 s4 E4 _.
  apply in_bounds_bind; [apply request_line_end_bounds; by eapply Hne|].
  intros _ p5 s5 _ _. apply parse_headers_bounds.
Qed.

Lemma parse_request_progress mh p s u p' s' :
  (parse_request false mh p s).2 = POk u p' s' -> p < p'.
Proof.
  rewrite parse_request_snd. unfold pbind.
  next_parser (skip_empty_line_bounds p s).
  next_parser (token_then_step_bounds p0 s0).
  pose proof (token_then_step_bounds p1 s1) as Hb1.
  destruct (token_then_step false p1 s1) as [t p2 s2|r|] eqn:E2; [|done|done].
  apply token_then_step_token in E2. cbn [in_bounds] in Hb1.
  destruct (parse_http_version_bounds p2 s2) as [Hv Hne].
  destruct (parse_http_version p2 s2) as [v p3 s3|r|]; [|done|done].
  specialize (Hne _ _ _ eq_refl). cbn [in_bounds] in Hv.
  next_parser (request_line_end_bounds p3 s3 Hne).
  pose proof (parse_headers_bounds mh [] p4 s4) as Hh. intros E. rewrite E in Hh.
  cbn [in_bounds] in Hh.
  apply moved_le in Hb, Hb0, Hb1, Hb2, Hv, Hh. lia.
Qed.

Lemma parse_request_out mh p s :
  req_out_in (p + length s) (parse_request false mh p s).1 /\
  length (headers (parse_request false mh p s).1) <= mh.
Proof.
  assert (forall n v t1 t2, (forall t, t1 = Some t -> token_in n t) ->
    (forall t, t2 = Some t -> token_in n t) ->
    req_out_in n (mk_req_out t1 t2 v []) /\ 0 <= mh) as Hfail.
  { intros. split; [|lia]. split; [done|]. split; [done|constructor]. }
  unfold parse_request.
  next_parser (skip_empty_line_bounds p s); [|apply Hfail; intros ? [=]..].
  pose proof (token_then_step_bounds p0 s0) as Hb1.
  destruct (token_then_step false p0 s0) as [m p1 s1|r|] eqn:E1;
    [|apply Hfail; intros ? [=]..].
  apply token_then_step_token in E1. cbn [in_bounds] in Hb1. apply moved_le in Hb, Hb1.
  assert (token_in (p + length s) m) as Hm by (unfold token_in; lia).
  pose proof (token_then_step_bounds p1 s1) as Hb2.
  destruct (token_then_step false p1 s1) as [t p2 s2|r|] eqn:E2;
    [|apply Hfail; (intros ? [= <-]; exact Hm) || intros ? [=]..].
  apply token_then_step_token in E2. cbn [in_bounds] in Hb2. apply moved_le in Hb2.
  assert (token_in (p + length s) t) as Ht by (unfold token_in; lia).
  destruct (parse_http_version_bounds p2 s2) as [Hv Hne].
  destruct (parse_http_version p2 s2) as [v p3 s3|r|];
    [|apply Hfail; intros ? [= <-]; assumption..].
  specialize (Hne _ _ _ eq_refl). cbn [in_bounds] in Hv. apply moved_le in Hv.
  next_parser (request_line_end_bounds p3 s3 Hne);
    [|apply Hfail; intros ? [= <-]; assumption..].
  apply moved_le in Hb0.
  destruct (parse_headers_headers (p + length s) mh [] p4 s4) as [H1 H2]; [lia|constructor|].
  destruct (parse_headers false mh [] p4 s4) as [hs r]. simpl in *.
  split; [|lia]. split; [|split]; simpl; [intros ? [= <-]; assumption..|done].
Qed.

(** ** More bytes never change a decision *)

Definition stable {A} (ext : bytes) (r1 r2 : pres A) : Prop :=
  match r1 with
  | POk a p s => r2 = POk a p (s ++ ext)
  | PRet r => r = (-1)%Z -> r2 = PRet (-1)
  | POob => True
  end.

Lemma stable_bind {A B} ext (m1 m2 : pres A) (k : A -> nat -> bytes -> pres B) :
  stable ext m1 m2 ->
  (forall a p s, m1 = POk a p s -> stable ext (k a p s) (k a p (s ++ ext))) ->
  stable ext (pbind m1 k) (pbind m2 k).
Proof.
  intros Hm Hk. destruct m1 as [a p s|r|]; simpl in *; [|by intros ->; rewrite Hm|done].
  rewrite Hm. simpl. by apply Hk.
Qed.

Lemma CHECK_EOF_stable ext p s : stable ext (CHECK_EOF p s) (CHECK_EOF p (s ++ ext)).
Proof. by destruct s. Qed.

Lemma EXPECT_CHAR_stable ext ch p s :
  stable ext (EXPECT_CHAR ch p s) (EXPECT_CHAR ch p (s ++ ext)).
Proof.
  destruct s as [|c s]; [done|]. cbn. by destruct (c =? ch)%Z.
Qed.

Lemma advance_loop_stable ext p s :
  stable ext (advance_loop p s) (advance_loop p (s ++ ext)).
Proof.
  revert p; induction s as [|c s IH]; intros p; [done|]. cbn [advance_loop app].
  destruct (c =? 32)%Z; [done|]. destruct (negb _ && _); [done|].
  destruct s as [|d s]; [done|]. apply IH.
Qed.

Lemma token_then_step_stable ext p s :
  stable ext (token_then_step false p s) (token_then_step false p (s ++ ext)).
Proof.
  unfold token_then_step. rewrite !ADVANCE_TOKEN_eq.
  apply stable_bind; [|by intros a q [|c t] E].
  apply stable_bind; [apply CHECK_EOF_stable|]. intros [] q t _.
  apply stable_bind; [apply advance_loop_stable|]. done.
Qed.

Lemma eol_tail_stable ext p s : stable ext (eol_tail p s) (eol_tail p (s ++ ext)).
Proof.
  revert p; induction s as [|c s IH]; intros p; [done|]. cbn [eol_tail app].
  destruct (negb _ && _); [done|]. apply IH.
Qed.

Lemma get_token_to_eol_stable ext p s :
  stable ext (get_token_to_eol false p s) (get_token_to_eol false p (s ++ ext)).
Proof.
  unfold get_token_to_eol. rewrite !eol_scan_portable.
  apply stable_bind; [apply eol_tail_stable|]. intros _ q [|c t] _; [done|].
  cbn [app]. destruct (c =? 13)%Z.
  - apply stable_bind; [apply EXPECT_CHAR_stable|done].
  - by destruct (c =? 10)%Z.
Qed.

Lemma name_loop_stable ext p s : stable ext (name_loop p s) (name_loop p (s ++ ext)).
Proof.
  revert p; induction s as [|c s IH]; intros p; [done|]. cbn [name_loop app].
  destruct (c =? 58)%Z; [done|]. destruct (negb _); [done|].
  destruct s as [|d s]; [done|]. apply IH.
Qed.

Lemma skip_blank_stable ext p s : stable ext (skip_blank p s) (skip_blank p (s ++ ext)).
Proof.
  revert p; induction s as [|c s IH]; intros p; [done|]. cbn [skip_blank app].
  destruct (negb _); [done|]. apply IH.
Qed.

Lemma parse_name_stable ext p s :
  stable ext (parse_name false p s) (parse_name false p (s ++ ext)).
Proof.
  rewrite !parse_name_eq. apply stable_bind; [apply CHECK_EOF_stable|].
  intros [] q t _. apply stable_bind; [apply name_loop_stable|].
  intros _ q2 [|c t2] _; destruct (_ =? 0)%nat; [done..|]. cbn [app].
  apply stable_bind; [apply skip_blank_stable|done].
Qed.

Lemma parse_header_line_stable ext n c p s :
  stable ext (parse_header_line false n c p s) (parse_header_line false n c p (s ++ ext)).
Proof.
  unfold parse_header_line. apply stable_bind.
  - destruct (negb _); [apply parse_name_stable|done].
  - intros nm q t _. apply stable_bind; [apply get_token_to_eol_stable|done].
Qed.

(** the decision is stable and so are the out parameters *)
Definition stable_out {O} (ext : bytes) (r1 r2 : O * pres unit) : Prop :=
  match r1.2 with
  | POk u p s => r2 = (r1.1, POk u p (s ++ ext))
  | PRet r => r = (-1)%Z -> r2 = r1
  | POob => True
  end.

Lemma parse_headers_stable ext room hs p s :
  stable_out ext (parse_headers false room hs p s) (parse_headers false room hs p (s ++ ext)).
Proof.
  revert hs p s; induction room as [|room IH]; intros hs p [|c s]; try done;
    cbn [parse_headers app].
  - destruct (c =? 13)%Z; [|by destruct (c =? 10)%Z].
    pose proof (EXPECT_CHAR_stable ext 10 (S p) s) as H. unfold stable_out, stable in *.
    cbn [fst snd] in *. destruct (EXPECT_CHAR 10 (S p) s); [by rewrite H| |done].
    intros ->. by rewrite H.
  - destruct (c =? 13)%Z; [|destruct (c =? 10)%Z; [done|]].
    + pose proof (EXPECT_CHAR_stable ext 10 (S p) s) as H. unfold stable_out, stable in *.
      cbn [fst snd] in *. destruct (EXPECT_CHAR 10 (S p) s); [by rewrite H| |done].
      intros ->. by rewrite H.
    + pose proof (parse_header_line_stable ext (length hs) c p (c :: s)) as H.
      cbn [app] in H. unfold stable in H.
      destruct (parse_header_line false (length hs) c p (c :: s)) as [h p2 s2|r|]; [| |done].
      * rewrite H. apply IH.
      * unfold stable_out. cbn [fst snd]. intros ->. by rewrite H.
Qed.

Lemma expect_all_stable ext l p s :
  stable ext (expect_all l p s) (expect_all l p (s ++ ext)).
Proof.
  revert p s; induction l as [|ch l IH]; intros p s; [done|].
  cbn [expect_all]. apply stable_bind; [|intros _ q t _; apply IH].
  destruct s as [|c s]; [done|]. cbn. by destruct (c =? ch)%Z.
Qed.

Lemma parse_http_version_stable ext p s :
  stable ext (parse_http_version p s) (parse_http_version p (s ++ ext)).
Proof.
  unfold parse_http_version. destruct (length s <? 9)%nat eqn:E; zbool; [done|].
  replace (length (s ++ ext) <? 9)%nat with false
    by (symmetry; apply Nat.ltb_ge; rewrite length_app; lia).
  apply stable_bind; [apply expect_all_stable|].
  intros _ q [|c t] _; [done|]. cbn. by destruct (_ || _).
Qed.

Lemma skip_empty_line_stable ext p s :
  stable ext (skip_empty_line p s) (skip_empty_line p (s ++ ext)).
Proof.
  destruct s as [|c s]; [done|]. cbn [skip_empty_line app].
  destruct (c =? 13)%Z; [apply EXPECT_CHAR_stable|]. by destruct (c =? 10)%Z.
Qed.

Lemma request_line_end_stable ext p s :
  stable ext (request_line_end p s) (request_line_end p (s ++ ext)).
Proof.
  destruct s as [|c s]; [done|]. cbn [request_line_end app].
  destruct (c =? 13)%Z; [apply EXPECT_CHAR_stable|]. by destruct (c =? 10)%Z.
Qed.

(** use the stability of the next sub-parser; close its error branches *)
Ltac next_stable H :=
  let Hs := fresh "Hs" in
  pose proof H as Hs; unfold stable in Hs;
  match type of Hs with
  | match ?r with _ => _ end =>
      destruct r; [rewrite Hs; clear Hs
                  |unfold stable_out; cbn [fst snd];
                   let E := fresh "E" in intros E; rewrite (Hs E), E; reflexivity
                  |done]
  end.

Lemma parse_request_stable ext mh p s :
  stable_out ext (parse_request false mh p s) (parse_request false mh p (s ++ ext)).
Proof.
  unfold parse_request.
  next_stable (skip_empty_line_stable ext p s).
  next_stable (token_then_step_stable ext p0 s0).
  next_stable (token_then_step_stable ext p1 s1).
  next_stable (parse_http_version_stable ext p2 s2).
  next_stable (request_line_end_stable ext p3 s3).
  pose proof (parse_headers_stable ext mh [] p4 s4) as H. unfold stable_out in *.
  destruct (parse_headers false mh [] p4 s4) as [hs r]. cbn [fst snd] in *.
  destruct r; [by rewrite H| |done]. intros E. by rewrite (H E).
Qed.

Lemma complete_loop_stable ext n p s :
  stable ext (complete_loop n p s) (complete_loop n p (s ++ ext)).
Proof.
  remember (length s) as k eqn:Hk. assert (length s <= k) as Hle by lia. clear Hk.
  revert n p s Hle; induction k as [|k IH]; intros n p [|c s] Hle; try done;
    simpl in Hle; [lia|]. cbn [complete_loop app].
  destruct (c =? 13)%Z.
  - destruct s as [|d s]; [done|]. cbn [app]. destruct (d =? 10)%Z; [|done].
    destruct (_ =? 2)%nat; [done|]. apply IH. simpl in Hle. lia.
  - destruct (c =? 10)%Z; [destruct (_ =? 2)%nat; [done|]|]; apply IH; lia.
Qed.

Lemma is_complete_stable ext n p s :
  n <= length s -> stable ext (is_complete n p s) (is_complete n p (s ++ ext)).
Proof.
  intros Hn. unfold is_complete. apply stable_bind; [|intros; apply complete_loop_stable].
  destruct (_ <? 3)%nat; [done|]. rewrite !advance_ptr_Ok by (rewrite ?length_app; lia).
  simpl. by rewrite drop_app_le by lia.
Qed.

(** ** Printed requests *)

(** a request-line token: no blanks and no control characters *)
Definition token_ok (t : bytes) : Prop :=
  Forall (fun c => is_byte c /\ (32 < c)%Z /\ c <> 127%Z) t.

Definition field_name_ok (n : bytes) : Prop :=
  n <> [] /\ Forall (fun c => token_char c = true) n.

(** a header value: no control characters but HT, and no leading blank *)
Definition field_value_ok (v : bytes) : Prop :=
  Forall (fun c => is_byte c /\ is_ctl c = false) v /\
  head v <> Some 32%Z /\ head v <> Some 9%Z.

Definition field_ok (h : bytes * bytes) : Prop :=
  field_name_ok h.1 /\ field_value_ok h.2.

#[export] Instance token_ok_dec t : Decision (token_ok t).
Proof. unfold token_ok; apply _. Defined.

#[export] Instance field_ok_dec h : Decision (field_ok h).
Proof. unfold field_ok, field_name_ok, field_value_ok; apply _. Defined.

Definition print_field (h : bytes * bytes) : bytes :=
  h.1 ++ bs ": " ++ h.2 ++ CRLF.

(** a field printed with the blanks [ws] after the colon: ((name, ws), value) *)
Definition raw_field (f : bytes * bytes * bytes) : bytes :=
  f.1.1 ++ 58%Z :: f.1.2 ++ f.2 ++ CRLF.
Definition raw_ok (f : bytes * bytes * bytes) : Prop :=
  field_ok (f.1.1, f.2) /\ Forall (fun c => c = 32%Z \/ c = 9%Z) f.1.2.
#[export] Instance raw_ok_dec f : Decision (raw_ok f).
Proof. unfold raw_ok; apply _. Defined.
Definition field_of (f : bytes * bytes * bytes) : bytes * bytes := (f.1.1, f.2).
Definition with_sp (h : bytes * bytes) : bytes * bytes * bytes := (h.1, bs " ", h.2).

(** the fields are ((name, blanks), value) *)
Definition print_request (m u : bytes) (v : Z) (hs : list (bytes * bytes * bytes)) : bytes :=
  m ++ bs " " ++ u ++ bs " HTTP/1." ++ [48 + v]%Z ++ CRLF ++
  concat (raw_field <$> hs) ++ CRLF.

(** what the parsed offsets denote in the buffer *)
Definition view (buf : bytes) (t : nat * nat) : bytes := slice buf t.1 t.2.

Definition header_view (buf : bytes) (h : phr_header) : bytes * bytes :=
  (match name h with Some o => slice buf o (name_len h) | None => [] end,
   slice buf (value h) (value_len h)).

Lemma advance_loop_print t p rest :
  token_ok t ->
  advance_loop p (t ++ 32%Z :: rest) = POk tt (p + length t) (32%Z :: rest).
Proof.
  intros Ht. revert p; induction Ht as [|c t (Hb & Hc1 & Hc2) Ht IH]; intros p.
  - cbn. by rewrite Nat.add_0_r.
  - cbn [app advance_loop].
    destruct (c =? 32)%Z eqn:E; zbool; [lia|].
    replace ((c <? 32) || (c =? 127))%Z with false
      by (symmetry; apply orb_false_iff; split; [apply Z.ltb_ge|apply Z.eqb_neq]; lia).
    rewrite andb_false_r. rewrite IH. cbn [length]. rewrite <-Nat.add_succ_comm.
    by destruct t.
Qed.

Lemma token_then_step_print t p rest :
  token_ok t ->
  token_then_step false p (t ++ 32%Z :: rest) =
  POk (p, length t) (S (p + length t)) rest.
Proof.
  intros Ht. unfold token_then_step. rewrite ADVANCE_TOKEN_eq.
  replace (CHECK_EOF p (t ++ 32%Z :: rest)) with (POk tt p (t ++ 32%Z :: rest))
    by (by destruct t).
  cbn [pbind]. rewrite advance_loop_print by done. cbn [pbind].
  do 2 f_equal. lia.
Qed.

Lemma eol_tail_print v p rest :
  Forall (fun c => is_byte c /\ is_ctl c = false) v ->
  eol_tail p (v ++ CRLF ++ rest) = POk tt (p + length v) (CRLF ++ rest).
Proof.
  intros Hv. revert p; induction Hv as [|c v [_ Hc] Hv IH]; intros p.
  - cbn. by rewrite Nat.add_0_r.
  - cbn [app eol_tail]. rewrite Hc, andb_false_r, IH. cbn [length]. f_equal. lia.
Qed.

Lemma get_token_to_eol_print v p rest :
  Forall (fun c => is_byte c /\ is_ctl c = false) v ->
  get_token_to_eol false p (v ++ CRLF ++ rest) =
  POk (p, length v) (p + length v + 2) rest.
Proof.
  intros Hv. unfold get_token_to_eol. rewrite eol_scan_portable, eol_tail_print by done.
  cbn. do 2 f_equal; lia.
Qed.

Lemma name_loop_print n p rest :
  Forall (fun c => token_char c = true) n ->
  name_loop p (n ++ 58%Z :: rest) = POk tt (p + length n) (58%Z :: rest).
Proof.
  intros Hn. revert p; induction Hn as [|c n Hc Hn IH]; intros p.
  - cbn. by rewrite Nat.add_0_r.
  - cbn [app name_loop]. destruct (c =? 58)%Z eqn:E; zbool.
    { subst c. by vm_compute in Hc. }
    rewrite Hc. cbn [negb]. rewrite IH. cbn [length]. rewrite <-Nat.add_succ_comm.
    by destruct n.
Qed.

Lemma skip_blank_stop p c s :
  c <> 32%Z -> c <> 9%Z -> skip_blank p (c :: s) = POk tt p (c :: s).
Proof.
  intros H1 H2. cbn [skip_blank]. apply Z.eqb_neq in H1, H2. by rewrite H1, H2.
Qed.

Lemma skip_blank_ws ws v p rest :
  Forall (fun c => c = 32%Z \/ c = 9%Z) ws -> field_value_ok v ->
  skip_blank p (ws ++ v ++ CRLF ++ rest) = POk tt (p + length ws) (v ++ CRLF ++ rest).
Proof.
  intros Hws (_ & Hv2 & Hv3). revert p; induction Hws as [|c ws Hc Hws IH]; intros p.
  - cbn [app length]. rewrite Nat.add_0_r. destruct v as [|d v]; [done|].
    cbn [app]. by rewrite skip_blank_stop by (intros ->; done).
  - cbn [app skip_blank length]. rewrite IH, <-Nat.add_succ_comm. by destruct Hc as [-> | ->].
Qed.

Lemma parse_header_line_print k n ws v p rest :
  raw_ok (n, ws, v) ->
  exists c t, n = c :: t /\ (c =? 13)%Z = false /\ (c =? 10)%Z = false /\
  parse_header_line false k c p (raw_field (n, ws, v) ++ rest) =
  POk (mk_header (Some p) (length n) (p + length n + 1 + length ws) (length v))
      (p + length (raw_field (n, ws, v))) rest.
Proof.
  intros [[[Hn1 Hn2] Hv] Hws]. cbn [fst snd] in *.
  destruct n as [|c n]; [done|]. exists c, n. split; [done|].
  assert (token_char c = true) as Hc by (by inversion Hn2).
  assert (forall d, token_char d = false -> (c =? d)%Z = false) as Hneq.
  { intros d Hd. apply Z.eqb_neq. intros ->. congruence. }
  split; [by apply Hneq|]. split; [by apply Hneq|].
  unfold parse_header_line. rewrite (Hneq 32%Z), (Hneq 9%Z) by done.
  rewrite andb_false_r. cbn [negb]. rewrite parse_name_eq.
  assert (raw_field (c :: n, ws, v) ++ rest =
    (c :: n) ++ 58%Z :: ws ++ v ++ CRLF ++ rest) as ->.
  { unfold raw_field. cbn [fst snd]. rewrite <-!app_assoc. cbn [app]. by rewrite <-!app_assoc. }
  cbn [CHECK_EOF app pbind].
  rewrite (app_comm_cons n (58%Z :: ws ++ v ++ CRLF ++ rest) c).
  rewrite name_loop_print by done. cbn [pbind].
  replace (p + length (c :: n) - p =? 0)%nat with false
    by (symmetry; apply Nat.eqb_neq; simpl; lia).
  rewrite skip_blank_ws by done. cbn [pbind fst snd].
  rewrite get_token_to_eol_print by apply Hv.
  cbn [pbind fst snd]. unfold raw_field. cbn [fst snd]. rewrite length_app. cbn [length].
  rewrite !length_app. cbn [length CRLF]. f_equal; [f_equal|]; lia.
Qed.

(** the headers of a printed block, starting at position [p] *)
Fixpoint printed_headers (p : nat) (hs : list (bytes * bytes * bytes)) : list phr_header :=
  match hs with
  | [] => []
  | h :: hs =>
      mk_header (Some p) (length h.1.1) (p + length h.1.1 + 1 + length h.1.2) (length h.2)
      :: printed_headers (p + length (raw_field h)) hs
  end.

Lemma parse_headers_print room acc hs p rest :
  length hs <= room -> Forall raw_ok hs ->
  parse_headers false room acc p (concat (raw_field <$> hs) ++ CRLF ++ rest) =
  (acc ++ printed_headers p hs,
   POk tt (p + length (concat (raw_field <$> hs) ++ CRLF)) rest).
Proof.
  intros Hr Hok. revert room acc p Hr; induction Hok as [|[[n ws] v] hs Hh Hok IH]; intros room acc p Hr.
  - destruct room; cbn; rewrite app_nil_r; do 2 f_equal; lia.
  - destruct room as [|room]; [simpl in Hr; lia|]. simpl in Hr.
    destruct (parse_header_line_print (length acc) n ws v p
      (concat (raw_field <$> hs) ++ CRLF ++ rest) Hh) as (c & t & Hn & H13 & H10 & Hline).
    assert (concat (raw_field <$> (n, ws, v) :: hs) ++ CRLF ++ rest =
      raw_field (n, ws, v) ++ concat (raw_field <$> hs) ++ CRLF ++ rest) as ->
      by (rewrite fmap_cons; cbn [concat]; by rewrite <-app_assoc).
    assert (exists u, raw_field (n, ws, v) ++ concat (raw_field <$> hs) ++ CRLF ++ rest = c :: u) as [u Eu].
    { eexists. unfold raw_field at 1. cbn [fst snd]. rewrite Hn. cbn [app]. reflexivity. }
    rewrite Eu. cbn [parse_headers]. rewrite H13, H10, <-Eu.
    rewrite Hline. rewrite IH by lia. rewrite <-app_assoc. cbn [printed_headers app fst snd].
    f_equal. f_equal. rewrite fmap_cons. cbn [concat]. rewrite !length_app. lia.
Qed.

Lemma printed_headers_view pre hs post :
  header_view (pre ++ concat (raw_field <$> hs) ++ post) <$>
    printed_headers (length pre) hs = field_of <$> hs.
Proof.
  revert pre; induction hs as [|[[n ws] v] hs IH]; intros pre; [done|].
  cbn [printed_headers]. rewrite !fmap_cons. f_equal.
  - unfold header_view, field_of. cbn [name name_len value value_len fst snd].
    cbn [concat]. unfold raw_field at 1 3. cbn [fst snd].
    f_equal.
    + rewrite <-!app_assoc. apply slice_app_exact.
    + replace (length pre + length n + 1 + length ws) with (length (pre ++ n ++ 58%Z :: ws))
        by (rewrite !length_app; cbn [length]; lia).
      etransitivity; [|apply (slice_app_exact (pre ++ n ++ 58%Z :: ws) v
        (CRLF ++ concat (raw_field <$> hs) ++ post))].
      f_equal. rewrite <-!app_assoc. cbn [app]. by rewrite <-!app_assoc.
  - specialize (IH (pre ++ raw_field (n, ws, v))). rewrite length_app in IH.
    etransitivity; [|exact IH]. cbn [concat].
    by rewrite <-!app_assoc.
Qed.

Lemma with_sp_ok hs : Forall field_ok hs -> Forall raw_ok (with_sp <$> hs).
Proof.
  intros H. apply Forall_fmap. eapply Forall_impl; [exact H|]. intros [n v] Hf. split; [done|].
  cbn. constructor; [by left|constructor].
Qed.

Lemma concat_with_sp (hs : list (bytes * bytes)) : concat (raw_field <$> (with_sp <$> hs)) = concat (print_field <$> hs).
Proof. by rewrite <-list_fmap_compose. Qed.

Lemma field_of_with_sp (hs : list (bytes * bytes)) : field_of <$> (with_sp <$> hs) = hs.
Proof. rewrite <-list_fmap_compose. rewrite <-(list_fmap_id hs) at 2. apply list_fmap_ext. by intros ? []. Qed.

Lemma skip_empty_line_token m p rest :
  token_ok m -> m <> [] ->
  skip_empty_line p (m ++ rest) = POk tt p (m ++ rest).
Proof.
  intros Hm Hne. destruct m as [|c m]; [done|]. inversion Hm as [|? ? (_ & H & _)]; subst.
  cbn [app skip_empty_line].
  replace (c =? 13)%Z with false by (symmetry; apply Z.eqb_neq; lia).
  by replace (c =? 10)%Z with false by (symmetry; apply Z.eqb_neq; lia).
Qed.

Lemma expect_all_app l p s :
  expect_all l p (l ++ s) = POk tt (p + length l) s.
Proof.
  revert p; induction l as [|c l IH]; intros p; cbn [expect_all app length].
  - by rewrite Nat.add_0_r.
  - cbn [EXPECT_CHAR_NO_CHECK]. rewrite Z.eqb_refl. cbn [pbind]. rewrite IH. f_equal. lia.
Qed.

Lemma parse_http_version_print v p c rest :
  (0 <= v <= 9)%Z ->
  parse_http_version p (bs "HTTP/1." ++ (48 + v)%Z :: c :: rest) =
  POk v (p + 8) (c :: rest).
Proof.
  intros Hv. unfold parse_http_version.
  replace (length _ <? 9)%nat with false by (symmetry; apply Nat.ltb_ge; simpl; lia).
  rewrite expect_all_app. cbn [pbind app PARSE_INT].
  rewrite schar_digit by (unfold is_byte; lia).
  replace (isdigit (48 + v)) with true.
  - cbn [negb]. f_equal; simpl; lia.
  - symmetry. unfold isdigit. apply andb_true_iff. rewrite !Z.leb_le. lia.
Qed.

Lemma parse_request_print mh p m u v hs rest :
  token_ok m -> m <> [] -> token_ok u -> (0 <= v <= 9)%Z ->
  Forall raw_ok hs -> length hs <= mh ->
  parse_request false mh p (print_request m u v hs ++ rest) =
  (mk_req_out (Some (p, length m)) (Some (p + length m + 1, length u)) v
     (printed_headers (p + length m + length u + 12) hs),
   POk tt (p + length (print_request m u v hs)) rest).
Proof.
  intros Hm Hne Hu Hv Hhs Hlen. unfold parse_request, print_request.
  rewrite <-!app_assoc, skip_empty_line_token by done.
  change (bs " " ++ ?x) with (32%Z :: x). rewrite token_then_step_print by done.
  change (bs " HTTP/1." ++ ?x) with (32%Z :: bs "HTTP/1." ++ x).
  rewrite token_then_step_print by done.
  unfold CRLF at 1. cbn [app].
  rewrite (parse_http_version_print v _ 13%Z) by done.
  cbn [request_line_end]. change (13 =? 13)%Z with true. cbn [EXPECT_CHAR CHECK_EOF pbind].
  cbn [EXPECT_CHAR_NO_CHECK]. change (10 =? 10)%Z with true. cbv iota.
  rewrite parse_headers_print by done. rewrite app_nil_l.
  f_equal; [f_equal; [do 2 f_equal; lia|f_equal; lia]|].
  f_equal. rewrite !length_app. cbn [length]. rewrite !length_app. cbn [length].
  rewrite !length_app. cbn [length]. rewrite !length_app. simpl. lia.
Qed.

(** ** Properties *)

(** a decision of phr_parse_request at offset [ll], with the out parameters *)
Lemma phr_parse_request_stable buf ext mh ll r :
  ll <= length buf ->
  (phr_parse_request false buf mh ll).2 = Some r -> r <> (-2)%Z ->
  phr_parse_request false (buf ++ ext) mh ll = phr_parse_request false buf mh ll.
Proof.
  intros Hll. unfold phr_parse_request.
  assert (stable ext (if (ll =? 0)%nat then POk tt 0 buf else is_complete ll 0 buf)
    (if (ll =? 0)%nat then POk tt 0 (buf ++ ext) else is_complete ll 0 (buf ++ ext))) as Hc.
  { destruct (ll =? 0)%nat; [done|]. by apply is_complete_stable. }
  assert (in_bounds 0 buf (if (ll =? 0)%nat then POk tt 0 buf else is_complete ll 0 buf)) as Hb.
  { destruct (ll =? 0)%nat; [simpl; auto with netcore|]. by apply is_complete_bounds. }
  destruct (if (ll =? 0)%nat then POk tt 0 buf else is_complete ll 0 buf) as [[] q t|r0|];
    cbn [stable] in Hc; [rewrite Hc| |done].
  - rewrite !advance_ptr_Ok by (rewrite ?length_app; lia).
    rewrite drop_app_le by lia. pose proof (parse_request_stable ext mh (0 + ll) (drop ll buf)) as Hs.
    unfold stable_out in Hs.
    pose proof (parse_request_bounds mh (0 + ll) (drop ll buf)) as Hb2.
    destruct (parse_request false mh (0 + ll) (drop ll buf)) as [o [u q' t'|r1|]]; cbn [fst snd] in *.
    + by rewrite Hs.
    + intros [= <-] Hr. destruct Hb2 as [->| ->]; [|done]. by rewrite Hs.
    + done.
  - intros [= <-] Hr. cbn in Hb. destruct Hb as [->| ->]; [|done]. by rewrite (Hc eq_refl).
Qed.

Lemma phr_parse_request_safe (sse : bool) (buf : bytes) (max_headers last_len : nat) :
  Forall is_byte buf -> last_len <= length buf ->
  exists r, (phr_parse_request sse buf max_headers last_len).2 = Some r /\
    (r = -1 \/ r = -2 \/ exists n, r = to_int32 n /\ 0 < n <= Z.of_nat (length buf) - Z.of_nat last_len)%Z /\
    req_out_in (length buf) (phr_parse_request sse buf max_headers last_len).1 /\
    length (headers (phr_parse_request sse buf max_headers last_len).1) <= max_headers.
Proof.
  intros Hbuf Hll.
  assert (phr_parse_request sse buf max_headers last_len =
    phr_parse_request false buf max_headers last_len) as ->.
  { destruct sse; [by apply phr_parse_request_sse|done]. }
  assert (req_out_in (length buf) req_out0 /\ length (headers req_out0) <= max_headers) as H0.
  { split; [|simpl; lia]. split; [done|]. split; [done|constructor]. }
  unfold phr_parse_request.
  assert (in_bounds 0 buf
    (if (last_len =? 0)%nat then POk tt 0 buf else is_complete last_len 0 buf)) as Hb.
  { destruct (last_len =? 0)%nat; [simpl; auto with netcore|]. by apply is_complete_bounds. }
  destruct (if (last_len =? 0)%nat then _ else _) as [u q t|r0|]; cbn [in_bounds] in Hb.
  - rewrite advance_ptr_Ok by done. cbn [Nat.add].
    pose proof (parse_request_bounds max_headers last_len (drop last_len buf)) as Hb2.
    pose proof (parse_request_progress max_headers last_len (drop last_len buf)) as Hp.
    pose proof (parse_request_out max_headers last_len (drop last_len buf)) as Ho.
    rewrite length_drop in Ho. replace (last_len + (length buf - last_len)) with (length buf) in Ho by lia.
    destruct (parse_request false max_headers last_len (drop last_len buf)) as [o [u' q' t'|r1|]];
      cbn [fst snd in_bounds phr_ret] in *; [| |done].
    + specialize (Hp _ _ _ eq_refl). apply moved_le in Hb2. rewrite length_drop in Hb2.
      eexists. split; [done|]. split; [|done]. right; right. eexists. split; [reflexivity|lia].
    + eexists. split; [done|]. split; [lia|done].
  - eexists. split; [done|]. split; [lia|done].
  - done.
Qed.

(** C8. Memory safety of the request parser, in both builds: for every buffer
    of bytes, every header limit and every resume offset inside the buffer,
    phr_parse_request returns (it never reads at or past [buf_end]); the result
    is -1, -2 or a positive number of bytes that are in the buffer, cast to int,
    and that number itself when the buffer is shorter than 2^31; and every
    pointer/length pair it stores (method, path, names and values), also on the
    error paths, denotes bytes of the buffer, with at most [max_headers]
    headers. *)
Theorem request_parser_memory_safe (sse : bool) (buf : bytes) (max_headers last_len : nat) :
  Forall is_byte buf -> last_len <= length buf ->
  exists r, (phr_parse_request sse buf max_headers last_len).2 = Some r /\
    (r = -1 \/ r = -2 \/ exists n, r = to_int32 n /\ 0 < n <= Z.of_nat (length buf) - Z.of_nat last_len)%Z /\
    (Z.of_nat (length buf) < 2 ^ 31 ->
       r = -1 \/ r = -2 \/ 0 < r <= Z.of_nat (length buf) - Z.of_nat last_len)%Z /\
    req_out_in (length buf) (phr_parse_request sse buf max_headers last_len).1 /\
    length (headers (phr_parse_request sse buf max_headers last_len).1) <= max_headers.
Proof.
  intros Hb Hl. destruct (phr_parse_request_safe sse buf max_headers last_len Hb Hl) as (r & Hr & Hres & Ho).
  exists r. split; [done|]. split; [done|]. split; [|done]. intros Hlen.
  destruct Hres as [?|[?|(n & -> & Hn)]]; [by left|by right; left|right; right]. rewrite to_int32_small; lia.
Qed.

(** C38. The SSE4.2 build and the portable build of the request parser are
    equivalent: on every buffer of bytes, header limit and resume offset they
    return the same code and store the same out parameters. *)
Theorem request_parser_sse_equiv (buf : bytes) (max_headers last_len : nat) :
  Forall is_byte buf ->
  phr_parse_request true buf max_headers last_len =
  phr_parse_request false buf max_headers last_len.
Proof. apply phr_parse_request_sse. Qed.

(** C37. A decision of the request parser is final: once it has accepted the
    header block (a non-negative result) or rejected it (-1), appending the
    bytes that arrive later to the buffer changes neither the result nor any
    stored pointer or length. *)
Theorem request_parser_decision_stable (sse : bool) (buf ext : bytes)
    (max_headers last_len : nat) (r : Z) :
  Forall is_byte buf -> Forall is_byte ext -> last_len <= length buf ->
  (phr_parse_request sse buf max_headers last_len).2 = Some r -> r <> (-2)%Z ->
  phr_parse_request sse (buf ++ ext) max_headers last_len =
  phr_parse_request sse buf max_headers last_len.
Proof.
  intros Hb He Hll. destruct sse.
  - rewrite !phr_parse_request_sse by (rewrite ?Forall_app; done).
    by apply phr_parse_request_stable.
  - by apply phr_parse_request_stable.
Qed.

(** C13. Parse inverts print: a request with a non-empty method, a target, a
    minor version and at most [max_headers] well-formed header fields, followed
    by anything, is accepted; the result is the length of the header block, cast
    to int (so the length itself below 2^31), and the stored pointers denote
    exactly the method, the target, the version and the names and values of the
    fields, in order, without the blanks between the colon and the value. *)
Theorem request_parse_print (sse : bool) (m u : bytes) (v : Z)
    (hs : list (bytes * bytes * bytes)) (body : bytes) (max_headers : nat) :
  token_ok m -> m <> [] -> token_ok u -> (0 <= v <= 9)%Z ->
  Forall raw_ok hs -> length hs <= max_headers ->
  Forall is_byte (print_request m u v hs ++ body) ->
  let buf := print_request m u v hs ++ body in
  exists o, phr_parse_request sse buf max_headers 0 =
      (o, Some (to_int32 (Z.of_nat (length (print_request m u v hs))))) /\
    (view buf <$> method o) = Some m /\ (view buf <$> path o) = Some u /\
    minor_version o = v /\ header_view buf <$> headers o = field_of <$> hs.
Proof.
  intros Hm Hne Hu Hv Hhs Hlen Hb buf.
  assert (phr_parse_request sse buf max_headers 0 = phr_parse_request false buf max_headers 0) as ->.
  { destruct sse; [by apply phr_parse_request_sse|done]. }
  unfold phr_parse_request. rewrite advance_ptr_Ok, drop_0 by lia.
  cbn [Nat.eqb Nat.add]. subst buf.
  rewrite parse_request_print by done. eexists. split.
  { cbn [phr_ret]. do 3 f_equal. lia. }
  cbn [method path minor_version headers fmap option_fmap option_map].
  unfold print_request. rewrite <-!app_assoc. split; [|split; [|split; [done|]]].
  - f_equal. unfold view. cbn [fst snd Nat.add].
    apply (slice_app_exact [] m).
  - f_equal. unfold view. cbn [fst snd].
    replace (0 + length m + 1) with (length (m ++ bs " ")) by (rewrite length_app; simpl; lia).
    rewrite (app_assoc m). apply slice_app_exact.
  - set (pre := m ++ bs " " ++ u ++ bs " HTTP/1." ++ [(48 + v)%Z] ++ CRLF).
    replace (0 + length m + length u + 12) with (length pre)
      by (unfold pre; rewrite !length_app; simpl; lia).
    rewrite <-(printed_headers_view pre _ (CRLF ++ body)). unfold pre. by rewrite <-!app_assoc.
Qed.

Definition sample_request : bytes :=
  bs "GET /index.html?a=1 HTTP/1.1" ++ CRLF ++ bs "Host: example.org" ++ CRLF ++
  bs "Connection: keep-alive" ++ CRLF ++ CRLF ++ bs "tail".

Lemma sample_request_bytes : Forall is_byte sample_request.
Proof. by apply (bool_decide_unpack _); vm_compute. Qed.

Lemma request_parser_memory_safe_witness :
  exists r, (phr_parse_request true sample_request 8 0).2 = Some r /\
    (r = -1 \/ r = -2 \/ exists n, r = to_int32 n /\ 0 < n <= Z.of_nat (length sample_request) - Z.of_nat 0)%Z /\
    (Z.of_nat (length sample_request) < 2 ^ 31 ->
       r = -1 \/ r = -2 \/ 0 < r <= Z.of_nat (length sample_request) - Z.of_nat 0)%Z /\
    req_out_in (length sample_request) (phr_parse_request true sample_request 8 0).1 /\
    length (headers (phr_parse_request true sample_request 8 0).1) <= 8.
Proof.
  apply (request_parser_memory_safe true sample_request 8 0);
    [exact sample_request_bytes|vm_compute; lia].
Defined.

Lemma request_parser_sse_equiv_witness :
  phr_parse_request true sample_request 8 0 = phr_parse_request false sample_request 8 0.
Proof. apply (request_parser_sse_equiv sample_request 8 0), sample_request_bytes. Defined.

Lemma request_parser_decision_stable_witness :
  phr_parse_request true (sample_request ++ bs "more") 8 0 =
  phr_parse_request true sample_request 8 0.
Proof.
  apply (request_parser_decision_stable true sample_request (bs "more") 8 0 75);
    [exact sample_request_bytes|apply bs_bytes|vm_compute; lia|by vm_compute|done].
Defined.

Lemma request_parse_print_witness :
  let buf := print_request (bs "POST") (bs "/up") 1 [(bs "Host", [], bs "a.b"); (bs "X-A", bs "  ", bs "1 2")]
             ++ bs "body" in
  exists o, phr_parse_request true buf 32 0 = (o, Some 42%Z) /\
    (view buf <$> method o) = Some (bs "POST") /\ (view buf <$> path o) = Some (bs "/up") /\
    minor_version o = 1%Z /\
    header_view buf <$> headers o = [(bs "Host", bs "a.b"); (bs "X-A", bs "1 2")].
Proof.
  apply (request_parse_print true (bs "POST") (bs "/up") 1
    [(bs "Host", [], bs "a.b"); (bs "X-A", bs "  ", bs "1 2")] (bs "body") 32);
    solve [lia | done | apply (bool_decide_unpack _); vm_compute; exact I | vm_compute; lia].
Defined.
