(* ===== verification/Chunked.v ===== *)
(** * Chunked transfer coding

    The in-place decoder phr_decode_chunked of
    src/include/netcore/picohttpparser.h and the encoder to_chunked_buffers of
    src/include/netcore/response.hpp.  The decoder works on the buffer as the
    source does: [src] and [dst] index one list of bytes and [memmove] copies
    inside it.  The reference decoder [chunk_ref] reads one byte at a time; the
    implementation is proved to refine it. *)

From Stdlib Require Import ZArith Lia.
From stdpp Require Import base numbers list strings.
From S2P Require Import Prelude CStd.

Inductive chunked_state :=
| CHUNKED_IN_CHUNK_SIZE
| CHUNKED_IN_CHUNK_EXT
| CHUNKED_IN_CHUNK_DATA
| CHUNKED_IN_CHUNK_CRLF
| CHUNKED_IN_TRAILERS_LINE_HEAD
| CHUNKED_IN_TRAILERS_LINE_MIDDLE.

#[export] Instance chunked_state_eq_dec : EqDecision chunked_state.
Proof. solve_decision. Defined.

Record phr_chunked_decoder := mk_decoder {
  bytes_left_in_chunk : Z;
  consume_trailer : bool;
  _hex_count : Z;
  _state : chunked_state
}.

Definition decoder0 (trailer : bool) : phr_chunked_decoder :=
  mk_decoder 0 trailer 0 CHUNKED_IN_CHUNK_SIZE.

Definition set_left (d : phr_chunked_decoder) (n : Z) : phr_chunked_decoder :=
  mk_decoder n (consume_trailer d) (_hex_count d) (_state d).
Definition set_hex (d : phr_chunked_decoder) (n : Z) : phr_chunked_decoder :=
  mk_decoder (bytes_left_in_chunk d) (consume_trailer d) n (_state d).
Definition set_state (d : phr_chunked_decoder) (s : chunked_state) : phr_chunked_decoder :=
  mk_decoder (bytes_left_in_chunk d) (consume_trailer d) (_hex_count d) s.

Definition decode_hex (ch : Z) : Z :=
  if ((48 <=? ch) && (ch <=? 57))%Z then (ch - 48)%Z
  else if ((65 <=? ch) && (ch <=? 70))%Z then (ch - 65 + 10)%Z
  else if ((97 <=? ch) && (ch <=? 102))%Z then (ch - 97 + 10)%Z
  else (-1)%Z.

(** ** The decoder on the buffer *)

Record cfg := mk_cfg {
  dec : phr_chunked_decoder;
  cbuf : bytes;
  src : nat;
  dst : nat
}.

(** [goto Exit] with [ret], [goto Complete], or [break] out of the switch *)
Inductive outcome :=
| Exit (ret : Z) (c : cfg)
| Complete (c : cfg)
| Again (c : cfg).

Definition memmove (buf : bytes) (to from n : nat) : bytes :=
  take to buf ++ slice buf from n ++ drop (to + n) buf.

Definition at_src (c : cfg) (d : phr_chunked_decoder) (i : nat) : cfg :=
  mk_cfg d (cbuf c) i (dst c).

(** for (;; ++src) { if (src == bufsz) goto Exit; if (stop(buf[src])) break; }
    gives the position of the stop byte, or the end *)
Fixpoint scan_until (stop : Z -> bool) (i : nat) (s : bytes) : nat :=
  match s with
  | [] => i
  | b :: s => if stop b then i else scan_until stop (S i) s
  end.

(** the size loop; [inl] leaves by [goto Exit], [inr] by [break] *)
Fixpoint size_loop (d : phr_chunked_decoder) (i : nat) (s : bytes)
  : (Z * phr_chunked_decoder * nat) + (phr_chunked_decoder * nat) :=
  match s with
  | [] => inl ((-2)%Z, d, i)
  | b :: s =>
      let v := decode_hex b in
      if (v =? -1)%Z then
        if (_hex_count d =? 0)%Z then inl ((-1)%Z, d, i) else inr (d, i)
      else if (_hex_count d =? 16)%Z then inl ((-1)%Z, d, i)
      else
        size_loop (mk_decoder (wrap64 (bytes_left_in_chunk d * 16 + v)) (consume_trailer d)
                     (_hex_count d + 1) (_state d)) (S i) s
  end.

Definition case_crlf (c : cfg) : outcome :=
  let bufsz := length (cbuf c) in
  let i := scan_until (fun b => negb (b =? 13)%Z) (src c) (drop (src c) (cbuf c)) in
  if (i =? bufsz)%nat then Exit (-2) (at_src c (dec c) i)
  else if negb (default 0%Z (cbuf c !! i) =? 10)%Z then Exit (-1) (at_src c (dec c) i)
  else Again (at_src c (set_state (dec c) CHUNKED_IN_CHUNK_SIZE) (S i)).

Definition case_data (c : cfg) : outcome :=
  let bufsz := length (cbuf c) in
  let d := dec c in
  let avail := bufsz - src c in
  if (Z.of_nat avail <? bytes_left_in_chunk d)%Z then
    let buf := if (dst c =? src c)%nat then cbuf c
               else memmove (cbuf c) (dst c) (src c) avail in
    Exit (-2) (mk_cfg (set_left d (bytes_left_in_chunk d - Z.of_nat avail)) buf
                 (src c + avail) (dst c + avail))
  else
    let n := Z.to_nat (bytes_left_in_chunk d) in
    let buf := if (dst c =? src c)%nat then cbuf c
               else memmove (cbuf c) (dst c) (src c) n in
    case_crlf (mk_cfg (set_state (set_left d 0) CHUNKED_IN_CHUNK_CRLF) buf
                 (src c + n) (dst c + n)).

Definition case_ext (c : cfg) : outcome :=
  let bufsz := length (cbuf c) in
  let i := scan_until (fun b => b =? 10)%Z (src c) (drop (src c) (cbuf c)) in
  if (i =? bufsz)%nat then Exit (-2) (at_src c (dec c) i)
  else if (bytes_left_in_chunk (dec c) =? 0)%Z then
    if consume_trailer (dec c)
    then Again (at_src c (set_state (dec c) CHUNKED_IN_TRAILERS_LINE_HEAD) (S i))
    else Complete (at_src c (dec c) (S i))
  else case_data (at_src c (set_state (dec c) CHUNKED_IN_CHUNK_DATA) (S i)).

Definition case_size (c : cfg) : outcome :=
  match size_loop (dec c) (src c) (drop (src c) (cbuf c)) with
  | inl (r, d, i) => Exit r (at_src c d i)
  | inr (d, i) => case_ext (at_src c (set_state (set_hex d 0) CHUNKED_IN_CHUNK_EXT) i)
  end.

Definition case_middle (c : cfg) : outcome :=
  let bufsz := length (cbuf c) in
  let i := scan_until (fun b => b =? 10)%Z (src c) (drop (src c) (cbuf c)) in
  if (i =? bufsz)%nat then Exit (-2) (at_src c (dec c) i)
  else Again (at_src c (set_state (dec c) CHUNKED_IN_TRAILERS_LINE_HEAD) (S i)).

Definition case_head (c : cfg) : outcome :=
  let bufsz := length (cbuf c) in
  let i := scan_until (fun b => negb (b =? 13)%Z) (src c) (drop (src c) (cbuf c)) in
  if (i =? bufsz)%nat then Exit (-2) (at_src c (dec c) i)
  else if (default 0%Z (cbuf c !! i) =? 10)%Z then Complete (at_src c (dec c) (S i))
  else case_middle (at_src c (set_state (dec c) CHUNKED_IN_TRAILERS_LINE_MIDDLE) (S i)).

(** the body of [switch (decoder->_state)] *)
Definition switch_state (c : cfg) : outcome :=
  match _state (dec c) with
  | CHUNKED_IN_CHUNK_SIZE => case_size c
  | CHUNKED_IN_CHUNK_EXT => case_ext c
  | CHUNKED_IN_CHUNK_DATA => case_data c
  | CHUNKED_IN_CHUNK_CRLF => case_crlf c
  | CHUNKED_IN_TRAILERS_LINE_HEAD => case_head c
  | CHUNKED_IN_TRAILERS_LINE_MIDDLE => case_middle c
  end.

(** the labels Complete and Exit: the result, the decoder, the buffer, *_bufsz *)
Definition finish (ret : Z) (c : cfg) : Z * phr_chunked_decoder * bytes * nat :=
  let bufsz := length (cbuf c) in
  let buf := if (dst c =? src c)%nat then cbuf c
             else memmove (cbuf c) (dst c) (src c) (bufsz - src c) in
  (ret, dec c, buf, dst c).

(** while (1); [None] when the fuel runs out *)
Fixpoint decode_loop (fuel : nat) (c : cfg)
  : option (Z * phr_chunked_decoder * bytes * nat) :=
  match fuel with
  | O => None
  | S fuel =>
      match switch_state c with
      | Exit ret c => Some (finish ret c)
      | Complete c => Some (finish (Z.of_nat (length (cbuf c)) - Z.of_nat (src c)) c)
      | Again c => decode_loop fuel c
      end
  end.

Definition phr_decode_chunked (d : phr_chunked_decoder) (buf : bytes)
  : option (Z * phr_chunked_decoder * bytes * nat) :=
  decode_loop (S (length buf)) (mk_cfg d buf 0 0).

Definition phr_decode_chunked_is_in_data (d : phr_chunked_decoder) : bool :=
  bool_decide (_state d = CHUNKED_IN_CHUNK_DATA).

(** ** The encoder *)

(** utils.hpp: to_hex_string *)
Definition to_hex_string (value : Z) : bytes := hex_string value.

Definition last_chunk : bytes := bs "0" ++ CRLF.

Definition to_chunked_buffers (chunk_data : bytes) (eof : bool) : bytes :=
  (if (0 <? Z.of_nat (length chunk_data))%Z
   then to_hex_string (Z.of_nat (length chunk_data)) ++ CRLF ++ chunk_data ++ CRLF
   else []) ++
  (if eof then last_chunk ++ CRLF else []).

(** ** The reference decoder: one byte at a time *)

Inductive ref_step :=
| RGo (d : phr_chunked_decoder) (out : bytes)
| RDone
| RErr.

Definition ref_ext (d : phr_chunked_decoder) (b : Z) : ref_step :=
  if (b =? 10)%Z then
    if (bytes_left_in_chunk d =? 0)%Z then
      if consume_trailer d then RGo (set_state d CHUNKED_IN_TRAILERS_LINE_HEAD) [] else RDone
    else RGo (set_state d CHUNKED_IN_CHUNK_DATA) []
  else RGo d [].

Definition ref_byte (d : phr_chunked_decoder) (b : Z) : ref_step :=
  match _state d with
  | CHUNKED_IN_CHUNK_SIZE =>
      let v := decode_hex b in
      if (v =? -1)%Z then
        if (_hex_count d =? 0)%Z then RErr
        else ref_ext (set_state (set_hex d 0) CHUNKED_IN_CHUNK_EXT) b
      else if (_hex_count d =? 16)%Z then RErr
      else RGo (mk_decoder (bytes_left_in_chunk d * 16 + v) (consume_trailer d)
                  (_hex_count d + 1) CHUNKED_IN_CHUNK_SIZE) []
  | CHUNKED_IN_CHUNK_EXT => ref_ext d b
  | CHUNKED_IN_CHUNK_DATA =>
      RGo (if (bytes_left_in_chunk d =? 1)%Z
           then set_state (set_left d 0) CHUNKED_IN_CHUNK_CRLF
           else set_left d (bytes_left_in_chunk d - 1)) [b]
  | CHUNKED_IN_CHUNK_CRLF =>
      if (b =? 13)%Z then RGo d []
      else if (b =? 10)%Z then RGo (set_state d CHUNKED_IN_CHUNK_SIZE) []
      else RErr
  | CHUNKED_IN_TRAILERS_LINE_HEAD =>
      if (b =? 13)%Z then RGo d []
      else if (b =? 10)%Z then RDone
      else RGo (set_state d CHUNKED_IN_TRAILERS_LINE_MIDDLE) []
  | CHUNKED_IN_TRAILERS_LINE_MIDDLE =>
      if (b =? 10)%Z then RGo (set_state d CHUNKED_IN_TRAILERS_LINE_HEAD) [] else RGo d []
  end.

Inductive ref_result :=
| RMore (d : phr_chunked_decoder) (out : bytes)
| RFinished (out rest : bytes)
| RFailed (out : bytes).

Fixpoint chunk_ref (d : phr_chunked_decoder) (s : bytes) (out : bytes) : ref_result :=
  match s with
  | [] => RMore d out
  | b :: s =>
      match ref_byte d b with
      | RGo d' o => chunk_ref d' s (out ++ o)
      | RDone => RFinished out s
      | RErr => RFailed out
      end
  end.

(** the states a decoder can be left in: in the size state, the bytes counted
    so far come from at most 16 digits; inside a chunk some byte is missing *)
Definition decoder_ok (d : phr_chunked_decoder) : Prop :=
  (0 <= bytes_left_in_chunk d < 2 ^ 64)%Z /\
  match _state d with
  | CHUNKED_IN_CHUNK_SIZE =>
      (0 <= _hex_count d <= 16)%Z /\ (bytes_left_in_chunk d < 16 ^ _hex_count d)%Z
  | CHUNKED_IN_CHUNK_DATA => (0 < bytes_left_in_chunk d)%Z /\ _hex_count d = 0%Z
  | CHUNKED_IN_CHUNK_EXT => _hex_count d = 0%Z
  | _ => bytes_left_in_chunk d = 0%Z /\ _hex_count d = 0%Z
  end.

(** ** Refinement of the reference decoder *)

(** configuration [c] stands for decoder [d], decoded bytes [out], input [s] *)
Record rel (c : cfg) (d : phr_chunked_decoder) (out s : bytes) : Prop := mk_rel {
  rel_dec : dec c = d;
  rel_out : take (dst c) (cbuf c) = out;
  rel_in : drop (src c) (cbuf c) = s;
  rel_le : dst c <= src c;
  rel_src : src c <= length (cbuf c)
}.

(** what an outcome of the switch says about the reference run on [d, s, out] *)
Definition simulates (d : phr_chunked_decoder) (s out : bytes) (o : outcome) : Prop :=
  match o with
  | Exit ret c =>
      exists d' out' s', rel c d' out' s' /\
      ((ret = (-2)%Z /\ s' = [] /\ decoder_ok d' /\ chunk_ref d s out = RMore d' out') \/
       (ret = (-1)%Z /\ chunk_ref d s out = RFailed out'))
  | Complete c => exists d' out' s', rel c d' out' s' /\ chunk_ref d s out = RFinished out' s'
  | Again c => exists d' out' s', rel c d' out' s' /\ decoder_ok d' /\
      length s' < length s /\ chunk_ref d s out = chunk_ref d' s' out'
  end.

Lemma simulates_from d1 s1 out1 d s out o :
  chunk_ref d s out = chunk_ref d1 s1 out1 -> length s1 <= length s ->
  simulates d1 s1 out1 o -> simulates d s out o.
Proof.
  intros E L. destruct o as [r c|c|c]; simpl; rewrite E; [done|done|].
  intros (d' & out' & s' & H1 & H2 & H3 & H4). exists d', out', s'. split_and!; [done..|lia|done].
Qed.

Lemma rel_at_src c d out s d' i :
  rel c d out s -> i <= length s ->
  rel (at_src c d' (src c + i)) d' out (drop i s).
Proof.
  intros [Hd Ho Hi Hle Hs] L. split; simpl; [done|done| | |].
  - rewrite <-drop_drop. by rewrite Hi.
  - lia.
  - rewrite <-Hi, length_drop in L. lia.
Qed.

(** skipping bytes that leave the decoder unchanged *)
Lemma scan_ref stop d i s out :
  (forall b, stop b = false -> ref_byte d b = RGo d []) ->
  exists n, scan_until stop i s = i + n /\
  ((n = length s /\ chunk_ref d s out = RMore d out) \/
   (exists b s', drop n s = b :: s' /\ stop b = true /\ n < length s /\
      chunk_ref d s out = chunk_ref d (b :: s') out)).
Proof.
  intros Hskip. revert i; induction s as [|b s IH]; intros i; cbn [scan_until].
  - exists 0. split; [lia|]. by left.
  - destruct (stop b) eqn:E.
    + exists 0. split; [lia|]. right. exists b, s. simpl. split_and!; [done..|lia|done].
    + destruct (IH (S i)) as (n & -> & H). exists (S n). split; [lia|].
      assert (chunk_ref d (b :: s) out = chunk_ref d s out) as Ec.
      { cbn [chunk_ref]. by rewrite Hskip, app_nil_r. }
      rewrite Ec. destruct H as [[-> H]|(b' & s' & H1 & H2 & H3 & H4)]; [by left|].
      right. exists b', s'. simpl. split_and!; [done..|lia|done].
Qed.

Lemma data_ref d s out :
  _state d = CHUNKED_IN_CHUNK_DATA -> (0 < bytes_left_in_chunk d)%Z ->
  let n := bytes_left_in_chunk d in
  chunk_ref d s out =
  if (Z.of_nat (length s) <? n)%Z
  then RMore (set_left d (n - Z.of_nat (length s))) (out ++ s)
  else chunk_ref (set_state (set_left d 0) CHUNKED_IN_CHUNK_CRLF)
         (drop (Z.to_nat n) s) (out ++ take (Z.to_nat n) s).
Proof.
  destruct d as [n tr hx st]; simpl. intros -> Hn. revert n out Hn.
  induction s as [|b s IH]; intros n out Hn.
  - simpl. change (Z.of_nat 0) with 0%Z. rewrite Z.sub_0_r, app_nil_r.
    by replace (0 <? n)%Z with true by (symmetry; apply Z.ltb_lt; lia).
  - cbn [chunk_ref ref_byte _state bytes_left_in_chunk]. destruct (n =? 1)%Z eqn:E; zbool.
    + subst n. replace (_ <? 1)%Z with false by (symmetry; apply Z.ltb_ge; simpl; lia).
      cbn [Z.to_nat Pos.to_nat]. change (Pos.to_nat 1) with 1. simpl. done.
    + unfold set_left. cbn [consume_trailer _hex_count _state].
      rewrite IH by lia. cbn [length].
      replace (Z.of_nat (length s) <? n - 1)%Z with (Z.of_nat (S (length s)) <? n)%Z
        by (apply eq_bool_prop_intro; rewrite !Is_true_true, !Z.ltb_lt; lia).
      replace (Z.to_nat n) with (S (Z.to_nat (n - 1))) by lia.
      destruct (_ <? n)%Z; cbn [drop take]; rewrite <-app_assoc; [|done].
      unfold set_left; simpl. do 2 f_equal. lia.
Qed.

Lemma decode_hex_range b : (decode_hex b = -1 \/ 0 <= decode_hex b < 16)%Z.
Proof. unfold decode_hex. repeat casif; zbool; lia. Qed.

Lemma size_ref d i s out :
  _state d = CHUNKED_IN_CHUNK_SIZE -> decoder_ok d ->
  match size_loop d i s with
  | inl (r, d', j) => exists n, j = i + n /\ n <= length s /\ _state d' = CHUNKED_IN_CHUNK_SIZE /\
      ((r = (-2)%Z /\ n = length s /\ decoder_ok d' /\ chunk_ref d s out = RMore d' out) \/
       (r = (-1)%Z /\ chunk_ref d s out = RFailed out))
  | inr (d', j) =>
      let d1 := set_state (set_hex d' 0) CHUNKED_IN_CHUNK_EXT in
      exists n, j = i + n /\ n <= length s /\ decoder_ok d1 /\
      chunk_ref d s out = chunk_ref d1 (drop n s) out
  end.
Proof.
  revert d i; induction s as [|b s IH]; intros d i Hst Hok; cbn [size_loop].
  { exists 0. split_and!; [lia..|done|]. left. done. }
  destruct d as [left tr hx st]. cbn [_state _hex_count bytes_left_in_chunk consume_trailer] in *.
  subst st. destruct Hok as [Hl [Hh Hp]]; cbn [_state _hex_count bytes_left_in_chunk] in *.
  assert (forall P : ref_result -> Prop,
    P (if (decode_hex b =? -1)%Z then
         if (hx =? 0)%Z then RFailed out
         else chunk_ref (mk_decoder left tr 0 CHUNKED_IN_CHUNK_EXT) (b :: s) out
       else if (hx =? 16)%Z then RFailed out
       else chunk_ref (mk_decoder (left * 16 + decode_hex b) tr (hx + 1) CHUNKED_IN_CHUNK_SIZE)
              s out) ->
    P (chunk_ref (mk_decoder left tr hx CHUNKED_IN_CHUNK_SIZE) (b :: s) out)) as Hunf.
  { intros P. cbn [chunk_ref]. unfold ref_byte at 2.
    cbn [_state _hex_count bytes_left_in_chunk consume_trailer].
    destruct (_ =? -1)%Z; [by destruct (hx =? 0)%Z|].
    destruct (hx =? 16)%Z; [done|]. by rewrite app_nil_r. }
  destruct (decode_hex b =? -1)%Z eqn:Ev; zbool.
  - destruct (hx =? 0)%Z eqn:Eh.
    + exists 0. split_and!; [lia|simpl; lia|done|]. apply Hunf. by right.
    + exists 0. split_and!; [lia|simpl; lia| |].
      { split; simpl; [lia|done]. }
      by apply Hunf.
  - destruct (hx =? 16)%Z eqn:Eh; zbool.
    + exists 0. split_and!; [lia|simpl; lia|done|]. apply Hunf. by right.
    + destruct (decode_hex_range b) as [|Hv]; [done|].
      assert (left * 16 + decode_hex b < 16 ^ (hx + 1))%Z as Hlt.
      { rewrite Z.pow_add_r by lia. lia. }
      assert (16 ^ (hx + 1) <= 16 ^ 16)%Z by (apply Z.pow_le_mono_r; lia).
      change (16 ^ 16)%Z with (2 ^ 64)%Z in *.
      rewrite wrap64_small by lia.
      specialize (IH (mk_decoder (left * 16 + decode_hex b) tr (hx + 1) CHUNKED_IN_CHUNK_SIZE)
        (S i) eq_refl ltac:(split; simpl; lia)).
      destruct (size_loop _ (S i) s) as [[[r d'] j]|[d' j]].
      all: apply Hunf.
      * destruct IH as (n & -> & H1 & H2 & H3). exists (S n). split_and!; [lia|simpl; lia|done|].
        destruct H3 as [(-> & -> & H3 & H4)|[-> H3]]; [left|right]; done.
      * destruct IH as (n & -> & H1 & H2 & H3). exists (S n). split_and!; [lia|simpl; lia|done..].
Qed.

Lemma rel_length c d out s : rel c d out s -> length (cbuf c) = src c + length s.
Proof. intros [_ _ <- _ H]. rewrite length_drop. lia. Qed.

Lemma rel_lookup c d out s n b s' :
  rel c d out s -> drop n s = b :: s' -> cbuf c !! (src c + n) = Some b.
Proof.
  intros [_ _ Hi _ _] E. rewrite <-lookup_drop, Hi.
  rewrite <-(Nat.add_0_r n), <-lookup_drop, E. done.
Qed.

Lemma drop_cons_S n (s : bytes) b s' : drop n s = b :: s' -> drop (S n) s = s'.
Proof.
  intros E. replace (S n) with (n + 1) by lia. by rewrite <-drop_drop, E.
Qed.

Lemma drop_cons_length n (s : bytes) b s' :
  drop n s = b :: s' -> n < length s /\ length s' < length s.
Proof.
  intros E. apply (f_equal length) in E. rewrite length_drop in E. simpl in E. lia.
Qed.

Lemma case_crlf_sim c d out s :
  rel c d out s -> _state d = CHUNKED_IN_CHUNK_CRLF -> decoder_ok d ->
  simulates d s out (case_crlf c).
Proof.
  intros Hrel Hst Hok. unfold case_crlf. rewrite (rel_dec _ _ _ _ Hrel).
  rewrite (rel_in _ _ _ _ Hrel), (rel_length _ _ _ _ Hrel).
  destruct (scan_ref (fun b => negb (b =? 13)%Z) d (src c) s out) as (n & -> & H).
  { intros b Hb. zbool. unfold ref_byte. by rewrite Hst, Hb. }
  destruct H as [[-> H]|(b & s' & Hdr & Hb & Hn & H)].
  - rewrite Nat.eqb_refl. exists d, out, []. split; [|by left].
    rewrite <-(drop_all s). by eapply rel_at_src.
  - destruct (_ =? _)%nat eqn:En; zbool; [lia|].
    rewrite (rel_lookup _ _ _ _ _ _ _ Hrel Hdr). cbn [from_option id].
    assert (Hb13 : (b =? 13)%Z = false) by (by apply Z.eqb_neq).
    cbn [chunk_ref] in H. unfold ref_byte in H. rewrite Hst, Hb13 in H.
    destruct (b =? 10)%Z eqn:Eb; cbn [negb simulates].
    + exists (set_state d CHUNKED_IN_CHUNK_SIZE), out, s'. split_and!.
      * rewrite <-Nat.add_succ_r, <-(drop_cons_S _ _ _ _ Hdr).
        eapply rel_at_src; [done|lia].
      * destruct Hok as [H1 H2]. rewrite Hst in H2. split; [done|].
        destruct H2 as [H2 H3]. simpl. rewrite H2, H3. lia.
      * apply drop_cons_length in Hdr. lia.
      * by rewrite H, app_nil_r.
    + exists d, out, (b :: s'). split; [|right; done].
      rewrite <-Hdr. eapply rel_at_src; [done|lia].
Qed.

Lemma memmove_rel c d out s n d' :
  rel c d out s -> n <= length s ->
  rel (mk_cfg d' (if (dst c =? src c)%nat then cbuf c else memmove (cbuf c) (dst c) (src c) n)
         (src c + n) (dst c + n)) d' (out ++ take n s) (drop n s).
Proof.
  intros [Hd Ho Hi Hle Hs] Hn. rewrite <-Hi, length_drop in Hn. subst s out.
  split; cbn [dec cbuf src dst]; [done| | |lia|].
  - destruct (dst c =? src c)%nat eqn:E; zbool.
    + rewrite E. rewrite <-(take_drop (src c) (cbuf c)) at 1.
      rewrite take_app, length_take, Nat.min_l by lia.
      rewrite (take_ge (take _ _)) by (rewrite length_take; lia).
      f_equal. f_equal. lia.
    + unfold memmove, slice. rewrite app_assoc, take_app_le.
      * rewrite take_ge; [done|]. rewrite length_app, !length_take, length_drop. lia.
      * rewrite length_app, !length_take, length_drop. lia.
  - rewrite drop_drop. destruct (dst c =? src c)%nat eqn:E; zbool; [done|].
    unfold memmove, slice. rewrite app_assoc, drop_app_ge.
    + rewrite length_app, !length_take, length_drop, drop_drop. f_equal. lia.
    + rewrite length_app, !length_take, length_drop. lia.
  - destruct (dst c =? src c)%nat eqn:E; zbool; [lia|].
    unfold memmove, slice. rewrite !length_app, !length_take, !length_drop. lia.
Qed.

Lemma case_data_sim c d out s :
  rel c d out s -> _state d = CHUNKED_IN_CHUNK_DATA -> decoder_ok d ->
  simulates d s out (case_data c).
Proof.
  intros Hrel Hst Hok. unfold case_data. rewrite (rel_dec _ _ _ _ Hrel).
  rewrite (rel_length _ _ _ _ Hrel). replace (src c + length s - src c) with (length s) by lia.
  assert (0 < bytes_left_in_chunk d < 2 ^ 64)%Z as Hl.
  { destruct Hok as [H1 H2]. rewrite Hst in H2. lia. }
  pose proof (data_ref d s out Hst ltac:(lia)) as Hdata. cbv zeta in Hdata.
  destruct (_ <? _)%Z eqn:E; zbool.
  - eexists _, _, _. split; [eapply (memmove_rel c d out s (length s)); [done|lia]|].
    left. split_and!; [done|by rewrite drop_all| |by rewrite Hdata, firstn_all].
    split; [simpl; lia|]. simpl. rewrite Hst. destruct Hok as [_ H2]. rewrite Hst in H2. lia.
  - assert (Z.to_nat (bytes_left_in_chunk d) <= length s) as Hn by lia.
    eapply simulates_from; [exact Hdata|rewrite length_drop; lia|].
    apply case_crlf_sim; [by eapply (memmove_rel c d out s)|done|].
    split; [simpl; lia|]. simpl. destruct Hok as [_ H2]. rewrite Hst in H2. lia.
Qed.

Lemma case_ext_sim c d out s :
  rel c d out s -> _state d = CHUNKED_IN_CHUNK_EXT -> decoder_ok d ->
  simulates d s out (case_ext c).
Proof.
  intros Hrel Hst Hok. unfold case_ext. rewrite (rel_dec _ _ _ _ Hrel).
  rewrite (rel_in _ _ _ _ Hrel), (rel_length _ _ _ _ Hrel).
  assert (_hex_count d = 0)%Z as Hhex by (destruct Hok as [_ H2]; by rewrite Hst in H2).
  destruct (scan_ref (fun b => b =? 10)%Z d (src c) s out) as (n & -> & H).
  { intros b Hb. unfold ref_byte, ref_ext. by rewrite Hst, Hb. }
  destruct H as [[-> H]|(b & s' & Hdr & Hb & Hn & H)].
  - rewrite Nat.eqb_refl. exists d, out, []. split; [|by left].
    rewrite <-(drop_all s). by eapply rel_at_src.
  - destruct (_ =? _)%nat eqn:En; zbool; [lia|]. subst b.
    cbn [chunk_ref] in H. unfold ref_byte, ref_ext in H. rewrite Hst in H.
    change (10 =? 10)%Z with true in H. cbv iota in H.
    assert (forall d', rel (at_src c d' (S (src c + n))) d' out s') as Hrel'.
    { intros d'. rewrite <-Nat.add_succ_r, <-(drop_cons_S _ _ _ _ Hdr).
      eapply rel_at_src; [done|lia]. }
    pose proof (drop_cons_length _ _ _ _ Hdr) as [_ Hls].
    destruct (bytes_left_in_chunk d =? 0)%Z eqn:Eleft.
    + destruct (consume_trailer d).
      * exists (set_state d CHUNKED_IN_TRAILERS_LINE_HEAD), out, s'. split_and!; [done| |done|].
        -- zbool. destruct Hok. split; simpl; [done|]. done.
        -- by rewrite H, app_nil_r.
      * exists d, out, s'. split; done.
    + eapply (simulates_from (set_state d CHUNKED_IN_CHUNK_DATA) s' out); [|lia|].
      * by rewrite H, app_nil_r.
      * apply case_data_sim; [done|done|]. zbool. destruct Hok. split; simpl; [done|]. lia.
Qed.

Lemma case_size_sim c d out s :
  rel c d out s -> _state d = CHUNKED_IN_CHUNK_SIZE -> decoder_ok d ->
  simulates d s out (case_size c).
Proof.
  intros Hrel Hst Hok. unfold case_size. rewrite (rel_dec _ _ _ _ Hrel), (rel_in _ _ _ _ Hrel).
  pose proof (size_ref d (src c) s out Hst Hok) as H.
  destruct (size_loop d (src c) s) as [[[r d'] j]|[d' j]].
  - destruct H as (n & -> & Hn & Hst' & H). exists d', out, (drop n s).
    split; [by eapply rel_at_src|]. destruct H as [(-> & -> & Hok' & H)|[-> H]].
    + left. by rewrite drop_all.
    + by right.
  - destruct H as (n & -> & Hn & Hok' & H).
    eapply simulates_from; [exact H|rewrite length_drop; lia|].
    apply case_ext_sim; [by eapply rel_at_src|done|done].
Qed.

Lemma case_middle_sim c d out s :
  rel c d out s -> _state d = CHUNKED_IN_TRAILERS_LINE_MIDDLE -> decoder_ok d ->
  simulates d s out (case_middle c).
Proof.
  intros Hrel Hst Hok. unfold case_middle. rewrite (rel_dec _ _ _ _ Hrel).
  rewrite (rel_in _ _ _ _ Hrel), (rel_length _ _ _ _ Hrel).
  destruct (scan_ref (fun b => b =? 10)%Z d (src c) s out) as (n & -> & H).
  { intros b Hb. unfold ref_byte. by rewrite Hst, Hb. }
  destruct H as [[-> H]|(b & s' & Hdr & Hb & Hn & H)].
  - rewrite Nat.eqb_refl. exists d, out, []. split; [|by left].
    rewrite <-(drop_all s). by eapply rel_at_src.
  - destruct (_ =? _)%nat eqn:En; zbool; [lia|]. subst b.
    cbn [chunk_ref] in H. unfold ref_byte in H. rewrite Hst in H.
    change (10 =? 10)%Z with true in H. cbv iota in H.
    exists (set_state d CHUNKED_IN_TRAILERS_LINE_HEAD), out, s'. split_and!.
    + rewrite <-Nat.add_succ_r, <-(drop_cons_S _ _ _ _ Hdr).
      eapply rel_at_src; [done|lia].
    + destruct Hok as [H1 H2]. rewrite Hst in H2. split; simpl; done.
    + apply drop_cons_length in Hdr. lia.
    + by rewrite H, app_nil_r.
Qed.

Lemma case_head_sim c d out s :
  rel c d out s -> _state d = CHUNKED_IN_TRAILERS_LINE_HEAD -> decoder_ok d ->
  simulates d s out (case_head c).
Proof.
  intros Hrel Hst Hok. unfold case_head. rewrite (rel_dec _ _ _ _ Hrel).
  rewrite (rel_in _ _ _ _ Hrel), (rel_length _ _ _ _ Hrel).
  destruct (scan_ref (fun b => negb (b =? 13)%Z) d (src c) s out) as (n & -> & H).
  { intros b Hb. zbool. unfold ref_byte. by rewrite Hst, Hb. }
  destruct H as [[-> H]|(b & s' & Hdr & Hb & Hn & H)].
  - rewrite Nat.eqb_refl. exists d, out, []. split; [|by left].
    rewrite <-(drop_all s). by eapply rel_at_src.
  - destruct (_ =? _)%nat eqn:En; zbool; [lia|].
    rewrite (rel_lookup _ _ _ _ _ _ _ Hrel Hdr). cbn [from_option id].
    assert (Hb13 : (b =? 13)%Z = false) by (by apply Z.eqb_neq).
    cbn [chunk_ref] in H. unfold ref_byte in H. rewrite Hst, Hb13 in H.
    assert (forall d', rel (at_src c d' (S (src c + n))) d' out s') as Hrel'.
    { intros d'. rewrite <-Nat.add_succ_r, <-(drop_cons_S _ _ _ _ Hdr).
      eapply rel_at_src; [done|lia]. }
    destruct (b =? 10)%Z eqn:Eb.
    + exists d, out, s'. split; done.
    + eapply (simulates_from (set_state d CHUNKED_IN_TRAILERS_LINE_MIDDLE) s' out).
      * by rewrite H, app_nil_r.
      * apply drop_cons_length in Hdr. lia.
      * apply case_middle_sim; [done|done|].
        destruct Hok as [H1 H2]. rewrite Hst in H2. split; simpl; done.
Qed.

Lemma switch_state_sim c d out s :
  rel c d out s -> decoder_ok d -> simulates d s out (switch_state c).
Proof.
  intros Hrel Hok. unfold switch_state. rewrite (rel_dec _ _ _ _ Hrel).
  destruct (_state d) eqn:Hst;
    eauto using case_size_sim, case_ext_sim, case_data_sim, case_crlf_sim, case_head_sim,
      case_middle_sim.
Qed.

(** the buffer after the final memmove: decoded bytes, then the rest *)
Lemma finish_spec ret c d out s :
  rel c d out s -> exists junk,
  finish ret c = (ret, d, out ++ s ++ junk, length out).
Proof.
  intros Hrel. pose proof (rel_length _ _ _ _ Hrel) as Hlen.
  destruct Hrel as [Hd Ho Hi Hle Hs]. unfold finish.
  replace (length (cbuf c) - src c) with (length s) by lia.
  assert (dst c = length out) as Hdst by (rewrite <-Ho, length_take; lia).
  destruct (dst c =? src c)%nat eqn:E; zbool.
  - exists []. rewrite app_nil_r, Hd, Hdst. f_equal. f_equal.
    rewrite <-Ho, <-Hi, E. by rewrite take_drop.
  - exists (drop (dst c + length s) (cbuf c)). rewrite Hd, Hdst. unfold memmove, slice.
    rewrite <-Hdst, Ho, Hi. by rewrite firstn_all.
Qed.

Lemma decode_loop_refines fuel c d out s :
  rel c d out s -> decoder_ok d -> length s < fuel ->
  match chunk_ref d s out with
  | RMore d' out' => exists junk,
      decode_loop fuel c = Some ((-2)%Z, d', out' ++ junk, length out') /\ decoder_ok d'
  | RFinished out' rest => exists d' junk,
      decode_loop fuel c = Some (Z.of_nat (length rest), d', out' ++ rest ++ junk, length out')
  | RFailed out' => exists d' junk,
      decode_loop fuel c = Some ((-1)%Z, d', out' ++ junk, length out')
  end.
Proof.
  revert c d out s; induction fuel as [|fuel IH]; intros c d out s Hrel Hok Hf; [lia|].
  cbn [decode_loop]. pose proof (switch_state_sim c d out s Hrel Hok) as H.
  destruct (switch_state c) as [r c'|c'|c']; cbn [simulates] in H.
  - destruct H as (d' & out' & s' & Hrel' & H).
    destruct (finish_spec r c' d' out' s' Hrel') as [junk ->].
    destruct H as [(-> & -> & Hok' & ->)|[-> ->]].
    + exists junk. by split.
    + by exists d', (s' ++ junk).
  - destruct H as (d' & out' & s' & Hrel' & ->).
    rewrite (rel_length _ _ _ _ Hrel').
    destruct (finish_spec (Z.of_nat (src c' + length s') - Z.of_nat (src c')) c' d' out' s' Hrel')
      as [junk ->].
    exists d', junk. do 4 f_equal. lia.
  - destruct H as (d' & out' & s' & Hrel' & Hok' & Hlt & ->). apply IH; [done..|lia].
Qed.

(** ** The decoder as seen by its callers *)

(** C9. phr_decode_chunked terminates on every buffer and every state a decoder
    can be in, and computes what the byte-wise reference decoder computes: -2
    with the decoded bytes in front of the buffer and the decoder ready for
    more; the number of unconsumed bytes, which follow the decoded ones; or -1. *)
Theorem phr_decode_chunked_refines d buf :
  decoder_ok d ->
  match chunk_ref d buf [] with
  | RMore d' out => exists junk,
      phr_decode_chunked d buf = Some ((-2)%Z, d', out ++ junk, length out) /\ decoder_ok d'
  | RFinished out rest => exists d' junk,
      phr_decode_chunked d buf =
        Some (Z.of_nat (length rest), d', out ++ rest ++ junk, length out)
  | RFailed out => exists d' junk,
      phr_decode_chunked d buf = Some ((-1)%Z, d', out ++ junk, length out)
  end.
Proof.
  intros Hok. apply decode_loop_refines; [|done|lia]. by split; simpl; try lia.
Qed.

Lemma phr_decode_chunked_refines_witness :
  decoder_ok (mk_decoder 3 false 0 CHUNKED_IN_CHUNK_DATA) /\
  exists d' junk,
    phr_decode_chunked (mk_decoder 3 false 0 CHUNKED_IN_CHUNK_DATA)
      (bs "abc" ++ CRLF ++ bs "0" ++ CRLF ++ bs "xy") =
      Some (2%Z, d', bs "abc" ++ bs "xy" ++ junk, 3).
Proof.
  assert (decoder_ok (mk_decoder 3 false 0 CHUNKED_IN_CHUNK_DATA)) as Hok
    by (split; simpl; lia).
  split; [exact Hok|].
  exact (phr_decode_chunked_refines _ (bs "abc" ++ CRLF ++ bs "0" ++ CRLF ++ bs "xy") Hok).
Defined.

Lemma decoder0_ok tr : decoder_ok (decoder0 tr).
Proof. split; simpl; lia. Qed.
#[export] Hint Resolve decoder0_ok : netcore.

Lemma chunk_ref_acc d s out :
  chunk_ref d s out =
  match chunk_ref d s [] with
  | RMore d' o => RMore d' (out ++ o)
  | RFinished o rest => RFinished (out ++ o) rest
  | RFailed o => RFailed (out ++ o)
  end.
Proof.
  revert d out; induction s as [|b s IH]; intros d out; cbn [chunk_ref].
  - by rewrite app_nil_r.
  - destruct (ref_byte d b) as [d' o| |]; [|by rewrite app_nil_r..].
    rewrite IH, (IH d' ([] ++ o)). destruct (chunk_ref d' s []); by rewrite <-app_assoc.
Qed.

Lemma chunk_ref_app d a b out d' out' :
  chunk_ref d a out = RMore d' out' -> chunk_ref d (a ++ b) out = chunk_ref d' b out'.
Proof.
  revert d out; induction a as [|x a IH]; intros d out; cbn [chunk_ref app].
  - by intros [= -> ->].
  - destruct (ref_byte d x); [apply IH|done|done].
Qed.

(** the reference result behind a call that returned *)
Lemma decode_result_inv d buf r d' buf' n :
  decoder_ok d -> phr_decode_chunked d buf = Some (r, d', buf', n) ->
  match chunk_ref d buf [] with
  | RMore d1 out => r = (-2)%Z /\ d' = d1 /\ decoder_ok d1 /\ take n buf' = out
  | RFinished out rest =>
      r = Z.of_nat (length rest) /\ take n buf' = out /\ slice buf' n (length rest) = rest
  | RFailed out => r = (-1)%Z /\ take n buf' = out
  end /\ n = length (take n buf').
Proof.
  intros Hok H.
  pose proof (decode_loop_refines (S (length buf)) (mk_cfg d buf 0 0) d [] buf
    ltac:(by split; simpl; try lia) Hok ltac:(lia)) as R.
  unfold phr_decode_chunked in H. destruct (chunk_ref d buf []) as [d1 out|out rest|out].
  - destruct R as (junk & E & Hok'). rewrite E in H. simplify_eq.
    by rewrite take_app_length.
  - destruct R as (d1 & junk & E). rewrite E in H. simplify_eq.
    by rewrite take_app_length, slice_app_exact.
  - destruct R as (d1 & junk & E). rewrite E in H. simplify_eq. by rewrite take_app_length.
Qed.

Lemma decode_total d buf : decoder_ok d -> exists r d' buf' n,
  phr_decode_chunked d buf = Some (r, d', buf', n).
Proof.
  intros Hok.
  pose proof (decode_loop_refines (S (length buf)) (mk_cfg d buf 0 0) d [] buf
    ltac:(by split; simpl; try lia) Hok ltac:(lia)) as R.
  unfold phr_decode_chunked. destruct (chunk_ref d buf []); naive_solver.
Qed.

(** C22. Chunked decoding is incremental: when the first part [a] of a body asks
    for more, decoding the second part [b] with the decoder it left gives the
    same return code as decoding [a ++ b] at once, the decoded bytes of the two
    calls are those of the single call, and so are the decoder it leaves and
    the unconsumed bytes. *)
Theorem phr_decode_chunked_incremental d a b d1 buf1 n1 r2 d2 buf2 n2 :
  decoder_ok d ->
  phr_decode_chunked d a = Some ((-2)%Z, d1, buf1, n1) ->
  phr_decode_chunked d1 b = Some (r2, d2, buf2, n2) ->
  exists d3 buf3,
    phr_decode_chunked d (a ++ b) = Some (r2, d3, buf3, n1 + n2) /\
    take (n1 + n2) buf3 = take n1 buf1 ++ take n2 buf2 /\
    (r2 = (-2)%Z -> d3 = d2) /\
    slice buf3 (n1 + n2) (Z.to_nat r2) = slice buf2 n2 (Z.to_nat r2).
Proof.
  intros Hok Ha Hb.
  destruct (decode_total d (a ++ b) Hok) as (r3 & d3 & buf3 & n3 & Hab).
  pose proof (decode_result_inv _ _ _ _ _ _ Hok Ha) as [Ra Na].
  destruct (chunk_ref d a []) as [d1' out1|out rest|out] eqn:Ea;
    [|exfalso; lia|exfalso; lia].
  destruct Ra as (_ & -> & Hok1 & Ta). rewrite Ta in *.
  pose proof (decode_result_inv _ _ _ _ _ _ Hok1 Hb) as [Rb Nb].
  pose proof (decode_result_inv _ _ _ _ _ _ Hok Hab) as [R3 N3].
  rewrite (chunk_ref_app _ _ b _ _ _ Ea), chunk_ref_acc in R3.
  assert (n1 = length out1) as -> by done.
  destruct (chunk_ref d1' b []) as [d2' out2|out2 rest|out2].
  - destruct Rb as (-> & -> & _ & Tb), R3 as (-> & -> & _ & T3). rewrite T3 in N3.
    rewrite Tb in Nb. rewrite length_app, <-Nb in N3. subst n3.
    exists d2', buf3. by rewrite T3, Tb.
  - destruct Rb as (-> & Tb & Sb), R3 as (-> & T3 & S3). rewrite T3 in N3.
    rewrite Tb in Nb. rewrite length_app, <-Nb in N3. subst n3.
    exists d3, buf3. rewrite T3, Tb, Nat2Z.id, S3, Sb. split_and!; [done|done|lia|done].
  - destruct Rb as (-> & Tb), R3 as (-> & T3). rewrite T3 in N3.
    rewrite Tb in Nb. rewrite length_app, <-Nb in N3. subst n3.
    exists d3, buf3. rewrite T3, Tb. split_and!; [done|done|lia|done].
Qed.

Lemma phr_decode_chunked_incremental_witness :
  exists d3 buf3,
    phr_decode_chunked (decoder0 true)
      ((bs "5" ++ CRLF ++ bs "he") ++ bs "llo" ++ CRLF ++ bs "0" ++ CRLF ++ CRLF) =
      Some (0%Z, d3, buf3, 2 + 3) /\
    take (2 + 3) buf3 = bs "he" ++ bs "llo".
Proof.
  edestruct (phr_decode_chunked_incremental (decoder0 true) (bs "5" ++ CRLF ++ bs "he")
    (bs "llo" ++ CRLF ++ bs "0" ++ CRLF ++ CRLF)) as (d3 & buf3 & H1 & H2 & _).
  - exact (decoder0_ok true).
  - vm_compute; reflexivity.
  - vm_compute; reflexivity.
  - exists d3, buf3. split; [exact H1|exact H2].
Defined.

(** *** Decoding what to_chunked_buffers writes *)

Lemma decode_hex_lower d : (0 <= d < 16)%Z -> decode_hex (hex_lower d) = d.
Proof.
  intros H. unfold hex_lower. destruct (d <? 10)%Z eqn:E; zbool; unfold decode_hex.
  - replace ((48 <=? 48 + d) && (48 + d <=? 57))%Z with true; [lia|].
    symmetry. apply andb_true_iff. rewrite !Z.leb_le. lia.
  - repeat casif; zbool; lia.
Qed.

Lemma chunk_ref_size ds : forall n tr hx s,
  Forall (fun d => 0 <= d < 16)%Z ds -> (0 <= hx)%Z -> (hx + Z.of_nat (length ds) <= 16)%Z ->
  chunk_ref (mk_decoder n tr hx CHUNKED_IN_CHUNK_SIZE) ((hex_lower <$> ds) ++ s) [] =
  chunk_ref (mk_decoder (fold_left (fun a d => a * 16 + d)%Z ds n) tr
               (hx + Z.of_nat (length ds)) CHUNKED_IN_CHUNK_SIZE) s [].
Proof.
  induction ds as [|d ds IH]; intros n tr hx s Hds Hhx Hlen.
  - simpl. by rewrite Z.add_0_r.
  - inversion Hds as [|? ? Hd Hds']; subst. cbn [fmap list_fmap app chunk_ref length] in *.
    unfold ref_byte at 1. cbn [_state _hex_count bytes_left_in_chunk consume_trailer].
    rewrite decode_hex_lower by done.
    rewrite (proj2 (Z.eqb_neq d (-1)%Z)) by lia. rewrite (proj2 (Z.eqb_neq hx 16%Z)) by lia.
    cbn [app]. rewrite IH by (done || lia). cbn [fold_left]. do 2 f_equal. lia.
Qed.

(** the size line "<hex>\r\n" of a non-empty and of an empty chunk *)
Lemma chunk_ref_size_line n tr s :
  (0 <= n < 2 ^ 64)%Z ->
  chunk_ref (decoder0 tr) (hex_string n ++ CRLF ++ s) [] =
  if (n =? 0)%Z then
    if tr then chunk_ref (mk_decoder 0 tr 0 CHUNKED_IN_TRAILERS_LINE_HEAD) s []
    else RFinished [] s
  else chunk_ref (mk_decoder n tr 0 CHUNKED_IN_CHUNK_DATA) s [].
Proof.
  intros Hn. unfold hex_string, decoder0.
  pose proof (digits_length 16 n 15 ltac:(lia) ltac:(done)) as Hl.
  assert (0 < length (digits 16 n)) as Hl0.
  { pose proof (digits_nonempty 16 n). destruct (digits 16 n); [done|simpl; lia]. }
  rewrite chunk_ref_size; [|apply digits_range; lia|lia|lia].
  change (fold_left _ (digits 16 n) 0%Z) with (undigits 16 (digits 16 n)).
  rewrite undigits_digits by lia.
  unfold CRLF. cbn [chunk_ref app]. unfold ref_byte at 1.
  cbn [_state _hex_count bytes_left_in_chunk consume_trailer].
  rewrite (proj2 (Z.eqb_neq (0 + _) 0)%Z) by lia. simpl.
  unfold ref_byte, ref_ext, set_state, set_hex. cbn.
  destruct (n =? 0)%Z eqn:E; zbool; [subst|done]. by destruct tr.
Qed.

Lemma chunk_ref_chunk c tr s :
  (Z.of_nat (length c) < 2 ^ 64)%Z ->
  chunk_ref (decoder0 tr) (to_chunked_buffers c false ++ s) [] =
  chunk_ref (decoder0 tr) s c.
Proof.
  intros Hc. unfold to_chunked_buffers, to_hex_string. rewrite app_nil_r.
  destruct (0 <? _)%Z eqn:E; zbool.
  2: { destruct c; [done|]. simpl in E. lia. }
  rewrite <-!app_assoc, chunk_ref_size_line by lia.
  rewrite (proj2 (Z.eqb_neq _ 0)%Z) by lia.
  rewrite data_ref by (done || (simpl; lia)).
  cbn [bytes_left_in_chunk]. rewrite !length_app.
  destruct (_ <? _)%Z eqn:E2; zbool; [lia|].
  rewrite Nat2Z.id, drop_app_length, take_app_length. simpl. by rewrite !app_nil_r.
Qed.

Lemma chunk_ref_last tr s :
  chunk_ref (decoder0 tr) (to_chunked_buffers [] true ++ s) [] =
  RFinished [] (if tr then s else CRLF ++ s).
Proof. by destruct tr. Qed.

Lemma to_chunked_buffers_eof c :
  to_chunked_buffers c true = to_chunked_buffers c false ++ to_chunked_buffers [] true.
Proof. unfold to_chunked_buffers. by rewrite app_nil_r. Qed.

(** a body written in several writes, the last one with [eof] *)
Definition write_chunks (chunks : list bytes) (final : bytes) : bytes :=
  mjoin ((fun c => to_chunked_buffers c false) <$> chunks) ++ to_chunked_buffers final true.

Lemma chunk_ref_chunks chunks s :
  Forall (fun c : bytes => Z.of_nat (length c) < 2 ^ 64)%Z chunks ->
  chunk_ref (decoder0 true) (mjoin ((fun c => to_chunked_buffers c false) <$> chunks) ++ s) [] =
  chunk_ref (decoder0 true) s (mjoin chunks).
Proof.
  induction chunks as [|c chunks IH]; intros H; [done|].
  inversion H; subst. csimpl. rewrite <-app_assoc.
  rewrite chunk_ref_chunk by done. rewrite chunk_ref_acc, IH by done.
  rewrite chunk_ref_acc, (chunk_ref_acc _ s (c ++ _)).
  destruct (chunk_ref _ s []); by rewrite app_assoc.
Qed.

(** C40. Round trip of the chunked coding: whatever the body is cut into, the
    decoder turns the writes of to_chunked_buffers back into the body, consumes
    the last chunk and its empty trailer, and leaves the bytes that follow. *)
Theorem chunked_encode_decode chunks final rest :
  Forall (fun c : bytes => Z.of_nat (length c) < 2 ^ 64)%Z (final :: chunks) ->
  exists d' junk,
    phr_decode_chunked (decoder0 true) (write_chunks chunks final ++ rest) =
    Some (Z.of_nat (length rest), d', (mjoin chunks ++ final) ++ rest ++ junk,
          length (mjoin chunks ++ final)).
Proof.
  intros H. inversion H; subst.
  assert (chunk_ref (decoder0 true) (write_chunks chunks final ++ rest) [] =
          RFinished (mjoin chunks ++ final) rest) as E.
  { unfold write_chunks. rewrite <-app_assoc, chunk_ref_chunks by done.
    rewrite chunk_ref_acc, to_chunked_buffers_eof, <-app_assoc, chunk_ref_chunk by done.
    by rewrite (chunk_ref_acc _ _ final), chunk_ref_last, app_nil_r. }
  pose proof (decode_loop_refines (S (length (write_chunks chunks final ++ rest)))
    (mk_cfg (decoder0 true) (write_chunks chunks final ++ rest) 0 0) (decoder0 true) []
    (write_chunks chunks final ++ rest) ltac:(by split; simpl; try lia) (decoder0_ok _)
    ltac:(lia)) as R.
  rewrite E in R. exact R.
Qed.

Lemma chunked_encode_decode_witness :
  exists d' junk,
    phr_decode_chunked (decoder0 true)
      (write_chunks [bs "hello "; bs ""] (bs "world") ++ bs "GET") =
    Some (3%Z, d', bs "hello world" ++ bs "GET" ++ junk, 11).
Proof.
  apply (chunked_encode_decode [bs "hello "; bs ""] (bs "world") (bs "GET")).
  repeat constructor.
Defined.
