(* ===== verification/Codec.v ===== *)
(** * Percent encoding and Base64

    code_utils::url_encode / url_decode of
    src/include/netcore/url_encode_decode.hpp, the class Base64 of
    src/lib/base64.hpp and base64_encode of src/include/netcore/utils.hpp.
    A C string argument is the list of its bytes with the terminating NUL; a
    read behind the NUL, or of a table at a negative index, is the outcome
    [DecOutOfBounds]. *)

From Stdlib Require Import ZArith Lia.
From stdpp Require Import base numbers list strings.
From S2P Require Import Prelude CStd.

Local Open Scope Z_scope.

(** ** Percent encoding *)

Definition hex_chars : bytes := bs "0123456789ABCDEF".

(** the characters url_encode keeps *)
Definition unreserved (chr : Z) : bool :=
  ((48 <=? schar chr) && (schar chr <=? 57)) || ((65 <=? schar chr) && (schar chr <=? 90)) ||
  ((97 <=? schar chr) && (schar chr <=? 122)) || (chr =? 45) || (chr =? 46) || (chr =? 95) ||
  (chr =? 126).

Definition url_encode_char (chr : Z) : bytes :=
  if negb (unreserved chr)
  then [37; nth (Z.to_nat (Z.shiftr chr 4)) hex_chars 0;
        nth (Z.to_nat (Z.land chr 15)) hex_chars 0]
  else [chr].

Definition url_encode (value : bytes) : bytes := mjoin (url_encode_char <$> value).

(** static_cast<char>(strtol(hex, nullptr, 16)) for the two characters after % *)
Definition decode_pair (h l : Z) : Z := wrap8 (strtoll 16 [h; l]).

Fixpoint url_decode (value : bytes) : bytes :=
  match value with
  | [] => []
  | chr :: rest =>
      match rest with
      | h :: l :: rest' =>
          if chr =? 37 then decode_pair h l :: url_decode rest'
          else (if chr =? 43 then 32 else chr) :: url_decode rest
      | _ => (if chr =? 43 then 32 else chr) :: url_decode rest
      end
  end.

Definition get_string_by_urldecode (content : bytes) : bytes := url_decode content.

Definition is_url_encode (str : bytes) : bool :=
  match find_char 37 str, find_char 43 str with None, None => false | _, _ => true end.

(** ** Base64 of src/lib/base64.hpp *)

Definition _base64_table : bytes :=
  bs "ABCDEFGHIJKLMNOPQRSTUVWXYZabcdefghijklmnopqrstuvwxyz0123456789+/".

Definition tbl (t : bytes) (i : Z) : Z := nth (Z.to_nat i) t 0.

Fixpoint Encode (current : bytes) : bytes :=
  match current with
  | [] => []
  | [c0] =>
      [tbl _base64_table (Z.shiftr c0 2);
       tbl _base64_table (Z.shiftl (Z.land c0 3) 4); 61; 61]
  | [c0; c1] =>
      [tbl _base64_table (Z.shiftr c0 2);
       tbl _base64_table (Z.shiftl (Z.land c0 3) 4 + Z.shiftr c1 4);
       tbl _base64_table (Z.shiftl (Z.land c1 15) 2); 61]
  | c0 :: c1 :: c2 :: rest =>
      tbl _base64_table (Z.shiftr c0 2) ::
      tbl _base64_table (Z.shiftl (Z.land c0 3) 4 + Z.shiftr c1 4) ::
      tbl _base64_table (Z.shiftl (Z.land c1 15) 2 + Z.shiftr c2 6) ::
      tbl _base64_table (Z.land c2 63) :: Encode rest
  end.

Definition m2 (n : nat) : list Z := replicate n (-2).

Definition DecodeTable : list Z :=
  m2 9 ++ [-1; -1; -2; -2; -1; -2; -2] ++
  m2 16 ++
  [-1] ++ m2 10 ++ [62; -2; -2; -2; 63;
   52; 53; 54; 55; 56; 57; 58; 59; 60; 61; -2; -2; -2; -2; -2; -2;
   -2;  0;  1;  2;  3;  4;  5;  6;  7;  8;  9; 10; 11; 12; 13; 14;
   15; 16; 17; 18; 19; 20; 21; 22; 23; 24; 25; -2; -2; -2; -2; -2;
   -2; 26; 27; 28; 29; 30; 31; 32; 33; 34; 35; 36; 37; 38; 39; 40;
   41; 42; 43; 44; 45; 46; 47; 48; 49; 50; 51; -2; -2; -2; -2; -2] ++
  m2 128.

(** [return NULL] builds a std::string from a null pointer *)
Inductive decode_result :=
| DecOk (r : bytes)
| DecNull
| DecOutOfBounds.

(** one accepted sextet: the new [bin] and the byte appended, if any *)
Definition decode_sextet (bin i ch : Z) : Z * bytes :=
  if i mod 4 =? 0 then (Z.shiftl ch 2, [])
  else if i mod 4 =? 1 then (Z.shiftl (Z.land ch 15) 4, [wrap8 (Z.lor bin (Z.shiftr ch 4))])
  else if i mod 4 =? 2 then (Z.shiftl (Z.land ch 3) 6, [wrap8 (Z.lor bin (Z.shiftr ch 2))])
  else (Z.lor bin ch, [wrap8 (Z.lor bin ch)]).

(** the while loop, on the bytes from [current] on *)
Fixpoint Decode_loop (current : bytes) (length bin i : Z) (res : bytes) : decode_result :=
  match current with
  | [] => DecOutOfBounds
  | ch :: current =>
      if ch =? 0 then DecOk res
      else if negb (0 <? length) then DecOk res
      else if ch =? 61 then
        match current with
        | [] => DecOutOfBounds
        | c :: _ =>
            if negb (c =? 61) && (i mod 4 =? 1) then DecNull
            else Decode_loop current (length - 1) bin i res
        end
      else if schar ch <? 0 then DecOutOfBounds
      else
        let v := nth (Z.to_nat (schar ch)) DecodeTable 0 in
        if v <? 0 then Decode_loop current (length - 1) bin i res
        else
          let '(bin', out) := decode_sextet bin i v in
          Decode_loop current (length - 1) bin' (i + 1) (res ++ out)
  end.

Definition Decode (str : bytes) (length : Z) : decode_result := Decode_loop str length 0 0 [].

(** ** base64_encode of utils.hpp (from h2o) *)

Definition MAP : bytes :=
  bs "ABCDEFGHIJKLMNOPQRSTUVWXYZabcdefghijklmnopqrstuvwxyz0123456789+/".
Definition MAP_URL_ENCODED : bytes :=
  bs "ABCDEFGHIJKLMNOPQRSTUVWXYZabcdefghijklmnopqrstuvwxyz0123456789-_".

(** the bytes written to [_dst] before the final NUL; the result is their number *)
Fixpoint b64_loop (map : bytes) (url_encoded : bool) (src : bytes) : bytes :=
  match src with
  | [] => []
  | [c0] =>
      let quad := Z.shiftl c0 16 in
      [tbl map (Z.shiftr quad 18); tbl map (Z.land (Z.shiftr quad 12) 63)] ++
      (if url_encoded then [] else [61; 61])
  | [c0; c1] =>
      let quad := Z.lor (Z.shiftl c0 16) (Z.shiftl c1 8) in
      [tbl map (Z.shiftr (Z.shiftl c0 16) 18); tbl map (Z.land (Z.shiftr quad 12) 63);
       tbl map (Z.land (Z.shiftr quad 6) 63)] ++
      (if url_encoded then [] else [61])
  | c0 :: c1 :: c2 :: rest =>
      let quad := Z.lor (Z.lor (Z.shiftl c0 16) (Z.shiftl c1 8)) c2 in
      [tbl map (Z.shiftr quad 18); tbl map (Z.land (Z.shiftr quad 12) 63);
       tbl map (Z.land (Z.shiftr quad 6) 63); tbl map (Z.land quad 63)] ++
      b64_loop map url_encoded rest
  end.

Definition base64_encode (src : bytes) (url_encoded : bool) : bytes :=
  b64_loop (if url_encoded then MAP_URL_ENCODED else MAP) url_encoded src.

(** ** Percent encoding: lemmas and properties *)

Lemma url_decode_char chr rest :
  is_byte chr -> url_decode (url_encode_char chr ++ rest) = chr :: url_decode rest.
Proof.
  intros Hc. unfold url_encode_char. destruct (unreserved chr) eqn:E; cbn [negb].
  - assert ((chr =? 37) = false /\ (chr =? 43) = false) as [E1 E2].
    { split; apply negb_true_iff; apply implb_true_iff with (2 := E); clear E;
        revert chr Hc; apply (all_bytes_check (fun chr => implb _ _)); vm_compute; done. }
    cbn [app url_decode]. rewrite E1, E2. by destruct rest as [|h [|l rest]].
  - cbn [app url_decode]. change (37 =? 37) with true. cbv iota. f_equal.
    apply Z.eqb_eq. clear E. revert chr Hc.
    apply (all_bytes_check (fun chr => decode_pair (nth (Z.to_nat (Z.shiftr chr 4)) hex_chars 0)
      (nth (Z.to_nat (Z.land chr 15)) hex_chars 0) =? chr)). vm_compute. done.
Qed.

(** url_decode inverts url_encode on every string of bytes, whatever
    percent signs, pluses, NULs or bytes above 127 it holds. *)
Theorem url_decode_encode value :
  Forall is_byte value -> url_decode (url_encode value) = value.
Proof.
  unfold url_encode. induction 1 as [|c value Hc _ IH]; [done|].
  csimpl. by rewrite url_decode_char, IH.
Qed.

Lemma url_decode_encode_witness :
  Forall is_byte (bs "a b%2+" ++ [0; 200]) /\
  url_decode (url_encode (bs "a b%2+" ++ [0; 200])) = bs "a b%2+" ++ [0; 200].
Proof.
  assert (Forall is_byte (bs "a b%2+" ++ [0; 200])) as H
    by (apply (bool_decide_unpack _); vm_compute; exact I).
  split; [exact H|exact (url_decode_encode _ H)].
Defined.

(** ** Base64: lemmas and properties *)

(** the three full sextets of a group besides the first and last *)
Definition sextet1 (c0 c1 : Z) : Z := Z.shiftl (Z.land c0 3) 4 + Z.shiftr c1 4.
Definition sextet2 (c1 c2 : Z) : Z := Z.shiftl (Z.land c1 15) 2 + Z.shiftr c2 6.

Lemma sextet_decodes v :
  0 <= v < 64 ->
  let ch := tbl _base64_table v in
  (ch =? 0) = false /\ (ch =? 61) = false /\ (schar ch <? 0) = false /\
  nth (Z.to_nat (schar ch)) DecodeTable 0 = v.
Proof.
  intros Hv. assert (is_byte v) as Hb by (unfold is_byte; lia).
  pose proof (all_bytes_check (fun v => implb (v <? 64) (
    let ch := tbl _base64_table v in
    negb (ch =? 0) && negb (ch =? 61) && negb (schar ch <? 0) &&
    (nth (Z.to_nat (schar ch)) DecodeTable 0 =? v))) ltac:(vm_compute; done) v Hb) as H.
  cbv beta in H. rewrite (proj2 (Z.ltb_lt v 64)) in H by lia. cbn [implb] in H. cbv zeta in *.
  apply andb_true_iff in H as [H H4]. apply andb_true_iff in H as [H H3].
  apply andb_true_iff in H as [H1 H2]. apply negb_true_iff in H1, H2, H3. apply Z.eqb_eq in H4.
  done.
Qed.

Lemma Decode_step v rest len bin i res :
  0 <= v < 64 -> 0 < len ->
  Decode_loop (tbl _base64_table v :: rest) len bin i res =
  Decode_loop rest (len - 1) (decode_sextet bin i v).1 (i + 1)
    (res ++ (decode_sextet bin i v).2).
Proof.
  intros Hv Hl. destruct (sextet_decodes v Hv) as (H1 & H2 & H3 & H4).
  cbn [Decode_loop]. rewrite H1, H2, H3, H4.
  rewrite (proj2 (Z.ltb_lt 0 len)) by lia. rewrite (proj2 (Z.ltb_ge v 0)) by lia.
  cbn [negb]. by destruct (decode_sextet bin i v).
Qed.

Lemma sextet0_range c : is_byte c -> 0 <= Z.shiftr c 2 < 64.
Proof. unfold is_byte. rewrite Z.shiftr_div_pow2 by lia. change (2 ^ 2) with 4. intros H.
  split; [apply Z.div_pos|apply Z.div_lt_upper_bound]; lia.
Qed.

Lemma sextet3_range c : is_byte c -> 0 <= Z.land c 63 < 64.
Proof.
  intros _. change 63 with (Z.ones 6). rewrite Z.land_ones by lia.
  apply Z.mod_pos_bound. lia.
Qed.

Lemma sextet1_facts c0 c1 :
  is_byte c0 -> is_byte c1 ->
  0 <= sextet1 c0 c1 < 64 /\ Z.land (sextet1 c0 c1) 15 = Z.shiftr c1 4 /\
  wrap8 (Z.lor (Z.shiftl (Z.shiftr c0 2) 2) (Z.shiftr (sextet1 c0 c1) 4)) = c0.
Proof.
  intros H0 H1.
  pose proof (all_bytes_check2 (fun c0 c1 =>
    (0 <=? sextet1 c0 c1) && (sextet1 c0 c1 <? 64) &&
    (Z.land (sextet1 c0 c1) 15 =? Z.shiftr c1 4) &&
    (wrap8 (Z.lor (Z.shiftl (Z.shiftr c0 2) 2) (Z.shiftr (sextet1 c0 c1) 4)) =? c0))
    ltac:(vm_compute; done) c0 c1 H0 H1) as H.
  cbv beta in H. zbool. lia.
Qed.

Lemma sextet2_facts c1 c2 :
  is_byte c1 -> is_byte c2 ->
  0 <= sextet2 c1 c2 < 64 /\ Z.land (sextet2 c1 c2) 3 = Z.shiftr c2 6 /\
  wrap8 (Z.lor (Z.shiftl (Z.shiftr c1 4) 4) (Z.shiftr (sextet2 c1 c2) 2)) = c1.
Proof.
  intros H0 H1.
  pose proof (all_bytes_check2 (fun c0 c1 =>
    (0 <=? sextet2 c0 c1) && (sextet2 c0 c1 <? 64) &&
    (Z.land (sextet2 c0 c1) 3 =? Z.shiftr c1 6) &&
    (wrap8 (Z.lor (Z.shiftl (Z.shiftr c0 4) 4) (Z.shiftr (sextet2 c0 c1) 2)) =? c0))
    ltac:(vm_compute; done) c1 c2 H0 H1) as H.
  cbv beta in H. zbool. lia.
Qed.

Lemma sextet3_fact c2 :
  is_byte c2 -> wrap8 (Z.lor (Z.shiftl (Z.shiftr c2 6) 6) (Z.land c2 63)) = c2.
Proof.
  intros Hc. apply Z.eqb_eq. revert c2 Hc. apply all_bytes_check. vm_compute. done.
Qed.

Lemma Encode_cons3 c0 c1 c2 rest :
  Encode (c0 :: c1 :: c2 :: rest) =
  tbl _base64_table (Z.shiftr c0 2) :: tbl _base64_table (sextet1 c0 c1) ::
  tbl _base64_table (sextet2 c1 c2) :: tbl _base64_table (Z.land c2 63) :: Encode rest.
Proof. done. Qed.

(** the padding of a one- and a two-byte tail, as sextets with a zero byte *)
Lemma Encode_tail1 c0 :
  Encode [c0] = [tbl _base64_table (Z.shiftr c0 2); tbl _base64_table (sextet1 c0 0); 61; 61].
Proof. unfold sextet1. change (Z.shiftr 0 4) with 0. by rewrite Z.add_0_r. Qed.

Lemma Encode_tail2 c0 c1 :
  Encode [c0; c1] = [tbl _base64_table (Z.shiftr c0 2); tbl _base64_table (sextet1 c0 c1);
                     tbl _base64_table (sextet2 c1 0); 61].
Proof. unfold sextet2. change (Z.shiftr 0 6) with 0. by rewrite Z.add_0_r. Qed.

Lemma byte_0 : is_byte 0.
Proof. unfold is_byte. lia. Qed.

(** strings are handled three bytes at a time *)
Lemma triples_ind (P : bytes -> Prop) :
  P [] -> (forall a, P [a]) -> (forall a b, P [a; b]) ->
  (forall a b c l, P l -> P (a :: b :: c :: l)) -> forall l, P l.
Proof.
  intros H0 H1 H2 H3 l. cut (P l /\ (forall a, P (a :: l)) /\ (forall a b, P (a :: b :: l))).
  { tauto. }
  induction l as [|x l (IH1 & IH2 & IH3)]; split_and!; auto.
Qed.

Lemma mod4_add i j k : i mod 4 = j -> 0 <= j + k < 4 -> (i + k) mod 4 = j + k.
Proof.
  intros H Hk. rewrite <-(Z.mod_small (j + k) 4) by lia.
  rewrite <-H at 1. by rewrite Z.add_mod_idemp_l by lia.
Qed.

Lemma Decode_two c0 c1 rest len bin i res :
  is_byte c0 -> is_byte c1 -> i mod 4 = 0 -> 2 <= len ->
  Decode_loop (tbl _base64_table (Z.shiftr c0 2) :: tbl _base64_table (sextet1 c0 c1) :: rest)
    len bin i res =
  Decode_loop rest (len - 2) (Z.shiftl (Z.shiftr c1 4) 4) (i + 2) (res ++ [c0]).
Proof.
  intros H0 H1 Hm Hl. destruct (sextet1_facts c0 c1 H0 H1) as (R1 & L1 & E1).
  rewrite Decode_step; [|by apply sextet0_range|lia].
  rewrite Decode_step by lia. unfold decode_sextet.
  rewrite (mod4_add i 0 1), Hm by (done || lia). cbn [Z.eqb Z.add fst snd Pos.eqb].
  rewrite L1, E1, app_nil_r. by rewrite <-Z.sub_add_distr, <-Z.add_assoc.
Qed.

Lemma Decode_third c1 c2 rest len i res :
  is_byte c1 -> is_byte c2 -> i mod 4 = 2 -> 1 <= len ->
  Decode_loop (tbl _base64_table (sextet2 c1 c2) :: rest) len (Z.shiftl (Z.shiftr c1 4) 4) i res =
  Decode_loop rest (len - 1) (Z.shiftl (Z.shiftr c2 6) 6) (i + 1) (res ++ [c1]).
Proof.
  intros H1 H2 Hm Hl. destruct (sextet2_facts c1 c2 H1 H2) as (R2 & L2 & E2).
  rewrite Decode_step by lia. unfold decode_sextet.
  rewrite Hm. cbn [Z.eqb fst snd Pos.eqb]. by rewrite L2, E2.
Qed.

Lemma Decode_fourth c2 rest len i res :
  is_byte c2 -> i mod 4 = 3 -> 1 <= len -> exists bin,
  Decode_loop (tbl _base64_table (Z.land c2 63) :: rest) len (Z.shiftl (Z.shiftr c2 6) 6) i res =
  Decode_loop rest (len - 1) bin (i + 1) (res ++ [c2]).
Proof.
  intros H2 Hm Hl. eexists. rewrite Decode_step; [|by apply sextet3_range|lia].
  unfold decode_sextet. rewrite Hm. cbn [Z.eqb fst snd Pos.eqb]. by rewrite sextet3_fact.
Qed.

(** a padding character is skipped where Encode writes it *)
Lemma Decode_pad c rest len bin i res :
  1 <= len -> i mod 4 <> 1 ->
  Decode_loop (61 :: c :: rest) len bin i res = Decode_loop (c :: rest) (len - 1) bin i res.
Proof.
  intros Hl Hi. cbn [Decode_loop]. rewrite (proj2 (Z.ltb_lt 0 len)) by lia.
  rewrite (proj2 (Z.eqb_neq (i mod 4) 1)) by done. by rewrite andb_false_r.
Qed.

Lemma Decode_Encode_loop s : forall len bin i res,
  Forall is_byte s -> i mod 4 = 0 -> Z.of_nat (length (Encode s)) <= len ->
  Decode_loop (Encode s ++ [0]) len bin i res = DecOk (res ++ s).
Proof.
  induction s as [|c0|c0 c1|c0 c1 c2 s IH] using triples_ind; intros len bin i res Hb Hm Hl.
  - cbn. by rewrite app_nil_r.
  - apply Forall_cons in Hb as [H0 _]. rewrite Encode_tail1 in *. simpl in Hl.
    cbn [app]. pose proof (mod4_add i 0 2 Hm ltac:(lia)).
    rewrite Decode_two, !Decode_pad by (done || lia || apply byte_0). done.
  - apply Forall_cons in Hb as [H0 [H1 _]%Forall_cons]. rewrite Encode_tail2 in *. simpl in Hl.
    cbn [app]. pose proof (mod4_add i 0 2 Hm ltac:(lia)). pose proof (mod4_add i 0 3 Hm ltac:(lia)).
    rewrite Decode_two, Decode_third by (done || lia || apply byte_0).
    replace (i + 2 + 1) with (i + 3) by lia.
    rewrite Decode_pad by lia. cbn. by rewrite <-app_assoc.
  - apply Forall_cons in Hb as [H0 [H1 [H2 Hb]%Forall_cons]%Forall_cons].
    rewrite Encode_cons3 in *. cbn [length] in Hl. cbn [app].
    pose proof (mod4_add i 0 2 Hm ltac:(lia)). pose proof (mod4_add i 0 3 Hm ltac:(lia)).
    rewrite Decode_two, Decode_third by (done || lia).
    replace (i + 2 + 1) with (i + 3) by lia.
    edestruct (Decode_fourth c2) as [bin' ->]; [done|done|lia|].
    rewrite IH; [by rewrite <-!app_assoc|done| |lia].
    rewrite <-Z.add_assoc, <-Z.add_mod_idemp_l, Hm by lia. done.
Qed.

(** Base64::Decode inverts Base64::Encode: given the encoded text as a C
    string with its length it returns the original bytes, never the null string
    and without an access outside the decode table or behind the terminator. *)
Theorem base64_decode_encode s :
  Forall is_byte s ->
  Decode (Encode s ++ [0]) (Z.of_nat (length (Encode s))) = DecOk s.
Proof. intros H. unfold Decode. by rewrite Decode_Encode_loop. Qed.

Lemma base64_decode_encode_witness :
  Forall is_byte [255; 0; 61; 7] /\
  Decode (bs "/wA9Bw==" ++ [0]) 8 = DecOk [255; 0; 61; 7].
Proof.
  assert (Forall is_byte [255; 0; 61; 7]) as H
    by (apply (bool_decide_unpack _); vm_compute; exact I).
  split; [exact H|exact (base64_decode_encode _ H)].
Defined.

(** *** The two encoders agree *)

Lemma shiftr_shiftl_byte c k j :
  is_byte c -> 0 <= k -> k + 8 <= j -> Z.shiftr (Z.shiftl c k) j = 0.
Proof.
  unfold is_byte. intros Hc Hk Hj. rewrite Z.shiftr_div_pow2, Z.shiftl_mul_pow2 by lia.
  apply Z.div_small. split; [nia|].
  apply Z.lt_le_trans with (2 ^ (k + 8)); [|apply Z.pow_le_mono_r; lia].
  rewrite Z.pow_add_r by lia. change (2 ^ 8) with 256. nia.
Qed.

Lemma land_shiftl_63 c k : 6 <= k -> Z.land (Z.shiftl c k) 63 = 0.
Proof.
  intros Hk. change 63 with (Z.ones 6). rewrite Z.land_ones, Z.shiftl_mul_pow2 by lia.
  replace k with ((k - 6) + 6) by lia. rewrite Z.pow_add_r by lia.
  rewrite Z.mul_assoc. by apply Z.mod_mul.
Qed.

Definition quad (c0 c1 c2 : Z) : Z := Z.lor (Z.lor (Z.shiftl c0 16) (Z.shiftl c1 8)) c2.

Lemma quad_sextets c0 c1 c2 :
  is_byte c0 -> is_byte c1 -> is_byte c2 ->
  Z.shiftr (quad c0 c1 c2) 18 = Z.shiftr c0 2 /\
  Z.land (Z.shiftr (quad c0 c1 c2) 12) 63 = sextet1 c0 c1 /\
  Z.land (Z.shiftr (quad c0 c1 c2) 6) 63 = sextet2 c1 c2 /\
  Z.land (quad c0 c1 c2) 63 = Z.land c2 63.
Proof.
  intros H0 H1 H2. unfold quad. rewrite !Z.shiftr_lor.
  assert (forall j, 8 <= j -> Z.shiftr c2 j = 0) as S2.
  { intros j Hj. rewrite <-(Z.shiftl_0_r c2). by apply shiftr_shiftl_byte. }
  rewrite (S2 18), (S2 12), (shiftr_shiftl_byte c1 8 18), !Z.lor_0_r by (done || lia).
  rewrite (Z.shiftr_shiftl_r c0 16 18), (Z.shiftr_shiftl_l c0 16 12), (Z.shiftr_shiftl_r c1 8 12),
    (Z.shiftr_shiftl_l c0 16 6), (Z.shiftr_shiftl_l c1 8 6) by lia.
  rewrite !Z.land_lor_distr_l, (land_shiftl_63 c0 (16 - 6)), (land_shiftl_63 c0 16),
    (land_shiftl_63 c1 8), !Z.lor_0_l by lia.
  split_and!; [done| | |done].
  - apply Z.eqb_eq. exact (all_bytes_check2 (fun c0 c1 => Z.lor (Z.land (Z.shiftl c0 4) 63)
      (Z.land (Z.shiftr c1 4) 63) =? sextet1 c0 c1) ltac:(vm_compute; done) c0 c1 H0 H1).
  - apply Z.eqb_eq. exact (all_bytes_check2 (fun c0 c1 => Z.lor (Z.land (Z.shiftl c0 2) 63)
      (Z.land (Z.shiftr c1 6) 63) =? sextet2 c0 c1) ltac:(vm_compute; done) c1 c2 H1 H2).
Qed.

(** the URL-safe alphabet *)
Definition url_safe (c : Z) : Z := if c =? 43 then 45 else if c =? 47 then 95 else c.

Lemma tbl_url_safe v :
  0 <= v < 64 -> tbl MAP_URL_ENCODED v = url_safe (tbl _base64_table v) /\
                 tbl _base64_table v <> 61.
Proof.
  intros Hv. pose proof (all_bytes_check (fun v => implb (v <? 64)
    ((tbl MAP_URL_ENCODED v =? url_safe (tbl _base64_table v)) &&
     negb (tbl _base64_table v =? 61))) ltac:(vm_compute; done) v ltac:(unfold is_byte; lia)) as H.
  cbv beta in H. rewrite (proj2 (Z.ltb_lt v 64)) in H by lia. cbn [implb] in H. by zbool.
Qed.

Lemma b64_loop_cons3 map u c0 c1 c2 rest :
  b64_loop map u (c0 :: c1 :: c2 :: rest) =
  [tbl map (Z.shiftr (quad c0 c1 c2) 18); tbl map (Z.land (Z.shiftr (quad c0 c1 c2) 12) 63);
   tbl map (Z.land (Z.shiftr (quad c0 c1 c2) 6) 63); tbl map (Z.land (quad c0 c1 c2) 63)] ++
  b64_loop map u rest.
Proof. done. Qed.

Lemma b64_loop_tail1 map u c0 :
  b64_loop map u [c0] =
  [tbl map (Z.shiftr (quad c0 0 0) 18); tbl map (Z.land (Z.shiftr (quad c0 0 0) 12) 63)] ++
  (if u then [] else [61; 61]).
Proof. unfold quad. change (Z.shiftl 0 8) with 0. by rewrite !Z.lor_0_r. Qed.

Lemma b64_loop_tail2 map u c0 c1 :
  is_byte c0 -> is_byte c1 ->
  b64_loop map u [c0; c1] =
  [tbl map (Z.shiftr (quad c0 c1 0) 18); tbl map (Z.land (Z.shiftr (quad c0 c1 0) 12) 63);
   tbl map (Z.land (Z.shiftr (quad c0 c1 0) 6) 63)] ++ (if u then [] else [61]).
Proof.
  intros H0 H1. unfold quad. rewrite Z.lor_0_r. cbn [b64_loop app].
  rewrite (Z.shiftr_lor _ _ 18), (shiftr_shiftl_byte c1 8 18), Z.lor_0_r by (done || lia). done.
Qed.

(** base64_encode of utils.hpp writes what Base64::Encode returns; with
    [url_encoded] it writes the same text in the URL-safe alphabet and without
    padding. *)
Theorem base64_encoders_agree s :
  Forall is_byte s ->
  base64_encode s false = Encode s /\
  base64_encode s true = url_safe <$> filter (fun c => c <> 61) (Encode s).
Proof.
  unfold base64_encode. change MAP with _base64_table.
  induction s as [|c0|c0 c1|c0 c1 c2 s IH] using triples_ind; intros Hb; [done|..].
  - apply Forall_cons in Hb as [H0 _].
    destruct (quad_sextets c0 0 0 H0 byte_0 byte_0) as (E0 & E1 & _ & _).
    destruct (sextet1_facts c0 0 H0 byte_0) as (R1 & _).
    destruct (tbl_url_safe _ (sextet0_range _ H0)) as [U0 N0], (tbl_url_safe _ R1) as [U1 N1].
    rewrite !b64_loop_tail1, Encode_tail1, E0, E1. split; [done|].
    rewrite !filter_cons_True, !filter_cons_False by (done || tauto).
    rewrite filter_nil. cbn [fmap list_fmap app]. by rewrite U0, U1.
  - apply Forall_cons in Hb as [H0 [H1 _]%Forall_cons].
    destruct (quad_sextets c0 c1 0 H0 H1 byte_0) as (E0 & E1 & E2 & _).
    destruct (sextet1_facts c0 c1 H0 H1) as (R1 & _), (sextet2_facts c1 0 H1 byte_0) as (R2 & _).
    destruct (tbl_url_safe _ (sextet0_range _ H0)) as [U0 N0], (tbl_url_safe _ R1) as [U1 N1],
      (tbl_url_safe _ R2) as [U2 N2].
    rewrite !b64_loop_tail2, Encode_tail2, E0, E1, E2 by done. split; [done|].
    rewrite !filter_cons_True, !filter_cons_False by (done || tauto).
    rewrite filter_nil. cbn [fmap list_fmap app]. by rewrite U0, U1, U2.
  - apply Forall_cons in Hb as [H0 [H1 [H2 Hb]%Forall_cons]%Forall_cons].
    destruct (IH Hb) as [IH1 IH2].
    destruct (quad_sextets c0 c1 c2 H0 H1 H2) as (E0 & E1 & E2 & E3).
    destruct (sextet1_facts c0 c1 H0 H1) as (R1 & _), (sextet2_facts c1 c2 H1 H2) as (R2 & _).
    destruct (tbl_url_safe _ (sextet0_range _ H0)) as [U0 N0], (tbl_url_safe _ R1) as [U1 N1],
      (tbl_url_safe _ R2) as [U2 N2], (tbl_url_safe _ (sextet3_range _ H2)) as [U3 N3].
    rewrite !b64_loop_cons3, Encode_cons3, E0, E1, E2, E3, IH1, IH2. split; [done|].
    rewrite !filter_cons_True by done.
    cbn [fmap list_fmap app]. by rewrite U0, U1, U2, U3.
Qed.

Lemma base64_encoders_agree_witness :
  base64_encode [251; 255; 191; 62] false = bs "+/+/Pg==" /\
  base64_encode [251; 255; 191; 62] true = bs "-_-_Pg".
Proof.
  destruct (base64_encoders_agree [251; 255; 191; 62]) as [H1 H2].
  - apply (bool_decide_unpack _); vm_compute; exact I.
  - split; [rewrite H1|rewrite H2]; reflexivity.
Defined.
