(* ===== verification/Utf8.v ===== *)
(** * UTF-8 validation

    is_valid_utf8 of src/include/netcore/utils.hpp, which scans four ASCII bytes
    at a time, and the well-formedness of UTF-8 it decides: a string is the
    encoding of a sequence of Unicode scalar values. *)

From Stdlib Require Import ZArith Lia.
From stdpp Require Import base numbers list strings.
From S2P Require Import Prelude.

Local Open Scope Z_scope.

(** [*(uint32_t * )s] on a little-endian machine *)
Definition word32 (b0 b1 b2 b3 : Z) : Z :=
  b0 + Z.shiftl b1 8 + Z.shiftl b2 16 + Z.shiftl b3 24.

(** [s + 4 <= e && (word & 0x80808080) == 0] *)
Definition ascii_block (s : bytes) : bool :=
  match s with
  | b0 :: b1 :: b2 :: b3 :: _ => Z.land (word32 b0 b1 b2 b3) 0x80808080 =? 0
  | _ => false
  end.

(** [while (!( *s & 0x80)) if (++s == e) return true]: [None] is the return;
    the loop is entered with s <> e *)
Fixpoint skip_ascii (s : bytes) : option bytes :=
  match s with
  | [] => None
  | b :: rest => if Z.land b 0x80 =? 0 then skip_ascii rest else Some s
  end.

(** the three multi-byte forms: the bytes after the sequence, or [return false] *)
Definition multibyte (s : bytes) : option bytes :=
  match s with
  | [] => None
  | s0 :: r =>
      if Z.land s0 0x60 =? 0x40 then
        match r with
        | s1 :: rest =>
            if negb (Z.land s1 0xc0 =? 0x80) || (Z.land s0 0xfe =? 0xc0) then None
            else Some rest
        | _ => None
        end
      else if Z.land s0 0xf0 =? 0xe0 then
        match r with
        | s1 :: s2 :: rest =>
            if negb (Z.land s1 0xc0 =? 0x80) || negb (Z.land s2 0xc0 =? 0x80) ||
               ((s0 =? 0xe0) && (Z.land s1 0xe0 =? 0x80)) ||
               ((s0 =? 0xed) && (Z.land s1 0xe0 =? 0xa0)) then None
            else Some rest
        | _ => None
        end
      else if Z.land s0 0xf8 =? 0xf0 then
        match r with
        | s1 :: s2 :: s3 :: rest =>
            if negb (Z.land s1 0xc0 =? 0x80) || negb (Z.land s2 0xc0 =? 0x80) ||
               negb (Z.land s3 0xc0 =? 0x80) ||
               ((s0 =? 0xf0) && (Z.land s1 0xf0 =? 0x80)) ||
               ((s0 =? 0xf4) && (0x8f <? s1)) || (0xf4 <? s0) then None
            else Some rest
        | _ => None
        end
      else None
  end.

Fixpoint utf8_loop (fuel : nat) (s : bytes) : option bool :=
  match fuel with
  | O => None
  | S fuel =>
      match s with
      | [] => Some true
      | _ =>
          if ascii_block s then utf8_loop fuel (drop 4 s)
          else match skip_ascii s with
               | None => Some true
               | Some s =>
                   match multibyte s with
                   | None => Some false
                   | Some rest => utf8_loop fuel rest
                   end
               end
      end
  end.

Definition is_valid_utf8 (s : bytes) : option bool := utf8_loop (S (length s)) s.

(** ** Well-formed UTF-8 *)

Definition scalar (c : Z) : Prop := 0 <= c < 0xD800 \/ 0xE000 <= c < 0x110000.

Definition utf8_encode (c : Z) : bytes :=
  if c <? 0x80 then [c]
  else if c <? 0x800 then [0xC0 + c / 64; 0x80 + c mod 64]
  else if c <? 0x10000 then [0xE0 + c / 4096; 0x80 + (c / 64) mod 64; 0x80 + c mod 64]
  else [0xF0 + c / 262144; 0x80 + (c / 4096) mod 64; 0x80 + (c / 64) mod 64; 0x80 + c mod 64].

Definition well_formed (s : bytes) : Prop :=
  exists cs, Forall scalar cs /\ s = mjoin (utf8_encode <$> cs).

(** ** The bit tests as intervals *)

Lemma ascii_bit b : is_byte b -> (Z.land b 0x80 =? 0) = (b <? 0x80).
Proof. intros H. apply eqb_prop. revert b H. apply all_bytes_check. vm_compute. done. Qed.

Lemma cont_bits b :
  is_byte b -> (Z.land b 0xc0 =? 0x80) = ((0x80 <=? b) && (b <? 0xc0)).
Proof. intros H. apply eqb_prop. revert b H. apply all_bytes_check. vm_compute. done. Qed.

Lemma lead_bits b :
  is_byte b ->
  (Z.land b 0x60 =? 0x40) && (0x80 <=? b) = (0xc0 <=? b) && (b <? 0xe0) /\
  (Z.land b 0xfe =? 0xc0) = (0xc0 <=? b) && (b <? 0xc2) /\
  (Z.land b 0xf0 =? 0xe0) = (0xe0 <=? b) && (b <? 0xf0) /\
  (Z.land b 0xf8 =? 0xf0) = (0xf0 <=? b) && (b <? 0xf8).
Proof.
  intros H. split_and!; apply eqb_prop; revert b H; apply all_bytes_check; vm_compute; done.
Qed.

Lemma second_bits b :
  is_byte b ->
  (Z.land b 0xe0 =? 0x80) = (0x80 <=? b) && (b <? 0xa0) /\
  (Z.land b 0xe0 =? 0xa0) = (0xa0 <=? b) && (b <? 0xc0) /\
  (Z.land b 0xf0 =? 0x80) = (0x80 <=? b) && (b <? 0x90).
Proof.
  intros H. split_and!; apply eqb_prop; revert b H; apply all_bytes_check; vm_compute; done.
Qed.

Lemma mask_testbit w n :
  Z.land w 0x80808080 = 0 -> Z.testbit 0x80808080 n = true -> Z.testbit w n = false.
Proof.
  intros H Hn. apply (f_equal (fun z => Z.testbit z n)) in H.
  rewrite Z.land_spec, Hn, andb_true_r, Z.bits_0 in H. done.
Qed.

Lemma high_bit_clear b : is_byte b -> Z.testbit b 7 = false -> b < 0x80.
Proof.
  intros Hb H. pose proof (all_bytes_check (fun b => Z.testbit b 7 || (b <? 0x80))
    ltac:(vm_compute; done) b Hb) as E. cbv beta in E. rewrite H in E. by apply Z.ltb_lt.
Qed.

Lemma word_byte_testbit w k b :
  0 <= k -> (w / 2 ^ k) mod 256 = b -> Z.testbit w (k + 7) = Z.testbit b 7.
Proof.
  intros Hk <-. change 256 with (2 ^ 8). rewrite Z.mod_pow2_bits_low by lia.
  rewrite <-Z.shiftr_div_pow2, Z.shiftr_spec by lia. f_equal. lia.
Qed.

Lemma ascii_block_spec s :
  Forall is_byte s -> ascii_block s = true ->
  exists b0 b1 b2 b3 r, s = b0 :: b1 :: b2 :: b3 :: r /\
    b0 < 0x80 /\ b1 < 0x80 /\ b2 < 0x80 /\ b3 < 0x80.
Proof.
  intros Hs H. destruct s as [|b0 [|b1 [|b2 [|b3 r]]]]; try done.
  apply Forall_cons in Hs as [H0 [H1 [H2 [H3 _]%Forall_cons]%Forall_cons]%Forall_cons].
  exists b0, b1, b2, b3, r. split; [done|]. cbn [ascii_block] in H. apply Z.eqb_eq in H.
  assert (forall k b, 0 <= k -> is_byte b -> Z.testbit 0x80808080 (k + 7) = true ->
    (word32 b0 b1 b2 b3 / 2 ^ k) mod 256 = b -> b < 0x80) as Hb.
  { intros k b Hk Hb Hm E. apply high_bit_clear; [done|].
    rewrite <-(word_byte_testbit _ k _ Hk E). by apply mask_testbit. }
  unfold is_byte in *. unfold word32 in *. rewrite !Z.shiftl_mul_pow2 in Hb by lia.
  split_and!; [apply (Hb 0)|apply (Hb 8)|apply (Hb 16)|apply (Hb 24)]; try done;
    cbn [Z.pow Z.pow_pos Pos.iter Z.mul Pos.mul]; Z.div_mod_to_equations; lia.
Qed.

(** the code point a well-formed sequence stands for *)
Lemma encode2 s0 s1 :
  0xc2 <= s0 < 0xe0 -> 0x80 <= s1 < 0xc0 ->
  exists c, scalar c /\ utf8_encode c = [s0; s1].
Proof.
  intros H0 H1. exists ((s0 - 0xC0) * 64 + (s1 - 0x80)). unfold scalar, utf8_encode.
  split; [lia|]. repeat (casif; zbool; [lia|]). casif; zbool; [|lia].
  repeat f_equal; Z.div_mod_to_equations; lia.
Qed.

Lemma encode3 s0 s1 s2 :
  0xe0 <= s0 < 0xf0 -> 0x80 <= s1 < 0xc0 -> 0x80 <= s2 < 0xc0 ->
  (s0 = 0xe0 -> 0xa0 <= s1) -> (s0 = 0xed -> s1 < 0xa0) ->
  exists c, scalar c /\ utf8_encode c = [s0; s1; s2].
Proof.
  intros H0 H1 H2 Hlo Hsur.
  exists ((s0 - 0xE0) * 4096 + (s1 - 0x80) * 64 + (s2 - 0x80)). unfold scalar, utf8_encode.
  assert (0x800 <= (s0 - 0xE0) * 4096 + (s1 - 0x80) * 64 + (s2 - 0x80)) by lia.
  split; [lia|]. repeat (casif; zbool; [lia|]). casif; zbool; [|lia].
  repeat f_equal; Z.div_mod_to_equations; lia.
Qed.

Lemma encode4 s0 s1 s2 s3 :
  0xf0 <= s0 <= 0xf4 -> 0x80 <= s1 < 0xc0 -> 0x80 <= s2 < 0xc0 -> 0x80 <= s3 < 0xc0 ->
  (s0 = 0xf0 -> 0x90 <= s1) -> (s0 = 0xf4 -> s1 <= 0x8f) ->
  exists c, scalar c /\ utf8_encode c = [s0; s1; s2; s3].
Proof.
  intros H0 H1 H2 H3 Hlo Hhi.
  exists ((s0 - 0xF0) * 262144 + (s1 - 0x80) * 4096 + (s2 - 0x80) * 64 + (s3 - 0x80)).
  unfold scalar, utf8_encode.
  assert (0x10000 <= (s0 - 0xF0) * 262144 + (s1 - 0x80) * 4096 + (s2 - 0x80) * 64 + (s3 - 0x80))
    by lia.
  split; [lia|]. repeat (casif; zbool; [lia|]).
  repeat f_equal; Z.div_mod_to_equations; lia.
Qed.

Lemma multibyte_sound s0 r rest :
  Forall is_byte (s0 :: r) -> 0x80 <= s0 -> multibyte (s0 :: r) = Some rest ->
  exists c, scalar c /\ s0 :: r = utf8_encode c ++ rest.
Proof.
  intros Hs H0 H. apply Forall_cons in Hs as [Hs0 Hr].
  destruct (lead_bits s0 Hs0) as (E1 & E2 & E3 & E4).
  rewrite (proj2 (Z.leb_le 0x80 s0)), andb_true_r in E1 by lia.
  cbn [multibyte] in H. rewrite E1, E2, E3, E4 in H. clear E1 E2 E3 E4.
  destruct ((0xc0 <=? s0) && (s0 <? 0xe0)) eqn:C2; [|
    destruct ((0xe0 <=? s0) && (s0 <? 0xf0)) eqn:C3; [|
      destruct ((0xf0 <=? s0) && (s0 <? 0xf8)) eqn:C4; [|done]]].
  - destruct r as [|s1 r]; [done|]. apply Forall_cons in Hr as [Hs1 _].
    rewrite cont_bits in H by done. casif_in H; [done|]. simplify_eq.
    destruct (encode2 s0 s1) as (c & Hc & E); [zsplit; lia..|]. exists c. by rewrite E.
  - destruct r as [|s1 [|s2 r]]; [done..|]. apply Forall_cons in Hr as [Hs1 [Hs2 _]%Forall_cons].
    destruct (second_bits s1 Hs1) as (B1 & B2 & _).
    rewrite !cont_bits, B1, B2 in H by done. casif_in H; [done|]. simplify_eq. clear C2 B1 B2.
    destruct (encode3 s0 s1 s2) as (c & Hc & E); [zsplit; lia..|]. exists c. by rewrite E.
  - destruct r as [|s1 [|s2 [|s3 r]]]; [done..|].
    apply Forall_cons in Hr as [Hs1 [Hs2 [Hs3 _]%Forall_cons]%Forall_cons].
    destruct (second_bits s1 Hs1) as (_ & _ & B).
    rewrite !cont_bits, B in H by done. casif_in H; [done|]. simplify_eq. clear C2 C3 B.
    destruct (encode4 s0 s1 s2 s3) as (c & Hc & E); [zsplit; lia..|]. exists c. by rewrite E.
Qed.

(** decide a boolean condition on intervals *)
Ltac zcond :=
  match goal with
  | |- context [if ?b then _ else _] =>
      let E := fresh in
      first [assert (b = true) as E by
        (repeat first [rewrite andb_true_iff | rewrite orb_true_iff | rewrite negb_true_iff];
         rewrite ?Z.leb_le, ?Z.ltb_lt, ?Z.eqb_eq; lia)
       | assert (b = false) as E by
        (repeat first [rewrite andb_false_iff | rewrite orb_false_iff | rewrite negb_false_iff
                      | rewrite andb_true_iff];
         rewrite ?Z.leb_gt, ?Z.ltb_ge, ?Z.eqb_neq, ?Z.leb_le, ?Z.ltb_lt; lia)];
      rewrite E; clear E
  end.

Lemma byte_range b : 0 <= b < 256 -> is_byte b.
Proof. done. Qed.

Lemma multibyte_complete c rest :
  scalar c -> 0x80 <= c ->
  multibyte (utf8_encode c ++ rest) = Some rest /\
  exists b r, utf8_encode c = b :: r /\ 0x80 <= b.
Proof.
  intros Hc Hge. unfold utf8_encode, scalar in *.
  destruct (c <? 0x80) eqn:C1; zbool; [lia|].
  destruct (c <? 0x800) eqn:C2; zbool; [|destruct (c <? 0x10000) eqn:C3; zbool];
    cbn [app multibyte].
  - split; [|eexists _, _; split; [done|]; Z.div_mod_to_equations; lia].
    set (s0 := 0xC0 + c / 64). set (s1 := 0x80 + c mod 64).
    assert (0xc2 <= s0 < 0xe0) by (unfold s0; Z.div_mod_to_equations; lia).
    assert (0x80 <= s1 < 0xc0) by (unfold s1; Z.div_mod_to_equations; lia).
    clearbody s0 s1.
    destruct (lead_bits s0 ltac:(apply byte_range; lia)) as (E1 & E2 & _).
    rewrite (proj2 (Z.leb_le 0x80 s0)), andb_true_r in E1 by lia.
    rewrite E1, E2, cont_bits by (apply byte_range; lia). by do 2 zcond.
  - split; [|eexists _, _; split; [done|]; Z.div_mod_to_equations; lia].
    set (s0 := 0xE0 + c / 4096). set (s1 := 0x80 + (c / 64) mod 64). set (s2 := 0x80 + c mod 64).
    assert (0xe0 <= s0 < 0xf0 /\ 0x80 <= s1 < 0xc0 /\ 0x80 <= s2 < 0xc0 /\
      (s0 = 0xe0 -> 0xa0 <= s1) /\ (s0 = 0xed -> s1 < 0xa0)) as (H0 & H1 & H2 & H3 & H4)
      by (unfold s0, s1, s2; Z.div_mod_to_equations; lia).
    clearbody s0 s1 s2.
    destruct (lead_bits s0 ltac:(apply byte_range; lia)) as (E1 & E2 & E3 & _).
    destruct (second_bits s1 ltac:(apply byte_range; lia)) as (B1 & B2 & _).
    rewrite (proj2 (Z.leb_le 0x80 s0)), andb_true_r in E1 by lia.
    rewrite E1, E3, B1, B2, !cont_bits by (apply byte_range; lia). by do 3 zcond.
  - split; [|eexists _, _; split; [done|]; Z.div_mod_to_equations; lia].
    set (s0 := 0xF0 + c / 262144). set (s1 := 0x80 + (c / 4096) mod 64).
    set (s2 := 0x80 + (c / 64) mod 64). set (s3 := 0x80 + c mod 64).
    assert (0xf0 <= s0 <= 0xf4 /\ 0x80 <= s1 < 0xc0 /\ 0x80 <= s2 < 0xc0 /\ 0x80 <= s3 < 0xc0 /\
      (s0 = 0xf0 -> 0x90 <= s1) /\ (s0 = 0xf4 -> s1 <= 0x8f)) as (H0 & H1 & H2 & H3 & H4 & H5)
      by (unfold s0, s1, s2, s3; Z.div_mod_to_equations; lia).
    clearbody s0 s1 s2 s3.
    destruct (lead_bits s0 ltac:(apply byte_range; lia)) as (E1 & E2 & E3 & E4).
    destruct (second_bits s1 ltac:(apply byte_range; lia)) as (_ & _ & B3).
    rewrite (proj2 (Z.leb_le 0x80 s0)), andb_true_r in E1 by lia.
    rewrite E1, E3, E4, B3, !cont_bits by (apply byte_range; lia). by do 4 zcond.
Qed.

Lemma well_formed_nil : well_formed [].
Proof. by exists []. Qed.

Lemma well_formed_app c s : scalar c -> well_formed s -> well_formed (utf8_encode c ++ s).
Proof.
  intros Hc (cs & Hcs & ->). exists (c :: cs). split; [by constructor|done].
Qed.

Lemma well_formed_inv s :
  well_formed s -> s = [] \/ exists c rest, scalar c /\ well_formed rest /\ s = utf8_encode c ++ rest.
Proof.
  intros ([|c cs] & Hcs & ->); [by left|]. apply Forall_cons in Hcs as [Hc Hcs].
  right. exists c, (mjoin (utf8_encode <$> cs)). split_and!; [done|by exists cs|done].
Qed.

Lemma well_formed_ascii b s : 0 <= b < 0x80 -> well_formed (b :: s) <-> well_formed s.
Proof.
  intros Hb. split; intros H.
  - apply well_formed_inv in H as [?|(c & rest & Hc & Hrest & E)]; [done|].
    destruct (decide (c < 0x80)) as [Hlt|Hge].
    + unfold utf8_encode in E. rewrite (proj2 (Z.ltb_lt c 0x80)) in E by lia.
      by simplify_eq/=.
    + destruct (multibyte_complete c rest Hc ltac:(lia)) as [_ (b' & r & E' & Hb')].
      rewrite E' in E. simplify_eq/=. lia.
  - assert (scalar b) as Hsc by (unfold scalar; lia).
    pose proof (well_formed_app b s Hsc H) as W. unfold utf8_encode in W.
    by rewrite (proj2 (Z.ltb_lt b 0x80)) in W by lia.
Qed.

Lemma well_formed_multibyte b s :
  Forall is_byte (b :: s) -> 0x80 <= b ->
  well_formed (b :: s) <->
  match multibyte (b :: s) with Some rest => well_formed rest | None => False end.
Proof.
  intros Hs Hb. split.
  - intros H. apply well_formed_inv in H as [?|(c & rest & Hc & Hrest & E)]; [done|].
    destruct (decide (c < 0x80)) as [Hlt|Hge].
    + unfold utf8_encode in E. rewrite (proj2 (Z.ltb_lt c 0x80)) in E by lia.
      simplify_eq/=. lia.
    + rewrite E. by destruct (multibyte_complete c rest Hc ltac:(lia)) as [-> _].
  - destruct (multibyte (b :: s)) as [rest|] eqn:E; [|done].
    intros H. destruct (multibyte_sound b s rest Hs Hb E) as (c & Hc & ->).
    by apply well_formed_app.
Qed.

Lemma skip_ascii_spec s :
  Forall is_byte s ->
  match skip_ascii s with
  | None => well_formed s
  | Some s' => exists b r, s' = b :: r /\ 0x80 <= b /\ Forall is_byte s' /\
      (length s' <= length s)%nat /\ (well_formed s <-> well_formed s')
  end.
Proof.
  induction s as [|b s IH]; intros Hs; cbn [skip_ascii]; [apply well_formed_nil|].
  pose proof Hs as [Hb Hs']%Forall_cons. rewrite ascii_bit by done.
  destruct (b <? 0x80) eqn:E; zbool.
  - unfold is_byte in Hb. specialize (IH Hs'). destruct (skip_ascii s) as [s'|].
    + destruct IH as (b' & r & -> & H1 & H2 & H3 & H4). exists b', r.
      split_and!; [done..|simpl in *; lia|]. rewrite well_formed_ascii by lia. done.
    + apply well_formed_ascii; [lia|done].
  - exists b, s. done.
Qed.

Lemma multibyte_shorter s rest :
  multibyte s = Some rest -> (length rest < length s)%nat /\ (Forall is_byte s -> Forall is_byte rest).
Proof.
  unfold multibyte. intros H. repeat casif_in H; simplify_eq/=; (split; [lia|]);
    intros HF; repeat (apply Forall_cons in HF as [_ HF]); done.
Qed.

Lemma utf8_loop_spec fuel s :
  Forall is_byte s -> (length s < fuel)%nat ->
  exists v, utf8_loop fuel s = Some v /\ (v = true <-> well_formed s).
Proof.
  revert s; induction fuel as [|fuel IH]; intros s Hs Hf; [lia|].
  cbn [utf8_loop]. destruct s as [|b s]; [exists true; split; [done|]; split;
    [intros; apply well_formed_nil|done]|].
  destruct (ascii_block (b :: s)) eqn:E.
  - destruct (ascii_block_spec _ Hs E) as (b0 & b1 & b2 & b3 & r & Eq & H0 & H1 & H2 & H3).
    rewrite Eq in *. cbn [drop].
    apply Forall_cons in Hs as [B0 [B1 [B2 [B3 Hr]%Forall_cons]%Forall_cons]%Forall_cons].
    unfold is_byte in *.
    assert (well_formed (b0 :: b1 :: b2 :: b3 :: r) <-> well_formed r) as Hiff
      by (rewrite !well_formed_ascii by lia; done).
    setoid_rewrite Hiff. apply IH; [done|simpl in Hf; lia].
  - pose proof (skip_ascii_spec _ Hs) as Hskip. destruct (skip_ascii (b :: s)) as [s'|].
    + destruct Hskip as (b' & r & -> & Hb' & Hs' & Hl & Hiff).
      setoid_rewrite Hiff. setoid_rewrite well_formed_multibyte; [|done..].
      destruct (multibyte (b' :: r)) as [rest|] eqn:Em.
      * apply multibyte_shorter in Em as [Hlt Hby]. apply IH; [by apply Hby|simpl in *; lia].
      * by exists false.
    + by exists true.
Qed.

(** is_valid_utf8 terminates on every string and returns true exactly when
    the string is well-formed UTF-8: the concatenation of the shortest encodings
    of Unicode scalar values (no surrogates, nothing above U+10FFFF). *)
Theorem is_valid_utf8_correct s :
  Forall is_byte s ->
  exists v, is_valid_utf8 s = Some v /\ (v = true <-> well_formed s).
Proof. intros Hs. apply utf8_loop_spec; [done|lia]. Qed.

Lemma is_valid_utf8_correct_witness :
  is_valid_utf8 (bs "abcd" ++ [0xE4; 0xBD; 0xA0; 0xF0; 0x9F; 0x98; 0x80]) = Some true /\
  well_formed (bs "abcd" ++ [0xE4; 0xBD; 0xA0; 0xF0; 0x9F; 0x98; 0x80]) /\
  is_valid_utf8 [0xED; 0xA0; 0x80] = Some false /\ ~ well_formed [0xED; 0xA0; 0x80].
Proof.
  destruct (is_valid_utf8_correct (bs "abcd" ++ [0xE4; 0xBD; 0xA0; 0xF0; 0x9F; 0x98; 0x80]))
    as (v & H1 & H2); [apply (bool_decide_unpack _); vm_compute; exact I|].
  destruct (is_valid_utf8_correct [0xED; 0xA0; 0x80]) as (w & H3 & H4);
    [apply (bool_decide_unpack _); vm_compute; exact I|].
  vm_compute in H1, H3. injection H1 as <-. injection H3 as <-.
  split_and!; [reflexivity|by apply H2|reflexivity|]. intros H. apply H4 in H. discriminate.
Defined.
