(* ===== verification/Utils.v ===== *)
(** * String utilities

    The helpers of src/include/netcore/utils.hpp: trimming, splitting, case
    insensitive comparison, quoting, URL and host splitting, the method and
    content-type names and the cookie map.  [npos] is the 64-bit value
    [2^64 - 1]; the arithmetic on it wraps as in the source.  Where the source
    has undefined behaviour (back() of an empty view, an index below zero) the
    model has the outcome [UB]. *)

From Stdlib Require Import ZArith Lia.
From stdpp Require Import base numbers list gmap strings.
From S2P Require Import Prelude CStd Codec.

(** ** Trimming *)

(** v.find_first_not_of(" ") and v.find_last_not_of(" ") *)
Fixpoint find_first_not_of_space (v : bytes) : option nat :=
  match v with
  | [] => None
  | c :: v => if (c =? 32)%Z then S <$> find_first_not_of_space v else Some 0
  end.

Fixpoint find_last_not_of_space (v : bytes) : option nat :=
  match v with
  | [] => None
  | c :: v =>
      match find_last_not_of_space v with
      | Some i => Some (S i)
      | None => if (c =? 32)%Z then None else Some 0
      end
  end.

Definition npos : Z := (2 ^ 64 - 1)%Z.

Definition pos_of (o : option nat) : Z := match o with Some i => Z.of_nat i | None => npos end.

Definition remove_prefix (n : Z) (v : bytes) : bytes := drop (Z.to_nat n) v.
Definition remove_suffix (n : Z) (v : bytes) : bytes := take (length v - Z.to_nat n) v.

Definition trim_left (v : bytes) : bytes :=
  remove_prefix (Z.min (pos_of (find_first_not_of_space v)) (Z.of_nat (length v))) v.

Definition trim_right (v : bytes) : bytes :=
  remove_suffix
    (Z.min (wrap64 (Z.of_nat (length v) - pos_of (find_last_not_of_space v) - 1))
       (Z.of_nat (length v))) v.

Definition trim (v : bytes) : bytes :=
  let v := remove_prefix (Z.min (pos_of (find_first_not_of_space v)) (Z.of_nat (length v))) v in
  remove_suffix
    (Z.min (wrap64 (Z.of_nat (length v) - pos_of (find_last_not_of_space v) - 1))
       (Z.of_nat (length v))) v.

(** ** Splitting URLs *)

Inductive outcome (A : Type) :=
| Ok (a : A)
| OutOfRange
| UB.
Arguments Ok {A} a.
Arguments OutOfRange {A}.
Arguments UB {A}.

(** the position of the '/' that ends the domain: a '/' directly followed by a
    '/' that is not the last character is skipped with it *)
Fixpoint domain_end (fuel i : nat) (path : bytes) : option nat :=
  match fuel with
  | O => None
  | S fuel =>
      match path with
      | [] => None
      | c :: r =>
          if (c =? 47)%Z then
            match r with
            | [] => Some i
            | c2 :: r2 =>
                if bool_decide (r2 <> []) && (c2 =? 47)%Z then domain_end fuel (i + 2) r2
                else Some i
            end
          else domain_end fuel (i + 1) r
      end
  end.

Definition back_is (c : Z) (s : bytes) : bool := bool_decide (last s = Some c).

Definition get_domain_url (path : bytes) : bytes * bytes :=
  match domain_end (S (length path)) 0 path with
  | None => (path, bs "/")
  | Some pos =>
      let host := take pos path in
      let url := drop pos path in
      let url := if (1 <? length url)%nat && back_is 47 url
                 then take (length url - 1) url else url in
      (host, url)
  end.

Definition remove_www (path : bytes) : outcome bytes :=
  match last path with
  | None => UB
  | Some b =>
      let path := if (b =? 47)%Z then take (length path - 1) path else path in
      match find_str (bs "www.") path with
      | Some _ => Ok (drop 4 path)
      | None => Ok path
      end
  end.

Definition host_result (host : outcome bytes) (port : bytes) : outcome (bytes * bytes) :=
  match host with Ok h => Ok (h, port) | OutOfRange => OutOfRange | UB => UB end.

Definition get_host_port (path : bytes) (is_ssl : bool) : outcome (bytes * bytes) :=
  let old_path := path in
  match rfind_char 58 path with
  | None =>
      match find_str (bs "https") path with
      | Some _ => host_result (remove_www path) (bs "https")
      | None => host_result (remove_www path) (if is_ssl then bs "https" else bs "http")
      end
  | Some pos =>
      if (length path - 1 <? pos)%nat then Ok ([], [])
      else
        let after_scheme :=
          match find_str (bs "http") path with
          | None => Some (path, pos)
          | Some _ =>
              let pos1 := default 0 (find_char 58 path) in
              if (length path - 1 <? pos1 + 3)%nat then None
              else Some (drop (pos1 + 3) path,
                         if (pos1 + 3 <=? pos)%nat then pos - (pos1 + 3) else pos)
          end in
        match after_scheme with
        | None => Ok ([], [])
        | Some (path, pos) =>
            match pos with
            | O => UB
            | S before =>
                if (default 0 (old_path !! before) =? 112)%Z
                then host_result (remove_www path) (bs "http")
                else if (default 0 (old_path !! before) =? 115)%Z
                then host_result (remove_www path) (bs "https")
                else if (length path <? pos + 1)%nat then OutOfRange
                else Ok (take pos path, drop (pos + 1) path)
            end
        end
  end.

(** ** Methods and content types *)

Inductive http_method := UNKNOW | DEL | GET | HEAD | POST | PUT | CONNECT | OPTIONS | TRACE.

#[export] Instance http_method_eq_dec : EqDecision http_method.
Proof. solve_decision. Defined.

Definition method_name (mthd : http_method) : bytes :=
  match mthd with
  | DEL => bs "DELETE"
  | GET => bs "GET"
  | HEAD => bs "HEAD"
  | POST => bs "POST"
  | PUT => bs "PUT"
  | CONNECT => bs "CONNECT"
  | OPTIONS => bs "OPTIONS"
  | TRACE => bs "TRACE"
  | UNKNOW => bs "UNKONWN"
  end.

(** the overloads of type_to_name; there is none for UNKNOW *)
Definition type_to_name (mthd : http_method) : option bytes :=
  match mthd with UNKNOW => None | _ => Some (method_name mthd) end.

(** get_method_arr<Is...>: one slot per capital letter, 0 where unset *)
Definition get_method_arr (methods : list http_method) : list Z :=
  fold_left (fun arr mthd =>
    match type_to_name mthd with
    | Some (c :: _) => <[Z.to_nat (c - 65) := c]> arr
    | _ => arr
    end) methods (replicate 26 0%Z).

(** get_arr<Is...>(name) *)
Definition get_arr (methods : list http_method) (name : bytes) : list bytes :=
  (fun m => default [] (type_to_name m) ++ name) <$> methods.

Inductive req_content_type := ct_html | ct_json | ct_string | ct_multipart | ct_none.

Definition get_content_type_str (type : req_content_type) : bytes :=
  match type with
  | ct_html => bs "text/html; charset=UTF-8"
  | ct_json => bs "application/json; charset=UTF-8"
  | ct_string => bs "text/html; charset=UTF-8"
  | ct_multipart => bs "multipart/form-data; boundary="
  | ct_none => []
  end.

(** ** Comparison and search *)

Fixpoint iequal_loop (s t : bytes) : bool :=
  match s, t with
  | a :: s, b :: t => if negb (tolower a =? tolower b)%Z then false else iequal_loop s t
  | _, _ => true
  end.

Definition iequal (s t : bytes) : bool :=
  if negb (length t =? length s)%nat then false else iequal_loop s t.

(** the predicate of std::search in find_strIC, on a prefix *)
Fixpoint is_prefixIC (dest src : bytes) : bool :=
  match dest, src with
  | [], _ => true
  | d :: dest, s :: src => (toupper s =? toupper d)%Z && is_prefixIC dest src
  | _ :: _, [] => false
  end.

(** std::search: the position of the first match, or the end *)
Fixpoint searchIC (src dest : bytes) : nat :=
  if is_prefixIC dest src then 0
  else match src with
       | [] => 0
       | _ :: src => S (searchIC src dest)
       end.

Definition find_strIC (src dest : bytes) : bool := negb (searchIC src dest =? length src)%nat.

(** ** Splitting *)

(** s.find_first_of(delimiter), with the tail behind the delimiter *)
Fixpoint find_first_of (delimiter s : bytes) : option nat :=
  match s with
  | [] => None
  | c :: s => if bool_decide (c ∈ delimiter) then Some 0 else S <$> find_first_of delimiter s
  end.

(** the while loop; [s] is the view from [start] on *)
Fixpoint split_loop (fuel : nat) (delimiter s : bytes) : list bytes :=
  match fuel with
  | O => []
  | S fuel =>
      match find_first_of delimiter s with
      | None => [s]
      | Some e => take e s :: split_loop fuel delimiter (drop (S e) s)
      end
  end.

Definition split (s delimiter : bytes) : list bytes := split_loop (S (length s)) delimiter s.

Definition remove_char (str : bytes) (ch : Z) : bytes := filter (fun c => c <> ch) str.

(** ** Quoting *)

Definition valid_chr : list bool :=
  replicate 45 false ++ [true; true; false] ++ replicate 10 true ++ replicate 7 false ++
  replicate 26 true ++ replicate 4 false ++ [true; false] ++ replicate 26 true ++
  replicate 5 false.

(** os << '%' << setw(2) << hex << uppercase << intval, with fill '0' *)
Definition percent (intval : Z) : bytes :=
  let d := hex_upper <$> digits 16 intval in
  37%Z :: replicate (2 - length d) 48%Z ++ d.

Definition quote_char (safe : bytes) (chr : Z) : bytes :=
  if ((127 <? chr)%Z || negb (nth (Z.to_nat chr) valid_chr false)) &&
     bool_decide (find_char chr safe = None)
  then percent chr else [chr].

Definition quote_impl (str safe : bytes) : bytes := mjoin (quote_char safe <$> str).

Definition quote (str : bytes) : bytes := quote_impl str (bs "/").

Definition quote_plus (str : bytes) : bytes :=
  match find_char 32 str with
  | None => quote str
  | Some _ => (fun c => if (c =? 32)%Z then 43%Z else c) <$> quote_impl str (bs " ")
  end.

(** ** Names, status codes and numbers *)

Definition is_form_url_encode (str : bytes) : bool :=
  match find_char 37 str, find_char 43 str with None, None => false | _, _ => true end.

Definition get_extension (name : bytes) : bytes :=
  match rfind_char 46 name with None => [] | Some pos => drop pos name end.

Definition is_status_ok (status : Z) : bool :=
  (status =? 200)%Z || ((301 <=? status)%Z && (status <=? 307)%Z && negb (status =? 306)%Z).

(** [s.data()] is a C string: [after] is what follows the view in memory *)
Definition hex_to_int (s after : bytes) : Z :=
  match s with
  | [] => (-1)%Z
  | front :: _ =>
      let n := strtoll 16 (s ++ after) in
      if (n =? 0)%Z && negb (front =? 48)%Z then (-1)%Z else n
  end.

(** ** Cookies *)

Definition get_cookies_map (cookies_str : bytes) : gmap (list Z) (list Z) :=
  fold_left (fun cookies iter =>
    match split iter (bs "=") with
    | [k; v] => <[k := v]> cookies
    | _ => cookies
    end) (split cookies_str (bs "; ")) ∅.

(** ** Lemmas on trimming *)

Lemma first_not_space v :
  match find_first_not_of_space v with
  | None => v = replicate (length v) 32%Z
  | Some i => exists c r, v = replicate i 32%Z ++ c :: r /\ c <> 32%Z
  end.
Proof.
  induction v as [|c v IH]; simpl; [done|]. destruct (c =? 32)%Z eqn:E; zbool.
  - subst c. destruct (find_first_not_of_space v) as [i|]; simpl.
    + destruct IH as (c & r & -> & Hc). by exists c, r.
    + by f_equal.
  - by exists c, v.
Qed.

Lemma last_not_space v :
  match find_last_not_of_space v with
  | None => v = replicate (length v) 32%Z
  | Some i => exists r c, v = r ++ c :: replicate (length v - S i) 32%Z /\ length r = i /\ c <> 32%Z
  end.
Proof.
  induction v as [|c v IH]; simpl; [done|]. destruct (find_last_not_of_space v) as [i|].
  - destruct IH as (r & c' & E & Hr & Hc). exists (c :: r), c'. simpl. rewrite Hr.
    split_and!; [by f_equal|done|done].
  - destruct (c =? 32)%Z eqn:E; zbool.
    + subst c. by f_equal.
    + exists [], c. simpl. rewrite Nat.sub_0_r. split_and!; [by f_equal|done|done].
Qed.


(** a view is shorter than the address space *)
Definition view_ok (v : bytes) : Prop := (Z.of_nat (length v) < 2 ^ 64)%Z.

Lemma trim_left_split v :
  view_ok v -> exists n, v = replicate n 32%Z ++ trim_left v /\
  match trim_left v with [] => True | c :: _ => c <> 32%Z end.
Proof.
  intros Hv. unfold view_ok in Hv. unfold trim_left, remove_prefix.
  pose proof (first_not_space v) as H. destruct (find_first_not_of_space v) as [i|]; simpl.
  - destruct H as (c & r & -> & Hc). rewrite length_app, length_replicate in *. simpl in *.
    rewrite Z.min_l, Nat2Z.id by lia. exists i.
    rewrite drop_app_length' by (by rewrite length_replicate). done.
  - exists (length v). unfold npos. rewrite Z.min_r, Nat2Z.id by lia.
    rewrite drop_all, app_nil_r. done.
Qed.

Lemma trim_right_split v :
  view_ok v -> exists n, v = trim_right v ++ replicate n 32%Z /\
  match last (trim_right v) with None => True | Some c => c <> 32%Z end.
Proof.
  intros Hv. unfold view_ok in Hv. unfold trim_right, remove_suffix.
  pose proof (last_not_space v) as H. destruct (find_last_not_of_space v) as [i|]; simpl.
  - destruct H as (r & c & E & Hr & Hc).
    assert (length v = S i + (length v - S i)) as Hl.
    { rewrite E at 1. rewrite length_app. simpl. rewrite length_replicate. lia. }
    rewrite wrap64_small by lia. rewrite Z.min_l by lia.
    replace (length v - Z.to_nat _) with (S i) by lia.
    exists (length v - S i). set (k := length v - S i) in *.
    assert (take (S i) v = r ++ [c]) as ->.
    { rewrite E. rewrite cons_middle, app_assoc.
      rewrite take_app_length' by (rewrite length_app; simpl; lia). done. }
    rewrite <-app_assoc. split; [done|]. by rewrite last_snoc.
  - exists (length v). unfold npos, wrap64.
    replace (Z.of_nat (length v) - (2 ^ 64 - 1) - 1)%Z with (Z.of_nat (length v) + (-1) * 2 ^ 64)%Z
      by lia.
    rewrite Z.mod_add, Z.mod_small, Z.min_l, Nat2Z.id, Nat.sub_diag by lia. done.
Qed.

(** trim removes exactly the blanks at both ends: what is left neither
    begins nor ends with a blank, and putting blanks back gives the view. *)
Theorem trim_correct v :
  view_ok v ->
  (exists m n, v = replicate m 32%Z ++ trim v ++ replicate n 32%Z) /\
  match trim v with [] => True | c :: _ => c <> 32%Z end /\
  match last (trim v) with None => True | Some c => c <> 32%Z end.
Proof.
  intros Hv. change (trim v) with (trim_right (trim_left v)).
  destruct (trim_left_split v Hv) as (m & Em & Hm).
  assert (view_ok (trim_left v)) as Hv'.
  { unfold view_ok in *. rewrite Em, length_app in Hv. lia. }
  destruct (trim_right_split _ Hv') as (n & En & Hn).
  split_and!; [|destruct (trim_right (trim_left v)) as [|c r]; [done|]; by rewrite En in Hm|done].
  exists m, n. by rewrite <-En.
Qed.

Lemma trim_correct_witness :
  view_ok (bs "  a b ") /\ trim (bs "  a b ") = bs "a b" /\
  exists m n, bs "  a b " = replicate m 32%Z ++ trim (bs "  a b ") ++ replicate n 32%Z.
Proof.
  assert (view_ok (bs "  a b ")) as H by (unfold view_ok; vm_compute; reflexivity).
  split; [exact H|]. split; [reflexivity|]. exact (proj1 (trim_correct _ H)).
Defined.

(** ** Lemmas on splitting *)

Definition clean (delimiter f : bytes) : Prop := Forall (fun c => c ∉ delimiter) f.

#[export] Instance clean_dec d f : Decision (clean d f).
Proof. unfold clean. apply _. Defined.

Lemma find_first_of_clean d f : clean d f -> find_first_of d f = None.
Proof.
  induction 1 as [|c f Hc _ IH]; simpl; [done|]. by rewrite bool_decide_false, IH.
Qed.

Lemma find_first_of_app d f c s :
  clean d f -> c ∈ d -> find_first_of d (f ++ c :: s) = Some (length f).
Proof.
  intros Hf Hc. induction Hf as [|x f Hx _ IH]; simpl.
  - by rewrite bool_decide_true.
  - by rewrite bool_decide_false, IH.
Qed.

Lemma find_first_of_spec d s :
  match find_first_of d s with
  | None => clean d s
  | Some e => exists c r, s = take e s ++ c :: r /\ c ∈ d /\ clean d (take e s) /\
                drop (S e) s = r /\ length r < length s
  end.
Proof.
  induction s as [|x s IH]; simpl; [constructor|].
  destruct (bool_decide (x ∈ d)) eqn:E.
  - apply bool_decide_eq_true in E. exists x, s. split_and!; [done|done|constructor|done|simpl; lia].
  - apply bool_decide_eq_false in E. destruct (find_first_of d s) as [e|]; simpl.
    + destruct IH as (c & r & H1 & H2 & H3 & H4 & H5). exists c, r.
      split_and!; [by rewrite <-H1|done|by constructor|done|lia].
    + by constructor.
Qed.


Lemma split_loop_fuel f1 : forall f2 d s,
  length s < f1 -> length s < f2 -> split_loop f1 d s = split_loop f2 d s.
Proof.
  induction f1 as [|f1 IH]; intros [|f2] d s H1 H2; try lia. cbn [split_loop].
  pose proof (find_first_of_spec d s) as H. destruct (find_first_of d s) as [e|]; [|done].
  destruct H as (c & r & _ & _ & _ & -> & Hl). f_equal. apply IH; lia.
Qed.

Lemma split_clean d f : clean d f -> split f d = [f].
Proof. intros H. unfold split. cbn [split_loop]. by rewrite find_first_of_clean. Qed.

Lemma split_cons d f c s :
  clean d f -> c ∈ d -> split (f ++ c :: s) d = f :: split s d.
Proof.
  intros Hf Hc. unfold split at 1. cbn [split_loop]. rewrite find_first_of_app by done.
  rewrite take_app_length. f_equal.
  replace (drop (S (length f)) (f ++ c :: s)) with s.
  - apply split_loop_fuel; rewrite ?length_app; simpl; lia.
  - rewrite cons_middle, app_assoc, drop_app_length'; [done|]. rewrite length_app. simpl. lia.
Qed.

(** fields with the separators between them *)
Fixpoint weave (fields : list bytes) (seps : bytes) : bytes :=
  match fields, seps with
  | f :: fields, c :: seps => f ++ c :: weave fields seps
  | f :: _, [] => f
  | [], _ => []
  end.

Lemma split_loop_weave fuel d s :
  length s < fuel -> exists seps,
  length (split_loop fuel d s) = S (length seps) /\ Forall (fun c => c ∈ d) seps /\
  Forall (clean d) (split_loop fuel d s) /\ weave (split_loop fuel d s) seps = s.
Proof.
  revert s; induction fuel as [|fuel IH]; intros s Hf; [lia|]. cbn [split_loop].
  pose proof (find_first_of_spec d s) as H. destruct (find_first_of d s) as [e|].
  - destruct H as (c & r & Hs & Hc & Hcl & -> & Hl).
    destruct (IH r ltac:(lia)) as (seps & H1 & H2 & H3 & H4). exists (c :: seps).
    split_and!; [simpl; by rewrite H1|by constructor|by constructor|].
    cbn [weave]. by rewrite H4.
  - exists []. split_and!; [done|constructor|by repeat constructor|done].
Qed.

(** split cuts at every delimiter character and nowhere else: the fields
    hold no delimiter, there is one more field than delimiters, putting the
    delimiters back between the fields gives the string, and the fields are
    determined by that. *)
Theorem split_correct s d :
  (exists seps, length (split s d) = S (length seps) /\ Forall (fun c => c ∈ d) seps /\
     Forall (clean d) (split s d) /\ weave (split s d) seps = s) /\
  (forall fields seps, length fields = S (length seps) -> Forall (fun c => c ∈ d) seps ->
     Forall (clean d) fields -> weave fields seps = s -> split s d = fields).
Proof.
  split; [apply split_loop_weave; lia|].
  intros fields seps. revert s fields; induction seps as [|c seps IH];
    intros s [|f fields] Hl Hs Hf <-; simplify_eq/=.
  - destruct fields; [|done]. apply Forall_cons in Hf as [Hf _]. by apply split_clean.
  - apply Forall_cons in Hf as [Hf Hfs]. apply Forall_cons in Hs as [Hc Hs].
    rewrite split_cons by done. f_equal. by apply IH.
Qed.

(** ** Cookies *)

Definition print_cookie (kv : bytes * bytes) : bytes := kv.1 ++ bs "=" ++ kv.2.

(** the Cookie header value of a list of cookies *)
Fixpoint print_cookies (kvs : list (bytes * bytes)) : bytes :=
  match kvs with
  | [] => []
  | [kv] => print_cookie kv
  | kv :: kvs => print_cookie kv ++ bs "; " ++ print_cookies kvs
  end.

Definition cookie_ok (kv : bytes * bytes) : Prop := clean (bs "; =") kv.1 /\ clean (bs "; =") kv.2.

#[export] Instance cookie_ok_dec kv : Decision (cookie_ok kv).
Proof. unfold cookie_ok. apply _. Defined.

Definition cookie_step (cookies : gmap (list Z) (list Z)) (iter : bytes) : gmap (list Z) (list Z) :=
  match split iter (bs "=") with [k; v] => <[k := v]> cookies | _ => cookies end.

Lemma clean_mono d d' f : clean d f -> (forall c, c ∈ d' -> c ∈ d) -> clean d' f.
Proof. intros H Hsub. eapply Forall_impl; [exact H|]. simpl. intros c Hc ?. by apply Hc, Hsub. Qed.

Lemma cookie_step_print m k v :
  cookie_ok (k, v) -> cookie_step m (print_cookie (k, v)) = <[k := v]> m.
Proof.
  intros [Hk Hv]. unfold cookie_step, print_cookie. simpl in *.
  rewrite split_cons, split_clean; [done| | |].
  - eapply clean_mono; [exact Hv|]. simpl. set_solver.
  - eapply clean_mono; [exact Hk|]. simpl. set_solver.
  - set_solver.
Qed.

Lemma print_cookie_clean kv : cookie_ok kv -> clean (bs "; ") (print_cookie kv).
Proof.
  intros [Hk Hv]. unfold print_cookie. apply Forall_app. split; [|apply Forall_app; split].
  - eapply clean_mono; [exact Hk|]. simpl. set_solver.
  - apply (bool_decide_unpack _). vm_compute. exact I.
  - eapply clean_mono; [exact Hv|]. simpl. set_solver.
Qed.

Lemma cookie_fields kvs :
  Forall cookie_ok kvs -> forall m,
  fold_left cookie_step (split (print_cookies kvs) (bs "; ")) m =
  fold_left (fun m kv => <[kv.1 := kv.2]> m) kvs m.
Proof.
  induction 1 as [|[k v] kvs Hkv Hkvs IH]; intros m; [done|].
  destruct kvs as [|kv2 kvs].
  - cbn [print_cookies]. rewrite split_clean by (by apply print_cookie_clean).
    cbn [fold_left]. by rewrite cookie_step_print.
  - change (print_cookies ((k, v) :: kv2 :: kvs)) with
      (print_cookie (k, v) ++ 59%Z :: [] ++ 32%Z :: print_cookies (kv2 :: kvs)).
    rewrite split_cons; [|by apply print_cookie_clean|simpl; set_solver].
    rewrite split_cons; [|constructor|simpl; set_solver].
    cbn [fold_left]. rewrite cookie_step_print by done. apply IH.
Qed.

(** get_cookies_map reads back a Cookie header: for a header printed from
    cookies whose names and values hold no separator, looking up a name gives
    the value of the last cookie of that name, and no name is invented. *)
Theorem get_cookies_map_print kvs k :
  Forall cookie_ok kvs ->
  get_cookies_map (print_cookies kvs) !! k =
  snd <$> last (filter (fun kv : bytes * bytes => kv.1 = k) kvs).
Proof.
  intros Hok. unfold get_cookies_map. fold cookie_step.
  change (fold_left _ ?l ∅) with (fold_left cookie_step l ∅). rewrite cookie_fields by done.
  clear Hok. induction kvs as [|[k' v'] kvs IH] using rev_ind; [done|].
  rewrite fold_left_app, filter_app. cbn [fold_left fst snd].
  destruct (decide (k' = k)) as [->|Hne].
  - rewrite filter_cons_True, filter_nil by done. by rewrite lookup_insert_eq, last_snoc.
  - rewrite filter_cons_False, filter_nil, app_nil_r by done. by rewrite lookup_insert_ne.
Qed.

Lemma get_cookies_map_print_witness :
  get_cookies_map (bs "a=1; b=2; a=3") !! bs "a" = Some (bs "3").
Proof.
  exact (get_cookies_map_print [(bs "a", bs "1"); (bs "b", bs "2"); (bs "a", bs "3")] (bs "a")
    ltac:(apply (bool_decide_unpack _); vm_compute; exact I)).
Defined.

(** ** Quoting *)

Lemma percent_char chr rest :
  is_byte chr -> url_decode (percent chr ++ rest) = chr :: url_decode rest.
Proof.
  intros Hc.
  assert (percent chr = [37; hex_upper (chr / 16); hex_upper (chr mod 16)])%Z as ->.
  { apply (bool_decide_eq_true_1 _). revert chr Hc.
    apply (all_bytes_check (fun chr => bool_decide (percent chr =
      [37; hex_upper (chr / 16); hex_upper (chr mod 16)]%Z))). vm_compute. done. }
  cbn [app url_decode]. change (37 =? 37)%Z with true. cbv iota. f_equal.
  apply Z.eqb_eq. revert chr Hc. apply (all_bytes_check (fun chr =>
    (decode_pair (hex_upper (chr / 16)) (hex_upper (chr mod 16)) =? chr)%Z)). vm_compute. done.
Qed.

(** the characters quoting leaves alone decode to themselves *)
Lemma plain_char c rest :
  c <> 37%Z -> c <> 43%Z -> url_decode (c :: rest) = c :: url_decode rest.
Proof.
  intros H1 H2. cbn [url_decode]. rewrite (proj2 (Z.eqb_neq c 37)), (proj2 (Z.eqb_neq c 43)) by done.
  by destruct rest as [|h [|l rest]].
Qed.

Definition blank_plus (c : Z) : Z := if (c =? 32)%Z then 43%Z else c.

Lemma quote_char_cases safe chr :
  is_byte chr -> Forall (fun c => c <> 37 /\ c <> 43)%Z safe ->
  (quote_char safe chr = percent chr) \/
  (quote_char safe chr = [chr] /\ chr <> 37%Z /\ chr <> 43%Z).
Proof.
  intros Hc Hs. unfold quote_char.
  destruct ((127 <? chr)%Z || _) eqn:E1; [destruct (bool_decide _) eqn:E2|]; simpl.
  - by left.
  - right. apply bool_decide_eq_false in E2.
    destruct (find_char chr safe) as [i|] eqn:Ei; [|done].
    apply find_char_Some in Ei as [Ei _].
    split; [done|]. exact (Forall_lookup_1 _ _ _ _ Hs Ei).
  - right. split; [done|].
    pose proof (all_bytes_check (fun chr => ((127 <? chr)%Z ||
      negb (nth (Z.to_nat chr) valid_chr false)) || (negb (chr =? 37) && negb (chr =? 43))%Z)
      ltac:(vm_compute; done) chr Hc) as H.
    cbv beta in H. rewrite E1 in H. apply andb_true_iff in H as [H1 H2]. by zbool.
Qed.

Lemma percent_no_blank chr : is_byte chr -> blank_plus <$> percent chr = percent chr.
Proof.
  intros Hc. apply (bool_decide_eq_true_1 _). revert chr Hc.
  apply (all_bytes_check (fun chr => bool_decide (blank_plus <$> percent chr = percent chr))).
  vm_compute. done.
Qed.

Lemma quote_impl_decode str safe :
  Forall is_byte str -> Forall (fun c => c <> 37 /\ c <> 43)%Z safe ->
  url_decode (quote_impl str safe) = str /\
  url_decode (blank_plus <$> quote_impl str safe) = str.
Proof.
  intros Hs Hsafe. unfold quote_impl. induction Hs as [|c str Hc _ [IH1 IH2]]; [done|].
  csimpl. destruct (quote_char_cases safe c Hc Hsafe) as [->|(-> & H1 & H2)].
  - rewrite fmap_app, percent_no_blank, !percent_char by done. by rewrite IH1, IH2.
  - cbn [app fmap list_fmap]. split; [by rewrite plain_char, IH1|].
    change (list_fmap _ _ blank_plus ?l) with (blank_plus <$> l).
    unfold blank_plus at 1. destruct (c =? 32)%Z eqn:E; zbool.
    + subst c. rewrite <-IH2 at 2.
      by destruct (blank_plus <$> mjoin (quote_char safe <$> str)) as [|h [|l r]].
    + by rewrite plain_char, IH2.
Qed.

(** Decoding undoes quoting: url_decode gives back every string of bytes
    from its quote and from its quote_plus form. *)
Theorem quote_url_decode str :
  Forall is_byte str -> url_decode (quote str) = str /\ url_decode (quote_plus str) = str.
Proof.
  intros Hs.
  destruct (quote_impl_decode str (bs "/") Hs) as [H1 _]; [by repeat constructor|].
  destruct (quote_impl_decode str (bs " ") Hs) as [_ H2]; [by repeat constructor|].
  split; [done|]. unfold quote_plus. by destruct (find_char 32 str).
Qed.

Lemma quote_url_decode_witness :
  quote_plus (bs "a b/+%" ++ [7%Z]) = bs "a+b%2F%2B%25%07" /\
  url_decode (bs "a+b%2F%2B%25%07") = bs "a b/+%" ++ [7%Z].
Proof.
  split; [reflexivity|].
  exact (proj2 (quote_url_decode (bs "a b/+%" ++ [7%Z])
    ltac:(apply (bool_decide_unpack _); vm_compute; exact I))).
Defined.

(** ** Hosts and ports *)

Lemma rfind_char_app c s t : c ∉ t -> rfind_char c (s ++ c :: t) = Some (length s).
Proof.
  intros H. induction s as [|x s IH]; simpl; [|by rewrite IH].
  rewrite rfind_char_None by done. by rewrite Z.eqb_refl.
Qed.

(** get_host_port on "host:port" without a scheme: the address is cut at
    the last colon, when the host is not empty and ends neither in p nor in s. *)
Theorem get_host_port_plain host c port is_ssl :
  58%Z ∉ port -> find_str (bs "http") ((host ++ [c]) ++ 58%Z :: port) = None ->
  c <> 112%Z -> c <> 115%Z ->
  get_host_port ((host ++ [c]) ++ 58%Z :: port) is_ssl = Ok (host ++ [c], port).
Proof.
  intros Hp Hh H1 H2. unfold get_host_port. rewrite rfind_char_app by done.
  rewrite length_app. cbn [length]. destruct (_ <? _)%nat eqn:E; zbool; [lia|].
  rewrite Hh, length_app. cbn [length]. rewrite Nat.add_1_r.
  rewrite lookup_app_l by (rewrite length_app; simpl; lia).
  rewrite lookup_app_r by lia. rewrite Nat.sub_diag. simpl.
  rewrite (proj2 (Z.eqb_neq c 112)), (proj2 (Z.eqb_neq c 115)) by done.
  destruct (length ((host ++ [c]) ++ _) <? _)%nat eqn:E2; zbool.
  { rewrite length_app, length_app in E2. simpl in E2. lia. }
  f_equal. f_equal.
  - rewrite take_app_length'; [done|]. rewrite length_app. simpl. lia.
  - rewrite cons_middle, app_assoc, drop_app_length'; [done|]. rewrite !length_app. simpl. lia.
Qed.

Lemma get_host_port_plain_witness :
  get_host_port (bs "127.0.0.1:8080") false = Ok (bs "127.0.0.1", bs "8080").
Proof.
  apply (get_host_port_plain (bs "127.0.0.") 49 (bs "8080") false).
  - apply (bool_decide_unpack _). vm_compute. exact I.
  - reflexivity.
  - discriminate.
  - discriminate.
Defined.

(** the port is lost when the character in front of the colon is p or s, and,
    behind a scheme, when the host has four letters *)
Lemma get_host_port_loses_port :
  get_host_port (bs "maps:80") false = Ok (bs "maps:80", bs "https") /\
  get_host_port (bs "http://host:8080") false = Ok (bs "host:8080", bs "http") /\
  get_host_port (bs ":80") false = UB.
Proof. split_and!; vm_compute; reflexivity. Qed.

(** "www." is cut off the front wherever it occurs *)
Lemma remove_www_anywhere : remove_www (bs "example.www.com") = Ok (bs "ple.www.com").
Proof. reflexivity. Qed.
