(* ===== verification/FormDecode.v ===== *)
(** * form_urldecode

    include/netcore/utils.hpp, lines 393 to 409: the percent decoder that reads its two
    digits with sscanf.  [None] is a use of the variable ii before anything was stored
    in it.  The counter is an int: texts are shorter than 2^31. *)

From Stdlib Require Import ZArith Lia.
From stdpp Require Import base numbers list strings.
From S2P Require Import Prelude CStd Codec.
Local Open Scope Z_scope.

(** sscanf(s, "%x", &ii); what is left of a text that is no number is not looked at *)
Definition scan_digits (s : bytes) : option Z :=
  match s with
  | 48 :: ([120] | [88]) => None
  | c :: _ => match digit_value c with Some d => if d <? 16 then Some (read_digits 16 0 s) else None | None => None end
  | [] => None
  end.
Definition scan_x (s : bytes) : option Z :=
  match skip_space s with
  | 45 :: r => (fun n => - n) <$> scan_digits r
  | 43 :: r => scan_digits r
  | r => scan_digits r
  end.

(** [ii] is kept from one pair to the next *)
Fixpoint form_urldecode_from (ii : option Z) (src : bytes) : option bytes :=
  match src with
  | [] => Some []
  | c :: rest =>
      if c =? 37 then
        let ii := match scan_x (take 2 rest) with Some n => Some n | None => ii end in
        n ← ii;
        match rest with
        | _ :: _ :: rest => cons (wrap8 n) <$> form_urldecode_from ii rest
        | _ => Some [wrap8 n]
        end
      else cons c <$> form_urldecode_from ii rest
  end.
Definition form_urldecode (src : bytes) : option bytes := form_urldecode_from None src.

(** it decodes what url_encode makes of a text *)
Lemma form_urldecode_encode s : Forall is_byte s -> form_urldecode (url_encode s) = Some s.
Proof.
  unfold form_urldecode, url_encode. generalize (@None Z). induction s as [|c s IH]; intros ii H; [done|].
  apply Forall_cons in H as [Hc H]. rewrite fmap_cons.
  change (mjoin (url_encode_char c :: (url_encode_char <$> s))) with (url_encode_char c ++ mjoin (url_encode_char <$> s)).
  set (t := mjoin (url_encode_char <$> s)) in *.
  assert (form_urldecode_from ii (url_encode_char c ++ t) =
          cons c <$> form_urldecode_from (if unreserved c then ii else Some c) t) as ->.
  { clearbody t. pose proof (all_bytes_check (fun c => if unreserved c then negb (c =? 37) else
      match url_encode_char c with
      | [p; h; l] => (p =? 37) && bool_decide (scan_x [h; l] = Some c)
      | _ => false end) eq_refl c Hc) as Hk. cbn beta in Hk. unfold url_encode_char in Hk |- *.
    destruct (unreserved c); cbn [negb app form_urldecode_from] in Hk |- *.
    - by destruct (c =? 37).
    - apply andb_true_iff in Hk as [_ Hk]. apply bool_decide_eq_true in Hk. change (37 =? 37) with true. cbn iota.
      cbn [take]. rewrite take_0, Hk. cbn [mbind option_bind]. unfold wrap8, is_byte in *. by rewrite Z.mod_small by lia. }
  unfold t. by rewrite IH.
Qed.

(** a blank is a plus sign in a form, and stays one *)
Lemma plus_not_decoded : form_urldecode (bs "a+b") = Some (bs "a+b") /\ url_decode (bs "a+b") = bs "a b".
Proof. split; reflexivity. Qed.

(** a percent sign without digits: the variable was never written *)
Lemma lone_percent s : forallb (fun c => negb (c =? 37)) s = true -> form_urldecode (s ++ bs "%") = None.
Proof.
  intros H. unfold form_urldecode. induction s as [|c s IH]; [done|].
  cbn [forallb app form_urldecode_from] in H |- *. apply andb_true_iff in H as [Hc H].
  destruct (c =? 37); [done|]. by rewrite IH.
Qed.
