(* ===== verification/Multipart.v ===== *)
(** * The multipart/form-data parser and reader

    The push parser of src/include/netcore/multipart_parser.hpp (set_boundary,
    feed, processPartData with its Boyer-Moore style skip and its lookbehind
    buffer) and the reader of src/include/netcore/multipart_reader.hpp that
    turns its callbacks into parts.  A callback is an [event] with the bytes
    it is given.  Local copies of state, flags and index are written back only
    where feed writes them back.  [None] stands for a read outside an array or
    for a loop that does not end. *)

From Stdlib Require Import ZArith Lia.
From stdpp Require Import base numbers list strings.
From S2P Require Import Prelude.

Inductive State :=
| PARSE_ERROR | START | START_BOUNDARY | HEADER_FIELD_START | HEADER_FIELD
| HEADER_VALUE_START | HEADER_VALUE | HEADER_VALUE_ALMOST_DONE | HEADERS_ALMOST_DONE
| PART_DATA_START | PART_DATA | PART_END | END.

#[export] Instance State_eq_dec : EqDecision State.
Proof. solve_decision. Defined.

Definition PART_BOUNDARY : Z := 1.
Definition LAST_BOUNDARY : Z := 2.
Definition SPACE : Z := 32.
Definition HYPHEN : Z := 45.
Definition COLON : Z := 58.

Inductive event :=
| onHeaderField (s : bytes)
| onHeaderValue (s : bytes)
| onHeaderEnd
| onHeadersEnd
| onPartBegin
| onPartData (s : bytes)
| onPartEnd
| onEnd.

#[export] Instance event_eq_dec : EqDecision event.
Proof. solve_decision. Defined.

(** the variables of a run of feed: the locals state, flags and index, the
    members feed changes in place, and the callbacks made so far *)
Record vars := mk_vars {
  state : State;
  flags : Z;
  index : nat;
  headerFieldMark : option nat;
  headerValueMark : option nat;
  partDataMark : option nat;
  lookbehind : bytes;
  events : list event
}.

Definition set_st (v : vars) (s : State) : vars :=
  mk_vars s (flags v) (index v) (headerFieldMark v) (headerValueMark v) (partDataMark v)
    (lookbehind v) (events v).
Definition set_flags (v : vars) (f : Z) : vars :=
  mk_vars (state v) f (index v) (headerFieldMark v) (headerValueMark v) (partDataMark v)
    (lookbehind v) (events v).
Definition set_index (v : vars) (n : nat) : vars :=
  mk_vars (state v) (flags v) n (headerFieldMark v) (headerValueMark v) (partDataMark v)
    (lookbehind v) (events v).
Definition set_hfm (v : vars) (m : option nat) : vars :=
  mk_vars (state v) (flags v) (index v) m (headerValueMark v) (partDataMark v)
    (lookbehind v) (events v).
Definition set_hvm (v : vars) (m : option nat) : vars :=
  mk_vars (state v) (flags v) (index v) (headerFieldMark v) m (partDataMark v)
    (lookbehind v) (events v).
Definition set_pdm (v : vars) (m : option nat) : vars :=
  mk_vars (state v) (flags v) (index v) (headerFieldMark v) (headerValueMark v) m
    (lookbehind v) (events v).
Definition set_lb (v : vars) (l : bytes) : vars :=
  mk_vars (state v) (flags v) (index v) (headerFieldMark v) (headerValueMark v)
    (partDataMark v) l (events v).
Definition emit (v : vars) (e : list event) : vars :=
  mk_vars (state v) (flags v) (index v) (headerFieldMark v) (headerValueMark v)
    (partDataMark v) (lookbehind v) (events v ++ e).

Record multipart_parser := mk_parser {
  boundary : bytes;
  boundaryIndex : list bool;
  members : vars;
  errorReason : string
}.

Definition boundarySize (p : multipart_parser) : nat := length (boundary p).
Definition lookbehindSize (p : multipart_parser) : nat := length (lookbehind (members p)).

(** ** Construction *)

Definition reset_parser : multipart_parser :=
  mk_parser [] (replicate 256 false) (mk_vars PARSE_ERROR 0 0 None None None [] [])
    "Parser uninitialized.".

Definition indexBoundary (b : bytes) : list bool :=
  fold_left (fun t c => <[Z.to_nat c := true]> t) b (replicate 256 false).

(** [fresh] is the content of [new char[boundarySize + 8]] *)
Definition set_boundary (b : bytes) (fresh : bytes) : multipart_parser :=
  mk_parser b (indexBoundary b)
    (mk_vars START 0 0 None None None (take (length b + 8) (fresh ++ replicate (length b + 8) 0%Z)) [])
    "No error.".

Definition isBoundaryChar (p : multipart_parser) (c : Z) : bool :=
  default false (boundaryIndex p !! Z.to_nat c).

(** ** Callbacks *)

Definition callback (cb : bytes -> event) (buffer : bytes) (start fin : nat) (allowEmpty : bool)
  : list event :=
  if (start =? fin)%nat && negb allowEmpty then [] else [cb (slice buffer start (fin - start))].

(** the new mark and the callback made *)
Definition dataCallback (cb : bytes -> event) (mark : option nat) (buffer : bytes)
    (i bufferLen : nat) (clear allowEmpty : bool) : option nat * list event :=
  match mark with
  | None => (None, [])
  | Some m =>
      if negb clear then (Some 0, callback cb buffer m bufferLen allowEmpty)
      else (None, callback cb buffer m i allowEmpty)
  end.

Definition lower (c : Z) : Z := schar (Z.lor c 0x20).

(** ** processPartData *)

(** size_t subtraction *)
Definition sub64 (a b : nat) : Z := wrap64 (Z.of_nat a - Z.of_nat b).

(** while (i + boundarySize <= len) *)
Fixpoint bm_skip (fuel : nat) (p : multipart_parser) (buffer : bytes) (i : nat) : option nat :=
  match fuel with
  | O => None
  | S fuel =>
      if (i + boundarySize p <=? length buffer)%nat then
        c ← buffer !! Z.to_nat (wrap64 (Z.of_nat i + sub64 (boundarySize p) 1));
        if isBoundaryChar p c then Some i else bm_skip fuel p buffer (i + boundarySize p)
      else Some i
  end.

(** [boundary[k]]: a std::string has a NUL behind its last character *)
Definition boundary_at (p : multipart_parser) (k : nat) : option Z := (boundary p ++ [0%Z]) !! k.

(** the if-chain on [index]; the flag says that processPartData returns there *)
Definition match_boundary (p : multipart_parser) (buffer : bytes) (i : nat) (c : Z) (v : vars)
  : option (bool * vars) :=
  let bsz := boundarySize p in
  if (index v <? bsz)%nat then
    b ← boundary_at p (index v);
    Some (false,
      if (b =? c)%Z then
        let v := if (index v =? 0)%nat then
                   let '(m, e) := dataCallback onPartData (partDataMark v) buffer i
                                    (length buffer) true false in
                   emit (set_pdm v m) e
                 else v in
        set_index v (index v + 1)
      else set_index v 0)
  else if (index v =? bsz)%nat then
    Some (false,
      let v := set_index v (index v + 1) in
      if (c =? CR)%Z then set_flags v (Z.lor (flags v) PART_BOUNDARY)
      else if (c =? HYPHEN)%Z then set_flags v (Z.lor (flags v) LAST_BOUNDARY)
      else set_index v 0)
  else if (sub64 (index v) 1 =? Z.of_nat bsz)%Z then
    if negb (Z.land (flags v) PART_BOUNDARY =? 0)%Z then
      let v := set_index v 0 in
      if (c =? LF)%Z then
        let v := set_flags v (Z.land (flags v) (Z.lnot PART_BOUNDARY)) in
        Some (true, set_st (emit v [onPartEnd; onPartBegin]) HEADER_FIELD_START)
      else Some (false, v)
    else if negb (Z.land (flags v) LAST_BOUNDARY =? 0)%Z then
      Some (false, if (c =? HYPHEN)%Z then set_st (emit v [onPartEnd; onEnd]) END
                   else set_index v 0)
    else Some (false, set_index v 0)
  else if (sub64 (index v) 2 =? Z.of_nat bsz)%Z then
    Some (false, if (c =? CR)%Z then set_index v (index v + 1) else set_index v 0)
  else if (sub64 (index v) bsz =? 3)%Z then
    let v := set_index v 0 in
    if (c =? LF)%Z then Some (true, set_st (emit v [onPartEnd; onEnd]) END)
    else Some (false, v)
  else Some (false, v).

(** the loop goes on at a position, or std::out_of_range is thrown *)
Inductive pd_result :=
| PDNext (i : nat) (v : vars)
| PDThrow (v : vars).

(** the result is the position after the [i++] of the calling loop; the
    [i--] at the end cancels it *)
Definition processPartData (p : multipart_parser) (buffer : bytes) (i : nat) (c : Z) (v : vars)
  : option pd_result :=
  let prevIndex := index v in
  i ← (if (index v =? 0)%nat then bm_skip (S (length buffer)) p buffer i else Some i);
  if (index v =? 0)%nat && (i =? length buffer)%nat then Some (PDNext (i + 1) v)
  else
    c ← (if (index v =? 0)%nat then buffer !! i else Some c);
    '(returned, v) ← match_boundary p buffer i c v;
    if (returned : bool) then Some (PDNext (i + 1) v)
    else if (0 <? index v)%nat then
      if (lookbehindSize p <=? index v - 1)%nat then Some (PDThrow (set_st v PARSE_ERROR))
      else Some (PDNext (i + 1) (set_lb v (<[index v - 1 := c]> (lookbehind v))))
    else if (0 <? prevIndex)%nat then
      let v := emit v (callback onPartData (lookbehind v) 0 prevIndex false) in
      Some (PDNext i (set_pdm v (Some i)))
    else Some (PDNext (i + 1) v).

(** ** feed *)

Inductive step_result :=
| Next (i : nat) (v : vars)                   (* break, and i++ *)
| Return (v : vars) (reason : option string)  (* return i, after setError *)
| Throw (v : vars).

Definition start_boundary (p : multipart_parser) (c : Z) (i : nat) (v : vars) : option step_result :=
  let bsz := boundarySize p in
  if (Z.of_nat (index v) =? sub64 bsz 2)%Z then
    if negb (c =? CR)%Z then Some (Return v (Some "Malformed. Expected CR after boundary."%string))
    else Some (Next (i + 1) (set_index v (index v + 1)))
  else if (sub64 (index v) 1 =? sub64 bsz 2)%Z then
    if negb (c =? LF)%Z then Some (Return v (Some "Malformed. Expected LF after boundary CR."%string))
    else Some (Next (i + 1) (set_st (emit (set_index v 0) [onPartBegin]) HEADER_FIELD_START))
  else
    b ← boundary_at p (index v + 2);
    if negb (c =? b)%Z then
      Some (Return v (Some "Malformed. Found different boundary data than the given one."%string))
    else Some (Next (i + 1) (set_index v (index v + 1))).

Definition header_field (buffer : bytes) (c : Z) (i : nat) (v : vars) : step_result :=
  if (c =? CR)%Z then Next (i + 1) (set_st (set_hfm v None) HEADERS_ALMOST_DONE)
  else
    let v := set_index v (index v + 1) in
    if (c =? HYPHEN)%Z then Next (i + 1) v
    else if (c =? COLON)%Z then
      if (index v =? 1)%nat then
        Return v (Some "Malformed first header name character."%string)
      else
        let '(m, e) := dataCallback onHeaderField (headerFieldMark v) buffer i
                         (length buffer) true false in
        Next (i + 1) (set_st (emit (set_hfm v m) e) HEADER_VALUE_START)
    else
      let cl := lower c in
      if ((cl <? 97) || (122 <? cl))%Z then Return v (Some "Malformed header name."%string)
      else Next (i + 1) v.

Definition header_value (buffer : bytes) (c : Z) (i : nat) (v : vars) : step_result :=
  if (c =? CR)%Z then
    let '(m, e) := dataCallback onHeaderValue (headerValueMark v) buffer i
                     (length buffer) true true in
    Next (i + 1) (set_st (emit (set_hvm v m) (e ++ [onHeaderEnd])) HEADER_VALUE_ALMOST_DONE)
  else Next (i + 1) v.

Definition part_data (p : multipart_parser) (buffer : bytes) (c : Z) (i : nat) (v : vars)
  : option step_result :=
  r ← processPartData p buffer i c v;
  Some (match r with PDNext i v => Next i v | PDThrow v => Throw v end).

(** the switch of the main loop *)
Definition feed_switch (p : multipart_parser) (buffer : bytes) (i : nat) (c : Z) (v : vars)
  : option step_result :=
  match state v with
  | PARSE_ERROR => Some (Return v None)
  | START => start_boundary p c i (set_st (set_index v 0) START_BOUNDARY)
  | START_BOUNDARY => start_boundary p c i v
  | HEADER_FIELD_START =>
      Some (header_field buffer c i (set_index (set_hfm (set_st v HEADER_FIELD) (Some i)) 0))
  | HEADER_FIELD => Some (header_field buffer c i v)
  | HEADER_VALUE_START =>
      if (c =? SPACE)%Z then Some (Next (i + 1) v)
      else Some (header_value buffer c i (set_st (set_hvm v (Some i)) HEADER_VALUE))
  | HEADER_VALUE => Some (header_value buffer c i v)
  | HEADER_VALUE_ALMOST_DONE =>
      if negb (c =? LF)%Z then
        Some (Return v (Some "Malformed header value: LF expected after CR"%string))
      else Some (Next (i + 1) (set_st v HEADER_FIELD_START))
  | HEADERS_ALMOST_DONE =>
      if negb (c =? LF)%Z then
        Some (Return v (Some "Malformed header ending: LF expected after CR"%string))
      else Some (Next (i + 1) (set_st (emit v [onHeadersEnd]) PART_DATA_START))
  | PART_DATA_START =>
      part_data p buffer c i (set_pdm (set_st v PART_DATA) (Some i))
  | PART_DATA => part_data p buffer c i v
  | END => Some (Next (i + 1) v)
  | PART_END => Some (Return v None)
  end.

Inductive loop_result :=
| LDone (v : vars)
| LReturn (i : nat) (v : vars) (reason : option string)
| LThrow (v : vars).

Fixpoint feed_loop (fuel : nat) (p : multipart_parser) (buffer : bytes) (i : nat) (v : vars)
  : option loop_result :=
  match fuel with
  | O => None
  | S fuel =>
      if (i <? length buffer)%nat then
        c ← buffer !! i;
        r ← feed_switch p buffer i c v;
        match r with
        | Next i v => feed_loop fuel p buffer i v
        | Return v reason => Some (LReturn i v reason)
        | Throw v => Some (LThrow v)
        end
      else Some (LDone v)
  end.

(** the three dataCallback calls behind the loop *)
Definition flush_marks (buffer : bytes) (v : vars) : vars :=
  let n := length buffer in
  let '(m1, e1) := dataCallback onHeaderField (headerFieldMark v) buffer n n false false in
  let '(m2, e2) := dataCallback onHeaderValue (headerValueMark v) buffer n n false false in
  let '(m3, e3) := dataCallback onPartData (partDataMark v) buffer n n false false in
  mk_vars (state v) (flags v) (index v) m1 m2 m3 (lookbehind v) (events v ++ e1 ++ e2 ++ e3).

Inductive feed_result :=
| Fed (n : nat) (p : multipart_parser) (e : list event)
| FeedThrow (p : multipart_parser) (e : list event).

Definition set_members (p : multipart_parser) (v : vars) (reason : string) : multipart_parser :=
  mk_parser (boundary p) (boundaryIndex p)
    (mk_vars (state v) (flags v) (index v) (headerFieldMark v) (headerValueMark v)
       (partDataMark v) (lookbehind v) []) reason.

(** a return from inside the loop leaves this->index and this->flags alone; the
    member state is PARSE_ERROR where setError was called *)
Definition abandon (p : multipart_parser) (v : vars) (reason : option string) : multipart_parser :=
  let m := members p in
  set_members p
    (mk_vars (match reason with Some _ => PARSE_ERROR | None => state m end) (flags m) (index m)
       (headerFieldMark v) (headerValueMark v) (partDataMark v) (lookbehind v) [])
    (default (errorReason p) reason).

Definition feed (p : multipart_parser) (buffer : bytes) : option feed_result :=
  if bool_decide (state (members p) = PARSE_ERROR) || (length buffer =? 0)%nat
  then Some (Fed 0 p [])
  else
    r ← feed_loop (2 * length buffer + 4) p buffer 0 (members p);
    Some (match r with
          | LDone v =>
              let v := flush_marks buffer v in
              Fed (length buffer) (set_members p v (errorReason p)) (events v)
          | LReturn i v reason => Fed i (abandon p v reason) (events v)
          | LThrow v =>
              FeedThrow (abandon p v (Some
                "Parser bug: index overflows lookbehind buffer. Please send bug report with input file attached."%string))
                (events v)
          end).

Definition succeeded (p : multipart_parser) : bool := bool_decide (state (members p) = END).
Definition has_error (p : multipart_parser) : bool := bool_decide (state (members p) = PARSE_ERROR).
Definition stopped (p : multipart_parser) : bool := has_error p || succeeded p.

(** ** The reader *)

Notation multipart_headers := (list (bytes * bytes)).

(** std::string's operator<, on unsigned characters *)
Fixpoint string_lt (a b : bytes) : bool :=
  match a, b with
  | _, [] => false
  | [], _ :: _ => true
  | x :: a, y :: b => if (x <? y)%Z then true else if (y <? x)%Z then false else string_lt a b
  end.

(** std::multimap::emplace: behind the entries with an equal key *)
Fixpoint emplace (k v : bytes) (h : multipart_headers) : multipart_headers :=
  match h with
  | [] => [(k, v)]
  | (k', v') :: h' => if string_lt k k' then (k, v) :: h else (k', v') :: emplace k v h'
  end.

Record multipart_reader := mk_reader {
  currentHeaders : multipart_headers;
  currentHeaderName : bytes;
  currentHeaderValue : bytes
}.

Definition reader0 : multipart_reader := mk_reader [] [] [].

Inductive reader_call :=
| on_part_begin (h : multipart_headers)
| on_part_data (s : bytes)
| on_part_end
| on_end.

(** the callbacks cbPartBegin ... cbEnd, with the four hooks set *)
Definition reader_cb (r : multipart_reader) (e : event) : multipart_reader * list reader_call :=
  match e with
  | onPartBegin => (r, [])
  | onHeaderField s =>
      (mk_reader (currentHeaders r) (currentHeaderName r ++ s) (currentHeaderValue r), [])
  | onHeaderValue s =>
      (mk_reader (currentHeaders r) (currentHeaderName r) (currentHeaderValue r ++ s), [])
  | onHeaderEnd =>
      (mk_reader (emplace (currentHeaderName r) (currentHeaderValue r) (currentHeaders r)) [] [], [])
  | onHeadersEnd =>
      (mk_reader [] (currentHeaderName r) (currentHeaderValue r), [on_part_begin (currentHeaders r)])
  | onPartData s => (r, [on_part_data s])
  | onPartEnd => (r, [on_part_end])
  | onEnd => (r, [on_end])
  end.

Fixpoint reader_run (r : multipart_reader) (es : list event) : multipart_reader * list reader_call :=
  match es with
  | [] => (r, [])
  | e :: es =>
      let '(r, c) := reader_cb r e in
      let '(r, cs) := reader_run r es in (r, c ++ cs)
  end.
