(* ===== verification/MultipartFacts.v ===== *)
(** * Correctness of the multipart parser

    A reference parser reads one byte at a time, without marks, skipping or a
    lookbehind buffer, and reports single bytes.  The parser of Multipart.v is
    proved to refine it, from which follow memory safety, termination and the
    independence of the buffers the input is cut into; parsing printed parts
    then gives the parts back. *)

From Stdlib Require Import ZArith Lia.
From stdpp Require Import base numbers list strings.
From S2P Require Import Prelude Multipart.

(** ** Bytes reported *)

Inductive atom :=
| AField (c : Z)
| AValue (c : Z)
| AData (c : Z)
| AEv (e : event).

Definition atoms_of (e : event) : list atom :=
  match e with
  | onHeaderField s => AField <$> s
  | onHeaderValue s => AValue <$> s
  | onPartData s => AData <$> s
  | _ => [AEv e]
  end.

Definition flatten (es : list event) : list atom := mjoin (atoms_of <$> es).

Lemma flatten_app a b : flatten (a ++ b) = flatten a ++ flatten b.
Proof. unfold flatten. by rewrite fmap_app, join_app. Qed.

(** ** The reference parser *)

Record rst := mk_rst {
  r_st : State;
  r_flags : Z;
  r_index : nat;
  r_match : bytes   (* the bytes matched against the boundary so far *)
}.

(** [RLoose]: a header line without a colon, which the reference rejects *)
Inductive rres :=
| RStep (r : rst) (a : list atom)
| RFail
| RLoose.

Inductive rrun :=
| ROk (r : rst) (a : list atom)
| RError (a : list atom)
| RLoosed.

Definition rprepend (a : list atom) (x : rrun) : rrun :=
  match x with
  | ROk r b => ROk r (a ++ b)
  | RError b => RError (a ++ b)
  | RLoosed => RLoosed
  end.

Definition goto (s : State) (f : Z) : rst := mk_rst s f 0 [].

Section reference.
Variable bnd : bytes.

(** a byte of part data when nothing is matched; [a] was reported before it *)
Definition ref_data0 (f : Z) (c : Z) (a : list atom) : rres :=
  if bool_decide (bnd !! 0 = Some c) then RStep (mk_rst PART_DATA f 0 [c]) a
  else RStep (goto PART_DATA f) (a ++ [AData c]).

Definition ref_data (r : rst) (c : Z) : rres :=
  let m := r_match r in
  let f := r_flags r in
  let retry := ref_data0 f c (AData <$> m) in
  if bool_decide (m = []) then retry
  else if (length m <? length bnd)%nat then
    if bool_decide (bnd !! length m = Some c) then RStep (mk_rst PART_DATA f 0 (m ++ [c])) []
    else retry
  else if (length m =? length bnd)%nat then
    if (c =? CR)%Z then RStep (mk_rst PART_DATA (Z.lor f PART_BOUNDARY) 0 (m ++ [c])) []
    else if (c =? HYPHEN)%Z then RStep (mk_rst PART_DATA (Z.lor f LAST_BOUNDARY) 0 (m ++ [c])) []
    else retry
  else if negb (Z.land f PART_BOUNDARY =? 0)%Z then
    if (c =? LF)%Z
    then RStep (goto HEADER_FIELD_START (Z.land f (Z.lnot PART_BOUNDARY))) [AEv onPartEnd; AEv onPartBegin]
    else retry
  else if negb (Z.land f LAST_BOUNDARY =? 0)%Z then
    if (c =? HYPHEN)%Z then RStep (goto END f) [AEv onPartEnd; AEv onEnd] else retry
  else retry.

Definition ref_start (r : rst) (c : Z) : rres :=
  let k := r_index r in
  if (k + 2 =? length bnd)%nat then
    if (c =? CR)%Z then RStep (mk_rst START_BOUNDARY (r_flags r) (k + 1) []) [] else RFail
  else if (k + 1 =? length bnd)%nat then
    if (c =? LF)%Z then RStep (goto HEADER_FIELD_START (r_flags r)) [AEv onPartBegin] else RFail
  else if bool_decide (bnd !! (k + 2) = Some c)
  then RStep (mk_rst START_BOUNDARY (r_flags r) (k + 1) []) [] else RFail.

Definition ref_field (f : Z) (k : nat) (c : Z) : rres :=
  if (c =? CR)%Z then if (k =? 0)%nat then RStep (goto HEADERS_ALMOST_DONE f) [] else RLoose
  else if (c =? HYPHEN)%Z then RStep (mk_rst HEADER_FIELD f (k + 1) []) [AField c]
  else if (c =? COLON)%Z then
    if (k =? 0)%nat then RFail else RStep (goto HEADER_VALUE_START f) []
  else if ((lower c <? 97) || (122 <? lower c))%Z then RFail
  else RStep (mk_rst HEADER_FIELD f (k + 1) []) [AField c].

Definition ref_value (f : Z) (c : Z) : rres :=
  if (c =? CR)%Z then RStep (goto HEADER_VALUE_ALMOST_DONE f) [AEv onHeaderEnd]
  else RStep (goto HEADER_VALUE f) [AValue c].

Definition ref_byte (r : rst) (c : Z) : rres :=
  let f := r_flags r in
  match r_st r with
  | START => ref_start (mk_rst START_BOUNDARY f 0 []) c
  | START_BOUNDARY => ref_start r c
  | HEADER_FIELD_START => ref_field f 0 c
  | HEADER_FIELD => ref_field f (r_index r) c
  | HEADER_VALUE_START =>
      if (c =? SPACE)%Z then RStep (goto HEADER_VALUE_START f) [] else ref_value f c
  | HEADER_VALUE => ref_value f c
  | HEADER_VALUE_ALMOST_DONE =>
      if (c =? LF)%Z then RStep (goto HEADER_FIELD_START f) [] else RFail
  | HEADERS_ALMOST_DONE =>
      if (c =? LF)%Z then RStep (goto PART_DATA_START f) [AEv onHeadersEnd] else RFail
  | PART_DATA_START => ref_data0 f c []
  | PART_DATA => ref_data r c
  | END => RStep r []
  | PARSE_ERROR | PART_END => RFail
  end.

Fixpoint ref_run (r : rst) (s : bytes) : rrun :=
  match s with
  | [] => ROk r []
  | c :: s =>
      match ref_byte r c with
      | RStep r a => rprepend a (ref_run r s)
      | RFail => RError []
      | RLoose => RLoosed
      end
  end.

Lemma rprepend_rprepend a b x : rprepend a (rprepend b x) = rprepend (a ++ b) x.
Proof. destruct x; simpl; by rewrite ?app_assoc. Qed.

Lemma rprepend_nil x : rprepend [] x = x.
Proof. by destruct x. Qed.

Lemma ref_run_app r s t :
  ref_run r (s ++ t) =
  match ref_run r s with
  | ROk r' a => rprepend a (ref_run r' t)
  | x => x
  end.
Proof.
  revert r; induction s as [|c s IH]; intros r; cbn [app ref_run]; [by rewrite rprepend_nil|].
  destruct (ref_byte r c) as [r' a| |]; [|done..]. rewrite IH.
  destruct (ref_run r' s); simpl; [by rewrite rprepend_rprepend|done..].
Qed.

(** the retry of a byte after a mismatch is the byte seen with nothing matched *)
Lemma ref_data0_acc f c a s :
  match ref_data0 f c a with
  | RStep r b => rprepend b (ref_run r s) | RFail => RError [] | RLoose => RLoosed
  end = rprepend a (ref_run (goto PART_DATA f) (c :: s)).
Proof.
  cbn [ref_run]. unfold ref_byte, ref_data. cbn [r_st goto r_match r_flags].
  rewrite bool_decide_true by done. cbn [fmap list_fmap]. unfold ref_data0.
  destruct (bool_decide _); by rewrite rprepend_rprepend, ?app_nil_r.
Qed.

(** a block that ends in a byte foreign to the boundary is data as a whole *)
Lemma skip_block f s t m :
  t <> [] -> length m + length t <= length bnd -> m = take (length m) bnd ->
  (match last t with Some c => c ∉ bnd | None => False end) ->
  ref_run (mk_rst PART_DATA f 0 m) (t ++ s) =
  rprepend (AData <$> (m ++ t)) (ref_run (goto PART_DATA f) s).
Proof.
  revert m; induction t as [|c t IH]; intros m Hne Hlen Hm Hlast; [done|].
  assert (forall k, bnd !! k = Some c -> t <> []) as Htail.
  { intros k Hk ->. simpl in Hlast. by apply Hlast, list_elem_of_lookup_2 with k. }
  assert (t <> [] -> match last t with Some c => c ∉ bnd | None => False end) as Hlast'.
  { intros Ht. destruct t; [done|]. done. }
  assert (ref_run (goto PART_DATA f) (c :: t ++ s) =
          rprepend (AData <$> c :: t) (ref_run (goto PART_DATA f) s)) as H0.
  { cbn [ref_run]. unfold ref_byte at 1, ref_data at 1. cbn [r_st goto r_match r_flags].
    rewrite bool_decide_true by done. unfold ref_data0.
    destruct (bool_decide (bnd !! 0 = Some c)) eqn:E.
    - apply bool_decide_eq_true in E. rewrite rprepend_nil.
      rewrite (IH [c]); [done|by eapply Htail|simpl in *; lia| |by apply Hlast', (Htail 0)].
      destruct bnd as [|b0 bnd']; simplify_eq/=. by rewrite take_0.
    - cbn [fmap list_fmap app]. destruct t as [|c' t'] eqn:Et; [done|].
      specialize (IH [] ltac:(done) ltac:(simpl in *; lia) ltac:(done) (Hlast' ltac:(done))).
      unfold goto at 1. rewrite IH, rprepend_rprepend. done. }
  destruct (decide (m = [])) as [->|Hmne]; [exact H0|].
  cbn [app ref_run]. unfold ref_byte, ref_data. cbn [r_st r_match r_flags].
  rewrite bool_decide_false by done. simpl in Hlen.
  rewrite (proj2 (Nat.ltb_lt _ _)) by lia.
  destruct (bool_decide (bnd !! length m = Some c)) eqn:E.
  - apply bool_decide_eq_true in E. rewrite rprepend_nil.
    rewrite (IH (m ++ [c])); [by rewrite <-app_assoc|by eapply Htail| | |by eapply Hlast', Htail].
    + rewrite length_app. simpl. lia.
    + rewrite length_app. simpl. rewrite Nat.add_1_r. erewrite take_S_r by done. by rewrite <-Hm.
  - rewrite ref_data0_acc, H0, rprepend_rprepend. by rewrite fmap_app.
Qed.
End reference.

(** ** Well-formed parsers *)

(** what set_boundary establishes; sizes are those of real buffers *)
Record parser_wf (p : multipart_parser) : Prop := mk_parser_wf {
  wf_index : boundaryIndex p = indexBoundary (boundary p);
  wf_bytes : Forall is_byte (boundary p);
  wf_size : 2 <= length (boundary p);
  wf_max : (Z.of_nat (length (boundary p)) < 2 ^ 62)%Z
}.

Definition buffer_ok (buffer : bytes) : Prop :=
  Forall is_byte buffer /\ (Z.of_nat (length buffer) < 2 ^ 62)%Z.

Lemma indexBoundary_length b t :
  length (fold_left (fun t c => <[Z.to_nat c := true]> t) b t) = length t.
Proof.
  revert t; induction b as [|c b IH]; intros t; [done|]. simpl. by rewrite IH, length_insert.
Qed.

Lemma indexBoundary_false b t c :
  Forall is_byte b -> is_byte c -> length t = 256 -> t !! Z.to_nat c = Some false ->
  fold_left (fun t c => <[Z.to_nat c := true]> t) b t !! Z.to_nat c = Some false -> c ∉ b.
Proof.
  intros Hb Hc. revert t. induction Hb as [|x b Hx Hb IH]; intros t Ht Hf H; [by apply not_elem_of_nil|].
  simpl in H. apply not_elem_of_cons. unfold is_byte in *.
  destruct (decide (c = x)) as [<-|Hne].
  - exfalso. assert (forall b t, length t = 256 -> t !! Z.to_nat c = Some true ->
      fold_left (fun t c => <[Z.to_nat c := true]> t) b t !! Z.to_nat c = Some true) as Hmono.
    { clear. induction b as [|y b IH]; intros t Ht H; [done|]. simpl. apply IH.
      - by rewrite length_insert.
      - destruct (decide (Z.to_nat y = Z.to_nat c)) as [->|].
        + apply list_lookup_insert_eq. by apply lookup_lt_Some in H.
        + by rewrite list_lookup_insert_ne. }
    rewrite Hmono in H; [done|by rewrite length_insert|].
    apply list_lookup_insert_eq. lia.
  - split; [done|]. eapply IH; [|..|exact H].
    + by rewrite length_insert.
    + rewrite list_lookup_insert_ne by lia. done.
Qed.

Lemma isBoundaryChar_false p c :
  parser_wf p -> is_byte c -> isBoundaryChar p c = false -> c ∉ boundary p.
Proof.
  intros [Hi Hb _ _] Hc H. unfold isBoundaryChar in H. rewrite Hi in H. unfold indexBoundary in H.
  unfold is_byte in Hc.
  destruct (fold_left _ _ _ !! Z.to_nat c) as [x|] eqn:E.
  - simpl in H. subst x. eapply indexBoundary_false; [done|done| | |exact E].
    + apply length_replicate.
    + apply lookup_replicate. split; [done|lia].
  - apply lookup_ge_None in E. rewrite indexBoundary_length, length_replicate in E. lia.
Qed.

Lemma sub64_small a b : b <= a -> (Z.of_nat a < 2 ^ 62)%Z -> sub64 a b = Z.of_nat (a - b).
Proof. intros H1 H2. unfold sub64. rewrite wrap64_small by lia. lia. Qed.

Lemma bm_skip_spec fuel p buffer i f :
  parser_wf p -> buffer_ok buffer -> i <= length buffer -> length buffer - i < fuel ->
  exists j, bm_skip fuel p buffer i = Some j /\ i <= j <= length buffer /\
  ref_run (boundary p) (goto PART_DATA f) (drop i buffer) =
  rprepend (AData <$> slice buffer i (j - i))
    (ref_run (boundary p) (goto PART_DATA f) (drop j buffer)).
Proof.
  intros Hp [Hb Hl]. pose proof Hp as [_ _ Hsz Hmx].
  revert i; induction fuel as [|fuel IH]; intros i Hi Hf; [lia|]. cbn [bm_skip].
  unfold boundarySize. destruct (_ <=? _)%nat eqn:E; zbool.
  2: { exists i. split_and!; [done|lia|lia|]. by rewrite Nat.sub_diag, rprepend_nil. }
  rewrite sub64_small, wrap64_small by lia.
  replace (Z.to_nat _) with (i + (length (boundary p) - 1)) by lia.
  destruct (lookup_lt_is_Some_2 buffer (i + (length (boundary p) - 1)) ltac:(lia)) as [c Hc].
  rewrite Hc. cbn [mbind option_bind].
  destruct (isBoundaryChar p c) eqn:Eb.
  { exists i. split_and!; [done|lia|lia|]. by rewrite Nat.sub_diag, rprepend_nil. }
  destruct (IH (i + length (boundary p)) ltac:(lia) ltac:(lia)) as (j & -> & Hj & Hrun).
  exists j. split_and!; [done|lia|lia|].
  assert (is_byte c) as Hcb by (eapply Forall_lookup_1; [exact Hb|exact Hc]).
  apply isBoundaryChar_false in Eb; [|done|done].
  set (n := length (boundary p)) in *.
  rewrite <-(take_drop n (drop i buffer)), drop_drop.
  unfold goto at 1. rewrite (skip_block (boundary p) f _ _ []).
  - change ([] ++ ?l) with l. rewrite Hrun, rprepend_rprepend. f_equal.
    rewrite <-fmap_app. f_equal. unfold slice.
    replace (j - i) with (n + (j - (i + n))) by lia.
    rewrite <-(take_drop n (drop i buffer)) at 2. rewrite drop_drop.
    rewrite take_app, length_take, length_drop, Nat.min_l by lia.
    rewrite (take_ge (take n _)) by (rewrite length_take; lia).
    f_equal. f_equal. lia.
  - intros H0. apply (f_equal length) in H0. rewrite length_take, length_drop in H0. simpl in H0. lia.
  - rewrite length_take, length_drop. simpl. lia.
  - done.
  - rewrite last_lookup, length_take, length_drop, Nat.min_l by lia.
    rewrite lookup_take_lt by lia. rewrite lookup_drop.
    replace (i + pred n) with (i + (n - 1)) by lia. by rewrite Hc.
Qed.

(** ** Simulation of the reference *)

Definition marked (tag : Z -> atom) (m : option nat) (buffer : bytes) (i : nat) : list atom :=
  match m with Some k => tag <$> slice buffer k (i - k) | None => [] end.

(** what the run has reported at position [i], with the bytes under a mark *)
Definition out (buffer : bytes) (i : nat) (v : vars) : list atom :=
  flatten (events v) ++ marked AField (headerFieldMark v) buffer i ++
  marked AValue (headerValueMark v) buffer i ++ marked AData (partDataMark v) buffer i.

Definition no_marks (v : vars) : Prop :=
  headerFieldMark v = None /\ headerValueMark v = None /\ partDataMark v = None.

Definition mark_at (m : option nat) (i : nat) : Prop := exists k, m = Some k /\ k <= i.

Definition sim_state (bsz i : nat) (v : vars) (r : rst) : Prop :=
  match r_st r with
  | START => no_marks v
  | START_BOUNDARY => no_marks v /\ index v = r_index r /\ r_index r < bsz
  | HEADER_FIELD =>
      mark_at (headerFieldMark v) i /\ headerValueMark v = None /\ partDataMark v = None /\
      index v = r_index r /\ 0 < r_index r
  | HEADER_VALUE =>
      headerFieldMark v = None /\ mark_at (headerValueMark v) i /\ partDataMark v = None
  | HEADERS_ALMOST_DONE | PART_DATA_START => no_marks v /\ index v = 0
  | PART_DATA =>
      headerFieldMark v = None /\ headerValueMark v = None /\ index v = length (r_match r) /\
      length (r_match r) <= S bsz /\ take (index v) (lookbehind v) = r_match r /\
      (if bool_decide (r_match r = []) then mark_at (partDataMark v) i else partDataMark v = None)
  | PARSE_ERROR | PART_END => False
  | _ => no_marks v
  end.

Definition sim (bsz i : nat) (v : vars) (r : rst) : Prop :=
  state v = r_st r /\ flags v = r_flags r /\ length (lookbehind v) = bsz + 8 /\ sim_state bsz i v r.

Lemma marked_next tag m buffer i c :
  mark_at m i -> buffer !! i = Some c -> marked tag m buffer (i + 1) = marked tag m buffer i ++ [tag c].
Proof.
  intros (k & -> & Hk) Hc. simpl. unfold slice.
  replace (i + 1 - k) with (S (i - k)) by lia.
  erewrite take_S_r; [by rewrite fmap_app|]. rewrite lookup_drop.
  by replace (k + (i - k)) with i by lia.
Qed.

Lemma marked_fresh tag i buffer : marked tag (Some i) buffer i = [].
Proof. simpl. by rewrite Nat.sub_diag. Qed.

(** the bytes a clearing dataCallback reports are those under the mark *)
Lemma flatten_callback cb tag buffer a b e :
  (forall s, atoms_of (cb s) = tag <$> s) ->
  flatten (callback cb buffer a b e) = tag <$> slice buffer a (b - a).
Proof.
  intros Hcb. unfold callback. destruct (_ && _) eqn:E; zbool.
  - subst. by rewrite Nat.sub_diag.
  - unfold flatten. cbn. by rewrite Hcb, app_nil_r.
Qed.

Lemma flatten_dataCallback cb tag m buffer i e :
  (forall s, atoms_of (cb s) = tag <$> s) ->
  (dataCallback cb m buffer i (length buffer) true e).1 = None /\
  flatten (dataCallback cb m buffer i (length buffer) true e).2 = marked tag m buffer i.
Proof.
  intros Hcb. destruct m as [k|]; cbn; [|done]. split; [done|]. by apply flatten_callback.
Qed.

(** how one turn of the loop relates to the reference *)
Definition step_ok (p : multipart_parser) (buffer : bytes) (i : nat) (v : vars) (r : rst)
    (o : option step_result) : Prop :=
  match o with
  | Some (Next i' v') =>
      exists r' a, sim (boundarySize p) (Nat.min i' (length buffer)) v' r' /\
        out buffer (Nat.min i' (length buffer)) v' = out buffer i v ++ a /\
        ref_run (boundary p) r (drop i buffer) =
          rprepend a (ref_run (boundary p) r' (drop i' buffer)) /\
        (i < i' \/ (i' = i /\ 0 < index v /\ index v' = 0))
  | Some (Return v' (Some _)) =>
      ref_run (boundary p) r (drop i buffer) = RError [] /\
      flatten (events v') = flatten (events v)
  | _ => False
  end \/ ref_run (boundary p) r (drop i buffer) = RLoosed.

Lemma drop_cons_at (buffer : bytes) i c :
  buffer !! i = Some c -> drop i buffer = c :: drop (i + 1) buffer.
Proof. intros H. rewrite Nat.add_1_r. by apply drop_S. Qed.

(** a turn of the loop that reads one byte, against one byte of the reference *)
Lemma step_ok_byte p buffer i v r o c :
  buffer !! i = Some c ->
  match ref_byte (boundary p) r c with
  | RStep r' a => exists v', o = Some (Next (i + 1) v') /\ sim (boundarySize p) (i + 1) v' r' /\
      out buffer (i + 1) v' = out buffer i v ++ a
  | RFail => exists v' m, o = Some (Return v' (Some m)) /\ flatten (events v') = flatten (events v)
  | RLoose => True
  end -> step_ok p buffer i v r o.
Proof.
  intros Hc H. pose proof (lookup_lt_Some _ _ _ Hc) as Hlt. unfold step_ok.
  rewrite (drop_cons_at _ _ _ Hc). cbn [ref_run].
  destruct (ref_byte (boundary p) r c) as [r' a| |].
  - destruct H as (v' & -> & Hs & Ho). left. exists r', a. rewrite Nat.min_l by lia.
    split_and!; [done|done|done|lia].
  - destruct H as (v' & m & -> & He). by left.
  - by right.
Qed.

(** reports are unchanged while nothing is marked *)
Lemma out_no_marks buffer i v : no_marks v -> out buffer i v = flatten (events v).
Proof. intros (H1 & H2 & H3). unfold out. rewrite H1, H2, H3. simpl. by rewrite !app_nil_r. Qed.

Lemma boundary_at_lookup p k : k < boundarySize p -> boundary_at p k = boundary p !! k.
Proof. intros H. unfold boundary_at. by apply lookup_app_l. Qed.

Lemma sub64_eq_iff a b c :
  (Z.of_nat a < 2 ^ 63)%Z -> (Z.of_nat b < 2 ^ 63)%Z -> (Z.of_nat c < 2 ^ 63)%Z ->
  (sub64 a b =? Z.of_nat c)%Z = (a =? b + c)%nat.
Proof.
  intros Ha Hb Hc. unfold sub64, wrap64. destruct (a =? b + c)%nat eqn:E; zbool.
  - subst. apply Z.eqb_eq. rewrite Z.mod_small; lia.
  - apply Z.eqb_neq. intros H. destruct (decide (b <= a)).
    + rewrite Z.mod_small in H; lia.
    + rewrite <-(Z.mod_add _ 1 (2 ^ 64)) in H by lia. rewrite Z.mod_small in H; lia.
Qed.

Lemma start_boundary_ok p buffer i v r c :
  parser_wf p -> buffer !! i = Some c ->
  state v = START_BOUNDARY -> flags v = r_flags r -> length (lookbehind v) = boundarySize p + 8 ->
  no_marks v -> index v = r_index r -> r_index r < boundarySize p ->
  ref_byte (boundary p) r c = ref_start (boundary p) r c ->
  step_ok p buffer i v r (start_boundary p c i v).
Proof.
  intros [_ _ Hsz Hmx] Hc Hst Hf Hlb Hm Hi Hlt Hbyte.
  apply (step_ok_byte _ _ _ _ _ _ _ Hc). rewrite Hbyte. unfold ref_start, start_boundary.
  fold (boundarySize p) in *. rewrite <-Hi in *.
  assert ((Z.of_nat (index v) =? sub64 (boundarySize p) 2)%Z = (index v + 2 =? boundarySize p)%nat)
    as ->.
  { rewrite sub64_small by lia. apply eq_bool_prop_intro.
    rewrite !Is_true_true, Z.eqb_eq, Nat.eqb_eq. lia. }
  destruct (index v + 2 =? boundarySize p)%nat eqn:E2; zbool.
  { destruct (c =? CR)%Z; cbn [negb]; [|by eexists _, _].
    eexists. split_and!; [done| |].
    - split_and!; [done..|]. unfold sim_state; simpl. split_and!; [done|done|lia].
    - by rewrite !out_no_marks, app_nil_r. }
  assert ((sub64 (index v) 1 =? sub64 (boundarySize p) 2)%Z = (index v + 1 =? boundarySize p)%nat)
    as ->.
  { rewrite (sub64_small (boundarySize p)), sub64_eq_iff by lia. apply eq_bool_prop_intro.
    rewrite !Is_true_true, !Nat.eqb_eq. lia. }
  destruct (index v + 1 =? boundarySize p)%nat eqn:E1; zbool.
  { destruct (c =? LF)%Z; cbn [negb]; [|by eexists _, _].
    eexists. split_and!; [done| |].
    - by split_and!.
    - rewrite !out_no_marks by done. simpl. by rewrite flatten_app. }
  rewrite boundary_at_lookup by lia.
  destruct (lookup_lt_is_Some_2 (boundary p) (index v + 2)) as [b Hb];
    [unfold boundarySize in *; lia|]. rewrite Hb. cbn [mbind option_bind].
  destruct (c =? b)%Z eqn:Eb; zbool; cbn [negb].
  - subst b. rewrite bool_decide_true by done. eexists. split_and!; [done| |].
    + split_and!; [done..|]. unfold sim_state; simpl. split_and!; [done|done|lia].
    + by rewrite !out_no_marks, app_nil_r.
  - rewrite bool_decide_false by congruence. by eexists _, _.
Qed.

Lemma header_field_ok p buffer i v r c k :
  buffer !! i = Some c ->
  state v = HEADER_FIELD -> flags v = r_flags r -> length (lookbehind v) = boundarySize p + 8 ->
  mark_at (headerFieldMark v) i -> headerValueMark v = None -> partDataMark v = None ->
  index v = k -> (k = 0 -> headerFieldMark v = Some i) ->
  ref_byte (boundary p) r c = ref_field (r_flags r) k c ->
  step_ok p buffer i v r (Some (header_field buffer c i v)).
Proof.
  intros Hc Hst Hf Hlb Hm Hv Hd Hk Hk0 Hbyte.
  apply (step_ok_byte _ _ _ _ _ _ _ Hc). rewrite Hbyte. unfold ref_field, header_field.
  assert (mark_at (headerFieldMark v) (i + 1)) as Hm'.
  { destruct Hm as (k' & ? & ?). exists k'. split; [done|lia]. }
  assert (out buffer (i + 1) v = out buffer i v ++ [AField c]) as Hout.
  { unfold out. rewrite Hv, Hd, (marked_next _ _ _ _ c) by done. simpl.
    by rewrite !app_nil_r, app_assoc. }
  assert (sim (boundarySize p) (i + 1) (set_index v (index v + 1))
            (mk_rst HEADER_FIELD (r_flags r) (k + 1) [])) as Hsim.
  { split_and!; [done..|]. unfold sim_state; simpl. rewrite Hk. split_and!; (done || lia). }
  destruct (c =? CR)%Z.
  { destruct (k =? 0)%nat eqn:Ek; zbool; [|done]. eexists. split_and!; [done| |].
    - split_and!; [done..|]. unfold sim_state; simpl. split; [done|congruence].
    - unfold out. simpl. rewrite Hv, Hd, (Hk0 Ek). simpl. by rewrite Nat.sub_diag, !app_nil_r. }
  cbn [index set_index]. destruct (c =? HYPHEN)%Z; [by eexists|].
  destruct (c =? COLON)%Z.
  { replace (index v + 1 =? 1)%nat with (k =? 0)%nat
      by (apply eq_bool_prop_intro; rewrite !Is_true_true, !Nat.eqb_eq; lia).
    destruct (k =? 0)%nat; [by eexists _, _|].
    destruct (flatten_dataCallback onHeaderField AField (headerFieldMark v) buffer i false)
      as [E1 E2]; [done|]. cbn [headerFieldMark set_index].
    destruct (dataCallback _ _ _ _ _ _ _) as [m e]. simpl in E1, E2. subst m.
    eexists. split_and!; [done| |].
    - by split_and!.
    - rewrite out_no_marks by done. simpl. rewrite flatten_app, E2, app_nil_r. unfold out.
      rewrite Hv, Hd. simpl. by rewrite !app_nil_r. }
  destruct (_ || _); [by eexists _, _|by eexists].
Qed.

Lemma header_value_ok p buffer i v r c :
  buffer !! i = Some c ->
  state v = HEADER_VALUE -> flags v = r_flags r -> length (lookbehind v) = boundarySize p + 8 ->
  headerFieldMark v = None -> mark_at (headerValueMark v) i -> partDataMark v = None ->
  ref_byte (boundary p) r c = ref_value (r_flags r) c ->
  step_ok p buffer i v r (Some (header_value buffer c i v)).
Proof.
  intros Hc Hst Hf Hlb Hm Hv Hd Hbyte.
  apply (step_ok_byte _ _ _ _ _ _ _ Hc). rewrite Hbyte. unfold ref_value, header_value.
  destruct (c =? CR)%Z.
  - destruct (flatten_dataCallback onHeaderValue AValue (headerValueMark v) buffer i true)
      as [E1 E2]; [done|].
    destruct (dataCallback _ _ _ _ _ _ _) as [m e]. simpl in E1, E2. subst m.
    eexists. split_and!; [done|by split_and!|].
    rewrite out_no_marks by done. simpl. rewrite !flatten_app, E2. unfold out.
    rewrite Hm, Hd. simpl. by rewrite !app_nil_r, app_assoc.
  - eexists. split_and!; [done| |].
    + split_and!; [done..|]. unfold sim_state; simpl. split_and!; [done| |done].
      destruct Hv as (k' & ? & ?). exists k'. split; [done|lia].
    + unfold out. rewrite Hm, Hd, (marked_next AValue _ _ _ c) by done. simpl.
      by rewrite !app_nil_r, app_assoc.
Qed.

(** *** Part data *)

(** a boundary that turned out to be rubbish: the same byte again, nothing matched *)
Lemma retry_ok p buffer i v r c :
  buffer !! i = Some c -> sim (boundarySize p) i v r -> r_st r = PART_DATA -> r_match r <> [] ->
  ref_byte (boundary p) r c = ref_data0 (boundary p) (r_flags r) c (AData <$> r_match r) ->
  step_ok p buffer i v r (Some (Next i (set_pdm (emit (set_index v 0)
    (callback onPartData (lookbehind v) 0 (index v) false)) (Some i)))).
Proof.
  intros Hc (Hst & Hf & Hlb & Hs) Hr Hne Hbyte. unfold sim_state in Hs. rewrite Hr in Hs.
  rewrite bool_decide_false in Hs by done. destruct Hs as (H1 & H2 & H3 & H4 & H5 & H6).
  pose proof (lookup_lt_Some _ _ _ Hc) as Hlt.
  assert (0 < length (r_match r)) as Hm0 by (destruct (r_match r); [done|simpl; lia]).
  left. exists (goto PART_DATA (r_flags r)), (AData <$> r_match r).
  rewrite Nat.min_l by lia. split_and!.
  - split_and!; [by rewrite <-Hr|done..|]. unfold sim_state; simpl.
    split_and!; [done..|lia|done|]. by exists i.
  - unfold out. simpl. rewrite H1, H2, H6. simpl. rewrite Nat.sub_diag, !app_nil_r.
    rewrite flatten_app. f_equal. rewrite (flatten_callback _ AData) by done.
    by rewrite Nat.sub_0_r, H3, <-H3, <-H5 at 1.
  - rewrite (drop_cons_at _ _ _ Hc). cbn [ref_run]. rewrite Hbyte.
    etrans; [apply ref_data0_acc|]. done.
  - right. split_and!; [done|lia|done].
Qed.

(** the facts a matched prefix of the boundary comes with *)
Lemma sim_matched bsz i v r :
  sim bsz i v r -> r_st r = PART_DATA -> r_match r <> [] ->
  state v = PART_DATA /\ flags v = r_flags r /\ length (lookbehind v) = bsz + 8 /\ no_marks v /\
  index v = length (r_match r) /\ 0 < index v <= S bsz /\
  take (index v) (lookbehind v) = r_match r.
Proof.
  intros (Hst & Hf & Hlb & Hs) Hr Hne. unfold sim_state in Hs. rewrite Hr in Hs.
  rewrite bool_decide_false in Hs by done. destruct Hs as (H1 & H2 & H3 & H4 & H5 & H6).
  assert (0 < length (r_match r)) by (destruct (r_match r); [done|simpl; lia]).
  rewrite Hst, Hr. split_and!; (done || lia).
Qed.

(** the match grows by the byte, which goes into the lookbehind buffer *)
Lemma grow_ok p buffer i v r c f :
  buffer !! i = Some c -> sim (boundarySize p) i v r -> r_st r = PART_DATA -> r_match r <> [] ->
  index v <= boundarySize p ->
  ref_byte (boundary p) r c = RStep (mk_rst PART_DATA f 0 (r_match r ++ [c])) [] ->
  step_ok p buffer i v r (Some (Next (i + 1)
    (set_lb (set_flags (set_index v (index v + 1)) f) (<[index v := c]> (lookbehind v))))).
Proof.
  intros Hc Hsim Hr Hne Hle Hb.
  destruct (sim_matched _ _ _ _ Hsim Hr Hne) as (Hst & Hf & Hlb & Hm & H3 & H4 & H5).
  apply (step_ok_byte _ _ _ _ _ _ _ Hc). rewrite Hb. eexists. split_and!; [done| |].
  - split_and!; [done..| |]; simpl; [by rewrite length_insert|].
    unfold sim_state; simpl. destruct Hm as (M1 & M2 & M3).
    rewrite bool_decide_false by (by destruct (r_match r)).
    rewrite length_app; simpl. split_and!; [done|done|lia|lia| |done].
    apply take_insert_snoc; [lia|done].
  - rewrite !out_no_marks by done. by rewrite app_nil_r.
Qed.

(** behind the boundary and one more byte: the next part, the end, or neither *)
Lemma verdict_ok p buffer i v r c :
  parser_wf p -> lookbehindSize p = boundarySize p + 8 -> buffer !! i = Some c ->
  sim (boundarySize p) i v r -> r_st r = PART_DATA -> r_match r <> [] ->
  index v = S (boundarySize p) ->
  step_ok p buffer i v r (part_data p buffer c i v).
Proof.
  intros [_ _ Hsz Hmx] Hlbs Hc Hsim Hr Hne Ek.
  destruct (sim_matched _ _ _ _ Hsim Hr Hne) as (Hst & Hf & Hlb & Hm & H3 & H4 & H5).
  fold (boundarySize p) in *.
  unfold part_data, processPartData. rewrite (proj2 (Nat.eqb_neq (index v) 0)) by lia.
  cbn [mbind option_bind andb]. unfold match_boundary.
  assert ((index v <? boundarySize p)%nat = false) as Ec1 by (apply Nat.ltb_ge; lia).
  assert ((index v =? boundarySize p)%nat = false) as Ec2 by (apply Nat.eqb_neq; lia).
  rewrite Ec1, Ec2, sub64_eq_iff, (proj2 (Nat.eqb_eq (index v) (1 + boundarySize p))), Hf by lia.
  pose proof (retry_ok p buffer i v r c Hc Hsim Hr Hne) as Hretry.
  pose proof (step_ok_byte p buffer i v r) as Hbyte. specialize (fun o => Hbyte o c Hc).
  unfold ref_byte in Hretry, Hbyte. rewrite Hr in Hretry, Hbyte.
  unfold ref_data in Hretry, Hbyte. rewrite bool_decide_false in Hretry, Hbyte by done.
  fold (boundarySize p) in *.
  rewrite <-H3, Ec1, Ec2 in Hretry, Hbyte.
  assert ((0 <? index v)%nat = true) as Hpos by (apply Nat.ltb_lt; lia).
  destruct (negb (Z.land (r_flags r) PART_BOUNDARY =? 0)%Z).
  { destruct (c =? LF)%Z; cbn -[Nat.ltb Nat.leb]; rewrite ?Hpos; [|by apply Hretry].
    apply Hbyte. eexists. split_and!; [done|by split_and!; simpl; rewrite ?Hf|].
    rewrite !out_no_marks by done. simpl. by rewrite flatten_app. }
  destruct (negb (Z.land (r_flags r) LAST_BOUNDARY =? 0)%Z); [|by cbn -[Nat.ltb Nat.leb]; rewrite Hpos; apply Hretry].
  destruct (c =? HYPHEN)%Z; cbn -[Nat.ltb Nat.leb]; rewrite Hpos; [|by apply Hretry].
  rewrite Hlbs, (proj2 (Nat.leb_gt _ _)) by lia. apply Hbyte. eexists.
  split_and!; [done| |].
  - split_and!; [done|done| |done]. simpl. by rewrite length_insert.
  - rewrite !out_no_marks by done. simpl. by rewrite flatten_app.
Qed.

Lemma part_data_matched p buffer i v r c :
  parser_wf p -> lookbehindSize p = boundarySize p + 8 -> buffer !! i = Some c ->
  sim (boundarySize p) i v r -> r_st r = PART_DATA -> r_match r <> [] ->
  step_ok p buffer i v r (part_data p buffer c i v).
Proof.
  intros Hp Hlbs Hc Hsim Hr Hne.
  destruct (sim_matched _ _ _ _ Hsim Hr Hne) as (Hst & Hf & Hlb & Hm & H3 & H4 & H5).
  destruct (decide (index v = S (boundarySize p))) as [Ek|Ek]; [by eapply verdict_ok|].
  unfold part_data, processPartData. rewrite (proj2 (Nat.eqb_neq (index v) 0)) by lia.
  cbn [mbind option_bind andb]. unfold match_boundary.
  pose proof (retry_ok p buffer i v r c Hc Hsim Hr Hne) as Hretry.
  pose proof (fun f => grow_ok p buffer i v r c f Hc Hsim Hr Hne ltac:(lia)) as Hgrow.
  unfold ref_byte in Hgrow, Hretry. rewrite Hr in Hgrow, Hretry.
  unfold ref_data in Hgrow, Hretry. rewrite bool_decide_false in Hgrow, Hretry by done.
  fold (boundarySize p) in *. rewrite <-H3 in *.
  assert ((0 <? index v)%nat = true) as Hpos by (apply Nat.ltb_lt; lia).
  assert ((0 <? index v + 1)%nat = true) as Hpos1 by (apply Nat.ltb_lt; lia).
  assert ((lookbehindSize p <=? index v)%nat = false) as Hroom by (apply Nat.leb_gt; lia).
  destruct (index v <? boundarySize p)%nat eqn:E1;
    [apply Nat.ltb_lt in E1|apply Nat.ltb_ge in E1].
  { rewrite boundary_at_lookup by done.
    destruct (lookup_lt_is_Some_2 (boundary p) (index v)) as [b Hb]; [done|].
    rewrite Hb in *. cbn [mbind option_bind]. rewrite (proj2 (Nat.eqb_neq (index v) 0)) by lia.
    destruct (b =? c)%Z eqn:Eb; [apply Z.eqb_eq in Eb|apply Z.eqb_neq in Eb];
      cbn [index set_index].
    - subst b. rewrite bool_decide_true in Hgrow by done. rewrite Hpos1, Nat.add_sub, Hroom.
      specialize (Hgrow (r_flags r) eq_refl). by rewrite <-Hf in Hgrow.
    - rewrite bool_decide_false in Hretry by congruence. cbn -[Nat.ltb Nat.leb]. rewrite Hpos. by apply Hretry. }
  rewrite (proj2 (Nat.eqb_eq (index v) (boundarySize p))) in * by lia.
  cbn [mbind option_bind]. rewrite <-Hf in *.
  destruct (c =? CR)%Z; [|destruct (c =? HYPHEN)%Z]; cbn [index set_index set_flags flags].
  - rewrite Hpos1, Nat.add_sub, Hroom. by apply Hgrow.
  - rewrite Hpos1, Nat.add_sub, Hroom. by apply Hgrow.
  - cbn -[Nat.ltb Nat.leb]. rewrite Hpos. by apply Hretry.
Qed.

Lemma marked_advance tag m buffer i j :
  mark_at m i -> i <= j <= length buffer ->
  marked tag m buffer j = marked tag m buffer i ++ (tag <$> slice buffer i (j - i)).
Proof.
  intros (k & -> & Hk) Hij. simpl. rewrite <-fmap_app. f_equal. unfold slice.
  replace (j - k) with ((i - k) + (j - i)) by lia.
  rewrite <-(take_drop (i - k) (drop k buffer)) at 1. rewrite drop_drop.
  rewrite take_app, length_take, length_drop, Nat.min_l by lia.
  rewrite (take_ge (take _ _)) by (rewrite length_take; lia).
  f_equal. replace (k + (i - k)) with i by lia. f_equal. lia.
Qed.

Lemma part_data_unmatched p buffer i v r c :
  parser_wf p -> buffer_ok buffer -> lookbehindSize p = boundarySize p + 8 ->
  buffer !! i = Some c ->
  state v = PART_DATA -> flags v = r_flags r -> length (lookbehind v) = boundarySize p + 8 ->
  headerFieldMark v = None -> headerValueMark v = None -> mark_at (partDataMark v) i ->
  index v = 0 ->
  ref_run (boundary p) r (drop i buffer) =
    ref_run (boundary p) (goto PART_DATA (r_flags r)) (drop i buffer) ->
  step_ok p buffer i v r (part_data p buffer c i v).
Proof.
  intros Hp Hb Hlbs Hc Hst Hf Hlb Hm1 Hm2 Hm3 Hi Hrun. pose proof Hp as [_ _ Hsz Hmx].
  pose proof (lookup_lt_Some _ _ _ Hc) as Hlt. fold (boundarySize p) in *.
  destruct (bm_skip_spec (S (length buffer)) p buffer i (r_flags r) Hp Hb ltac:(lia) ltac:(lia))
    as (j & Hskip & Hj & Hrun').
  unfold part_data, processPartData. rewrite Hi, Hskip.
  change (0 =? 0)%nat with true. change (0 <? 0)%nat with false. cbn [mbind option_bind andb].
  assert (out buffer j v = out buffer i v ++ (AData <$> slice buffer i (j - i))) as Hout.
  { unfold out. rewrite Hm1, Hm2. simpl. rewrite (marked_advance AData _ _ i j) by done.
    by rewrite app_assoc. }
  destruct (j =? length buffer)%nat eqn:Ej; [apply Nat.eqb_eq in Ej|apply Nat.eqb_neq in Ej].
  { left. exists (goto PART_DATA (r_flags r)), (AData <$> slice buffer i (j - i)).
    rewrite Nat.min_r by lia. subst j. rewrite (drop_ge buffer (length buffer)) in Hrun' by lia.
    rewrite (drop_ge buffer (_ + 1)) by lia. split_and!; [|done|by rewrite Hrun|lia].
    split_and!; [done..|]. unfold sim_state; simpl. split_and!; [done|done|done|lia|by rewrite Hi|].
    destruct Hm3 as (k & ? & ?). exists k. split; [done|lia]. }
  destruct (lookup_lt_is_Some_2 buffer j) as [c' Hc']; [lia|]. rewrite Hc'. cbn [mbind option_bind].
  unfold match_boundary. rewrite Hi, (proj2 (Nat.ltb_lt 0 (boundarySize p))) by lia.
  rewrite boundary_at_lookup by lia.
  destruct (lookup_lt_is_Some_2 (boundary p) 0) as [b Hbd]; [unfold boundarySize in *; lia|].
  rewrite Hbd. cbn [mbind option_bind].
  rewrite (drop_cons_at _ _ _ Hc') in Hrun'. cbn [ref_run] in Hrun'.
  unfold ref_byte, ref_data in Hrun'. cbn [r_st goto r_match r_flags] in Hrun'.
  rewrite bool_decide_true in Hrun' by done. unfold ref_data0 in Hrun'. rewrite Hbd in Hrun'.
  destruct (b =? c')%Z eqn:Eb; [apply Z.eqb_eq in Eb|apply Z.eqb_neq in Eb].
  - subst b. rewrite bool_decide_true in Hrun' by done.
    destruct (flatten_dataCallback onPartData AData (partDataMark v) buffer j false)
      as [E1 E2]; [done|].
    destruct (dataCallback _ _ _ _ _ _ _) as [m e]. simpl in E1, E2. subst m.
    cbn -[Nat.ltb Nat.leb]. rewrite Hi, Hlbs, (proj2 (Nat.leb_gt _ _)) by (simpl; lia).
    left. eexists (mk_rst PART_DATA (r_flags r) 0 [c']), _.
    rewrite Nat.min_l by lia. split_and!; [| |by rewrite Hrun, Hrun', rprepend_nil|lia].
    + split_and!; [done|done| |]; simpl; [by rewrite length_insert|].
      unfold sim_state; simpl. split_and!; [done|done|done|lia| |done].
      apply (take_insert_snoc _ [] 0); [lia|done].
    + rewrite <-Hout. rewrite out_no_marks by done. simpl. rewrite flatten_app, E2. unfold out.
      rewrite Hm1, Hm2. done.
  - rewrite bool_decide_false in Hrun' by congruence. left.
    eexists (goto PART_DATA (r_flags r)), _.
    rewrite Nat.min_l by lia. split_and!; [| |by rewrite Hrun, Hrun', rprepend_rprepend|lia].
    + split_and!; [done..|]. unfold sim_state; simpl. split_and!; [done..|lia|done|].
      destruct Hm3 as (k & ? & ?). exists k. split; [done|lia].
    + rewrite (app_assoc (out buffer i v)), <-Hout. cbn [fmap list_fmap app].
      unfold out. simpl. rewrite Hm1, Hm2. simpl. rewrite (marked_next AData _ _ j c'); [|..|done].
      * by rewrite app_assoc.
      * destruct Hm3 as (k & ? & ?). exists k. split; [done|lia].
Qed.

(** the assignments in front of a fall-through report nothing *)
Lemma step_ok_from p buffer i v v0 r r0 o :
  out buffer i v0 = out buffer i v -> events v0 = events v -> index v0 <= index v ->
  ref_run (boundary p) r (drop i buffer) = ref_run (boundary p) r0 (drop i buffer) ->
  step_ok p buffer i v0 r0 o -> step_ok p buffer i v r o.
Proof.
  intros H1 H2 H3 H4 [H|H]; [left|right; congruence].
  destruct o as [[i' v'|v' [m|]|v']|]; try done.
  - destruct H as (r' & a & Ha & Hb & Hc & Hd). exists r', a. rewrite H4, <-H1.
    split_and!; [done..|lia].
  - by rewrite H4, <-H2.
Qed.

Lemma ref_run_same bnd r r0 c s :
  ref_byte bnd r c = ref_byte bnd r0 c -> ref_run bnd r (c :: s) = ref_run bnd r0 (c :: s).
Proof. cbn [ref_run]. by intros ->. Qed.

Lemma feed_switch_ok p buffer i v r c :
  parser_wf p -> buffer_ok buffer -> lookbehindSize p = boundarySize p + 8 ->
  buffer !! i = Some c -> sim (boundarySize p) i v r ->
  step_ok p buffer i v r (feed_switch p buffer i c v).
Proof.
  intros Hp Hb Hlbs Hc Hsim. pose proof Hsim as (Hst & Hf & Hlb & Hs).
  assert (mark_at (Some i) i) as Hmi by (by exists i).
  pose proof (fun r0 => ref_run_same (boundary p) r r0 c (drop (i + 1) buffer)) as Hsame.
  rewrite <-(drop_cons_at _ _ _ Hc) in Hsame.
  pose proof (step_ok_byte p buffer i v r) as Hbyte. specialize (fun o => Hbyte o c Hc).
  unfold feed_switch. rewrite Hst. unfold sim_state in Hs.
  unfold ref_byte in Hbyte, Hsame. destruct (r_st r) eqn:Hr; try done.
  - apply (step_ok_from _ _ _ _ (set_st (set_index v 0) START_BOUNDARY) _
      (mk_rst START_BOUNDARY (r_flags r) 0 [])); [done|done|simpl; lia|by apply Hsame|].
    apply start_boundary_ok; try done. pose proof (wf_size p Hp). unfold boundarySize. simpl. lia.
  - destruct Hs as (H1 & H2 & H3). apply start_boundary_ok; try done.
    unfold ref_byte. by rewrite Hr.
  - pose proof Hs as (H1 & H2 & H3).
    apply (step_ok_from _ _ _ _ (set_index (set_hfm (set_st v HEADER_FIELD) (Some i)) 0) _ r);
      [|done|simpl; lia|done|].
    + rewrite (out_no_marks _ _ v) by done. unfold out. simpl.
      rewrite H2, H3, Nat.sub_diag. simpl. by rewrite app_nil_r.
    + apply (header_field_ok _ _ _ _ _ _ 0); try done. unfold ref_byte. by rewrite Hr.
  - destruct Hs as (H1 & H2 & H3 & H4 & H5).
    apply (header_field_ok _ _ _ _ _ _ (r_index r)); [done..|lia|]. unfold ref_byte. by rewrite Hr.
  - pose proof Hs as (H1 & H2 & H3). destruct (c =? SPACE)%Z eqn:Esp.
    + apply Hbyte. eexists. split_and!; [done|by split_and!|]. by rewrite !out_no_marks, app_nil_r.
    + apply (step_ok_from _ _ _ _ (set_st (set_hvm v (Some i)) HEADER_VALUE) _ r);
        [|done|simpl; lia|done|].
      * rewrite (out_no_marks _ _ v) by done. unfold out. simpl.
        rewrite H1, H3, Nat.sub_diag. simpl. by rewrite app_nil_r.
      * apply header_value_ok; try done. unfold ref_byte. by rewrite Hr, Esp.
  - destruct Hs as (H1 & H2 & H3). apply header_value_ok; try done. unfold ref_byte. by rewrite Hr.
  - apply Hbyte. destruct (c =? LF)%Z; cbn [negb]; [|by eexists _, _].
    eexists. split_and!; [done|by split_and!|]. by rewrite !out_no_marks, app_nil_r.
  - destruct Hs as [Hs Hi]. apply Hbyte. destruct (c =? LF)%Z; cbn [negb]; [|by eexists _, _].
    eexists. split_and!; [done|by split_and!|].
    rewrite !out_no_marks by done. simpl. by rewrite flatten_app.
  - pose proof Hs as [(H1 & H2 & H3) Hi].
    apply (step_ok_from _ _ _ _ (set_pdm (set_st v PART_DATA) (Some i)) _ (goto PART_DATA (r_flags r)));
      [|done|done|by apply Hsame|].
    + rewrite (out_no_marks _ _ v) by done. unfold out. simpl.
      rewrite H1, H2, Nat.sub_diag. simpl. by rewrite app_nil_r.
    + by apply part_data_unmatched.
  - destruct (decide (r_match r = [])) as [Hm|Hm]; [|by apply part_data_matched].
    destruct Hs as (H1 & H2 & H3 & H4 & H5 & H6). rewrite bool_decide_true in H6 by done.
    apply part_data_unmatched; try done; [by rewrite H3, Hm|]. apply Hsame. simpl.
    unfold ref_data. simpl. by rewrite Hm.
  - apply Hbyte. eexists. split_and!; [done|by unfold sim, sim_state; rewrite Hr|].
    by rewrite !out_no_marks, app_nil_r.
Qed.

(** ** feed refines the reference *)

Definition meas (buffer : bytes) (i : nat) (v : vars) : nat :=
  2 * (S (length buffer) - i) + (if (0 <? index v)%nat then 1 else 0).

Lemma feed_loop_ok fuel p buffer i v r :
  parser_wf p -> buffer_ok buffer -> lookbehindSize p = boundarySize p + 8 ->
  meas buffer i v < fuel -> sim (boundarySize p) (Nat.min i (length buffer)) v r ->
  let n := length buffer in
  match ref_run (boundary p) r (drop i buffer) with
  | ROk r' a => exists v', feed_loop fuel p buffer i v = Some (LDone v') /\
      sim (boundarySize p) n v' r' /\ out buffer n v' = out buffer (Nat.min i n) v ++ a
  | RError a => exists j v' m, feed_loop fuel p buffer i v = Some (LReturn j v' (Some m)) /\
      flatten (events v') `prefix_of` out buffer (Nat.min i n) v ++ a
  | RLoosed => True
  end.
Proof.
  intros Hp Hb Hlbs. revert i v r; induction fuel as [|fuel IH]; intros i v r Hf Hsim; [lia|].
  cbv zeta. cbn [feed_loop]. destruct (i <? length buffer)%nat eqn:Ei; zbool.
  2: { rewrite drop_ge by lia. cbn [ref_run]. exists v. rewrite Nat.min_r in * by lia.
       by rewrite app_nil_r. }
  destruct (lookup_lt_is_Some_2 buffer i Ei) as [c Hc]. rewrite Hc. cbn [mbind option_bind].
  rewrite Nat.min_l in * by lia.
  destruct (feed_switch_ok p buffer i v r c Hp Hb Hlbs Hc Hsim) as [H|H]; [|by rewrite H].
  destruct (feed_switch p buffer i c v) as [[i' v'|v' [m|]|v']|]; try done; cbn [mbind option_bind].
  - destruct H as (r' & a & Hs & Ho & Hr & Hi).
    assert (meas buffer i' v' < fuel) as Hf'.
    { unfold meas in *. destruct Hi as [Hi|(-> & Hi1 & Hi2)].
      - destruct (0 <? index v)%nat, (0 <? index v')%nat; lia.
      - rewrite Hi2 in *. simpl in *. rewrite (proj2 (Nat.ltb_lt 0 (index v))) in Hf by done. lia. }
    specialize (IH i' v' r' Hf' Hs). cbv zeta in IH. rewrite Hr, Ho in *.
    destruct (ref_run (boundary p) r' (drop i' buffer)); simpl; [|by rewrite <-app_assoc in IH|done].
    by rewrite <-app_assoc in IH.
  - destruct H as [-> He]. exists i, v', m. split; [done|]. rewrite He. unfold out.
    rewrite <-app_assoc. by apply prefix_app_r.
Qed.

(** the parser between two calls of feed: marks stand at the start of the next buffer *)
Definition parser_at (p : multipart_parser) (r : rst) : Prop :=
  parser_wf p /\ events (members p) = [] /\ sim (boundarySize p) 0 (members p) r.

Lemma dataCallback_flush cb tag m buffer :
  (forall s, atoms_of (cb s) = tag <$> s) ->
  (dataCallback cb m buffer (length buffer) (length buffer) false false).1 = (fun _ => 0) <$> m /\
  flatten (dataCallback cb m buffer (length buffer) (length buffer) false false).2 =
    marked tag m buffer (length buffer).
Proof.
  intros Hcb. destruct m as [k|]; cbn; [|done]. split; [done|]. by apply flatten_callback.
Qed.

Lemma flush_marks_ok bsz buffer v r :
  sim bsz (length buffer) v r ->
  sim bsz 0 (flush_marks buffer v) r /\
  flatten (events (flush_marks buffer v)) = out buffer (length buffer) v.
Proof.
  intros (Hst & Hf & Hlb & Hs). unfold flush_marks.
  destruct (dataCallback_flush onHeaderField AField (headerFieldMark v) buffer) as [A1 A2]; [done|].
  destruct (dataCallback_flush onHeaderValue AValue (headerValueMark v) buffer) as [B1 B2]; [done|].
  destruct (dataCallback_flush onPartData AData (partDataMark v) buffer) as [C1 C2]; [done|].
  destruct (dataCallback onHeaderField _ _ _ _ _ _) as [m1 e1].
  destruct (dataCallback onHeaderValue _ _ _ _ _ _) as [m2 e2].
  destruct (dataCallback onPartData _ _ _ _ _ _) as [m3 e3]. simpl in *. subst.
  split; [|unfold out; rewrite !flatten_app; congruence].
  split_and!; [done..|]. unfold sim_state, no_marks, mark_at in *. simpl.
  destruct (r_st r); try destruct (bool_decide (r_match r = []));
    repeat match goal with H : _ /\ _ |- _ => destruct H | H : exists _, _ |- _ => destruct H end;
    repeat match goal with H : ?m v = None |- _ => rewrite H | H : ?m v = Some _ |- _ => rewrite H end;
    simpl; split_and?; eauto with lia.
Qed.

Lemma out_start buffer v r bsz : sim bsz 0 v r -> events v = [] -> out buffer 0 v = [].
Proof.
  intros (_ & _ & _ & Hs) He. unfold out. rewrite He.
  assert (forall tag m, m = None \/ mark_at m 0 -> marked tag m buffer 0 = []) as Hz.
  { intros tag m [->|(k & -> & Hk)]; [done|]. simpl. by replace (0 - k) with 0 by lia. }
  unfold sim_state, no_marks in Hs.
  rewrite !Hz; [done|..]; destruct (r_st r); try destruct (bool_decide (r_match r = []));
    naive_solver.
Qed.

(** feed, one buffer against the reference *)
Lemma feed_ok p buffer r :
  parser_at p r -> buffer_ok buffer ->
  match ref_run (boundary p) r buffer with
  | ROk r' a => exists p' es, feed p buffer = Some (Fed (length buffer) p' es) /\
      flatten es = a /\ parser_at p' r' /\ boundary p' = boundary p
  | RError a => exists j p' es, feed p buffer = Some (Fed j p' es) /\
      has_error p' = true /\ flatten es `prefix_of` a
  | RLoosed => True
  end.
Proof.
  intros (Hp & He & Hsim) Hb. unfold feed.
  rewrite bool_decide_false.
  2: { destruct Hsim as (Hst & _ & _ & Hs). unfold sim_state in Hs. intros E. rewrite E in Hst.
       by rewrite <-Hst in Hs. }
  cbn [orb]. destruct (length buffer =? 0)%nat eqn:E0; zbool.
  { destruct buffer; [|done]. cbn [ref_run]. exists p, []. done. }
  assert (lookbehindSize p = boundarySize p + 8) as Hlbs by apply Hsim.
  pose proof (feed_loop_ok (2 * length buffer + 4) p buffer 0 (members p) r Hp Hb Hlbs) as H.
  specialize (H ltac:(unfold meas; destruct (0 <? _)%nat; lia) Hsim). cbv zeta in H.
  rewrite drop_0, Nat.min_0_l, (out_start _ _ _ _ Hsim He) in H.
  destruct (ref_run (boundary p) r buffer) as [r' a|a|]; [| |done].
  - destruct H as (v' & -> & Hs' & Ho). cbn [mbind option_bind].
    destruct (flush_marks_ok _ _ _ _ Hs') as [Hf1 Hf2].
    eexists _, _. split_and!; [done|by rewrite Hf2, Ho| |done].
    split_and!; [|done|].
    + destruct Hp as [W1 W2 W3 W4]. by split.
    + exact Hf1.
  - destruct H as (j & v' & m & -> & Hpre). cbn [mbind option_bind].
    eexists j, _, _. split_and!; [done| |done]. done.
Qed.

Lemma set_boundary_at b fresh :
  Forall is_byte b -> 2 <= length b -> (Z.of_nat (length b) < 2 ^ 62)%Z ->
  parser_at (set_boundary b fresh) (goto START 0).
Proof.
  intros H1 H2 H3. split_and!; [by split|done|]. split_and!; [done|done| |done].
  simpl. rewrite length_take, length_app, length_replicate. unfold boundarySize. simpl. lia.
Qed.

(** the buffers of a request body, one call of feed each *)
Fixpoint feed_all (p : multipart_parser) (bufs : list bytes)
  : option (multipart_parser * list event) :=
  match bufs with
  | [] => Some (p, [])
  | b :: bufs =>
      match feed p b with
      | Some (Fed _ p es) =>
          match feed_all p bufs with Some (p, es') => Some (p, es ++ es') | None => None end
      | _ => None
      end
  end.

Lemma feed_all_error p bufs : has_error p = true -> feed_all p bufs = Some (p, []).
Proof.
  intros H. induction bufs as [|b bufs IH]; [done|]. cbn [feed_all]. unfold feed.
  unfold has_error in H. rewrite H. cbn [orb]. by rewrite IH.
Qed.

Lemma feed_all_ok bufs : forall p r,
  parser_at p r -> Forall buffer_ok bufs ->
  match ref_run (boundary p) r (mjoin bufs) with
  | ROk r' a => exists p' es, feed_all p bufs = Some (p', es) /\ flatten es = a /\ parser_at p' r'
  | RError a => exists p' es, feed_all p bufs = Some (p', es) /\
      has_error p' = true /\ flatten es `prefix_of` a
  | RLoosed => True
  end.
Proof.
  induction bufs as [|b bufs IH]; intros p r Hp Hb; [by exists p, []|].
  apply Forall_cons in Hb as [Hb Hbs]. cbn [mjoin list_join feed_all]. rewrite ref_run_app.
  pose proof (feed_ok p b r Hp Hb) as H. destruct (ref_run (boundary p) r b) as [r1 a1|a1|]; [| |done].
  - destruct H as (p1 & es1 & -> & <- & Hp1 & Hbd). specialize (IH p1 r1 Hp1 Hbs).
    rewrite Hbd in IH. change (mjoin bufs) with (list_join _ bufs) in IH.
    destruct (ref_run (boundary p) r1 _) as [r2 a2|a2|]; simpl; [| |done].
    + destruct IH as (p2 & es2 & -> & <- & Hp2). eexists _, _. by rewrite flatten_app.
    + destruct IH as (p2 & es2 & -> & He & Hpre). eexists _, _. split_and!; [done|done|].
      rewrite flatten_app. by apply prefix_app.
  - destruct H as (j & p1 & es1 & -> & He & Hpre). rewrite feed_all_error by done.
    eexists _, _. split_and!; [done|done|]. by rewrite app_nil_r.
Qed.

Lemma parser_at_no_error p r : parser_at p r -> has_error p = false.
Proof.
  intros (_ & _ & Hst & _ & _ & Hs). unfold has_error. apply bool_decide_eq_false.
  intros E. rewrite E in Hst. unfold sim_state in Hs. by rewrite <-Hst in Hs.
Qed.

(** every header line of the input has a colon *)
Definition headers_have_colons (b s : bytes) : Prop := ref_run b (goto START 0) s <> RLoosed.

(** C11. The multipart parser refines the byte-wise reference: fed any sequence of
    buffers after set_boundary, on an input whose header lines have colons, it
    terminates, reads no array out of bounds, throws no exception, and either
    reports the events of the reference (bytes merged into runs) or, exactly when the
    reference rejects the input, has reported a prefix of them and is in the error
    state.  Without the colons this is not so ([headers_have_colons]). *)
Theorem multipart_feed_refines b fresh bufs :
  Forall is_byte b -> 2 <= length b -> (Z.of_nat (length b) < 2 ^ 62)%Z ->
  Forall buffer_ok bufs -> headers_have_colons b (mjoin bufs) ->
  exists p es, feed_all (set_boundary b fresh) bufs = Some (p, es) /\
  match ref_run b (goto START 0) (mjoin bufs) with
  | ROk r a => flatten es = a /\ state (members p) = r_st r /\ has_error p = false
  | RError a => flatten es `prefix_of` a /\ has_error p = true
  | RLoosed => False
  end.
Proof.
  intros H1 H2 H3 Hb Hc. unfold headers_have_colons in Hc.
  pose proof (feed_all_ok bufs _ _ (set_boundary_at b fresh H1 H2 H3) Hb) as H.
  simpl boundary in H. destruct (ref_run b _ _) as [r a|a|]; [| |done].
  - destruct H as (p & es & -> & <- & Hp). exists p, es. split_and!; [done|done| |].
    + by destruct Hp as (_ & _ & Hst & _).
    + by eapply parser_at_no_error.
  - destruct H as (p & es & -> & He & Hpre). by exists p, es.
Qed.

Lemma byte_list_check l : forallb (fun b => (0 <=? b) && (b <? 256))%Z l = true -> Forall is_byte l.
Proof.
  induction l as [|b l IH]; simpl; intros H; [constructor|]. zbool. constructor; [|by apply IH].
  unfold is_byte. lia.
Qed.

(** a body cut inside the boundary *)
Definition sample_boundary : bytes := CRLF ++ bs "--XY".
Definition sample_bufs : list bytes :=
  [bs "--XY" ++ CRLF ++ bs "Name: v"; bs "al" ++ CRLF ++ CRLF ++ bs "abc" ++ CRLF ++ bs "--X";
   bs "Y" ++ bs "--" ++ CRLF].

Lemma sample_bufs_ok : Forall buffer_ok sample_bufs.
Proof. repeat (constructor; [split; [by apply byte_list_check|by vm_compute]|]). constructor. Qed.

Lemma multipart_feed_refines_witness :
  exists p es, feed_all (set_boundary sample_boundary []) sample_bufs = Some (p, es) /\
  state (members p) = END.
Proof.
  destruct (multipart_feed_refines sample_boundary [] sample_bufs) as (p & es & H1 & H2).
  - by apply byte_list_check.
  - vm_compute; lia.
  - reflexivity.
  - exact sample_bufs_ok.
  - unfold headers_have_colons. vm_compute. discriminate.
  - exists p, es. split; [exact H1|]. vm_compute in H2. exact (proj1 (proj2 H2)).
Defined.

(** Where the input is cut into buffers does not matter: two ways of feeding
    the same bytes both fail, or both succeed in the same state with the same
    reports up to merging runs of bytes, whatever the buffer for lookbehind
    held when it was allocated. *)
Theorem multipart_chunking b fresh1 fresh2 bufs1 bufs2 :
  Forall is_byte b -> 2 <= length b -> (Z.of_nat (length b) < 2 ^ 62)%Z ->
  Forall buffer_ok bufs1 -> Forall buffer_ok bufs2 -> mjoin bufs1 = mjoin bufs2 ->
  headers_have_colons b (mjoin bufs1) ->
  exists p1 es1 p2 es2,
    feed_all (set_boundary b fresh1) bufs1 = Some (p1, es1) /\
    feed_all (set_boundary b fresh2) bufs2 = Some (p2, es2) /\
    has_error p1 = has_error p2 /\
    (has_error p1 = false ->
     flatten es1 = flatten es2 /\ state (members p1) = state (members p2)).
Proof.
  intros H1 H2 H3 Hb1 Hb2 Heq Hc. unfold headers_have_colons in Hc.
  pose proof (feed_all_ok bufs1 _ _ (set_boundary_at b fresh1 H1 H2 H3) Hb1) as F1.
  pose proof (feed_all_ok bufs2 _ _ (set_boundary_at b fresh2 H1 H2 H3) Hb2) as F2.
  simpl boundary in F1, F2. rewrite <-Heq in F2.
  destruct (ref_run b _ _) as [r a|a|]; [| |done].
  - destruct F1 as (p1 & es1 & -> & <- & Hp1), F2 as (p2 & es2 & -> & E & Hp2).
    exists p1, es1, p2, es2. rewrite !(parser_at_no_error _ r) by done. split_and!; [done..|].
    intros _. split; [done|]. destruct Hp1 as (_ & _ & -> & _), Hp2 as (_ & _ & -> & _). done.
  - destruct F1 as (p1 & es1 & -> & E1 & _), F2 as (p2 & es2 & -> & E2 & _).
    exists p1, es1, p2, es2. by rewrite E1, E2.
Qed.

Lemma multipart_chunking_witness :
  exists p1 es1 p2 es2,
    feed_all (set_boundary sample_boundary []) sample_bufs = Some (p1, es1) /\
    feed_all (set_boundary sample_boundary []) [mjoin sample_bufs] = Some (p2, es2) /\
    has_error p1 = has_error p2.
Proof.
  destruct (multipart_chunking sample_boundary [] [] sample_bufs [mjoin sample_bufs])
    as (p1 & es1 & p2 & es2 & H1 & H2 & H3 & _).
  - by apply byte_list_check.
  - vm_compute; lia.
  - reflexivity.
  - exact sample_bufs_ok.
  - constructor; [split; [by apply byte_list_check|by vm_compute]|constructor].
  - reflexivity.
  - unfold headers_have_colons. vm_compute. discriminate.
  - exists p1, es1, p2, es2. split_and!; assumption.
Defined.

(** A header line without a colon ends the header block with [index] left at
    the number of its letters: bytes of the fresh lookbehind buffer are then
    reported as part data, and a long one overflows the buffer. *)
Lemma colonless_header_leaks :
  (exists p es, feed (set_boundary sample_boundary (bs "heap"))
     (bs "--XY" ++ CRLF ++ bs "abc" ++ CRLF ++ bs "zzz") = Some (Fed 14 p es) /\
     onPartData (bs "hea") ∈ es) /\
  (exists p es, feed (set_boundary sample_boundary [])
     (bs "--XY" ++ CRLF ++ bs "abcdefghijklmnopqr" ++ CRLF ++ bs "z") = Some (FeedThrow p es)).
Proof.
  split.
  - eexists _, _. split; [vm_compute; reflexivity|].
    apply (bool_decide_unpack _). vm_compute. exact I.
  - eexists _, _. vm_compute. reflexivity.
Qed.
