(* ===== verification/MultipartReader.v ===== *)
(** * Reading printed multipart bodies

    The reader of Multipart.v on a body printed from parts: whatever buffers
    the body is cut into, the reader's hooks are called with the headers and
    the data of the parts, in order. *)

From Stdlib Require Import ZArith Lia.
From stdpp Require Import base numbers list strings.
From S2P Require Import Prelude Multipart MultipartFacts.

(** ** Printing *)

Record part := mk_part { p_headers : list (bytes * bytes); p_data : bytes }.

Definition print_header (h : bytes * bytes) : bytes := h.1 ++ bs ": " ++ h.2 ++ CRLF.

Definition print_part (q : part) : bytes :=
  mjoin (print_header <$> p_headers q) ++ CRLF ++ p_data q.

(** [tok] is "--" and the boundary parameter; the delimiter is CRLF ++ tok *)
Definition print_body (tok : bytes) (parts : list part) (epilogue : bytes) : bytes :=
  tok ++ CRLF ++
  (fix go parts := match parts with
   | [] => []
   | [q] => print_part q ++ CRLF ++ tok ++ bs "--" ++ epilogue
   | q :: parts => print_part q ++ CRLF ++ tok ++ CRLF ++ go parts
   end) parts.

Definition name_char (c : Z) : bool := (c =? 45)%Z || isalpha c.

Definition header_ok (h : bytes * bytes) : Prop :=
  h.1 <> [] /\ Forall (fun c => name_char c = true) h.1 /\
  Forall (fun c => c <> CR) h.2 /\ head h.2 <> Some 32%Z.

#[export] Instance header_ok_dec h : Decision (header_ok h).
Proof. unfold header_ok. apply _. Defined.

Definition occurs (b s : bytes) : Prop := exists x y, s = x ++ b ++ y.

Definition part_ok (tok : bytes) (q : part) : Prop :=
  Forall header_ok (p_headers q) /\ ~ occurs (CRLF ++ tok) (p_data q).

(** ** The reference parser on printed text *)

Section printed.
Variable tok : bytes.
Hypothesis Htok : CR ∉ tok.
Notation bnd := (CRLF ++ tok).

(** bytes that extend the match *)
Lemma match_rest f m t s :
  m <> [] -> m ++ t = bnd ->
  ref_run bnd (mk_rst PART_DATA f 0 m) (t ++ s) = ref_run bnd (mk_rst PART_DATA f 0 bnd) s.
Proof.
  revert m; induction t as [|c t IH]; intros m Hm E; [by rewrite app_nil_r in E; subst|].
  cbn [app ref_run]. unfold ref_byte, ref_data. cbn [r_st r_match r_flags].
  rewrite bool_decide_false by done.
  assert (length m < length bnd) as Hl by (rewrite <-E, length_app; simpl; lia).
  rewrite (proj2 (Nat.ltb_lt _ _) Hl).
  rewrite bool_decide_true by (rewrite <-E; by apply list_lookup_middle).
  rewrite rprepend_nil. apply IH; [by destruct m|]. by rewrite <-app_assoc.
Qed.

Lemma bnd_tail_no_CR k c : 0 < k -> bnd !! k = Some c -> c <> CR.
Proof.
  intros Hk H ->. destruct k as [|[|k]]; [lia|done|]. simpl in H.
  by apply Htok, list_elem_of_lookup_2 with k.
Qed.

(** the delimiter after a partial match *)
Lemma match_delim f m s :
  length m < length bnd ->
  ref_run bnd (mk_rst PART_DATA f 0 m) (bnd ++ s) =
  rprepend (AData <$> m) (ref_run bnd (mk_rst PART_DATA f 0 bnd) s).
Proof.
  intros Hl.
  assert (ref_run bnd (goto PART_DATA f) (bnd ++ s) = ref_run bnd (mk_rst PART_DATA f 0 bnd) s)
    as H0.
  { change (bnd ++ s) with (CR :: (LF :: tok) ++ s). cbn [ref_run].
    unfold ref_byte at 1, ref_data at 1. cbn [r_st goto r_match r_flags].
    rewrite bool_decide_true by done. unfold ref_data0. rewrite bool_decide_true by done.
    cbn [fmap list_fmap]. rewrite rprepend_nil. by apply match_rest. }
  destruct (decide (m = [])) as [->|Hm]; [by rewrite rprepend_nil|].
  rewrite <-H0. change (bnd ++ s) with (CR :: (LF :: tok) ++ s).
  rewrite <-ref_data0_acc. cbn [ref_run]. unfold ref_byte at 1, ref_data at 1.
  cbn [r_st r_match r_flags]. rewrite bool_decide_false by done.
  rewrite (proj2 (Nat.ltb_lt _ _) Hl), bool_decide_false; [done|].
  intros H. apply bnd_tail_no_CR in H; [done|]. destruct m; [done|simpl; lia].
Qed.

(** part data up to its delimiter *)
Lemma data_run f d m s :
  length m < length bnd -> m = take (length m) bnd -> ~ occurs bnd (m ++ d) ->
  ref_run bnd (mk_rst PART_DATA f 0 m) (d ++ bnd ++ s) =
  rprepend (AData <$> (m ++ d)) (ref_run bnd (mk_rst PART_DATA f 0 bnd) s).
Proof.
  revert m; induction d as [|c d IH]; intros m Hl Hm Hocc.
  { rewrite app_nil_r. by apply match_delim. }
  assert (ref_run bnd (goto PART_DATA f) (c :: d ++ bnd ++ s) =
          rprepend (AData <$> c :: d) (ref_run bnd (mk_rst PART_DATA f 0 bnd) s)) as H0.
  { assert (~ occurs bnd (c :: d)) as Hocc'.
    { intros (x & y & E). apply Hocc. exists (m ++ x), y. by rewrite E, <-!app_assoc. }
    cbn [ref_run]. unfold ref_byte at 1, ref_data at 1. cbn [r_st goto r_match r_flags].
    rewrite bool_decide_true by done. unfold ref_data0.
    destruct (bool_decide (bnd !! 0 = Some c)) eqn:E.
    - apply bool_decide_eq_true in E. simplify_eq/=. rewrite rprepend_nil.
      apply (IH [CR]); [simpl; lia|done|done].
    - cbn [fmap list_fmap app]. unfold goto. rewrite (IH []); [|simpl; lia|done|].
      + by rewrite rprepend_rprepend.
      + intros (x & y & E'). apply Hocc'. exists (c :: x), y. simpl in *. by rewrite E'. }
  destruct (decide (m = [])) as [->|Hne]; [exact H0|].
  cbn [app ref_run]. unfold ref_byte, ref_data. cbn [r_st r_match r_flags].
  rewrite bool_decide_false by done. rewrite (proj2 (Nat.ltb_lt _ _) Hl).
  destruct (bool_decide (bnd !! length m = Some c)) eqn:E.
  - apply bool_decide_eq_true in E. rewrite rprepend_nil.
    assert (m ++ [c] = take (S (length m)) bnd) as Hm'
      by (erewrite take_S_r by done; by rewrite <-Hm).
    rewrite (IH (m ++ [c])); [by rewrite <-app_assoc| | |by rewrite <-app_assoc].
    + rewrite length_app. cbn [length]. assert (S (length m) <> length bnd); [|lia].
      intros El. apply Hocc. exists [], d. rewrite cons_middle, app_assoc, Hm', El.
      by rewrite firstn_all.
    + rewrite length_app. simpl. by rewrite Nat.add_1_r.
  - rewrite ref_data0_acc, H0, rprepend_rprepend. by rewrite fmap_app.
Qed.

Lemma data_start_run f d s :
  ~ occurs bnd d ->
  ref_run bnd (goto PART_DATA_START f) (d ++ bnd ++ s) =
  rprepend (AData <$> d) (ref_run bnd (mk_rst PART_DATA f 0 bnd) s).
Proof.
  intros H. change (AData <$> d) with (AData <$> ([] ++ d)).
  rewrite <-(data_run f d [] s); [|simpl; lia|done|done].
  destruct d as [|c d]; apply ref_run_same; unfold ref_byte, ref_data;
    cbn [r_st goto r_match r_flags]; by rewrite (bool_decide_true ([] = [])).
Qed.

(** header names *)
Lemma name_char_ok c :
  name_char c = true -> is_byte c /\ (c =? CR)%Z = false /\ (c =? COLON)%Z = false /\
  ((c =? HYPHEN)%Z = true \/ ((lower c <? 97) || (122 <? lower c))%Z = false).
Proof.
  intros H. assert (is_byte c) as Hb.
  { unfold is_byte, name_char, isalpha, isupper, islower in *. zsplit; lia. }
  split; [done|].
  pose proof (all_bytes_check (fun c => implb (name_char c)
    (negb (c =? CR) && negb (c =? COLON) &&
     ((c =? HYPHEN) || negb ((lower c <? 97) || (122 <? lower c))))%Z)
    ltac:(vm_compute; done) c Hb) as E. cbv beta in E. rewrite H in E. cbn [implb] in E.
  apply andb_true_iff in E as [E E3]. apply andb_true_iff in E as [E1 E2].
  apply negb_true_iff in E1, E2. split_and!; [done|done|].
  apply orb_true_iff in E3 as [E3|E3]; [by left|right]. by apply negb_true_iff.
Qed.

Lemma name_run f n s : forall k,
  Forall (fun c => name_char c = true) n ->
  ref_run bnd (mk_rst HEADER_FIELD f k []) (n ++ s) =
  rprepend (AField <$> n) (ref_run bnd (mk_rst HEADER_FIELD f (k + length n) []) s).
Proof.
  induction n as [|c n IH]; intros k H.
  - by rewrite rprepend_nil, Nat.add_0_r.
  - apply Forall_cons in H as [Hc Hn]. destruct (name_char_ok c Hc) as (_ & E1 & E2 & E3).
    cbn [app ref_run]. unfold ref_byte, ref_field. cbn [r_st r_index r_flags]. rewrite E1, E2.
    assert (forall x, match (if (c =? HYPHEN)%Z then RStep (mk_rst HEADER_FIELD f (k + 1) []) [AField c]
      else if ((lower c <? 97) || (122 <? lower c))%Z then RFail
      else RStep (mk_rst HEADER_FIELD f (k + 1) []) [AField c]) with
      | RStep r a => rprepend a (ref_run bnd r x) | RFail => RError [] | RLoose => RLoosed end =
      rprepend [AField c] (ref_run bnd (mk_rst HEADER_FIELD f (k + 1) []) x)) as ->.
    { intros x. destruct E3 as [-> | ->]; [done|]. by destruct (c =? HYPHEN)%Z. }
    rewrite IH by done. rewrite rprepend_rprepend. cbn [length].
    replace (k + 1 + length n) with (k + S (length n)) by lia. done.
Qed.

Lemma value_run f v s :
  Forall (fun c => c <> CR) v ->
  ref_run bnd (goto HEADER_VALUE f) (v ++ CRLF ++ s) =
  rprepend ((AValue <$> v) ++ [AEv onHeaderEnd]) (ref_run bnd (goto HEADER_FIELD_START f) s).
Proof.
  induction 1 as [|c v Hc Hv IH].
  - cbn. by rewrite rprepend_nil.
  - cbn [app ref_run]. unfold ref_byte, ref_value. cbn [r_st goto r_flags].
    rewrite (proj2 (Z.eqb_neq c CR)) by done. rewrite IH, rprepend_rprepend. done.
Qed.

Definition header_atoms (h : bytes * bytes) : list atom :=
  (AField <$> h.1) ++ (AValue <$> h.2) ++ [AEv onHeaderEnd].

Lemma colon_run f k t :
  ref_run bnd (mk_rst HEADER_FIELD f (S k) []) (bs ": " ++ t) =
  ref_run bnd (goto HEADER_VALUE_START f) t.
Proof.
  change (bs ": " ++ t) with (58%Z :: 32%Z :: t). cbn [ref_run].
  unfold ref_byte, ref_field. cbn [r_st r_index r_flags]. cbn -[ref_run].
  by rewrite !rprepend_nil.
Qed.

Lemma header_run f h s :
  header_ok h ->
  ref_run bnd (goto HEADER_FIELD_START f) (print_header h ++ s) =
  rprepend (header_atoms h) (ref_run bnd (goto HEADER_FIELD_START f) s).
Proof.
  destruct h as [n v]. intros (Hne & Hn & Hv & Hsp). unfold print_header, header_atoms.
  cbn [fst snd] in *. destruct n as [|c n]; [done|].
  rewrite <-!app_assoc.
  assert (ref_run bnd (goto HEADER_FIELD_START f) ((c :: n) ++ bs ": " ++ v ++ CRLF ++ s) =
          ref_run bnd (mk_rst HEADER_FIELD f 0 []) ((c :: n) ++ bs ": " ++ v ++ CRLF ++ s)) as ->.
  { by apply ref_run_same. }
  rewrite name_run by done.
  assert (ref_run bnd (mk_rst HEADER_FIELD f (0 + length (c :: n)) []) (bs ": " ++ v ++ CRLF ++ s)
          = ref_run bnd (goto HEADER_VALUE f) (v ++ CRLF ++ s)) as ->.
  { cbn [length Nat.add]. rewrite colon_run. destruct v as [|x v].
    - by apply (ref_run_same bnd (goto HEADER_VALUE_START f) (goto HEADER_VALUE f)).
    - apply (ref_run_same bnd (goto HEADER_VALUE_START f) (goto HEADER_VALUE f)).
      unfold ref_byte. cbn [r_st goto r_flags]. unfold SPACE.
      rewrite (proj2 (Z.eqb_neq x 32)); [done|]. simpl in Hsp. congruence. }
  rewrite value_run by done. by rewrite rprepend_rprepend.
Qed.

Lemma headers_run f hs s :
  Forall header_ok hs ->
  ref_run bnd (goto HEADER_FIELD_START f) (mjoin (print_header <$> hs) ++ CRLF ++ s) =
  rprepend (mjoin (header_atoms <$> hs) ++ [AEv onHeadersEnd])
    (ref_run bnd (goto PART_DATA_START f) s).
Proof.
  induction 1 as [|h hs Hh Hhs IH].
  - cbn. by rewrite rprepend_nil.
  - change (mjoin (print_header <$> h :: hs))
      with (print_header h ++ mjoin (print_header <$> hs)).
    change (mjoin (header_atoms <$> h :: hs))
      with (header_atoms h ++ mjoin (header_atoms <$> hs)).
    rewrite <-app_assoc, header_run by done. rewrite IH, rprepend_rprepend.
    by rewrite app_assoc.
Qed.

Definition part_atoms (q : part) : list atom :=
  mjoin (header_atoms <$> p_headers q) ++ [AEv onHeadersEnd] ++ (AData <$> p_data q).

Lemma part_run f q s :
  part_ok tok q ->
  ref_run bnd (goto HEADER_FIELD_START f) (print_part q ++ CRLF ++ tok ++ s) =
  rprepend (part_atoms q) (ref_run bnd (mk_rst PART_DATA f 0 bnd) s).
Proof.
  intros [Hh Hd]. unfold print_part, part_atoms. rewrite <-!app_assoc, headers_run by done.
  rewrite (app_assoc CRLF tok s), data_start_run by done.
  rewrite rprepend_rprepend, <-!app_assoc. done.
Qed.

(** behind a full match *)
Lemma next_part_run s :
  ref_run bnd (mk_rst PART_DATA 0 0 bnd) (CRLF ++ s) =
  rprepend [AEv onPartEnd; AEv onPartBegin] (ref_run bnd (goto HEADER_FIELD_START 0) s).
Proof.
  cbn [CRLF app ref_run]. unfold ref_byte at 1, ref_data at 1. cbn [r_st r_match r_flags].
  rewrite bool_decide_false, Nat.ltb_irrefl, Nat.eqb_refl by done.
  change (13 =? CR)%Z with true. cbv iota. rewrite rprepend_nil.
  unfold ref_byte, ref_data. cbn [r_st r_match r_flags].
  rewrite bool_decide_false by done. rewrite length_app.
  change (length [13%Z]) with 1.
  rewrite (proj2 (Nat.ltb_ge _ _)), (proj2 (Nat.eqb_neq _ _)) by lia. done.
Qed.

Lemma end_run s : exists r, r_st r = END /\
  ref_run bnd (mk_rst PART_DATA 0 0 bnd) (bs "--" ++ s) = ROk r [AEv onPartEnd; AEv onEnd].
Proof.
  assert (forall r t, r_st r = END -> ref_run bnd r t = ROk r []) as Hend.
  { intros r t Hr. induction t as [|c t IH]; [done|]. cbn [ref_run]. unfold ref_byte.
    rewrite Hr, IH. done. }
  exists (goto END LAST_BOUNDARY). split; [done|]. change (bs "--" ++ s) with (45%Z :: 45%Z :: s).
  cbn [ref_run]. unfold ref_byte at 1, ref_data at 1. cbn [r_st r_match r_flags].
  rewrite bool_decide_false, Nat.ltb_irrefl, Nat.eqb_refl by done.
  change (45 =? CR)%Z with false. change (45 =? HYPHEN)%Z with true. cbv iota.
  rewrite rprepend_nil.
  unfold ref_byte, ref_data. cbn [r_st r_match r_flags].
  rewrite bool_decide_false by done. rewrite length_app. change (length [45%Z]) with 1.
  rewrite (proj2 (Nat.ltb_ge _ _)), (proj2 (Nat.eqb_neq _ _)) by lia.
  change (Z.lor 0 LAST_BOUNDARY) with LAST_BOUNDARY.
  change (Z.land LAST_BOUNDARY PART_BOUNDARY =? 0)%Z with true.
  change (Z.land LAST_BOUNDARY LAST_BOUNDARY =? 0)%Z with false.
  change (45 =? HYPHEN)%Z with true. cbn [negb]. by rewrite Hend.
Qed.

(** the first delimiter, which has no leading CRLF *)
Lemma start_run t s k :
  drop (k + 2) bnd = t -> k + 2 <= length bnd ->
  ref_run bnd (mk_rst START_BOUNDARY 0 k []) (t ++ CRLF ++ s) =
  rprepend [AEv onPartBegin] (ref_run bnd (goto HEADER_FIELD_START 0) s).
Proof.
  revert k; induction t as [|c t IH]; intros k Ht Hk.
  - apply (f_equal length) in Ht. rewrite length_drop in Ht. cbn [length] in Ht.
    change ([] ++ CRLF ++ s) with (CR :: LF :: s). cbn [ref_run].
    unfold ref_byte at 1, ref_start. cbn [r_st r_index r_flags].
    rewrite (proj2 (Nat.eqb_eq (k + 2) _)) by lia. change (CR =? CR)%Z with true. cbv iota.
    rewrite rprepend_nil. unfold ref_byte, ref_start. cbn [r_st r_index r_flags].
    rewrite (proj2 (Nat.eqb_neq (k + 1 + 2) _)), (proj2 (Nat.eqb_eq (k + 1 + 1) _)) by lia. done.
  - cbn [app ref_run]. unfold ref_byte, ref_start. cbn [r_st r_index r_flags].
    assert (bnd !! (k + 2) = Some c) as Hc.
    { replace (k + 2) with (k + 2 + 0) by lia. by rewrite <-lookup_drop, Ht. }
    pose proof (lookup_lt_Some _ _ _ Hc).
    rewrite (proj2 (Nat.eqb_neq _ _)) by lia. rewrite (proj2 (Nat.eqb_neq _ _)) by lia.
    rewrite bool_decide_true by done. rewrite rprepend_nil. apply IH; [|lia].
    replace (k + 1 + 2) with (k + 2 + 1) by lia. by rewrite <-drop_drop, Ht.
Qed.
End printed.

(** ** The reader on printed bodies *)

Fixpoint parts_atoms (parts : list part) : list atom :=
  match parts with
  | [] => []
  | [q] => part_atoms q ++ [AEv onPartEnd; AEv onEnd]
  | q :: parts => part_atoms q ++ [AEv onPartEnd; AEv onPartBegin] ++ parts_atoms parts
  end.

Lemma body_run tok parts epilogue :
  CR ∉ tok -> tok <> [] -> parts <> [] -> Forall (part_ok tok) parts ->
  exists r, r_st r = END /\
  ref_run (CRLF ++ tok) (goto START 0) (print_body tok parts epilogue) =
  ROk r (AEv onPartBegin :: parts_atoms parts).
Proof.
  intros Htok Hne Hps Hok. unfold print_body.
  set (go := fix go parts := match parts with
   | [] => []
   | [q] => print_part q ++ CRLF ++ tok ++ bs "--" ++ epilogue
   | q :: parts => print_part q ++ CRLF ++ tok ++ CRLF ++ go parts
   end).
  assert (exists r, r_st r = END /\
    ref_run (CRLF ++ tok) (goto HEADER_FIELD_START 0) (go parts) = ROk r (parts_atoms parts))
    as (r & Hr & Hrun).
  { induction Hok as [|q parts Hq Hok IH]; [done|]. destruct parts as [|q2 parts].
    - destruct (end_run tok epilogue) as (r & Hr & E). exists r. split; [done|].
      cbn [go]. rewrite part_run by done. by rewrite E.
    - destruct (IH ltac:(done)) as (r & Hr & E). exists r. split; [done|].
      change (go (q :: q2 :: parts)) with (print_part q ++ CRLF ++ tok ++ CRLF ++ go (q2 :: parts)).
      rewrite part_run by done. rewrite next_part_run, E. done. }
  exists r. split; [done|].
  assert (ref_run (CRLF ++ tok) (goto START 0) (tok ++ CRLF ++ go parts) =
          ref_run (CRLF ++ tok) (mk_rst START_BOUNDARY 0 0 []) (tok ++ CRLF ++ go parts)) as ->.
  { destruct tok; [done|]. by apply ref_run_same. }
  rewrite (start_run tok tok _ 0); [|done|simpl; lia]. by rewrite Hrun.
Qed.

(** the reader sees bytes, not the runs they come in *)
Definition event_of (a : atom) : event :=
  match a with
  | AField c => onHeaderField [c]
  | AValue c => onHeaderValue [c]
  | AData c => onPartData [c]
  | AEv e => e
  end.

(** calls of on_part_data taken byte by byte *)
Definition spread_call (c : reader_call) : list reader_call :=
  match c with on_part_data s => (fun x => on_part_data [x]) <$> s | c => [c] end.
Definition spread (cs : list reader_call) : list reader_call := mjoin (spread_call <$> cs).

Lemma reader_run_app r es1 es2 :
  reader_run r (es1 ++ es2) =
  let '(r1, c1) := reader_run r es1 in
  let '(r2, c2) := reader_run r1 es2 in (r2, c1 ++ c2).
Proof.
  revert r; induction es1 as [|e es1 IH]; intros r; simpl; [by destruct (reader_run r es2)|].
  destruct (reader_cb r e) as [r1 c1]. rewrite IH. destruct (reader_run r1 es1) as [r2 c2].
  destruct (reader_run r2 es2) as [r3 c3]. by rewrite app_assoc.
Qed.

Lemma reader_run_seq r es1 es2 r1 c1 r2 c2 :
  reader_run r es1 = (r1, c1) -> reader_run r1 es2 = (r2, c2) ->
  reader_run r (es1 ++ es2) = (r2, c1 ++ c2).
Proof. intros H1 H2. by rewrite reader_run_app, H1, H2. Qed.

Lemma reader_cb_atoms r e :
  (reader_run r (event_of <$> atoms_of e)).1 = (reader_cb r e).1 /\
  (reader_run r (event_of <$> atoms_of e)).2 = spread (reader_cb r e).2.
Proof.
  destruct e as [s|s| | | |s| |]; try done.
  - destruct r as [h n v]. revert n; induction s as [|c s IH]; intros n; simpl.
    + by rewrite app_nil_r.
    + destruct (IH (n ++ [c])) as [IH1 IH2]. csimpl in *. cbn in *.
      destruct (reader_run _ _) as [r1 c1]. simpl in *. subst. by rewrite <-app_assoc.
  - destruct r as [h n v]. revert v; induction s as [|c s IH]; intros v; simpl.
    + by rewrite app_nil_r.
    + destruct (IH (v ++ [c])) as [IH1 IH2]. cbn in *.
      destruct (reader_run _ _) as [r1 c1]. simpl in *. subst. by rewrite <-app_assoc.
  - induction s as [|c s [IH1 IH2]]; [done|]. cbn in *. rewrite app_nil_r in *.
    destruct (reader_run _ _) as [r1 c1]. simpl in *. by rewrite IH1, IH2.
Qed.

Lemma reader_flatten r es :
  (reader_run r (event_of <$> flatten es)).1 = (reader_run r es).1 /\
  (reader_run r (event_of <$> flatten es)).2 = spread (reader_run r es).2.
Proof.
  revert r; induction es as [|e es IH]; intros r; [done|].
  change (flatten (e :: es)) with (atoms_of e ++ flatten es).
  rewrite fmap_app, reader_run_app. destruct (reader_cb_atoms r e) as [H1 H2].
  cbn [reader_run]. destruct (reader_run r (event_of <$> atoms_of e)) as [r1 c1].
  destruct (reader_cb r e) as [r1' c1']. simpl in H1, H2. subst.
  destruct (IH r1') as [IH1 IH2].
  destruct (reader_run r1' (event_of <$> flatten es)) as [r2 c2].
  destruct (reader_run r1' es) as [r2' c2']. simpl in *. subst.
  split; [done|]. unfold spread. by rewrite fmap_app, join_app.
Qed.

(** the hooks a part calls *)
Definition part_calls (q : part) : list reader_call :=
  on_part_begin (fold_left (fun hs h => emplace h.1 h.2 hs) (p_headers q) []) ::
  ((fun x => on_part_data [x]) <$> p_data q) ++ [on_part_end].

Lemma reader_fields hs n v s :
  reader_run (mk_reader hs n v) (event_of <$> (AField <$> s)) = (mk_reader hs (n ++ s) v, []).
Proof.
  revert n; induction s as [|c s IH]; intros n; [by rewrite app_nil_r|].
  cbn [fmap list_fmap reader_run reader_cb event_of]. cbn. 
  change (list_fmap _ _ event_of (list_fmap _ _ AField s)) with (event_of <$> (AField <$> s)).
  rewrite IH. by rewrite <-app_assoc.
Qed.

Lemma reader_values hs n v s :
  reader_run (mk_reader hs n v) (event_of <$> (AValue <$> s)) = (mk_reader hs n (v ++ s), []).
Proof.
  revert v; induction s as [|c s IH]; intros v; [by rewrite app_nil_r|].
  cbn [fmap list_fmap reader_run reader_cb event_of]. cbn. 
  change (list_fmap _ _ event_of (list_fmap _ _ AValue s)) with (event_of <$> (AValue <$> s)).
  rewrite IH. by rewrite <-app_assoc.
Qed.

Lemma reader_data r s :
  reader_run r (event_of <$> (AData <$> s)) = (r, (fun x => on_part_data [x]) <$> s).
Proof.
  induction s as [|c s IH]; [done|].
  change (event_of <$> (AData <$> c :: s)) with (onPartData [c] :: (event_of <$> (AData <$> s))).
  cbn [reader_run reader_cb]. by rewrite IH.
Qed.

Lemma reader_headers hs0 hs :
  reader_run (mk_reader hs0 [] []) (event_of <$> mjoin (header_atoms <$> hs)) =
  (mk_reader (fold_left (fun hs h => emplace h.1 h.2 hs) hs hs0) [] [], []).
Proof.
  revert hs0; induction hs as [|[n v] hs IH]; intros hs0; [done|].
  change (mjoin (header_atoms <$> (n, v) :: hs))
    with (header_atoms (n, v) ++ mjoin (header_atoms <$> hs)).
  unfold header_atoms at 1. rewrite !fmap_app, <-!app_assoc.
  apply (reader_run_seq _ _ _ _ [] _ []  (reader_fields _ _ _ _)).
  apply (reader_run_seq _ _ _ _ [] _ [] (reader_values _ _ _ _)).
  apply (reader_run_seq _ _ _ (mk_reader (emplace n v hs0) [] []) [] _ []); [done|]. apply IH.
Qed.

Lemma reader_part q :
  reader_run reader0 (event_of <$> (part_atoms q ++ [AEv onPartEnd])) = (reader0, part_calls q).
Proof.
  unfold part_atoms. rewrite !fmap_app, <-!app_assoc.
  apply (reader_run_seq _ _ _ _ [] _ _ (reader_headers _ _)).
  apply (reader_run_seq _ _ _ reader0 [on_part_begin
    (fold_left (fun hs h => emplace h.1 h.2 hs) (p_headers q) [])]); [done|].
  by apply (reader_run_seq _ _ _ _ _ _ _ (reader_data _ _)).
Qed.

Lemma reader_parts parts :
  parts <> [] ->
  reader_run reader0 (event_of <$> parts_atoms parts) =
  (reader0, mjoin (part_calls <$> parts) ++ [on_end]).
Proof.
  induction parts as [|q parts IH]; intros Hne; [done|]. destruct parts as [|q2 parts].
  - cbn [parts_atoms]. rewrite cons_middle, app_assoc, fmap_app, reader_run_app, reader_part.
    cbn. by rewrite app_nil_r.
  - change (parts_atoms (q :: q2 :: parts)) with
      (part_atoms q ++ AEv onPartEnd :: AEv onPartBegin :: parts_atoms (q2 :: parts)).
    rewrite cons_middle, app_assoc, fmap_app, reader_run_app, reader_part.
    change (event_of <$> AEv onPartBegin :: parts_atoms (q2 :: parts))
      with (onPartBegin :: (event_of <$> parts_atoms (q2 :: parts))).
    cbn [reader_run reader_cb]. rewrite IH by done.
    change (mjoin (part_calls <$> q :: q2 :: parts))
      with (part_calls q ++ mjoin (part_calls <$> q2 :: parts)).
    by rewrite <-app_assoc.
Qed.

Lemma printed_body_read tok parts epilogue fresh bufs :
  CR ∉ tok -> tok <> [] -> Forall is_byte tok -> (Z.of_nat (length tok) < 2 ^ 61)%Z ->
  parts <> [] -> Forall (part_ok tok) parts ->
  Forall buffer_ok bufs -> mjoin bufs = print_body tok parts epilogue ->
  exists p es, feed_all (set_boundary (CRLF ++ tok) fresh) bufs = Some (p, es) /\
    succeeded p = true /\
    spread (reader_run reader0 es).2 = mjoin (part_calls <$> parts) ++ [on_end].
Proof.
  intros Htok Hne Hby Hlen Hps Hok Hb Hbufs.
  destruct (body_run tok parts epilogue Htok Hne Hps Hok) as (r & Hr & Hrun).
  assert (Forall is_byte (CRLF ++ tok)) as Hby'.
  { apply Forall_app. split; [by apply byte_list_check|done]. }
  pose proof (feed_all_ok bufs _ _ (set_boundary_at (CRLF ++ tok) fresh Hby' ltac:(simpl; lia)
    ltac:(rewrite length_app; simpl; lia)) Hb) as H.
  change (boundary (set_boundary _ _)) with (CRLF ++ tok) in H. rewrite Hbufs, Hrun in H.
  destruct H as (p & es & -> & Hf & Hp). exists p, es. split_and!; [done| |].
  - destruct Hp as (_ & _ & Hst & _). unfold succeeded. apply bool_decide_eq_true. congruence.
  - rewrite <-(proj2 (reader_flatten _ _)), Hf.
    change (event_of <$> AEv onPartBegin :: parts_atoms parts)
      with (onPartBegin :: (event_of <$> parts_atoms parts)).
    cbn [reader_run reader_cb]. by rewrite reader_parts.
Qed.

(** C23. Reading back a printed multipart body, whatever buffers it arrives in:
    the parser ends in the success state, and the reader's hooks are called,
    part by part, with the multimap of the part's headers, then the bytes of
    its data, then the end of the part, and at last the end of the body. *)
Theorem multipart_print_read tok parts epilogue fresh bufs :
  CR ∉ tok -> tok <> [] -> Forall is_byte tok -> (Z.of_nat (length tok) < 2 ^ 61)%Z ->
  parts <> [] -> Forall (part_ok tok) parts ->
  Forall buffer_ok bufs -> mjoin bufs = print_body tok parts epilogue ->
  exists p es, feed_all (set_boundary (CRLF ++ tok) fresh) bufs = Some (p, es) /\
    succeeded p = true /\
    spread (reader_run reader0 es).2 = mjoin (part_calls <$> parts) ++ [on_end].
Proof. apply printed_body_read. Qed.

(** [occurs] is decided by searching *)
Fixpoint occurs_b (b s : bytes) : bool :=
  is_prefix b s || match s with [] => false | _ :: s => occurs_b b s end.

Lemma occurs_b_complete b s : occurs b s -> occurs_b b s = true.
Proof.
  intros (x & y & ->). induction x as [|c x IH]; simpl.
  - assert (is_prefix b (b ++ y) = true) as Hp by (apply is_prefix_spec; by exists y).
    destruct (b ++ y); cbn [occurs_b]; by rewrite Hp.
  - rewrite IH. apply orb_true_r.
Qed.

Lemma multipart_print_read_witness :
  exists p es, feed_all (set_boundary (CRLF ++ bs "--XY") [])
    [bs "--XY" ++ CRLF ++ bs "A: 1" ++ CRLF ++ CRLF ++ bs "hi" ++ CRLF; bs "--XY--"] = Some (p, es) /\
    succeeded p = true /\
    spread (reader_run reader0 es).2 =
      [on_part_begin [(bs "A", bs "1")]; on_part_data [104%Z]; on_part_data [105%Z]; on_part_end; on_end].
Proof.
  apply (multipart_print_read (bs "--XY") [mk_part [(bs "A", bs "1")] (bs "hi")] []).
  - apply (bool_decide_unpack _). vm_compute. exact I.
  - discriminate.
  - by apply byte_list_check.
  - reflexivity.
  - discriminate.
  - constructor; [|constructor]. split.
    + apply (bool_decide_unpack _). vm_compute. exact I.
    + intros H. apply occurs_b_complete in H. vm_compute in H. discriminate.
  - repeat (constructor; [split; [by apply byte_list_check|by vm_compute]|]). constructor.
  - reflexivity.
Defined.
