(* ===== verification/Sha1.v ===== *)
(** * SHA-1

    src/include/netcore/sha1.hpp: the block transform with its rotating
    registers and its 16-word circular schedule, the streaming context, and the
    padding.  The transform is proved equal to the compression function of
    FIPS 180 with its 80-word schedule, and init/update/finish to the hash of
    the padded message, whatever pieces the message is updated with.  32-bit
    words are integers in [0, 2^32) with the wrap-around written out. *)

From Stdlib Require Import ZArith Lia Btauto.
From stdpp Require Import base numbers list strings.
From S2P Require Import Prelude.

Definition BLOCK_INTS : nat := 16.
Definition BLOCK_BYTES : nat := 64.
Definition DIGEST_BYTES : nat := 20.

Definition rol (value : Z) (bits : Z) : Z :=
  Z.lor (wrap32 (Z.shiftl value bits)) (Z.shiftr value (32 - bits)).

Definition at_ (block : list Z) (i : nat) : Z := nth i block 0%Z.

Definition blk (block : list Z) (i : nat) : Z :=
  rol (Z.lxor (Z.lxor (Z.lxor (at_ block (Nat.land (i + 13) 15)) (at_ block (Nat.land (i + 8) 15)))
         (at_ block (Nat.land (i + 2) 15))) (at_ block i)) 1.

(** ** Rounds: the new block, w and z *)

Definition round_z (z f bi k v : Z) : Z :=
  wrap32 (z + wrap32 (wrap32 (wrap32 (f + bi) + k) + rol v 5)).

Definition R0 (block : list Z) (v w x y z : Z) (i : nat) : list Z * Z * Z :=
  (block, rol w 30,
   round_z z (Z.lxor (Z.land w (Z.lxor x y)) y) (at_ block i) 0x5a827999 v).

Definition R1 (block : list Z) (v w x y z : Z) (i : nat) : list Z * Z * Z :=
  let block := <[i := blk block i]> block in
  (block, rol w 30,
   round_z z (Z.lxor (Z.land w (Z.lxor x y)) y) (at_ block i) 0x5a827999 v).

Definition R2 (block : list Z) (v w x y z : Z) (i : nat) : list Z * Z * Z :=
  let block := <[i := blk block i]> block in
  (block, rol w 30, round_z z (Z.lxor (Z.lxor w x) y) (at_ block i) 0x6ed9eba1 v).

Definition R3 (block : list Z) (v w x y z : Z) (i : nat) : list Z * Z * Z :=
  let block := <[i := blk block i]> block in
  (block, rol w 30,
   round_z z (Z.lor (Z.land (Z.lor w x) y) (Z.land w x)) (at_ block i) 0x8f1bbcdc v).

Definition R4 (block : list Z) (v w x y z : Z) (i : nat) : list Z * Z * Z :=
  let block := <[i := blk block i]> block in
  (block, rol w 30, round_z z (Z.lxor (Z.lxor w x) y) (at_ block i) 0xca62c1d6 v).

(** the local variables a ... e of transform, and the arguments of a call *)
Inductive reg := ra | rb | rc | rd | re.

Definition reg_no (r : reg) : nat :=
  match r with ra => 0 | rb => 1 | rc => 2 | rd => 3 | re => 4 end.

Definition round_fun : Type := list Z -> Z -> Z -> Z -> Z -> Z -> nat -> list Z * Z * Z.

Definition round_call : Type := round_fun * reg * reg * reg * reg * reg * nat.

(** p[4 * i + 3] | p[4 * i + 2] << 8 | ... *)
Definition make_block (p : bytes) : list Z :=
  (fun i => Z.lor (Z.lor (Z.lor (at_ p (4 * i + 3)) (Z.shiftl (at_ p (4 * i + 2)) 8))
              (Z.shiftl (at_ p (4 * i + 1)) 16)) (Z.shiftl (at_ p (4 * i)) 24)) <$> seq 0 BLOCK_INTS.

(** the eighty calls, as the source lists them *)
Definition transform_calls : list round_call :=
  [(R0, ra, rb, rc, rd, re, 0); (R0, re, ra, rb, rc, rd, 1); (R0, rd, re, ra, rb, rc, 2); (R0, rc, rd, re, ra, rb, 3);
   (R0, rb, rc, rd, re, ra, 4); (R0, ra, rb, rc, rd, re, 5); (R0, re, ra, rb, rc, rd, 6); (R0, rd, re, ra, rb, rc, 7);
   (R0, rc, rd, re, ra, rb, 8); (R0, rb, rc, rd, re, ra, 9); (R0, ra, rb, rc, rd, re, 10); (R0, re, ra, rb, rc, rd, 11);
   (R0, rd, re, ra, rb, rc, 12); (R0, rc, rd, re, ra, rb, 13); (R0, rb, rc, rd, re, ra, 14); (R0, ra, rb, rc, rd, re, 15);
   (R1, re, ra, rb, rc, rd, 0); (R1, rd, re, ra, rb, rc, 1); (R1, rc, rd, re, ra, rb, 2); (R1, rb, rc, rd, re, ra, 3);
   (R2, ra, rb, rc, rd, re, 4); (R2, re, ra, rb, rc, rd, 5); (R2, rd, re, ra, rb, rc, 6); (R2, rc, rd, re, ra, rb, 7);
   (R2, rb, rc, rd, re, ra, 8); (R2, ra, rb, rc, rd, re, 9); (R2, re, ra, rb, rc, rd, 10); (R2, rd, re, ra, rb, rc, 11);
   (R2, rc, rd, re, ra, rb, 12); (R2, rb, rc, rd, re, ra, 13); (R2, ra, rb, rc, rd, re, 14); (R2, re, ra, rb, rc, rd, 15);
   (R2, rd, re, ra, rb, rc, 0); (R2, rc, rd, re, ra, rb, 1); (R2, rb, rc, rd, re, ra, 2); (R2, ra, rb, rc, rd, re, 3);
   (R2, re, ra, rb, rc, rd, 4); (R2, rd, re, ra, rb, rc, 5); (R2, rc, rd, re, ra, rb, 6); (R2, rb, rc, rd, re, ra, 7);
   (R3, ra, rb, rc, rd, re, 8); (R3, re, ra, rb, rc, rd, 9); (R3, rd, re, ra, rb, rc, 10); (R3, rc, rd, re, ra, rb, 11);
   (R3, rb, rc, rd, re, ra, 12); (R3, ra, rb, rc, rd, re, 13); (R3, re, ra, rb, rc, rd, 14); (R3, rd, re, ra, rb, rc, 15);
   (R3, rc, rd, re, ra, rb, 0); (R3, rb, rc, rd, re, ra, 1); (R3, ra, rb, rc, rd, re, 2); (R3, re, ra, rb, rc, rd, 3);
   (R3, rd, re, ra, rb, rc, 4); (R3, rc, rd, re, ra, rb, 5); (R3, rb, rc, rd, re, ra, 6); (R3, ra, rb, rc, rd, re, 7);
   (R3, re, ra, rb, rc, rd, 8); (R3, rd, re, ra, rb, rc, 9); (R3, rc, rd, re, ra, rb, 10); (R3, rb, rc, rd, re, ra, 11);
   (R4, ra, rb, rc, rd, re, 12); (R4, re, ra, rb, rc, rd, 13); (R4, rd, re, ra, rb, rc, 14); (R4, rc, rd, re, ra, rb, 15);
   (R4, rb, rc, rd, re, ra, 0); (R4, ra, rb, rc, rd, re, 1); (R4, re, ra, rb, rc, rd, 2); (R4, rd, re, ra, rb, rc, 3);
   (R4, rc, rd, re, ra, rb, 4); (R4, rb, rc, rd, re, ra, 5); (R4, ra, rb, rc, rd, re, 6); (R4, re, ra, rb, rc, rd, 7);
   (R4, rd, re, ra, rb, rc, 8); (R4, rc, rd, re, ra, rb, 9); (R4, rb, rc, rd, re, ra, 10); (R4, ra, rb, rc, rd, re, 11);
   (R4, re, ra, rb, rc, rd, 12); (R4, rd, re, ra, rb, rc, 13); (R4, rc, rd, re, ra, rb, 14); (R4, rb, rc, rd, re, ra, 15)].

(** one call: w and z are passed by reference *)
Definition do_call (st : list Z * list Z) (c : round_call) : list Z * list Z :=
  let '(block, regs) := st in
  let '(R, v, w, x, y, z, i) := c in
  let '(block', w', z') :=
    R block (at_ regs (reg_no v)) (at_ regs (reg_no w)) (at_ regs (reg_no x))
      (at_ regs (reg_no y)) (at_ regs (reg_no z)) i in
  (block', <[reg_no z := z']> (<[reg_no w := w']> regs)).

Definition transform (digest block : list Z) : list Z :=
  let '(_, regs) := fold_left do_call transform_calls (block, digest) in
  zip_with (fun d r => wrap32 (d + r)) digest regs.

(** ** The streaming context *)

Record sha1_context := mk_ctx {
  buflen : nat;
  blocks : Z;
  digest : list Z;
  buf : bytes
}.

(** [buf] is not initialised by init *)
Definition init (garbage : bytes) : sha1_context :=
  mk_ctx 0 0 [0x67452301; 0xefcdab89; 0x98badcfe; 0x10325476; 0xc3d2e1f0]%Z garbage.

(** memcpy(ctx.buf + ctx.buflen, p, n) *)
Definition copy_into (b : bytes) (off : nat) (s : bytes) : bytes :=
  take off b ++ s ++ drop (off + length s) b.

Fixpoint update_loop (fuel : nat) (ctx : sha1_context) (p : bytes) : option sha1_context :=
  match fuel with
  | O => None
  | S fuel =>
      let n := Nat.min (length p) (64 - buflen ctx) in
      let b := copy_into (buf ctx) (buflen ctx) (take n p) in
      let bl := buflen ctx + n in
      if negb (bl =? 64)%nat then Some (mk_ctx bl (blocks ctx) (digest ctx) b)
      else
        update_loop fuel
          (mk_ctx 0 (wrap64 (blocks ctx + 1)) (transform (digest ctx) (make_block b)) b) (drop n p)
  end.

Definition update (ctx : sha1_context) (message : bytes) : option sha1_context :=
  update_loop (S (length message)) ctx message.

(** d[0] = digest >> 24 & 0xff, ... *)
Definition digest_bytes (d : Z) : bytes :=
  [Z.land (Z.shiftr d 24) 255; Z.land (Z.shiftr d 16) 255; Z.land (Z.shiftr d 8) 255; Z.land d 255].

Definition finish (ctx : sha1_context) : bytes :=
  let total_bits := wrap64 (wrap64 (wrap64 (blocks ctx * 64) + Z.of_nat (buflen ctx)) * 8) in
  let b := <[buflen ctx := 0x80%Z]> (buf ctx) in
  let bl := buflen ctx + 1 in
  let b := copy_into b bl (replicate (64 - bl) 0%Z) in
  let block := make_block b in
  let '(d, block) :=
    if (BLOCK_BYTES - 8 <? bl)%nat
    then (transform (digest ctx) block, replicate (BLOCK_INTS - 2) 0%Z ++ drop (BLOCK_INTS - 2) block)
    else (digest ctx, block) in
  let block := <[BLOCK_INTS - 1 := Z.land total_bits 0xffffffff]> block in
  let block := <[BLOCK_INTS - 2 := Z.shiftr total_bits 32]> block in
  let d := transform d block in
  mjoin (digest_bytes <$> d).

(** websocket::SHA1 *)
Definition SHA1 (garbage key_src : bytes) : option bytes :=
  finish <$> update (init garbage) key_src.

(** ** FIPS 180: the compression function *)

Definition ROTL (n x : Z) : Z :=
  Z.lor (Z.land (Z.shiftl x n) 0xffffffff) (Z.shiftr x (32 - n)).

Definition Ch (x y z : Z) : Z := Z.lxor (Z.land x y) (Z.land (Z.lnot x) z).
Definition Parity (x y z : Z) : Z := Z.lxor (Z.lxor x y) z.
Definition Maj (x y z : Z) : Z := Z.lxor (Z.lxor (Z.land x y) (Z.land x z)) (Z.land y z).

Definition f_t (t : nat) : Z -> Z -> Z -> Z :=
  if (t <? 20)%nat then Ch else if (t <? 40)%nat then Parity
  else if (t <? 60)%nat then Maj else Parity.

Definition K_t (t : nat) : Z :=
  if (t <? 20)%nat then 0x5a827999 else if (t <? 40)%nat then 0x6ed9eba1
  else if (t <? 60)%nat then 0x8f1bbcdc else 0xca62c1d6.

(** the message schedule: sixteen words, then each from the sixteen before it *)
Fixpoint schedule (n : nat) (w : list Z) : list Z :=
  match n with
  | O => w
  | S n =>
      let t := length w in
      schedule n (w ++ [ROTL 1 (Z.lxor (Z.lxor (Z.lxor (at_ w (t - 3)) (at_ w (t - 8)))
                                  (at_ w (t - 14))) (at_ w (t - 16)))])
  end.

Definition fips_round (w : list Z) (s : Z * Z * Z * Z * Z) (t : nat) : Z * Z * Z * Z * Z :=
  let '(a, b, c, d, e) := s in
  (((ROTL 5 a + f_t t b c d + e + K_t t + at_ w t) mod 2 ^ 32)%Z, a, ROTL 30 b, c, d).

Definition compress (h block : list Z) : list Z :=
  let w := schedule 64 block in
  let '(a, b, c, d, e) :=
    fold_left (fips_round w) (seq 0 80) (at_ h 0, at_ h 1, at_ h 2, at_ h 3, at_ h 4) in
  zip_with (fun x y => (x + y) mod 2 ^ 32)%Z h [a; b; c; d; e].

(** ** The transform is the compression function *)

Lemma wrap32_land x : wrap32 x = Z.land x 0xffffffff.
Proof. change 0xffffffff%Z with (Z.ones 32). by rewrite Z.land_ones. Qed.

Lemma rol_ROTL x n : rol x n = ROTL n x.
Proof. unfold rol, ROTL. by rewrite wrap32_land. Qed.

Lemma ch_code w x y : Z.lxor (Z.land w (Z.lxor x y)) y = Ch w x y.
Proof.
  unfold Ch. apply Z.bits_inj'. intros n Hn.
  rewrite !Z.lxor_spec, !Z.land_spec, Z.lnot_spec, !Z.lxor_spec by done.
  destruct (Z.testbit w n), (Z.testbit x n), (Z.testbit y n); done.
Qed.

Lemma maj_code w x y : Z.lor (Z.land (Z.lor w x) y) (Z.land w x) = Maj w x y.
Proof.
  unfold Maj. apply Z.bits_inj'. intros n Hn.
  rewrite Z.lor_spec, !Z.lxor_spec, !Z.land_spec, Z.lor_spec.
  destruct (Z.testbit w n), (Z.testbit x n), (Z.testbit y n); done.
Qed.

Lemma round_z_sum z f bi k v :
  round_z z f bi k v = ((ROTL 5 v + f + z + k + bi) mod 2 ^ 32)%Z.
Proof.
  unfold round_z, wrap32. rewrite rol_ROTL.
  set (n := (2 ^ 32)%Z). rewrite Zplus_mod_idemp_r.
  rewrite (Z.add_comm _ (ROTL 5 v)), Z.add_assoc, Zplus_mod_idemp_r.
  rewrite (Z.add_comm _ k), (Z.add_assoc _ k), Zplus_mod_idemp_r. f_equal. lia.
Qed.

(** the calls, numbered *)
Definition reg_of (n : nat) : reg :=
  match n with 0 => ra | 1 => rb | 2 => rc | 3 => rd | _ => re end.

Definition kind_at (t : nat) : round_fun :=
  if (t <? 16)%nat then R0 else if (t <? 20)%nat then R1 else if (t <? 40)%nat then R2
  else if (t <? 60)%nat then R3 else R4.

Definition call_at (t : nat) : round_call :=
  let r k := reg_of ((4 * t + k) mod 5) in
  (kind_at t, r 0, r 1, r 2, r 3, r 4, t mod 16).

Lemma calls_numbered : transform_calls = call_at <$> seq 0 80.
Proof. reflexivity. Qed.

(** a call of round [t], uniformly *)
Definition block_after (t : nat) (block : list Z) : list Z :=
  if (t <? 16)%nat then block else <[t mod 16 := blk block (t mod 16)]> block.

Lemma kind_at_spec t block v w x y z :
  kind_at t block v w x y z (t mod 16) =
  (block_after t block, ROTL 30 w,
   ((ROTL 5 v + f_t t w x y + z + K_t t + at_ (block_after t block) (t mod 16)) mod 2 ^ 32)%Z).
Proof.
  unfold kind_at, block_after, f_t, K_t.
  destruct (t <? 16)%nat eqn:E1; [|destruct (t <? 20)%nat eqn:E2;
    [|destruct (t <? 40)%nat eqn:E3; [|destruct (t <? 60)%nat eqn:E4]]]; zbool.
  - rewrite (proj2 (Nat.ltb_lt t 20)) by lia. unfold R0.
    by rewrite rol_ROTL, round_z_sum, ch_code.
  - unfold R1. by rewrite rol_ROTL, round_z_sum, ch_code.
  - unfold R2. by rewrite rol_ROTL, round_z_sum.
  - unfold R3. by rewrite rol_ROTL, round_z_sum, maj_code.
  - unfold R4. by rewrite rol_ROTL, round_z_sum.
Qed.

Lemma land_15 i : Nat.land i 15 = i mod 16.
Proof. change 15 with (Nat.ones 4). by rewrite Nat.land_ones. Qed.

Lemma at_insert_eq (l : list Z) i x : i < length l -> at_ (<[i := x]> l) i = x.
Proof.
  intros H. unfold at_. apply nth_lookup_Some. by apply list_lookup_insert_eq.
Qed.

Lemma at_insert_ne (l : list Z) i j x : i <> j -> at_ (<[i := x]> l) j = at_ l j.
Proof. intros H. unfold at_. rewrite !nth_lookup. by rewrite list_lookup_insert_ne. Qed.

(** the schedule extends its argument by one word at a time *)
Lemma schedule_prefix n w j : j < length w -> at_ (schedule n w) j = at_ w j.
Proof.
  revert w; induction n as [|n IH]; intros w Hj; [done|]. cbn [schedule].
  rewrite IH by (rewrite length_app; simpl; lia). unfold at_. by apply app_nth1.
Qed.

Lemma schedule_word n w t :
  16 <= length w <= t -> t < length w + n ->
  let s := schedule n w in
  at_ s t = ROTL 1 (Z.lxor (Z.lxor (Z.lxor (at_ s (t - 3)) (at_ s (t - 8))) (at_ s (t - 14)))
                      (at_ s (t - 16))).
Proof.
  revert w; induction n as [|n IH]; intros w Hw Ht; [lia|]. cbn [schedule]. cbv zeta.
  set (x := ROTL 1 _). destruct (decide (t = length w)) as [->|Hne].
  - rewrite !schedule_prefix by (rewrite length_app; simpl; lia).
    assert (forall j, j < length w -> at_ (w ++ [x]) j = at_ w j) as Hpre.
    { intros j Hj. unfold at_. by apply app_nth1. }
    rewrite (Hpre (length w - 3)), (Hpre (length w - 8)), (Hpre (length w - 14)),
      (Hpre (length w - 16)) by lia. unfold at_ at 1. rewrite app_nth2, Nat.sub_diag by lia. done.
  - apply IH; rewrite length_app; simpl; lia.
Qed.

(** the circular block holds the last sixteen words of the schedule *)
Definition block_view (t : nat) (block w : list Z) : Prop :=
  length block = 16 /\
  forall j, j < Nat.max t 16 -> Nat.max t 16 <= j + 16 -> at_ block (j mod 16) = at_ w j.

Lemma block_view_step t block b0 :
  length b0 = 16 -> t < 80 -> block_view t block (schedule 64 b0) ->
  block_view (S t) (block_after t block) (schedule 64 b0) /\
  at_ (block_after t block) (t mod 16) = at_ (schedule 64 b0) t.
Proof.
  intros Hb0 Ht [Hlen Hv]. unfold block_after. destruct (t <? 16)%nat eqn:E; zbool.
  - split; [|apply Hv; lia]. split; [done|]. intros j H1 H2. apply Hv; lia.
  - assert (blk block (t mod 16) = at_ (schedule 64 b0) t) as Hblk.
    { rewrite (schedule_word 64 b0 t) by lia. unfold blk. rewrite rol_ROTL, !land_15.
      rewrite !Nat.Div0.add_mod_idemp_l.
      replace ((t + 13) mod 16) with ((t - 3) mod 16)
        by (rewrite <-(Nat.Div0.mod_add (t - 3) 1 16); f_equal; lia).
      replace ((t + 8) mod 16) with ((t - 8) mod 16)
        by (rewrite <-(Nat.Div0.mod_add (t - 8) 1 16); f_equal; lia).
      replace ((t + 2) mod 16) with ((t - 14) mod 16)
        by (rewrite <-(Nat.Div0.mod_add (t - 14) 1 16); f_equal; lia).
      replace (t mod 16) with ((t - 16) mod 16)
        by (rewrite <-(Nat.Div0.mod_add (t - 16) 1 16); f_equal; lia).
      by rewrite !Hv by lia. }
    assert (t mod 16 < 16) as Hm by (apply Nat.mod_upper_bound; lia).
    split; [|rewrite at_insert_eq by lia; done].
    split; [by rewrite length_insert|]. intros j H1 H2. rewrite Nat.max_l in * by lia.
    destruct (decide (j = t)) as [->|Hne]; [by rewrite at_insert_eq by lia|].
    rewrite at_insert_ne; [apply Hv; lia|]. intros Heq.
    assert (j = t \/ t = j + 16 \/ t < j + 16) as Hj by lia.
    pose proof (Nat.div_mod_eq t 16). pose proof (Nat.div_mod_eq j 16). lia.
Qed.

(** register [k] of FIPS sits in local variable number (4t + k) mod 5 *)
Definition regs_view (t : nat) (regs : list Z) (s : Z * Z * Z * Z * Z) : Prop :=
  length regs = 5 /\
  let '(a, b, c, d, e) := s in
  forall k, k < 5 -> at_ regs ((4 * t + k) mod 5) = nth k [a; b; c; d; e] 0%Z.

Lemma reg_no_of n : n < 5 -> reg_no (reg_of n) = n.
Proof. intros H. by do 5 (destruct n as [|n]; [done|]); lia. Qed.

Lemma regs_view_step t regs a b c d e z' w' :
  regs_view t regs (a, b, c, d, e) ->
  regs_view (S t) (<[(4 * t + 4) mod 5 := z']> (<[(4 * t + 1) mod 5 := w']> regs)) (z', a, w', c, d).
Proof.
  intros [Hlen Hv]. split; [by rewrite !length_insert|]. intros k Hk.
  assert (forall k, (4 * t + k) mod 5 = ((4 * t) mod 5 + k) mod 5) as Hq
    by (intros k'; by rewrite Nat.Div0.add_mod_idemp_l).
  replace ((4 * S t + k) mod 5) with (((4 * t) mod 5 + (k + 4)) mod 5)
    by (rewrite <-Hq; f_equal; lia).
  rewrite !Hq. pose proof (Hv 0 ltac:(lia)) as V0. pose proof (Hv 1 ltac:(lia)) as V1.
  pose proof (Hv 2 ltac:(lia)) as V2. pose proof (Hv 3 ltac:(lia)) as V3. clear Hv.
  rewrite Hq in V0, V1, V2, V3. pose proof (Nat.mod_upper_bound (4 * t) 5 ltac:(lia)) as Hr.
  clear Hq. set (q := (4 * t) mod 5) in *. clearbody q.
  destruct regs as [|r0 [|r1 [|r2 [|r3 [|r4 [|]]]]]]; try done. clear Hlen.
  do 5 (destruct q as [|q]; [do 5 (destruct k as [|k]; [by cbn in *|]); lia|]). lia.
Qed.

Lemma rounds_ok n : forall t block regs s b0,
  length b0 = 16 -> t + n <= 80 ->
  block_view t block (schedule 64 b0) -> regs_view t regs s ->
  regs_view (t + n) (fold_left do_call (call_at <$> seq t n) (block, regs)).2
    (fold_left (fips_round (schedule 64 b0)) (seq t n) s).
Proof.
  induction n as [|n IH]; intros t block regs s b0 Hb0 Hn Hbv Hrv.
  - simpl. by rewrite Nat.add_0_r.
  - cbn [seq fmap list_fmap fold_left]. destruct s as [[[[a b] c] d] e].
    destruct (block_view_step t block b0 Hb0 ltac:(lia) Hbv) as [Hbv' Hw].
    pose proof Hrv as [Hlen Hv].
    unfold do_call at 2, call_at at 2. rewrite !reg_no_of by (apply Nat.mod_upper_bound; lia).
    rewrite kind_at_spec, Hw.
    rewrite (Hv 0), (Hv 1), (Hv 2), (Hv 3), (Hv 4) by lia. cbn [nth].
    rewrite Nat.add_succ_r. apply (IH (S t)); [done|lia|done|].
    unfold fips_round. by eapply regs_view_step.
Qed.

Lemma transform_compress h block :
  length h = 5 -> length block = 16 -> transform h block = compress h block.
Proof.
  intros Hh Hb. unfold transform, compress. rewrite calls_numbered.
  pose proof (rounds_ok 80 0 block h (at_ h 0, at_ h 1, at_ h 2, at_ h 3, at_ h 4) block Hb
    ltac:(lia)) as H.
  destruct (fold_left (fips_round _) _ _) as [[[[a b] c] d] e].
  destruct (fold_left do_call _ _) as [bl regs]. cbn [snd] in H.
  destruct H as [Hlen Hv].
  { split; [done|]. intros j H1 H2. rewrite schedule_prefix by lia.
    by rewrite Nat.mod_small by lia. }
  { split; [done|]. intros k Hk. do 5 (destruct k as [|k]; [done|]). lia. }
  destruct regs as [|r0 [|r1 [|r2 [|r3 [|r4 [|]]]]]]; try done.
  pose proof (Hv 0 ltac:(lia)). pose proof (Hv 1 ltac:(lia)). pose proof (Hv 2 ltac:(lia)).
  pose proof (Hv 3 ltac:(lia)). pose proof (Hv 4 ltac:(lia)). cbn in *. by subst.
Qed.

Lemma compress_length h block : length h = 5 -> length (compress h block) = 5.
Proof.
  intros Hh. unfold compress. destruct (fold_left _ _ _) as [[[[a b] c] d] e].
  by rewrite length_zip_with, Hh.
Qed.

(** from here on the rounds are used through these lemmas only *)
#[local] Opaque transform compress.

(** ** The hash of a message *)

(** the 64-byte blocks of a message whose length is a multiple of 64 *)
Definition block_at (m : bytes) (k : nat) : bytes := slice m (64 * k) 64.

Definition H0 : list Z := [0x67452301; 0xefcdab89; 0x98badcfe; 0x10325476; 0xc3d2e1f0]%Z.

(** big-endian words *)
Definition be_word (b : bytes) (i : nat) : Z :=
  (at_ b (4 * i) * 2 ^ 24 + at_ b (4 * i + 1) * 2 ^ 16 + at_ b (4 * i + 2) * 2 ^ 8 +
   at_ b (4 * i + 3))%Z.
Definition be_bytes (n : nat) (x : Z) : bytes :=
  (fun i => (x / 256 ^ Z.of_nat (n - 1 - i)) mod 256)%Z <$> seq 0 n.

Definition absorb (m : bytes) : list Z :=
  fold_left (fun h k => compress h (be_word (block_at m k) <$> seq 0 16))
    (seq 0 (length m / 64)) H0.

(** 0x80, zeros up to 8 bytes before a block's end, and the length in bits *)
Definition pad (m : bytes) : bytes :=
  m ++ [0x80%Z] ++ replicate ((64 - (length m + 9) mod 64) mod 64) 0%Z ++
  be_bytes 8 (8 * Z.of_nat (length m)).

Definition sha1 (m : bytes) : bytes := mjoin (be_bytes 4 <$> absorb (pad m)).

Lemma lor_shiftl a b k :
  (0 <= k)%Z -> (0 <= a < 2 ^ k)%Z -> Z.lor a (Z.shiftl b k) = (a + b * 2 ^ k)%Z.
Proof.
  intros Hk Ha. rewrite <-Z.shiftl_mul_pow2 by done.
  assert (Z.land a (Z.shiftl b k) = 0)%Z as H0.
  { apply Z.bits_inj'. intros n Hn. rewrite Z.land_spec, Z.bits_0.
    destruct (decide (n < k)%Z).
    - rewrite Z.shiftl_spec_low by done. apply andb_false_r.
    - rewrite <-(Z.mod_small a (2 ^ k)) by done. by rewrite Z.mod_pow2_bits_high by lia. }
  by rewrite Z.add_nocarry_lxor, Z.lxor_lor.
Qed.

Lemma at_byte p i : Forall is_byte p -> is_byte (at_ p i).
Proof.
  intros H. unfold at_. rewrite nth_lookup. destruct (p !! i) as [x|] eqn:E; simpl.
  - by eapply Forall_lookup_1.
  - unfold is_byte. lia.
Qed.

Lemma make_block_be p : Forall is_byte p -> make_block p = be_word p <$> seq 0 16.
Proof.
  intros H. unfold make_block. apply list_fmap_ext. intros _ i _. unfold be_word.
  pose proof (at_byte p (4 * i) H) as B0. pose proof (at_byte p (4 * i + 1) H) as B1.
  pose proof (at_byte p (4 * i + 2) H) as B2. pose proof (at_byte p (4 * i + 3) H) as B3.
  unfold is_byte in *.
  rewrite (lor_shiftl _ _ 8), (lor_shiftl _ _ 16), (lor_shiftl _ _ 24) by lia. lia.
Qed.

Lemma absorb_length m : length (absorb m) = 5.
Proof.
  unfold absorb. generalize (length m / 64). intros n.
  induction n as [|n IH]; [done|]. rewrite (seq_S n), fold_left_app. cbn [fold_left].
  by apply compress_length.
Qed.

(** the tail of a message that does not fill a block *)
Definition tail64 (m : bytes) : bytes := drop (64 * (length m / 64)) m.

Lemma tail64_length m : length (tail64 m) = length m mod 64.
Proof. unfold tail64. rewrite length_drop. pose proof (Nat.div_mod_eq (length m) 64). lia. Qed.

Lemma div64_add a b c : a mod 64 + b = c -> (a + b) / 64 = a / 64 + c / 64 /\ (a + b) mod 64 = c mod 64.
Proof.
  intros H. pose proof (Nat.div_mod_eq a 64). replace (a + b) with (c + (a / 64) * 64) by lia.
  rewrite Nat.div_add, Nat.Div0.mod_add by lia. split; lia.
Qed.

Lemma absorb_same m p q :
  (forall k, k < q -> block_at (m ++ p) k = block_at m k) ->
  fold_left (fun h k => compress h (be_word (block_at (m ++ p) k) <$> seq 0 16)) (seq 0 q) H0 =
  fold_left (fun h k => compress h (be_word (block_at m k) <$> seq 0 16)) (seq 0 q) H0.
Proof.
  induction q as [|q IH]; intros H; [cbn [seq fold_left]; reflexivity|].
  rewrite !(seq_S q), !fold_left_app. cbn [fold_left].
  rewrite (H (0 + q)) by lia. apply (f_equal (fun h => compress h _)). apply IH. intros k Hk.
  apply H. lia.
Qed.

Lemma block_at_app m p k : k < length m / 64 -> block_at (m ++ p) k = block_at m k.
Proof.
  intros H. pose proof (Nat.div_mod_eq (length m) 64). unfold block_at, slice.
  rewrite drop_app_le by lia. rewrite take_app_le; [done|]. rewrite length_drop. lia.
Qed.

(** less than a block more *)
Lemma absorb_short m p :
  length m mod 64 + length p < 64 ->
  absorb (m ++ p) = absorb m /\ tail64 (m ++ p) = tail64 m ++ p.
Proof.
  intros H. destruct (div64_add (length m) (length p) _ eq_refl) as [Hd _].
  rewrite (Nat.div_small (length m mod 64 + length p)) in Hd by lia. rewrite Nat.add_0_r in Hd.
  unfold absorb, tail64. rewrite length_app, Hd. split.
  - apply absorb_same. intros k Hk. by apply block_at_app.
  - pose proof (Nat.div_mod_eq (length m) 64). by rewrite drop_app_le by lia.
Qed.

(** up to the end of a block *)
Lemma absorb_full m p :
  length m mod 64 + length p = 64 ->
  absorb (m ++ p) = compress (absorb m) (be_word (tail64 m ++ p) <$> seq 0 16) /\
  tail64 (m ++ p) = [] /\ length (m ++ p) mod 64 = 0 /\
  length (m ++ p) / 64 = length m / 64 + 1.
Proof.
  intros H. destruct (div64_add (length m) (length p) _ H) as [Hd Hm].
  change (64 / 64) with 1 in Hd. change (64 mod 64) with 0 in Hm.
  rewrite length_app, Hd, Hm. split_and!; try done.
  - unfold absorb. rewrite length_app, Hd, Nat.add_1_r, (seq_S (length m / 64)), fold_left_app. cbn [fold_left].
    rewrite absorb_same by (intros k Hk; by apply block_at_app). f_equal. f_equal.
    unfold block_at, slice, tail64. pose proof (Nat.div_mod_eq (length m) 64).
    change (0 + length m / 64) with (length m / 64). rewrite drop_app_le by lia.
    rewrite take_ge; [done|]. rewrite length_app, length_drop. lia.
  - apply length_zero_iff_nil. by rewrite tail64_length, length_app, Hm.
Qed.

(** ** Streaming *)

Record ctx_ok (ctx : sha1_context) (m : bytes) : Prop := mk_ctx_ok {
  ok_len : buflen ctx = length m mod 64;
  ok_blocks : blocks ctx = Z.of_nat (length m / 64);
  ok_digest : digest ctx = absorb m;
  ok_tail : take (buflen ctx) (buf ctx) = tail64 m;
  ok_buf : length (buf ctx) = 64
}.

Lemma copy_into_length b off s : off + length s <= length b -> length (copy_into b off s) = length b.
Proof. intros H. unfold copy_into. rewrite !length_app, length_take, length_drop. lia. Qed.

Lemma copy_into_take b off s :
  off + length s <= length b -> take (off + length s) (copy_into b off s) = take off b ++ s.
Proof.
  intros H. unfold copy_into. rewrite app_assoc.
  rewrite take_app_length'; [done|]. rewrite length_app, length_take. lia.
Qed.

Lemma update_loop_ok fuel : forall ctx m p,
  ctx_ok ctx m -> Forall is_byte (m ++ p) -> (Z.of_nat (length (m ++ p)) < 2 ^ 61)%Z ->
  length p < fuel ->
  exists ctx', update_loop fuel ctx p = Some ctx' /\ ctx_ok ctx' (m ++ p).
Proof.
  induction fuel as [|fuel IH]; intros ctx m p [Hl Hbl Hd Ht Hbuf] Hb Hmax Hf; [lia|].
  cbn [update_loop]. pose proof (Nat.mod_upper_bound (length m) 64 ltac:(lia)) as Hlt.
  rewrite length_app in Hmax.
  destruct (decide (length p < 64 - buflen ctx)) as [Hs|Hs].
  - rewrite Nat.min_l, firstn_all by lia. destruct (_ =? 64)%nat eqn:E; zbool; [lia|]. cbn [negb].
    destruct (absorb_short m p ltac:(lia)) as [Ha Ht'].
    destruct (div64_add (length m) (length p) _ eq_refl) as [Hdiv Hmod].
    rewrite (Nat.div_small (length m mod 64 + length p)) in Hdiv by lia.
    rewrite (Nat.mod_small (length m mod 64 + length p)) in Hmod by lia.
    eexists. split; [done|]. split; cbn [buflen blocks digest buf].
    + rewrite length_app. lia.
    + rewrite length_app, Hbl. f_equal. lia.
    + by rewrite Ha.
    + rewrite copy_into_take by lia. by rewrite Ht, Ht'.
    + rewrite copy_into_length; lia.
  - rewrite Nat.min_r by lia. rewrite (proj2 (Nat.eqb_eq _ 64)) by lia. cbn [negb].
    set (n := 64 - buflen ctx). assert (length (take n p) = n) as Hn by (rewrite length_take; lia).
    destruct (absorb_full m (take n p) ltac:(lia)) as (Ha & Ht' & Hm0 & Hdiv).
    assert (copy_into (buf ctx) (buflen ctx) (take n p) = tail64 m ++ take n p) as Hcopy.
    { rewrite <-Ht, <-copy_into_take by lia. symmetry. apply take_ge.
      rewrite copy_into_length; lia. }
    rewrite Hcopy. rewrite <-(take_drop n p) in Hb at 1. rewrite app_assoc in Hb.
    apply Forall_app in Hb as [Hb1 Hb2].
    destruct (IH (mk_ctx 0 (wrap64 (blocks ctx + 1)) (transform (digest ctx)
      (make_block (tail64 m ++ take n p))) (tail64 m ++ take n p)) (m ++ take n p) (drop n p))
      as (ctx' & E & Hok).
    + split; cbn [buflen blocks digest buf].
      * done.
      * rewrite Hdiv, Hbl, wrap64_small; [lia|]. split; [lia|].
        assert (length m / 64 <= length m) by (apply Nat.Div0.div_le_upper_bound; lia). lia.
      * rewrite Ha, <-make_block_be, Hd.
        -- apply transform_compress; [apply absorb_length|]. unfold make_block. by rewrite length_fmap.
        -- apply Forall_app in Hb1 as [Hbm Hbp]. apply Forall_app. split; [by apply Forall_drop|done].
      * by rewrite take_0, Ht'.
      * rewrite length_app, tail64_length. lia.
    + apply Forall_app. split; assumption.
    + rewrite <-app_assoc, take_drop, length_app. lia.
    + rewrite length_drop. lia.
    + exists ctx'. split; [done|]. by rewrite <-app_assoc, take_drop in Hok.
Qed.

Lemma init_ok garbage : length garbage = 64 -> ctx_ok (init garbage) [].
Proof. intros H. by split. Qed.

(** a message in pieces, one update each *)
Fixpoint update_all (ctx : sha1_context) (pieces : list bytes) : option sha1_context :=
  match pieces with
  | [] => Some ctx
  | p :: pieces => match update ctx p with Some ctx => update_all ctx pieces | None => None end
  end.

Lemma update_all_ok pieces : forall ctx m,
  ctx_ok ctx m -> Forall is_byte (m ++ mjoin pieces) ->
  (Z.of_nat (length (m ++ mjoin pieces)) < 2 ^ 61)%Z ->
  exists ctx', update_all ctx pieces = Some ctx' /\ ctx_ok ctx' (m ++ mjoin pieces).
Proof.
  induction pieces as [|p pieces IH]; intros ctx m Hok Hb Hl.
  - exists ctx. cbn. by rewrite app_nil_r.
  - change (mjoin (p :: pieces)) with (p ++ mjoin pieces) in *. rewrite app_assoc in *.
    cbn [update_all]. unfold update.
    destruct (update_loop_ok (S (length p)) ctx m p) as (ctx' & -> & Hok'); [done| | |lia|].
    + by apply Forall_app in Hb as [Hb _].
    + rewrite length_app in Hl. lia.
    + by apply IH.
Qed.

(** the words of the length field *)
Lemma be_bytes_bytes n x : Forall is_byte (be_bytes n x).
Proof.
  apply Forall_fmap, Forall_forall. intros i _. unfold is_byte. simpl. apply Z.mod_pos_bound. lia.
Qed.

Lemma be_word_digits x :
  (0 <= x < 2 ^ 64)%Z ->
  be_word (be_bytes 8 x) 0 = (x / 2 ^ 32)%Z /\ be_word (be_bytes 8 x) 1 = (x mod 2 ^ 32)%Z.
Proof.
  intros Hx. unfold be_word, be_bytes, at_. cbn -[Z.div Z.modulo Z.mul Z.add Z.pow].
  change (256 ^ Z.of_nat 7)%Z with (2 ^ 24 * 2 ^ 32)%Z. 
  change (256 ^ Z.of_nat 6)%Z with (2 ^ 16 * 2 ^ 32)%Z.
  change (256 ^ Z.of_nat 5)%Z with (2 ^ 8 * 2 ^ 32)%Z.
  change (256 ^ Z.of_nat 4)%Z with (2 ^ 32)%Z. change (256 ^ Z.of_nat 3)%Z with (2 ^ 24)%Z.
  change (256 ^ Z.of_nat 2)%Z with (2 ^ 16)%Z. change (256 ^ Z.of_nat 1)%Z with (2 ^ 8)%Z.
  change (256 ^ Z.of_nat 0)%Z with 1%Z.
  cbn [Z.pow Z.pow_pos Pos.iter Z.mul Pos.mul] in *.
  Z.div_mod_to_equations. lia.
Qed.

Lemma be_word_app_l a b i : 4 * i + 3 < length a -> be_word (a ++ b) i = be_word a i.
Proof. intros H. unfold be_word, at_. by rewrite !app_nth1 by lia. Qed.

Lemma be_word_app_r a b i :
  be_word (a ++ b) (length a / 4 + i) = be_word b i \/ length a mod 4 <> 0.
Proof.
  destruct (decide (length a mod 4 = 0)) as [E|E]; [left|by right].
  pose proof (Nat.div_mod_eq (length a) 4). unfold be_word, at_.
  rewrite !app_nth2 by lia. repeat f_equal; lia.
Qed.

Lemma digest_bytes_be d : digest_bytes d = be_bytes 4 d.
Proof.
  unfold digest_bytes, be_bytes. cbn -[Z.div Z.modulo Z.pow Z.shiftr Z.land].
  change 255%Z with (Z.ones 8). rewrite !Z.land_ones, !Z.shiftr_div_pow2 by lia.
  change (2 ^ 8)%Z with 256%Z. change (256 ^ Z.of_nat 3)%Z with (2 ^ 24)%Z.
  change (256 ^ Z.of_nat 2)%Z with (2 ^ 16)%Z. change (256 ^ Z.of_nat 1)%Z with (2 ^ 8)%Z.
  change (256 ^ Z.of_nat 0)%Z with 1%Z. by rewrite Z.div_1_r.
Qed.

Lemma words_split X y :
  length X = 56 ->
  be_word (X ++ y) <$> seq 0 16 = (be_word X <$> seq 0 14) ++ [be_word y 0; be_word y 1].
Proof.
  intros HX. change (seq 0 16) with (seq 0 14 ++ seq 14 2).
  rewrite fmap_app. f_equal.
  - apply list_fmap_ext. intros ? i Hi. apply lookup_seq in Hi as [-> Hi].
    apply be_word_app_l. lia.
  - cbn [seq fmap list_fmap].
    destruct (be_word_app_r X y 0) as [E0|E0]; [|rewrite HX in E0; done].
    destruct (be_word_app_r X y 1) as [E1|E1]; [|rewrite HX in E1; done].
    rewrite HX in E0, E1. cbn in E0, E1. by rewrite <-E0, <-E1.
Qed.

(** overwriting the last two words of a block with the length *)
Lemma set_length_words (X : list Z) y0 y1 total :
  length X = 14 -> (0 <= total < 2 ^ 64)%Z ->
  <[BLOCK_INTS - 2 := Z.shiftr total 32]>
    (<[BLOCK_INTS - 1 := Z.land total 0xffffffff]> (X ++ [y0; y1])) =
  X ++ [be_word (be_bytes 8 total) 0; be_word (be_bytes 8 total) 1].
Proof.
  intros HX Ht. destruct (be_word_digits total Ht) as [-> ->].
  change 0xffffffff%Z with (Z.ones 32). rewrite Z.land_ones, Z.shiftr_div_pow2 by lia.
  change (BLOCK_INTS - 1) with 15. change (BLOCK_INTS - 2) with 14.
  rewrite !insert_app_r_alt by lia. by rewrite HX.
Qed.

(** the buffer of finish after the padding loop *)
Lemma pad_buffer ctx m :
  ctx_ok ctx m ->
  copy_into (<[buflen ctx := 0x80%Z]> (buf ctx)) (buflen ctx + 1)
    (replicate (64 - (buflen ctx + 1)) 0%Z) =
  tail64 m ++ [0x80%Z] ++ replicate (63 - buflen ctx) 0%Z.
Proof.
  intros [Hl _ _ Ht Hb]. pose proof (Nat.mod_upper_bound (length m) 64 ltac:(lia)) as Hlt.
  rewrite <-Ht. unfold copy_into.
  rewrite (drop_ge _ (buflen ctx + 1 + _)) by (rewrite length_insert, length_replicate; lia).
  rewrite app_nil_r, (take_insert_snoc (buf ctx) (take (buflen ctx) (buf ctx))) by (done || lia).
  rewrite <-app_assoc.
  do 3 f_equal. lia.
Qed.

Lemma total_bits_ok ctx m :
  ctx_ok ctx m -> (Z.of_nat (length m) < 2 ^ 61)%Z ->
  wrap64 (wrap64 (wrap64 (blocks ctx * 64) + Z.of_nat (buflen ctx)) * 8) =
  (8 * Z.of_nat (length m))%Z.
Proof.
  intros [Hl Hb _ _ _] Hm. pose proof (Nat.div_mod_eq (length m) 64). rewrite Hl, Hb.
  rewrite (wrap64_small (_ * 64)) by lia. rewrite (wrap64_small (_ + _)) by lia.
  rewrite wrap64_small; lia.
Qed.

Lemma tail64_bytes m : Forall is_byte m -> Forall is_byte (tail64 m).
Proof. intros H. by apply Forall_drop. Qed.

Lemma zeros_bytes n : Forall is_byte (replicate n 0%Z).
Proof. apply Forall_replicate. unfold is_byte. lia. Qed.

Lemma byte_0x80 : is_byte 0x80.
Proof. unfold is_byte. lia. Qed.
#[export] Hint Resolve tail64_bytes zeros_bytes byte_0x80 : netcore.

(** the padded message fits in the block that is open *)
Lemma finish_short ctx m :
  ctx_ok ctx m -> Forall is_byte m -> (Z.of_nat (length m) < 2 ^ 61)%Z ->
  length m mod 64 <= 55 -> finish ctx = sha1 m.
Proof.
  intros Hok Hb Hm Hs. unfold finish. rewrite total_bits_ok with (m := m) by done.
  rewrite (pad_buffer ctx m) by done. pose proof (ok_len _ _ Hok) as Hl.
  rewrite (proj2 (Nat.ltb_ge (BLOCK_BYTES - 8) _)) by (unfold BLOCK_BYTES; lia).
  set (k := 55 - buflen ctx). set (X := tail64 m ++ [0x80%Z] ++ replicate k 0%Z).
  assert (length X = 56) as HX.
  { unfold X. rewrite !length_app, tail64_length, length_replicate. cbn [length]. lia. }
  assert (tail64 m ++ [0x80%Z] ++ replicate (63 - buflen ctx) 0%Z = X ++ replicate 8 0%Z) as ->.
  { unfold X. rewrite <-!app_assoc, <-replicate_add. do 3 f_equal. lia. }
  rewrite make_block_be, words_split by (done || unfold X; repeat apply Forall_app_2; auto with netcore).
  rewrite set_length_words by (rewrite ?length_fmap; done || lia).
  rewrite <-words_split by done. rewrite (ok_digest _ _ Hok), transform_compress by
    (try apply absorb_length; by rewrite length_fmap).
  unfold sha1. assert (pad m = m ++ [0x80%Z] ++ replicate k 0%Z ++ be_bytes 8 (8 * Z.of_nat (length m)))
    as ->.
  { unfold pad. do 3 f_equal. f_equal. pose proof (Nat.div_mod_eq (length m) 64).
    destruct (div64_add (length m) 9 _ eq_refl) as [_ ->]. unfold k. rewrite Hl.
    destruct (decide (length m mod 64 = 55)) as [->|]; [done|].
    rewrite (Nat.mod_small (_ + 9)) by lia. rewrite Nat.mod_small by lia. lia. }
  destruct (absorb_full m ([0x80%Z] ++ replicate k 0%Z ++ be_bytes 8 (8 * Z.of_nat (length m))))
    as [-> _].
  { rewrite !length_app, length_replicate. unfold be_bytes. rewrite length_fmap, length_seq. cbn [length]. lia. }
  unfold X. rewrite <-!app_assoc. f_equal. apply list_fmap_ext. intros _ d _. apply digest_bytes_be.
Qed.

(** the length goes into a block of its own *)
Lemma finish_long ctx m :
  ctx_ok ctx m -> Forall is_byte m -> (Z.of_nat (length m) < 2 ^ 61)%Z ->
  55 < length m mod 64 -> finish ctx = sha1 m.
Proof.
  intros Hok Hb Hm Hs. unfold finish. rewrite total_bits_ok with (m := m) by done.
  rewrite (pad_buffer ctx m) by done. pose proof (ok_len _ _ Hok) as Hl.
  pose proof (Nat.mod_upper_bound (length m) 64 ltac:(lia)) as Hlt.
  rewrite (proj2 (Nat.ltb_lt (BLOCK_BYTES - 8) _)) by (unfold BLOCK_BYTES; lia).
  set (p1 := [0x80%Z] ++ replicate (63 - buflen ctx) 0%Z).
  assert (length m mod 64 + length p1 = 64) as Hp1.
  { unfold p1. rewrite !length_app, length_replicate. cbn [length]. lia. }
  destruct (absorb_full m p1 Hp1) as (Ha & Ht & Hmod & _).
  assert (exists y0 y1, drop (BLOCK_INTS - 2) (make_block (tail64 m ++ p1)) = [y0; y1])
    as (y0 & y1 & ->).
  { rewrite make_block_be by (unfold p1; repeat apply Forall_app_2; auto with netcore).
    by eexists _, _. }
  rewrite set_length_words; [|reflexivity|lia].
  rewrite transform_compress, (ok_digest _ _ Hok).
  2: { rewrite transform_compress by (rewrite ?(ok_digest _ _ Hok); try apply absorb_length; done).
       apply compress_length. rewrite (ok_digest _ _ Hok). apply absorb_length. }
  2: done.
  rewrite transform_compress by (try apply absorb_length; done).
  rewrite make_block_be by (unfold p1; repeat apply Forall_app_2; auto with netcore).
  rewrite <-Ha.
  set (p2 := replicate 56 0%Z ++ be_bytes 8 (8 * Z.of_nat (length m))).
  assert (pad m = (m ++ p1) ++ p2) as Hpad.
  { unfold pad, p1, p2. rewrite <-!app_assoc. do 2 f_equal. rewrite app_assoc, <-replicate_add.
    f_equal. f_equal. destruct (div64_add (length m) 9 _ eq_refl) as [_ ->]. rewrite Hl.
    replace (length m mod 64 + 9) with ((length m mod 64 - 55) + 1 * 64) by lia.
    rewrite Nat.Div0.mod_add, (Nat.mod_small (_ - 55)) by lia. rewrite Nat.mod_small by lia. lia. }
  unfold sha1. rewrite Hpad.
  destruct (absorb_full (m ++ p1) p2) as [-> _].
  { rewrite Hmod. unfold p2. rewrite length_app, length_replicate. done. }
  rewrite Ht, app_nil_l. unfold p2. rewrite words_split by done.
  f_equal. rewrite (list_fmap_ext digest_bytes (be_bytes 4)) by (intros; apply digest_bytes_be).
  assert (be_word (replicate 56 0%Z) <$> seq 0 14 = replicate (BLOCK_INTS - 2) 0%Z) as -> by reflexivity.
  reflexivity.
Qed.

Lemma finish_ok ctx m :
  ctx_ok ctx m -> Forall is_byte m -> (Z.of_nat (length m) < 2 ^ 61)%Z -> finish ctx = sha1 m.
Proof.
  intros Hok Hb Hl. destruct (decide (length m mod 64 <= 55)).
  - by apply finish_short.
  - apply finish_long; [done..|lia].
Qed.

Lemma SHA1_ok garbage m :
  length garbage = 64 -> Forall is_byte m -> (Z.of_nat (length m) < 2 ^ 61)%Z ->
  SHA1 garbage m = Some (sha1 m).
Proof.
  intros Hg Hb Hl. unfold SHA1, update.
  destruct (update_loop_ok (S (length m)) _ [] m (init_ok garbage Hg) Hb Hl) as (ctx & -> & Hok);
    [lia|]. cbn [fmap option_fmap option_map]. f_equal. by apply finish_ok.
Qed.

Lemma sha1_length m : length (sha1 m) = 20.
Proof.
  unfold sha1. pose proof (absorb_length (pad m)).
  destruct (absorb (pad m)) as [|a [|b [|c [|d [|e [|]]]]]]; try done.
Qed.

Lemma sha1_bytes m : Forall is_byte (sha1 m).
Proof.
  unfold sha1. apply Forall_join, Forall_fmap, Forall_true. intros x. apply be_bytes_bytes.
Qed.

(** C36. SHA-1 is the function of FIPS 180: initialising a context, updating it with
    the pieces a message comes in and finishing it gives the hash of the padded
    message by the 80-word compression function, whatever the pieces are and
    whatever the context's buffer held. *)
Theorem sha1_streaming_correct garbage pieces :
  length garbage = 64 -> Forall is_byte (mjoin pieces) ->
  (Z.of_nat (length (mjoin pieces)) < 2 ^ 61)%Z ->
  finish <$> update_all (init garbage) pieces = Some (sha1 (mjoin pieces)).
Proof.
  intros Hg Hb Hl.
  destruct (update_all_ok pieces (init garbage) [] (init_ok garbage Hg) Hb Hl) as (ctx & -> & Hok).
  cbn [fmap option_fmap option_map app] in *. f_equal. by apply finish_ok.
Qed.

Lemma sha1_streaming_correct_witness :
  finish <$> update_all (init (replicate 64 7%Z)) [bs "ab"; bs "c"] = Some (sha1 (bs "abc")) /\
  sha1 (bs "abc") =
    [0xa9; 0x99; 0x3e; 0x36; 0x47; 0x06; 0x81; 0x6a; 0xba; 0x3e; 0x25; 0x71; 0x78; 0x50; 0xc2;
     0x6c; 0x9c; 0xd0; 0xd8; 0x9d]%Z.
Proof.
  split; [|vm_compute; reflexivity].
  apply (sha1_streaming_correct (replicate 64 7%Z) [bs "ab"; bs "c"]).
  - reflexivity.
  - apply (bool_decide_unpack _). vm_compute. exact I.
  - reflexivity.
Defined.
