(* ===== verification/WebSocket.v ===== *)
(** * WebSocket frames and the opening handshake

    The class websocket of src/include/netcore/websocket.hpp with the enums of
    src/include/netcore/ws_define.h.  Multi-byte reads are little-endian loads
    followed by ntohs or be64toh, as on the machines the server runs on; a read
    behind the memory given is [None]. *)

From Stdlib Require Import ZArith Lia.
From stdpp Require Import base numbers list strings.
From S2P Require Import Prelude Codec Utf8 Utils Sha1.

(** ** Byte order *)

Fixpoint le_load (n : nat) (mem : bytes) : option Z :=
  match n with
  | O => Some 0%Z
  | S n =>
      match mem with
      | [] => None
      | b :: mem => v ← le_load n mem; Some (b + Z.shiftl v 8)%Z
      end
  end.

Fixpoint le_store (n : nat) (v : Z) : bytes :=
  match n with
  | O => []
  | S n => Z.land v 255 :: le_store n (Z.shiftr v 8)
  end.

Definition ntohs (v : Z) : Z := Z.lor (Z.shiftl (Z.land v 255) 8) (Z.shiftr v 8).
Definition htons (v : Z) : Z := ntohs v.

(** be64toh and htobe64 reverse the eight bytes *)
Fixpoint swap_bytes (n : nat) (v acc : Z) : Z :=
  match n with
  | O => acc
  | S n => swap_bytes n (Z.shiftr v 8) (Z.lor (Z.shiftl acc 8) (Z.land v 255))
  end.
Definition be64toh (v : Z) : Z := swap_bytes 8 v 0.
Definition htobe64 (v : Z) : Z := be64toh v.

(** ** ws_define.h *)

Inductive opcode :=
| cont | text | binary | rsv3 | rsv4 | rsv5 | rsv6 | rsv7
| close | ping | pong | crsvb | crsvc | crsvd | crsve | crsvf.

Definition opcode_value (c : opcode) : Z :=
  match c with
  | cont => 0 | text => 1 | binary => 2 | rsv3 => 3 | rsv4 => 4 | rsv5 => 5 | rsv6 => 6
  | rsv7 => 7 | close => 8 | ping => 9 | pong => 10 | crsvb => 11 | crsvc => 12 | crsvd => 13
  | crsve => 14 | crsvf => 15
  end.

Inductive ws_frame_type :=
| WS_ERROR_FRAME
| WS_INCOMPLETE_FRAME
| WS_OPENING_FRAME
| WS_CLOSING_FRAME
| WS_INCOMPLETE_TEXT_FRAME
| WS_INCOMPLETE_BINARY_FRAME
| WS_TEXT_FRAME
| WS_BINARY_FRAME
| WS_RSV3_FRAME
| WS_RSV4_FRAME
| WS_RSV5_FRAME
| WS_RSV6_FRAME
| WS_RSV7_FRAME
| WS_CLOSE_FRAME
| WS_PING_FRAME
| WS_PONG_FRAME.

#[export] Instance ws_frame_type_eq_dec : EqDecision ws_frame_type.
Proof. solve_decision. Defined.

Definition SHORT_HEADER : nat := 6.
Definition MEDIUM_HEADER : nat := 8.
Definition LONG_HEADER : nat := 14.
Definition SND_CONTINUATION : Z := 1.
Definition SND_NO_FIN : Z := 2.
Definition WEBSOCKET : bytes := bs "websocket".
Definition UPGRADE : bytes := bs "upgrade".
Definition ws_guid : bytes := bs "258EAFA5-E914-47DA-95CA-C5AB0DC85B11".

(** ** State *)

Record websocket := mk_ws {
  sec_ws_key_ : bytes;
  payload_length_ : Z;
  left_header_len_ : Z;
  mask_ : Z;
  msg_opcode_ : Z;
  msg_fin_ : Z
}.

Definition websocket0 : websocket := mk_ws [] 0 0 0 0 0.

Definition is_fin (ws : websocket) : bool := negb (msg_fin_ ws =? 0)%Z.

(** ** The handshake *)

(** the method and the header lookup are those of the request *)
Definition is_upgrade (ws : websocket) (method : bytes) (get_header_value : bytes -> bytes)
  : websocket * bool :=
  if negb (beq method (bs "GET")) then (ws, false)
  else
    let h := get_header_value (bs "connection") in
    if bool_decide (h = []) then (ws, false)
    else
      let u := get_header_value (bs "upgrade") in
      if bool_decide (u = []) then (ws, false)
      else if negb (find_strIC h UPGRADE) then (ws, false)
      else if negb (iequal u WEBSOCKET) then (ws, false)
      else
        let key := get_header_value (bs "sec-websocket-key") in
        let ws := mk_ws key (payload_length_ ws) (left_header_len_ ws) (mask_ ws)
                    (msg_opcode_ ws) (msg_fin_ ws) in
        (ws, negb (bool_decide (key = []) || negb (length key =? 24)%nat)).

(** the accept key; [garbage] is the uninitialised buffer of the SHA-1 context *)
Definition accept_key (garbage : bytes) (ws : websocket) : option bytes :=
  sha1buf ← SHA1 garbage (take 24 (sec_ws_key_ ws) ++ ws_guid);
  Some (take 28 (base64_encode sha1buf false)).

(** the headers added to the response *)
Definition upgrade_to_websocket (garbage : bytes) (ws : websocket)
    (get_header_value : bytes -> bytes) : option (list (bytes * bytes)) :=
  key ← accept_key garbage ws;
  let protocal_str := get_header_value (bs "sec-websocket-protocol") in
  Some ([(bs "Upgrade", bs "WebSocket"); (bs "Connection", bs "Upgrade");
         (bs "Sec-WebSocket-Accept", key)] ++
        (if bool_decide (protocal_str = []) then []
         else [(bs "Sec-WebSocket-Protocol", protocal_str)])).

(** ** Receiving *)

(** [mem] is the memory from [buf] on, [size] the number of bytes received *)
Definition parse_header (ws : websocket) (mem : bytes) (size : nat) : option (websocket * Z) :=
  if (size <? SHORT_HEADER)%nat then Some (ws, (-2)%Z)
  else
    inp0 ← mem !! 0;
    inp1 ← mem !! 1;
    let opc := Z.land inp0 0x0F in
    let fin := Z.land (Z.shiftr inp0 7) 1 in
    let msg_masked := Z.land (Z.shiftr inp1 7) 1 in
    let length_field := Z.land inp1 0x7F in
    if (127 <? length_field)%Z
    then Some (mk_ws (sec_ws_key_ ws) (payload_length_ ws) 0 (mask_ ws) opc fin, (-1)%Z) else
    '(payload, pos, left_len, header_len) ←
      (if (length_field <=? 125)%Z then Some (length_field, 2, 0%Z, Z.of_nat SHORT_HEADER)
       else if (length_field =? 126)%Z then
         v ← le_load 2 (drop 2 mem);
         Some (ntohs v, 4,
           (if (MEDIUM_HEADER <=? size)%nat then 0 else Z.of_nat MEDIUM_HEADER - Z.of_nat size)%Z,
           Z.of_nat MEDIUM_HEADER)
       else
         v ← le_load 8 (drop 2 mem);
         Some (be64toh v, 10,
           (if (LONG_HEADER <=? size)%nat then 0 else Z.of_nat LONG_HEADER - Z.of_nat size)%Z,
           Z.of_nat LONG_HEADER));
    '(mask, header_len) ←
      (if negb (msg_masked =? 0)%Z then
         m ← le_load 4 (drop pos mem); Some (m, header_len)
       else Some (mask_ ws, (header_len - 4)%Z));
    Some (mk_ws (sec_ws_key_ ws) payload left_len mask opc fin,
          if (left_len =? 0)%Z then header_len else (-2)%Z).

Definition mask_byte (mask : Z) (i : nat) : Z :=
  Z.land (Z.shiftr mask (8 * Z.of_nat (i mod 4))) 255.

(** outbuf.resize(n) *)
Definition resize (s : bytes) (n : nat) : bytes := take n s ++ replicate (n - length s) 0%Z.

Definition frame_type (opc fin : Z) : ws_frame_type :=
  if (opc =? 0)%Z then if negb (fin =? 0)%Z then WS_TEXT_FRAME else WS_INCOMPLETE_TEXT_FRAME
  else if (opc =? 1)%Z then if negb (fin =? 0)%Z then WS_TEXT_FRAME else WS_INCOMPLETE_TEXT_FRAME
  else if (opc =? 2)%Z then if negb (fin =? 0)%Z then WS_BINARY_FRAME else WS_INCOMPLETE_BINARY_FRAME
  else if (opc =? 8)%Z then WS_CLOSE_FRAME
  else if (opc =? 9)%Z then WS_PING_FRAME
  else if (opc =? 10)%Z then WS_PONG_FRAME
  else WS_BINARY_FRAME.

Definition parse_payload (ws : websocket) (buf : bytes) (outbuf : bytes) : ws_frame_type * bytes :=
  if (Z.of_nat (length buf) <? payload_length_ ws)%Z then (WS_INCOMPLETE_FRAME, outbuf)
  else
    let n := Z.to_nat (payload_length_ ws) in
    let outbuf := if (length outbuf <? n)%nat then resize outbuf n else outbuf in
    let outbuf :=
      if negb (mask_ ws =? 0)%Z then
        imap (fun i b => Z.lxor b (mask_byte (mask_ ws) i)) (take n buf) ++ drop n outbuf
      else outbuf in
    (frame_type (msg_opcode_ ws) (msg_fin_ ws), outbuf).

(** ** Sending *)

Definition encode_header (len : Z) (code : opcode) : bytes :=
  let flags := 0%Z in
  let h0 := if negb (Z.land flags SND_NO_FIN =? 0)%Z then 0%Z else 128%Z in
  let h0 := if (Z.land flags SND_CONTINUATION =? 0)%Z then Z.lor h0 (opcode_value code) else h0 in
  if (len <? 126)%Z then [h0; wrap8 len]
  else if (len <=? 65535)%Z then [h0; 126%Z] ++ le_store 2 (htons (wrap16 len))
  else [h0; 127%Z] ++ le_store 8 (htobe64 len).

Definition format_header (len : Z) (code : opcode) : bytes := encode_header len code.

Definition format_message (src : bytes) (code : opcode) : bytes :=
  encode_header (Z.of_nat (length src)) code ++ src.

(** ** Close frames *)

(** [None] in the second component is the null message of an empty frame *)
Definition parse_close_payload (src : bytes) : option (Z * option bytes) :=
  match src with
  | b0 :: b1 :: msg =>
      let c := ntohs (b0 + Z.shiftl b1 8) in
      valid ← is_valid_utf8 msg;
      Some (if (c <? 1000)%Z || (4999 <? c)%Z || ((1011 <? c)%Z && (c <? 4000)%Z) ||
               ((1004 <=? c)%Z && (c <=? 1006)%Z) || negb valid
            then (0%Z, None) else (c, Some msg))
  | _ => Some (0%Z, None)
  end.

Definition format_close_payload (c : Z) (msg : bytes) : bytes :=
  if negb (c =? 0)%Z then le_store 2 (htons c) ++ msg else [].

(** ** Lemmas on byte order *)

Definition BE (l : bytes) : Z := fold_left (fun a b => a * 256 + b)%Z l 0%Z.

Lemma BE_snoc l b : BE (l ++ [b]) = (BE l * 256 + b)%Z.
Proof. unfold BE. by rewrite fold_left_app. Qed.

Lemma BE_nonneg l : Forall is_byte l -> (0 <= BE l)%Z.
Proof.
  induction l as [|b l IH] using rev_ind; intros H; [done|].
  apply Forall_app in H as [Hl [Hb _]%Forall_cons]. rewrite BE_snoc. unfold is_byte in Hb.
  specialize (IH Hl). lia.
Qed.

Lemma load_byte b v : is_byte b -> (0 <= v)%Z ->
  (b + Z.shiftl v 8 = v * 256 + b)%Z /\
  Z.land (v * 256 + b) 255 = b /\ Z.shiftr (v * 256 + b) 8 = v.
Proof.
  unfold is_byte. intros Hb Hv. change 255%Z with (Z.ones 8).
  rewrite Z.land_ones, Z.shiftl_mul_pow2, Z.shiftr_div_pow2 by lia. change (2 ^ 8)%Z with 256%Z.
  Z.div_mod_to_equations. lia.
Qed.

Lemma le_load_BE l rest : Forall is_byte l -> le_load (length l) (l ++ rest) = Some (BE (rev l)).
Proof.
  induction 1 as [|b l Hb Hl IH]; [done|]. cbn [length le_load app rev]. rewrite IH. cbn.
  rewrite BE_snoc. f_equal. apply load_byte; [done|]. apply BE_nonneg. by apply Forall_rev.
Qed.

Lemma le_store_BE l : Forall is_byte l -> le_store (length l) (BE l) = rev l.
Proof.
  induction l as [|b l IH] using rev_ind; intros H; [done|].
  apply Forall_app in H as [Hl [Hb _]%Forall_cons].
  rewrite length_app, Nat.add_1_r, rev_app_distr, BE_snoc. cbn [le_store rev app].
  destruct (load_byte b (BE l) Hb (BE_nonneg l Hl)) as (_ & -> & ->). by rewrite IH.
Qed.

Lemma swap_bytes_BE l : Forall is_byte l -> forall acc, (0 <= acc)%Z ->
  swap_bytes (length l) (BE (rev l)) acc = fold_left (fun a b => a * 256 + b)%Z l acc.
Proof.
  induction 1 as [|b l Hb Hl IH]; intros acc Hacc; [done|].
  cbn [length swap_bytes rev fold_left]. rewrite BE_snoc.
  destruct (load_byte b (BE (rev l)) Hb (BE_nonneg _ (Forall_rev Hl))) as (_ & -> & ->).
  rewrite Z.lor_comm, lor_shiftl by (unfold is_byte in Hb; lia). change (2 ^ 8)%Z with 256%Z.
  rewrite IH by (unfold is_byte in Hb; lia). f_equal. lia.
Qed.

(** a big-endian field in memory, as the parser reads it *)
Lemma be64_load l rest :
  Forall is_byte l -> length l = 8 ->
  exists v, le_load 8 (l ++ rest) = Some v /\ be64toh v = BE l.
Proof.
  intros Hl Hn. exists (BE (rev l)). rewrite <-Hn at 1. split; [by apply le_load_BE|].
  unfold be64toh. rewrite <-Hn. by rewrite swap_bytes_BE.
Qed.

Lemma ntohs_BE b0 b1 : is_byte b0 -> is_byte b1 -> ntohs (b0 + Z.shiftl b1 8) = BE [b0; b1].
Proof.
  intros H0 H1. apply Z.eqb_eq. revert b0 b1 H0 H1.
  apply (all_bytes_check2 (fun b0 b1 => ntohs (b0 + Z.shiftl b1 8) =? BE [b0; b1])%Z).
  vm_compute. done.
Qed.

(** big-endian digits *)
Lemma be_bytes_length n x : length (be_bytes n x) = n.
Proof. unfold be_bytes. by rewrite length_fmap, length_seq. Qed.

Lemma BE_be_bytes_2 x : (0 <= x < 2 ^ 16)%Z -> BE (be_bytes 2 x) = x.
Proof.
  intros Hx. unfold BE, be_bytes. cbn -[Z.div Z.modulo Z.mul Z.add].
  change (2 ^ 16)%Z with 65536%Z in Hx. Z.div_mod_to_equations. lia.
Qed.

Lemma BE_be_bytes_8 x : (0 <= x < 2 ^ 64)%Z -> BE (be_bytes 8 x) = x.
Proof.
  intros Hx. unfold BE, be_bytes. cbn -[Z.div Z.modulo Z.mul Z.add Z.pow].
  cbn [Z.pow Z.pow_pos Pos.iter Z.mul Pos.mul Z.of_nat Pos.of_succ_nat Pos.succ] in *.
  Z.div_mod_to_equations. lia.
Qed.

(** ** Frames as RFC 6455 lays them out *)

Definition len_field (n : Z) : Z :=
  if (n <? 126)%Z then n else if (n <=? 65535)%Z then 126%Z else 127%Z.
Definition len_ext (n : Z) : bytes :=
  if (n <? 126)%Z then [] else if (n <=? 65535)%Z then be_bytes 2 n else be_bytes 8 n.

Definition frame_head (fin : bool) (code : opcode) (masked : bool) (n : Z) : bytes :=
  [(if fin then 128 else 0) + opcode_value code; (if masked then 128 else 0) + len_field n]%Z ++
  len_ext n.

Definition mask_data (key payload : bytes) : bytes :=
  imap (fun i b => Z.lxor b (nth (i mod 4) key 0%Z)) payload.

(** a frame from a client carries a masking key *)
Definition client_frame (fin : bool) (code : opcode) (key payload : bytes) : bytes :=
  frame_head fin code true (Z.of_nat (length payload)) ++ key ++ mask_data key payload.

(** header length with the masking key *)
Definition head_len (n : Z) : nat :=
  if (n <? 126)%Z then SHORT_HEADER else if (n <=? 65535)%Z then MEDIUM_HEADER else LONG_HEADER.


Lemma htons_store h l : is_byte h -> is_byte l -> le_store 2 (htons (BE [h; l])) = [h; l].
Proof.
  intros Hh Hl. apply (bool_decide_eq_true_1 _). revert h l Hh Hl.
  apply (all_bytes_check2 (fun h l => bool_decide (le_store 2 (htons (BE [h; l])) = [h; l]))).
  vm_compute. done.
Qed.

Lemma htobe64_store l :
  Forall is_byte l -> length l = 8 -> le_store 8 (htobe64 (BE l)) = l.
Proof.
  intros Hl Hn. unfold htobe64, be64toh.
  pose proof (swap_bytes_BE (rev l) (Forall_rev Hl) 0 ltac:(lia)) as E.
  rewrite rev_involutive, length_rev, Hn in E. rewrite E.
  change (fold_left _ (rev l) 0%Z) with (BE (rev l)).
  pose proof (le_store_BE (rev l) (Forall_rev Hl)) as S.
  by rewrite rev_involutive, length_rev, Hn in S.
Qed.

(** The frame headers the server sends are those of RFC 6455: final, unmasked,
    with the opcode, and the length in its shortest form, the 16- and 64-bit
    lengths in network byte order. *)
Theorem encode_header_rfc n code :
  (0 <= n < 2 ^ 64)%Z -> encode_header n code = frame_head true code false n.
Proof.
  intros Hn. unfold encode_header, frame_head, len_field, len_ext.
  assert ((if (Z.land 0 SND_CONTINUATION =? 0)%Z
    then Z.lor (if negb (Z.land 0 SND_NO_FIN =? 0)%Z then 0%Z else 128%Z) (opcode_value code)
    else (if negb (Z.land 0 SND_NO_FIN =? 0)%Z then 0%Z else 128%Z)) = 128 + opcode_value code)%Z
    as -> by (by destruct code).
  destruct (n <? 126)%Z eqn:E1; zbool.
  - unfold wrap8. by rewrite Z.mod_small by lia.
  - destruct (n <=? 65535)%Z eqn:E2; zbool; cbn [app]; do 2 f_equal.
    + unfold wrap16. rewrite Z.mod_small by lia.
      pose proof (be_bytes_bytes 2 n) as Hb. pose proof (BE_be_bytes_2 n ltac:(lia)) as E.
      pose proof (be_bytes_length 2 n) as El.
      destruct (be_bytes 2 n) as [|h [|l [|]]]; try done.
      apply Forall_cons in Hb as [Hh [Hl _]%Forall_cons]. rewrite <-E. by apply htons_store.
    + rewrite <-(BE_be_bytes_8 n) at 1 by lia.
      apply htobe64_store; [apply be_bytes_bytes|apply be_bytes_length].
Qed.

Lemma encode_header_rfc_witness :
  encode_header 300 text = [129; 126; 1; 44]%Z /\ encode_header 300 text = frame_head true text false 300.
Proof. split; [reflexivity|]. apply (encode_header_rfc 300 text). split; [discriminate|reflexivity]. Defined.

(** ** Receiving a frame *)

Lemma len_field_range n : (0 <= n)%Z -> (0 <= len_field n <= 127)%Z.
Proof. intros H. unfold len_field. repeat casif; zbool; lia. Qed.

Lemma second_byte (masked : bool) (f : Z) :
  (0 <= f <= 127)%Z ->
  let b := ((if masked then 128 else 0) + f)%Z in
  Z.land b 0x7F = f /\ Z.land (Z.shiftr b 7) 1 = (if masked then 1 else 0)%Z.
Proof.
  intros Hf.
  pose proof (all_bytes_check (fun f => implb (f <? 128)
    ((Z.land (128 + f) 127 =? f) && (Z.land (Z.shiftr (128 + f) 7) 1 =? 1) &&
     (Z.land f 127 =? f) && (Z.land (Z.shiftr f 7) 1 =? 0)))%Z ltac:(vm_compute; done) f
    ltac:(unfold is_byte; lia)) as H.
  cbv beta in H. rewrite (proj2 (Z.ltb_lt f 128)) in H by lia. cbn [implb] in H. zbool.
  by destruct masked; simpl.
Qed.

Lemma first_byte (fin : bool) code :
  let b := ((if fin then 128 else 0) + opcode_value code)%Z in
  Z.land b 0x0F = opcode_value code /\
  Z.land (Z.shiftr b 7) 1 = (if fin then 1 else 0)%Z.
Proof. by destruct fin, code. Qed.

(** the state after the header of a frame *)
Definition ws_after (ws : websocket) (fin : bool) (code : opcode) (n left_len mask : Z) : websocket :=
  mk_ws (sec_ws_key_ ws) n left_len mask (opcode_value code) (if fin then 1 else 0)%Z.

Lemma parse_header_masked ws fin code n key rest size :
  (0 <= n < 2 ^ 64)%Z -> Forall is_byte key -> length key = 4 ->
  parse_header ws (frame_head fin code true n ++ key ++ rest) size =
  if (size <? head_len n)%nat then
    if (size <? SHORT_HEADER)%nat then Some (ws, (-2)%Z)
    else Some (ws_after ws fin code n (Z.of_nat (head_len n) - Z.of_nat size) (BE (rev key)), (-2)%Z)
  else Some (ws_after ws fin code n 0 (BE (rev key)), Z.of_nat (head_len n)).
Proof.
  intros Hn Hkey Hk. unfold parse_header, head_len.
  assert (SHORT_HEADER <= (if (n <? 126)%Z then SHORT_HEADER
    else if (n <=? 65535)%Z then MEDIUM_HEADER else LONG_HEADER)) as Hge
    by (repeat casif; unfold SHORT_HEADER, MEDIUM_HEADER, LONG_HEADER; lia).
  destruct (size <? SHORT_HEADER)%nat eqn:Es; zbool.
  { by rewrite (proj2 (Nat.ltb_lt _ _)) by lia. }
  unfold frame_head. cbn [app lookup list_lookup mbind option_bind].
  destruct (first_byte fin code) as [-> ->].
  destruct (second_byte true (len_field n) (len_field_range n ltac:(lia))) as [-> ->].
  pose proof (len_field_range n ltac:(lia)).
  rewrite (proj2 (Z.ltb_ge 127 _)) by lia.
  assert (forall r, le_load 4 (key ++ r) = Some (BE (rev key))) as Hmask.
  { intros r. rewrite <-Hk. by apply le_load_BE. }
  unfold len_field, len_ext in *. destruct (n <? 126)%Z eqn:E1; zbool.
  - rewrite (proj2 (Z.leb_le n 125)) by lia. cbn -[le_load Nat.ltb].
    rewrite drop_0, Hmask. cbn -[Nat.ltb]. by rewrite (proj2 (Nat.ltb_ge _ _)) by done.
  - destruct (n <=? 65535)%Z eqn:E2; zbool.
    + pose proof (be_bytes_bytes 2 n) as Hb. pose proof (BE_be_bytes_2 n ltac:(lia)) as E.
      pose proof (be_bytes_length 2 n) as El.
      destruct (be_bytes 2 n) as [|h [|l [|]]]; try done.
      apply Forall_cons in Hb as [Hh [Hl _]%Forall_cons]. cbn -[Z.shiftl ntohs Nat.leb Nat.ltb le_load].
      change (le_load 2 (h :: l :: key ++ rest)) with (Some (h + Z.shiftl (l + Z.shiftl 0 8) 8)%Z).
      change (Z.shiftl 0 8) with 0%Z. rewrite Z.add_0_r. cbn -[Z.shiftl ntohs Nat.leb Nat.ltb le_load].
      rewrite ?drop_0, Hmask, ntohs_BE, E by done. cbn -[Nat.leb Nat.ltb]. unfold MEDIUM_HEADER in *.
      destruct (8 <=? size)%nat eqn:Eq; zbool.
      * by rewrite (proj2 (Nat.ltb_ge size 8)) by lia.
      * rewrite (proj2 (Nat.ltb_lt size 8)) by lia.
        by rewrite (proj2 (Z.eqb_neq _ 0)) by lia.
    + destruct (be64_load (be_bytes 8 n) (key ++ rest) (be_bytes_bytes 8 n) (be_bytes_length 8 n))
        as (v & Hv & Ev). rewrite BE_be_bytes_8 in Ev by lia.
      change (127 <=? 125)%Z with false. change (127 =? 126)%Z with false.
      change (1 =? 0)%Z with false. cbv iota. cbn [negb].
      cbn [drop]. rewrite ?drop_0, Hv. cbn [mbind option_bind]. cbn [drop].
      rewrite drop_app_length' by (by rewrite be_bytes_length).
      rewrite Hmask, Ev. cbn [mbind option_bind]. unfold LONG_HEADER in *.
      destruct (14 <=? size)%nat eqn:Eq; zbool.
      * by rewrite (proj2 (Nat.ltb_ge size 14)) by lia.
      * rewrite (proj2 (Nat.ltb_lt size 14)) by lia.
        by rewrite (proj2 (Z.eqb_neq _ 0)) by lia.
Qed.

Lemma mask_byte_key k0 k1 k2 k3 i :
  Forall is_byte [k0; k1; k2; k3] ->
  mask_byte (BE (rev [k0; k1; k2; k3])) i = nth (i mod 4) [k0; k1; k2; k3] 0%Z.
Proof.
  intros H. repeat (apply Forall_cons in H as [? H]). unfold is_byte in *. unfold mask_byte.
  pose proof (Nat.mod_upper_bound i 4 ltac:(lia)). set (j := i mod 4) in *. clearbody j.
  change 255%Z with (Z.ones 8). rewrite Z.land_ones, Z.shiftr_div_pow2 by lia.
  change (2 ^ 8)%Z with 256%Z. unfold BE. cbn [rev app fold_left].
  do 4 (destruct j as [|j]; [cbn; Z.div_mod_to_equations; lia|]). lia.
Qed.

Lemma unmask_mask k0 k1 k2 k3 payload :
  Forall is_byte [k0; k1; k2; k3] ->
  imap (fun i b => Z.lxor b (mask_byte (BE (rev [k0; k1; k2; k3])) i))
    (mask_data [k0; k1; k2; k3] payload) = payload.
Proof.
  intros H. apply list_eq. intros i. unfold mask_data. rewrite !list_lookup_imap.
  destruct (payload !! i) as [b|]; cbn [fmap option_fmap option_map]; [|done].
  by rewrite mask_byte_key, Z.lxor_assoc, Z.lxor_nilpotent, Z.lxor_0_r.
Qed.

Lemma mask_data_length key payload : length (mask_data key payload) = length payload.
Proof. apply length_imap. Qed.

Lemma BE_zero l : Forall is_byte l -> BE l = 0%Z -> Forall (eq 0%Z) l.
Proof.
  induction l as [|b l IH] using rev_ind; intros H E; [constructor|].
  apply Forall_app in H as [Hl [Hb _]%Forall_cons]. rewrite BE_snoc in E. unfold is_byte in Hb.
  pose proof (BE_nonneg l Hl). apply Forall_app. split; [apply IH; [done|lia]|].
  constructor; [lia|constructor].
Qed.

Lemma client_head_length fin code key n : length key = 4 -> length (frame_head fin code true n ++ key) = head_len n.
Proof.
  intros Hk. unfold frame_head, len_ext, head_len. rewrite !length_app, Hk.
  destruct (n <? 126)%Z, (n <=? 65535)%Z; rewrite ?be_bytes_length; done.
Qed.

Lemma parse_payload_masked ws fin code key payload rest :
  Forall is_byte key -> length key = 4 -> key <> [0; 0; 0; 0]%Z ->
  parse_payload (ws_after ws fin code (Z.of_nat (length payload)) 0 (BE (rev key))) (mask_data key payload ++ rest) [] =
  (frame_type (opcode_value code) (if fin then 1 else 0)%Z, payload).
Proof.
  intros Hkey Hk Hnz. destruct key as [|k0 [|k1 [|k2 [|k3 [|]]]]]; try done.
  unfold parse_payload. cbn [ws_after payload_length_ mask_ msg_opcode_ msg_fin_].
  rewrite (proj2 (Z.ltb_ge _ _)) by (rewrite length_app, mask_data_length; lia).
  rewrite (proj2 (Z.eqb_neq _ 0)).
  2: { intros E. apply BE_zero in E; [|by apply Forall_rev]. cbn [rev app] in E.
       repeat (apply Forall_cons in E as [<- E]). done. }
  f_equal. cbn [negb]. rewrite Nat2Z.id.
  rewrite take_app_length' by (by rewrite mask_data_length).
  rewrite unmask_mask by done.
  rewrite drop_ge, app_nil_r; [done|]. destruct (_ <? _)%nat; [|simpl; lia].
  unfold resize. rewrite length_app, length_take, length_replicate. simpl. lia.
Qed.

(** Receiving a client's frame: with every byte of the frame in the buffer, the
    header parser returns the length of the header and the payload parser the
    unmasked payload and the frame's type, whatever the connection's state was
    and whatever follows the frame; the masking key must not be zero. *)
Theorem client_frame_received ws fin code key payload rest :
  Forall is_byte key -> length key = 4 -> key <> [0; 0; 0; 0]%Z ->
  (Z.of_nat (length payload) < 2 ^ 64)%Z ->
  let n := Z.of_nat (length payload) in
  let mem := client_frame fin code key payload ++ rest in
  exists ws', parse_header ws mem (length mem) = Some (ws', Z.of_nat (head_len n)) /\
    payload_length_ ws' = n /\ is_fin ws' = fin /\
    parse_payload ws' (drop (head_len n) mem) [] =
      (frame_type (opcode_value code) (if fin then 1 else 0)%Z, payload).
Proof.
  intros Hkey Hk Hnz Hlen n mem. unfold mem, client_frame. rewrite <-!app_assoc. fold n.
  pose proof (client_head_length fin code key n Hk) as Hhead.
  rewrite parse_header_masked by (done || lia).
  rewrite (proj2 (Nat.ltb_ge _ _)) by (rewrite app_assoc, length_app; lia).
  eexists. split; [done|]. split; [done|]. split; [by destruct fin|].
  rewrite app_assoc, drop_app_length' by done. by apply parse_payload_masked.
Qed.

Lemma client_frame_received_witness :
  exists ws', parse_header websocket0
      (client_frame true text [1; 2; 3; 4]%Z (bs "hello") ++ bs "xy") 13 = Some (ws', 6%Z) /\
    parse_payload ws' (drop 6 (client_frame true text [1; 2; 3; 4]%Z (bs "hello") ++ bs "xy")) [] =
      (WS_TEXT_FRAME, bs "hello").
Proof.
  destruct (client_frame_received websocket0 true text [1; 2; 3; 4]%Z (bs "hello") (bs "xy"))
    as (ws' & H1 & _ & _ & H2).
  - apply (bool_decide_unpack _). vm_compute. exact I.
  - reflexivity.
  - discriminate.
  - reflexivity.
  - exists ws'. split; [exact H1|exact H2].
Defined.

Lemma le_load_some n mem : n <= length mem -> exists v, le_load n mem = Some v.
Proof.
  revert mem; induction n as [|n IH]; intros [|b mem] H; cbn in *; [by eexists..|lia|].
  destruct (IH mem ltac:(lia)) as (v & ->). by eexists.
Qed.

Lemma parse_header_short ws b0 b1 mem size :
  12 <= length mem -> (Z.land b1 0x7F <= 127)%Z -> ((Z.land b1 0x7F <= 125)%Z -> size < SHORT_HEADER) ->
  (Z.land b1 0x7F = 126%Z -> size < MEDIUM_HEADER) -> (Z.land b1 0x7F = 127%Z -> size < LONG_HEADER) ->
  exists ws', parse_header ws (b0 :: b1 :: mem) size = Some (ws', (-2)%Z).
Proof.
  intros Hmem Hf Hs Hm Hl. unfold parse_header. destruct (size <? SHORT_HEADER) eqn:Es; zbool; [by eexists|].
  cbn [lookup list_lookup mbind option_bind drop]. set (f := Z.land b1 0x7F) in *.
  rewrite (proj2 (Z.ltb_ge 127 f)) by lia.
  assert (forall k, k <= 8 -> exists v, le_load 4 (drop k mem) = Some v) as Hmask.
  { intros k Hk. apply le_load_some. rewrite length_drop. lia. }
  destruct (f <=? 125)%Z eqn:E1; zbool; [specialize (Hs ltac:(lia)); lia|].
  destruct (f =? 126)%Z eqn:E2; zbool.
  - destruct (le_load_some 2 mem ltac:(lia)) as (v & E). rewrite ?drop_0, E. cbn [mbind option_bind drop].
    specialize (Hm E2). unfold MEDIUM_HEADER in *. rewrite (proj2 (Nat.leb_gt 8 size)) by lia.
    destruct (Hmask 2 ltac:(lia)) as (m & Em). rewrite Em.
    destruct (negb _); cbn [mbind option_bind]; rewrite (proj2 (Z.eqb_neq _ 0)) by lia; by eexists.
  - destruct (le_load_some 8 mem ltac:(lia)) as (v & E). rewrite ?drop_0, E. cbn [mbind option_bind drop].
    specialize (Hl ltac:(lia)). unfold LONG_HEADER in *. rewrite (proj2 (Nat.leb_gt 14 size)) by lia.
    destruct (Hmask 8 ltac:(lia)) as (m & Em). rewrite Em.
    destruct (negb _); cbn [mbind option_bind]; rewrite (proj2 (Z.eqb_neq _ 0)) by lia; by eexists.
Qed.

(** A frame that has not arrived completely is never misread: while the header
    is incomplete the header parser asks for more (-2), although the bytes of
    the buffer behind the received ones are arbitrary, and when the header is
    complete but the payload is not, the payload parser reports an incomplete
    frame and leaves the output buffer alone. *)
Theorem client_frame_incomplete ws fin code key payload garbage size outbuf :
  Forall is_byte key -> length key = 4 -> (Z.of_nat (length payload) < 2 ^ 64)%Z ->
  let n := Z.of_nat (length payload) in
  let mem := take size (client_frame fin code key payload) ++ garbage in
  size < length (client_frame fin code key payload) -> LONG_HEADER <= length mem ->
  if (size <? head_len n)%nat
  then exists ws', parse_header ws mem size = Some (ws', (-2)%Z)
  else exists ws', parse_header ws mem size = Some (ws', Z.of_nat (head_len n)) /\
    parse_payload ws' (slice mem (head_len n) (size - head_len n)) outbuf =
      (WS_INCOMPLETE_FRAME, outbuf).
Proof.
  intros Hkey Hk Hlen n mem Hsize Hmem. pose proof (client_head_length fin code key n Hk) as Hhead.
  destruct (size <? head_len n)%nat eqn:E; zbool.
  - destruct (decide (size < SHORT_HEADER)) as [Hs|Hs].
    { eexists. unfold parse_header. by rewrite (proj2 (Nat.ltb_lt _ _)). }
    unfold SHORT_HEADER, LONG_HEADER in *.
    destruct size as [|[|size]]; [lia..|]. unfold mem, client_frame in *. rewrite <-?app_assoc in *.
    unfold frame_head in *. cbn [app take length] in *. fold n in Hmem |- *.
    destruct (second_byte true (len_field n) (len_field_range n ltac:(lia))) as [Hf _].
    pose proof (len_field_range n ltac:(lia)).
    apply parse_header_short; rewrite ?Hf; try lia; unfold head_len, len_field in *.
    all: repeat case_match; zbool; unfold SHORT_HEADER, MEDIUM_HEADER, LONG_HEADER in *; lia.
  - assert (exists part, mem = frame_head fin code true n ++ key ++ part ++ garbage /\ length part = size - head_len n)
      as (part & Em & Hp).
    { exists (take (size - head_len n) (mask_data key payload)). unfold mem, client_frame. fold n.
      unfold client_frame in Hsize. fold n in Hsize.
      rewrite app_assoc, length_app, Hhead in Hsize. rewrite app_assoc, take_app, take_ge, Hhead by lia.
      rewrite <-!app_assoc, length_take. split; [done|lia]. }
    rewrite Em, parse_header_masked, (proj2 (Nat.ltb_ge _ _)) by (done || lia).
    eexists. split; [done|]. unfold parse_payload. cbn [ws_after payload_length_].
    unfold client_frame in Hsize. fold n in Hsize. rewrite app_assoc, length_app, Hhead, mask_data_length in Hsize.
    rewrite (proj2 (Z.ltb_lt _ _)); [done|]. unfold slice. rewrite length_take, length_drop. lia.
Qed.

Lemma client_frame_incomplete_witness :
  exists ws', parse_header websocket0 (take 8 (client_frame false binary [1; 2; 3; 4]%Z (bs "hello")) ++ bs "garbage") 8 =
    Some (ws', 6%Z) /\
    parse_payload ws' (slice (take 8 (client_frame false binary [1; 2; 3; 4]%Z (bs "hello")) ++ bs "garbage") 6 2) (bs "old") =
      (WS_INCOMPLETE_FRAME, bs "old").
Proof.
  exact (client_frame_incomplete websocket0 false binary [1; 2; 3; 4]%Z (bs "hello") (bs "garbage") 8
    (bs "old") ltac:(apply (bool_decide_unpack _); vm_compute; exact I) eq_refl eq_refl
    ltac:(vm_compute; lia) ltac:(vm_compute; lia)).
Defined.

(** ** The opening handshake *)

(** The Sec-WebSocket-Accept header is the one RFC 6455 asks for: the Base64
    text of the SHA-1 hash of the client's key and the protocol's GUID, 28
    characters long. *)
Theorem accept_key_rfc garbage ws :
  length garbage = 64 -> Forall is_byte (sec_ws_key_ ws) -> length (sec_ws_key_ ws) = 24 ->
  accept_key garbage ws = Some (base64_encode (sha1 (sec_ws_key_ ws ++ ws_guid)) false) /\
  length (base64_encode (sha1 (sec_ws_key_ ws ++ ws_guid)) false) = 28.
Proof.
  intros Hg Hk Hl. unfold accept_key. rewrite take_ge by lia.
  rewrite SHA1_ok; [|done|apply Forall_app; split; [done|apply bs_bytes]|rewrite length_app, Hl; done].
  cbn [mbind option_bind]. pose proof (sha1_length (sec_ws_key_ ws ++ ws_guid)) as Hs.
  set (d := sha1 _) in *. clearbody d.
  assert (length (base64_encode d false) = 28) as Hb.
  { do 20 (destruct d as [|? d]; [done|]). by destruct d. }
  split; [|done]. by rewrite take_ge by lia.
Qed.

Lemma accept_key_rfc_witness :
  accept_key (replicate 64 0%Z) (mk_ws (bs "dGhlIHNhbXBsZSBub25jZQ==") 0 0 0 0 0) =
    Some (bs "s3pPLMBiTxaQ9kYGzzhZRbK+xOo=").
Proof.
  destruct (accept_key_rfc (replicate 64 0%Z) (mk_ws (bs "dGhlIHNhbXBsZSBub25jZQ==") 0 0 0 0 0))
    as [H _].
  - reflexivity.
  - apply bs_bytes.
  - reflexivity.
  - rewrite H. vm_compute. reflexivity.
Defined.

(** ** Close frames *)

(** the status codes an endpoint may send *)
Definition close_code_ok (c : Z) : Prop :=
  (1000 <= c <= 1003 \/ 1007 <= c <= 1011 \/ 4000 <= c <= 4999)%Z.

(** A close payload survives the wire: for every status code an endpoint may
    send and every well-formed UTF-8 reason, parsing the formatted payload gives
    the code and the reason back. *)
Theorem close_payload_roundtrip c msg :
  close_code_ok c -> Forall is_byte msg -> well_formed msg ->
  parse_close_payload (format_close_payload c msg) = Some (c, Some msg).
Proof.
  unfold close_code_ok. intros Hc Hb Hw. unfold format_close_payload.
  rewrite (proj2 (Z.eqb_neq c 0)) by lia. cbn [negb].
  assert (c = BE [c / 256; c mod 256])%Z as E by (unfold BE; cbn [fold_left]; Z.div_mod_to_equations; lia).
  assert (is_byte (c / 256)) as B0 by (unfold is_byte; Z.div_mod_to_equations; lia).
  assert (is_byte (c mod 256)) as B1 by (unfold is_byte; Z.div_mod_to_equations; lia).
  rewrite E at 1. rewrite htons_store by done. cbn [app parse_close_payload].
  rewrite ntohs_BE, <-E by done.
  destruct (utf8_loop_spec (S (length msg)) msg Hb ltac:(lia)) as (v & Hv & Hiff).
  unfold is_valid_utf8. rewrite Hv. cbn [mbind option_bind].
  rewrite (proj2 Hiff Hw). cbn [negb]. rewrite orb_false_r.
  destruct (_ || _) eqn:Ec; [|done]. zsplit; lia.
Qed.

Lemma close_payload_roundtrip_witness :
  parse_close_payload (format_close_payload 1000 (bs "bye")) = Some (1000%Z, Some (bs "bye")).
Proof.
  apply (close_payload_roundtrip 1000 (bs "bye")).
  - left. split; discriminate.
  - apply bs_bytes.
  - exists (bs "bye"). split; [|reflexivity].
    repeat (constructor; [left; vm_compute; split; [discriminate|reflexivity]|]). constructor.
Defined.

(** a close frame with the opcode 8 in place of a status code is rejected by the
    peer's own check *)
Lemma close_with_opcode_rejected msg :
  Forall is_byte msg ->
  parse_close_payload (format_close_payload (opcode_value close) msg) = Some (0%Z, None).
Proof.
  intros Hb. change (format_close_payload (opcode_value close) msg) with (0%Z :: 8%Z :: msg).
  cbn [parse_close_payload]. destruct (utf8_loop_spec (S (length msg)) msg Hb ltac:(lia)) as (v & Hv & _).
  unfold is_valid_utf8. by rewrite Hv.
Qed.

(** an all-zero masking key loses the payload, and an unmasked frame is decoded
    with the key of the frame before it *)
Lemma zero_mask_loses_payload :
  (exists ws', parse_header websocket0 (client_frame true text [0; 0; 0; 0]%Z (bs "hi")) 8 =
     Some (ws', 6%Z) /\
     parse_payload ws' (mask_data [0; 0; 0; 0]%Z (bs "hi")) [] = (WS_TEXT_FRAME, [0; 0]%Z)) /\
  (exists ws', parse_header (mk_ws [] 0 0 0x01010101 0 0) (format_message (bs "hihihi") text) 8 =
     Some (ws', 2%Z) /\
     parse_payload ws' (bs "hihihi") [] = (WS_TEXT_FRAME, bs "ihihih")).
Proof. split; eexists; split; vm_compute; reflexivity. Qed.
