(* ===== verification/HeapTimer.v ===== *)
(** * The connection timer

    src/core/heaptimer.cpp: a binary min-heap of timers with a map from ids to
    positions.  Time points are nanoseconds; a call of Clock::now() is an
    argument.  [None] is undefined behaviour: an access outside the vector or a
    failed assertion.  A callback is represented by the node it belongs to: the
    operations return the nodes whose callback they ran, in order. *)

From Stdlib Require Import ZArith Lia Sorted.
From stdpp Require Import base numbers list gmap strings.
From S2P Require Import Prelude CStd.

Record TimerNode := mk_node { node_id : Z; expires : Z }.

#[export] Instance TimerNode_inhabited : Inhabited TimerNode := populate (mk_node 0 0).
#[export] Instance TimerNode_eq_dec : EqDecision TimerNode.
Proof. solve_decision. Defined.

(** operator< *)
Definition node_lt (a b : TimerNode) : bool := (expires a <? expires b)%Z.

Record HeapTimer := mk_timer { heap_ : list TimerNode; ref_ : gmap Z nat }.

Definition timer0 : HeapTimer := mk_timer [] ∅.

Definition SwapNode_ (t : HeapTimer) (i j : nat) : option HeapTimer :=
  x ← heap_ t !! i;
  y ← heap_ t !! j;
  Some (mk_timer (<[i := y]> (<[j := x]> (heap_ t)))
          (<[node_id x := j]> (<[node_id y := i]> (ref_ t)))).

(** the loop of siftup_; its condition [j >= 0] is always true, and the parent
    of the root is computed as (0 - 1) / 2 in size_t *)
Fixpoint siftup_loop (fuel : nat) (t : HeapTimer) (i : nat) : option HeapTimer :=
  match fuel with
  | O => None
  | S fuel =>
      let j := Z.to_nat (Z.quot (wrap64 (Z.of_nat i - 1)) 2) in
      x ← heap_ t !! j;
      y ← heap_ t !! i;
      if node_lt x y then Some t
      else t ← SwapNode_ t i j; siftup_loop fuel t j
  end.

Definition siftup_ (t : HeapTimer) (i : nat) : option HeapTimer :=
  if (length (heap_ t) <=? i)%nat then None
  else if (i =? 0)%nat then Some t
  else siftup_loop (S i) t i.

(** the smaller child *)
Definition smaller_child (t : HeapTimer) (i n : nat) : option nat :=
  let j := i * 2 + 1 in
  if (j + 1 <? n)%nat then
    x ← heap_ t !! (j + 1);
    y ← heap_ t !! j;
    Some (if node_lt x y then j + 1 else j)
  else Some j.

Fixpoint siftdown_loop (fuel : nat) (t : HeapTimer) (i n : nat) : option (HeapTimer * nat) :=
  match fuel with
  | O => None
  | S fuel =>
      if (i * 2 + 1 <? n)%nat then
        j ← smaller_child t i n;
        x ← heap_ t !! i;
        y ← heap_ t !! j;
        if node_lt x y then Some (t, i)
        else t ← SwapNode_ t i j; siftdown_loop fuel t j n
      else Some (t, i)
  end.

Definition siftdown_ (t : HeapTimer) (idx n : nat) : option (HeapTimer * bool) :=
  if (length (heap_ t) <=? idx)%nat || (length (heap_ t) <? n)%nat then None
  else '(t, i) ← siftdown_loop (S n) t idx n; Some (t, (idx <? i)%nat).

(** [now] is Clock::now(); [timeout] is in milliseconds *)
Definition expiry (now timeout : Z) : Z := (now + timeout * 1000000)%Z.

Definition add (t : HeapTimer) (id timeout now : Z) : option HeapTimer :=
  if (id <? 0)%Z then None
  else match ref_ t !! id with
  | None =>
      let i := length (heap_ t) in
      siftup_ (mk_timer (heap_ t ++ [mk_node id (expiry now timeout)]) (<[id := i]> (ref_ t))) i
  | Some i =>
      if (length (heap_ t) <=? i)%nat then None
      else
        let t := mk_timer (<[i := mk_node id (expiry now timeout)]> (heap_ t)) (ref_ t) in
        '(t, down) ← siftdown_ t i (length (heap_ t));
        if (down : bool) then Some t else siftup_ t i
  end.

Definition del_ (t : HeapTimer) (i : nat) : option HeapTimer :=
  if (length (heap_ t) <=? i)%nat then None
  else
    let n := length (heap_ t) - 1 in
    t ← (if (i <? n)%nat then
           t ← SwapNode_ t i n;
           '(t, down) ← siftdown_ t i n;
           if (down : bool) then Some t else siftup_ t i
         else Some t);
    x ← last (heap_ t);
    Some (mk_timer (take (length (heap_ t) - 1) (heap_ t)) (delete (node_id x) (ref_ t))).

Definition doWork (t : HeapTimer) (id : Z) : option (HeapTimer * list TimerNode) :=
  match heap_ t, ref_ t !! id with
  | [], _ | _, None => Some (t, [])
  | _, Some i =>
      node ← heap_ t !! i;
      t ← del_ t i;
      Some (t, [node])
  end.

Definition adjust (t : HeapTimer) (id timeout now : Z) : option HeapTimer :=
  i ← ref_ t !! id;
  x ← heap_ t !! i;
  let t := mk_timer (<[i := mk_node (node_id x) (expiry now timeout)]> (heap_ t)) (ref_ t) in
  '(t, _) ← siftdown_ t i (length (heap_ t));
  Some t.

Definition pop (t : HeapTimer) : option HeapTimer := del_ t 0.

(** duration_cast<MS>(d).count() *)
Definition millis (d : Z) : Z := Z.quot d 1000000.

(** [now k] is the k-th reading of the clock *)
Fixpoint tick_loop (fuel : nat) (now : nat -> Z) (k : nat) (t : HeapTimer)
  : option (HeapTimer * list TimerNode) :=
  match fuel with
  | O => None
  | S fuel =>
      match heap_ t with
      | [] => Some (t, [])
      | node :: _ =>
          if (0 <? millis (expires node - now k))%Z then Some (t, [])
          else
            t ← pop t;
            '(t, fired) ← tick_loop fuel now (S k) t;
            Some (t, node :: fired)
      end
  end.

Definition tick (now : nat -> Z) (t : HeapTimer) : option (HeapTimer * list TimerNode) :=
  tick_loop (S (length (heap_ t))) now 0 t.

Definition clear (t : HeapTimer) : HeapTimer := timer0.

(** [later] is the reading of the clock after the tick; res is a size_t, so
    [res < 0] is never true *)
Definition GetNextTick (now : nat -> Z) (later : Z) (t : HeapTimer)
  : option (HeapTimer * list TimerNode * Z) :=
  '(t, fired) ← tick now t;
  let res := match heap_ t with
             | [] => wrap64 (-1)
             | node :: _ =>
                 let res := wrap64 (millis (expires node - later)) in
                 if (res <? 0)%Z then 0%Z else res
             end in
  Some (t, fired, to_int32 res).

(** ** Invariant *)

Definition parent (k : nat) : nat := (k - 1) / 2.

Definition E (h : list TimerNode) (i : nat) : Z := expires (h !!! i).

(** the first [n] nodes are heap-ordered *)
Definition heap_ok (h : list TimerNode) (n : nat) : Prop :=
  forall k, 0 < k < n -> (E h (parent k) <= E h k)%Z.

(** [ref_] maps the ids of the nodes, which are distinct, to their positions *)
Definition ref_ok (t : HeapTimer) : Prop :=
  forall id i, ref_ t !! id = Some i <-> exists x, heap_ t !! i = Some x /\ node_id x = id.

Definition timer_ok (t : HeapTimer) : Prop :=
  heap_ok (heap_ t) (length (heap_ t)) /\ ref_ok t.

(** ** Swapping *)

Lemma lookup_E (h : list TimerNode) i x : h !! i = Some x -> E h i = expires x.
Proof. intros H. unfold E. by rewrite (list_lookup_total_correct _ _ _ H). Qed.

Definition swapped (i j k : nat) : nat :=
  if decide (k = i) then j else if decide (k = j) then i else k.

(** a swap is defined inside the heap, permutes it and keeps [ref_] right *)
Lemma swap_lookup (h : list TimerNode) i j x y k :
  h !! i = Some x -> h !! j = Some y ->
  <[i := y]> (<[j := x]> h) !! k = h !! swapped i j k.
Proof.
  intros Hx Hy. pose proof (lookup_lt_Some _ _ _ Hx). pose proof (lookup_lt_Some _ _ _ Hy).
  unfold swapped. destruct (decide (k = i)) as [->|].
  - rewrite list_lookup_insert_eq; [done|]. by rewrite length_insert.
  - rewrite list_lookup_insert_ne by done. destruct (decide (k = j)) as [->|].
    + rewrite list_lookup_insert_eq by done. done.
    + by rewrite list_lookup_insert_ne.
Qed.

Lemma swapped_involutive i j k : swapped i j (swapped i j k) = k.
Proof. unfold swapped. repeat case_decide; congruence. Qed.

Lemma ref_ok_inj t a b x y :
  ref_ok t -> heap_ t !! a = Some x -> heap_ t !! b = Some y -> node_id x = node_id y -> a = b.
Proof.
  intros Href Ha Hb Hid.
  assert (ref_ t !! node_id x = Some a) as H1 by (apply Href; by exists x).
  assert (ref_ t !! node_id x = Some b) as H2 by (apply Href; by exists y).
  congruence.
Qed.

Lemma swap_ref_ok t i j x y h' :
  ref_ok t -> heap_ t !! i = Some x -> heap_ t !! j = Some y ->
  (forall k, h' !! k = heap_ t !! swapped i j k) ->
  ref_ok (mk_timer h' (<[node_id x := j]> (<[node_id y := i]> (ref_ t)))).
Proof.
  intros Href Hx Hy Hl id k. cbn. rewrite Hl.
  assert (swapped i j i = j) as Si by (unfold swapped; by rewrite decide_True).
  assert (swapped i j j = i) as Sj
    by (unfold swapped; case_decide; [done|by rewrite decide_True]).
  destruct (decide (id = node_id x)) as [->|Nx].
  { rewrite lookup_insert_eq. split.
    - intros [= <-]. exists x. by rewrite Sj.
    - intros (z & Hz & Hid). pose proof (ref_ok_inj _ _ _ _ _ Href Hz Hx Hid) as Ek.
      f_equal. rewrite <-(swapped_involutive i j k), Ek, Si. done. }
  rewrite lookup_insert_ne by done.
  destruct (decide (id = node_id y)) as [->|Ny].
  { rewrite lookup_insert_eq. split.
    - intros [= <-]. exists y. by rewrite Si.
    - intros (z & Hz & Hid). pose proof (ref_ok_inj _ _ _ _ _ Href Hz Hy Hid) as Ek.
      f_equal. rewrite <-(swapped_involutive i j k), Ek, Sj. done. }
  rewrite lookup_insert_ne, (Href id k) by done.
  assert (forall a z, heap_ t !! a = Some z -> node_id z = id -> a <> i /\ a <> j) as Hne
    by (intros a z Ha Hid; split; intros ->; congruence).
  split; intros (z & Hz & Hid); exists z; (split; [|done]); destruct (Hne _ _ Hz Hid) as [N1 N2].
  - unfold swapped. by rewrite !decide_False.
  - unfold swapped in Hz, N1, N2. repeat case_decide; congruence.
Qed.

Lemma SwapNode_spec t i j :
  i < length (heap_ t) -> j < length (heap_ t) -> ref_ok t -> exists t',
  SwapNode_ t i j = Some t' /\ length (heap_ t') = length (heap_ t) /\
  (forall k, heap_ t' !! k = heap_ t !! swapped i j k) /\
  (forall k, E (heap_ t') k = E (heap_ t) (swapped i j k)) /\
  heap_ t' ≡ₚ heap_ t /\ ref_ok t'.
Proof.
  intros Hi Hj Href. unfold SwapNode_.
  destruct (lookup_lt_is_Some_2 _ _ Hi) as [x Hx], (lookup_lt_is_Some_2 _ _ Hj) as [y Hy].
  rewrite Hx, Hy. cbn. eexists. split; [done|]. cbn.
  pose proof (fun k => swap_lookup _ _ _ _ _ k Hx Hy) as Hl.
  split_and!; [by rewrite !length_insert|done| | |].
  - intros k. unfold E. by rewrite !list_lookup_total_alt, Hl.
  - by apply Permutation_insert_swap.
  - by apply swap_ref_ok.
Qed.

(** ** Sifting down *)

(** heap order holds but possibly between [i] and its children *)
Definition heap_below (h : list TimerNode) (n i : nat) : Prop :=
  (forall k, 0 < k < n -> parent k <> i -> (E h (parent k) <= E h k)%Z) /\
  (forall k, 0 < k < n -> parent k = i -> 0 < i -> (E h (parent i) <= E h k)%Z).

Lemma parent_spec k : 0 < k -> k = 2 * parent k + 1 \/ k = 2 * parent k + 2.
Proof. intros H. unfold parent. pose proof (Nat.div_mod_eq (k - 1) 2). pose proof (Nat.mod_upper_bound (k - 1) 2 ltac:(lia)). lia. Qed.

Lemma node_lt_E (h : list TimerNode) i j x y :
  h !! i = Some x -> h !! j = Some y -> node_lt x y = (E h i <? E h j)%Z.
Proof. intros Hx Hy. unfold node_lt. by rewrite (lookup_E _ _ _ Hx), (lookup_E _ _ _ Hy). Qed.

Lemma smaller_child_spec t i n :
  n <= length (heap_ t) -> 2 * i + 1 < n -> exists j,
  smaller_child t i n = Some j /\ j < n /\ i < j /\ parent j = i /\
  (forall k, 0 < k < n -> parent k = i -> (E (heap_ t) j <= E (heap_ t) k)%Z).
Proof.
  intros Hn Hi. unfold smaller_child.
  assert (parent (i * 2 + 1) = i /\ parent (i * 2 + 1 + 1) = i) as [P1 P2].
  { pose proof (parent_spec (i * 2 + 1)). pose proof (parent_spec (i * 2 + 1 + 1)). lia. }
  destruct (_ <? n)%nat eqn:Ej; zbool.
  - destruct (lookup_lt_is_Some_2 (heap_ t) (i * 2 + 1 + 1)) as [x Hx]; [lia|].
    destruct (lookup_lt_is_Some_2 (heap_ t) (i * 2 + 1)) as [y Hy]; [lia|].
    rewrite Hx, Hy. cbn [mbind option_bind]. eexists. split; [done|].
    rewrite (node_lt_E _ _ _ _ _ Hx Hy).
    destruct (_ <? _)%Z eqn:Elt; zbool; (split_and!; [lia|lia|done|]); intros k Hk Hp;
      pose proof (parent_spec k ltac:(lia)) as Hs; rewrite Hp in Hs;
      assert (k = i * 2 + 1 \/ k = i * 2 + 1 + 1) as [-> | ->] by lia; lia.
  - eexists. split; [done|]. split_and!; [lia|lia|done|]. intros k Hk Hp.
    pose proof (parent_spec k ltac:(lia)) as Hs. rewrite Hp in Hs.
    assert (k = i * 2 + 1) as -> by lia. lia.
Qed.

Lemma heap_below_step (h h' : list TimerNode) n i j :
  heap_below h n i -> 0 < j < n -> parent j = i -> i < j ->
  (forall k, E h' k = E h (swapped i j k)) ->
  (forall k, 0 < k < n -> parent k = i -> (E h j <= E h k)%Z) -> (E h j <= E h i)%Z ->
  heap_below h' n j.
Proof.
  intros [HA HB] Hj Hp Hij HE Hmin Hle.
  assert (E h' i = E h j) as Ei by (rewrite HE; unfold swapped; by rewrite decide_True).
  assert (E h' j = E h i) as Ej
    by (rewrite HE; unfold swapped; rewrite decide_False by lia; by rewrite decide_True).
  assert (forall k, k <> i -> k <> j -> E h' k = E h k) as Ek
    by (intros k ??; rewrite HE; unfold swapped; by rewrite !decide_False).
  split.
  - intros k Hk Hpk. pose proof (parent_spec k ltac:(lia)). pose proof (parent_spec j ltac:(lia)).
    destruct (decide (k = j)) as [->|Nj]; [rewrite Hp, Ei, Ej; done|].
    destruct (decide (parent k = i)) as [Epk|Npk].
    + rewrite Epk, Ei, (Ek k) by lia. by apply Hmin.
    + rewrite (Ek (parent k)) by done. destruct (decide (k = i)) as [->|Ni].
      * rewrite Ei. apply (HB j); [lia|done|lia].
      * rewrite (Ek k) by done. by apply HA.
  - intros k Hk Hpk _. pose proof (parent_spec k ltac:(lia)). rewrite Hp, Ei, (Ek k) by lia.
    rewrite <-Hpk. apply HA; [done|]. lia.
Qed.

Lemma siftdown_loop_spec fuel t i n :
  ref_ok t -> n <= length (heap_ t) -> i < length (heap_ t) -> n - i < fuel ->
  heap_below (heap_ t) n i -> exists t' i',
  siftdown_loop fuel t i n = Some (t', i') /\ i <= i' /\ heap_ok (heap_ t') n /\
  heap_ t' ≡ₚ heap_ t /\ ref_ok t' /\ (i' = i -> t' = t) /\
  (forall k, n <= k -> i < n -> heap_ t' !! k = heap_ t !! k).
Proof.
  revert t i; induction fuel as [|fuel IH]; intros t i Href Hn Hi Hf Hb; [lia|].
  cbn [siftdown_loop]. destruct (_ <? n)%nat eqn:Ec; zbool.
  2: { exists t, i. split_and!; try done. intros k Hk. apply (proj1 Hb); [done|].
       pose proof (parent_spec k ltac:(lia)). lia. }
  destruct (smaller_child_spec t i n Hn ltac:(lia)) as (j & -> & Hjn & Hij & Hp & Hmin).
  cbn [mbind option_bind].
  destruct (lookup_lt_is_Some_2 (heap_ t) i Hi) as [x Hx].
  destruct (lookup_lt_is_Some_2 (heap_ t) j ltac:(lia)) as [y Hy]. rewrite Hx, Hy.
  cbn [mbind option_bind]. rewrite (node_lt_E _ _ _ _ _ Hx Hy).
  destruct (_ <? _)%Z eqn:Elt; zbool.
  { exists t, i. split_and!; try done. intros k Hk.
    destruct (decide (parent k = i)) as [Epk|Npk]; [|by apply (proj1 Hb)].
    specialize (Hmin k Hk Epk). rewrite Epk. lia. }
  destruct (SwapNode_spec t i j Hi ltac:(lia) Href) as (t1 & -> & Hl1 & Hlk & HE & Hperm & Href1).
  cbn [mbind option_bind].
  destruct (IH t1 j Href1 ltac:(lia) ltac:(lia) ltac:(lia))
    as (t2 & i2 & -> & Hi2 & Hok & Hp2 & Hr2 & _ & Hk2).
  { eapply (heap_below_step (heap_ t)); eauto; lia. }
  exists t2, i2. split_and!; try done; [lia|by rewrite Hp2|lia|].
  intros k Hk Hin. rewrite Hk2, Hlk by lia. unfold swapped. by rewrite !decide_False by lia.
Qed.

(** ** Sifting up *)

(** heap order holds but possibly between [i] and its parent *)
Definition heap_above (h : list TimerNode) (n i : nat) : Prop :=
  (forall k, 0 < k < n -> k <> i -> (E h (parent k) <= E h k)%Z) /\
  (forall k, 0 < k < n -> parent k = i -> 0 < i -> (E h (parent i) <= E h k)%Z).

Lemma parent_size_t i :
  0 < i -> (Z.of_nat i <= 2 ^ 64)%Z -> Z.to_nat (Z.quot (wrap64 (Z.of_nat i - 1)) 2) = parent i.
Proof.
  intros H1 H2. unfold parent, wrap64. rewrite Z.mod_small by lia.
  rewrite Z.quot_div_nonneg by lia.
  apply Nat2Z.inj. rewrite Z2Nat.id, Nat2Z.inj_div, Nat2Z.inj_sub by (try apply Z.div_pos; lia). done.
Qed.

Lemma heap_above_step (h h' : list TimerNode) n i :
  heap_above h n i -> 0 < i < n -> 0 < parent i ->
  (forall k, E h' k = E h (swapped i (parent i) k)) -> (E h i <= E h (parent i))%Z ->
  heap_above h' n (parent i).
Proof.
  intros [HA HB] Hi Hj HE Hle. set (j := parent i) in *.
  pose proof (parent_spec i ltac:(lia)) as Hpi. fold j in Hpi.
  pose proof (parent_spec j Hj) as Hpj.
  assert (E h' i = E h j) as Ei by (rewrite HE; unfold swapped; by rewrite decide_True).
  assert (E h' j = E h i) as Ej
    by (rewrite HE; unfold swapped; rewrite decide_False by lia; by rewrite decide_True).
  assert (forall k, k <> i -> k <> j -> E h' k = E h k) as Ek
    by (intros k ??; rewrite HE; unfold swapped; by rewrite !decide_False).
  assert (E h (parent j) <= E h j)%Z as Hjj by (apply HA; lia).
  split.
  - intros k Hk Nj. pose proof (parent_spec k ltac:(lia)).
    destruct (decide (k = i)) as [->|Ni]; [fold j; lia|]. rewrite (Ek k) by done.
    destruct (decide (parent k = i)) as [Epk|Npk].
    { rewrite Epk, Ei. apply HB; lia. }
    pose proof (HA k ltac:(lia) Ni) as Hkk. destruct (decide (parent k = j)) as [Epk|Npj].
    + rewrite Epk in *. lia.
    + by rewrite (Ek (parent k)).
  - intros k Hk Hpk _. rewrite (Ek (parent j)) by lia.
    destruct (decide (k = i)) as [->|Ni]; [lia|].
    pose proof (parent_spec k ltac:(lia)). rewrite (Ek k) by lia.
    pose proof (HA k ltac:(lia) Ni) as Hkk. rewrite Hpk in Hkk. lia.
Qed.

Lemma siftup_loop_spec fuel t i n :
  ref_ok t -> (Z.of_nat (length (heap_ t)) <= 2 ^ 64)%Z -> 0 < i < n -> n <= length (heap_ t) ->
  i < fuel -> (E (heap_ t) 0 < E (heap_ t) i)%Z -> heap_above (heap_ t) n i -> exists t',
  siftup_loop fuel t i = Some t' /\ heap_ok (heap_ t') n /\ heap_ t' ≡ₚ heap_ t /\ ref_ok t' /\
  (forall k, n <= k -> heap_ t' !! k = heap_ t !! k).
Proof.
  revert t i; induction fuel as [|fuel IH]; intros t i Href Hmax Hi Hn Hf Hroot Hb; [lia|].
  cbn [siftup_loop]. rewrite parent_size_t by lia. pose proof (parent_spec i ltac:(lia)) as Hpi.
  destruct (lookup_lt_is_Some_2 (heap_ t) (parent i)) as [x Hx]; [lia|].
  destruct (lookup_lt_is_Some_2 (heap_ t) i) as [y Hy]; [lia|]. rewrite Hx, Hy.
  cbn [mbind option_bind]. rewrite (node_lt_E _ _ _ _ _ Hx Hy).
  destruct (_ <? _)%Z eqn:Elt; zbool.
  { exists t. split_and!; try done. intros k Hk.
    destruct (decide (k = i)) as [->|Ni]; [lia|]. by apply (proj1 Hb). }
  assert (0 < parent i) as Hpos.
  { destruct (decide (parent i = 0)) as [E0|]; [rewrite E0 in Elt; lia|lia]. }
  destruct (SwapNode_spec t i (parent i) ltac:(lia) ltac:(lia) Href)
    as (t1 & -> & Hl1 & Hlk & HE & Hperm & Href1). cbn [mbind option_bind].
  assert (forall a, a <> i -> a <> parent i -> swapped i (parent i) a = a) as Hs
    by (intros; unfold swapped; by rewrite !decide_False).
  destruct (IH t1 (parent i) Href1 ltac:(lia) ltac:(lia) ltac:(lia) ltac:(lia))
    as (t2 & -> & Hok & Hp2 & Hr2 & Hk2).
  - rewrite !HE, Hs by lia. unfold swapped. rewrite decide_False by lia. by rewrite decide_True.
  - apply (heap_above_step (heap_ t)); auto; lia.
  - exists t2. split_and!; try done; [by rewrite Hp2|]. intros k Hk. by rewrite Hk2, Hlk, Hs by lia.
Qed.

(** ** Repairing the heap after a change at [i] *)

(** heap order holds away from [i], and between the parent and the children of [i] *)
Definition heap_hole (h : list TimerNode) (n i : nat) : Prop :=
  (forall k, 0 < k < n -> k <> i -> parent k <> i -> (E h (parent k) <= E h k)%Z) /\
  (forall k, 0 < k < n -> parent k = i -> 0 < i -> (E h (parent i) <= E h k)%Z).

Lemma siftdown_stays t i n :
  n <= length (heap_ t) -> i < length (heap_ t) ->
  (forall k, 0 < k < n -> parent k = i -> (E (heap_ t) i < E (heap_ t) k)%Z) ->
  siftdown_loop (S n) t i n = Some (t, i).
Proof.
  intros Hn Hi Hk. cbn [siftdown_loop]. destruct (_ <? n)%nat eqn:Ec; zbool; [|done].
  destruct (smaller_child_spec t i n Hn ltac:(lia)) as (j & -> & Hjn & Hij & Hp & Hmin).
  cbn [mbind option_bind].
  destruct (lookup_lt_is_Some_2 (heap_ t) i Hi) as [x Hx].
  destruct (lookup_lt_is_Some_2 (heap_ t) j ltac:(lia)) as [y Hy]. rewrite Hx, Hy.
  cbn [mbind option_bind]. rewrite (node_lt_E _ _ _ _ _ Hx Hy).
  by rewrite (proj2 (Z.ltb_lt _ _) (Hk j ltac:(lia) Hp)).
Qed.

(** either every child of [i] is later than [i] or some child is not *)
Lemma children_later h n i :
  (forall k, 0 < k < n -> parent k = i -> (E h i < E h k)%Z) \/
  (exists k, 0 < k < n /\ parent k = i /\ (E h k <= E h i)%Z).
Proof.
  destruct (decide (Exists (fun k => 0 < k < n /\ parent k = i /\ (E h k <= E h i)%Z) (seq 0 n)))
    as [H|H].
  - right. apply Exists_exists in H as (k & _ & H). eauto.
  - left. intros k Hk Hp. apply Znot_ge_lt. intros Hge. apply H, Exists_exists. exists k.
    split; [apply elem_of_seq; lia|]. split_and!; [lia..|done|lia].
Qed.

Lemma siftdown_repair t i n :
  ref_ok t -> i < n -> n <= length (heap_ t) -> heap_hole (heap_ t) n i -> exists t' (down : bool),
  siftdown_ t i n = Some (t', down) /\ heap_ t' ≡ₚ heap_ t /\ ref_ok t' /\
  (forall k, n <= k -> heap_ t' !! k = heap_ t !! k) /\
  (if down then heap_ok (heap_ t') n else t' = t /\ heap_above (heap_ t) n i).
Proof.
  intros Href Hi Hn [HA HB]. unfold siftdown_.
  rewrite (proj2 (Nat.leb_gt _ _)), (proj2 (Nat.ltb_ge _ _)) by lia. cbn [orb].
  destruct (children_later (heap_ t) n i) as [Hc|(k & Hk & Hp & Hle)].
  - rewrite siftdown_stays by (lia || done). cbn [mbind option_bind].
    rewrite (proj2 (Nat.ltb_ge i i)) by lia.
    exists t, false. split_and!; try done. split; [|done]. intros k Hk Ni.
    destruct (decide (parent k = i)) as [Ep|]; [|by apply HA]. specialize (Hc k Hk Ep). rewrite Ep. lia.
  - assert (heap_below (heap_ t) n i) as Hb.
    { split; [|done]. intros k' Hk' Np. destruct (decide (k' = i)) as [->|]; [|by apply HA].
      specialize (HB k Hk Hp). lia. }
    destruct (siftdown_loop_spec (S n) t i n Href Hn ltac:(lia) ltac:(lia) Hb)
      as (t' & i' & -> & Hge & Hok & Hperm & Hr & Hsame & Hrest). cbn [mbind option_bind].
    exists t', (i <? i')%nat. split_and!; try done; [by intros; apply Hrest|].
    destruct (i <? i')%nat eqn:Ei; zbool; [done|]. rewrite <-Hsame by lia. split; [done|].
    split; [by intros; apply Hok|]. intros k' Hk' Hp' H0. rewrite Hsame by lia. by apply HB.
Qed.

Lemma resift_spec t i n :
  ref_ok t -> (Z.of_nat (length (heap_ t)) <= 2 ^ 64)%Z -> i < n -> n <= length (heap_ t) ->
  heap_hole (heap_ t) n i -> (i = 0 \/ (E (heap_ t) 0 < E (heap_ t) i)%Z) -> exists t',
  ('(t, down) ← siftdown_ t i n; if (down : bool) then Some t else siftup_ t i) = Some t' /\
  heap_ok (heap_ t') n /\ heap_ t' ≡ₚ heap_ t /\ ref_ok t' /\
  (forall k, n <= k -> heap_ t' !! k = heap_ t !! k).
Proof.
  intros Href Hmax Hi Hn Hh Hroot.
  destruct (siftdown_repair t i n Href Hi Hn Hh) as (t1 & [] & -> & Hp & Hr & Hrest & Hd);
    cbn [mbind option_bind].
  { by exists t1. }
  destruct Hd as [-> Ha]. unfold siftup_. rewrite (proj2 (Nat.leb_gt _ _)) by lia.
  destruct (i =? 0)%nat eqn:E0; zbool.
  - subst i. exists t. split_and!; try done. intros k Hk. apply (proj1 Ha); lia.
  - apply siftup_loop_spec; try done; lia || (destruct Hroot; [lia|done]).
Qed.

Lemma heap_ok_hole (h h' : list TimerNode) n i :
  heap_ok h n -> (forall k, k < n -> k <> i -> E h' k = E h k) -> heap_hole h' n i.
Proof.
  intros Hok HE. split.
  - intros k Hk Ni Np. pose proof (parent_spec k ltac:(lia)). rewrite !HE by lia. by apply Hok.
  - intros k Hk Hp H0. pose proof (parent_spec k ltac:(lia)). pose proof (parent_spec i H0).
    rewrite !HE by lia. pose proof (Hok k Hk). rewrite Hp in *. pose proof (Hok i ltac:(lia)). lia.
Qed.

(** ** The operations *)

Lemma pop_back_ref_ok h x r :
  ref_ok (mk_timer (h ++ [x]) r) -> ref_ok (mk_timer h (delete (node_id x) r)).
Proof.
  intros Href id i. cbn. rewrite lookup_delete_Some, (Href id i). cbn.
  assert (heap_ (mk_timer (h ++ [x]) r) !! length h = Some x) as Hlast
    by (cbn; by rewrite lookup_app_r, Nat.sub_diag by lia).
  split.
  - intros [Hid (y & Hy & Hyid)]. exists y. split; [|done].
    apply lookup_app_Some in Hy as [Hy|[Hge Hy]]; [done|]. apply list_lookup_singleton_Some in Hy.
    naive_solver.
  - intros (y & Hy & Hyid). assert (heap_ (mk_timer (h ++ [x]) r) !! i = Some y) as Hy'
      by (cbn; by apply lookup_app_l_Some). split; [|by exists y].
    intros Heq. apply lookup_lt_Some in Hy as Hlt.
    pose proof (ref_ok_inj _ _ _ _ _ Href Hy' Hlast ltac:(congruence)). lia.
Qed.

Lemma take_last_snoc {A} (l : list A) n x :
  length l = S n -> l !! n = Some x -> l = take n l ++ [x].
Proof.
  intros Hl Hx. rewrite <-(take_drop n l) at 1. f_equal.
  rewrite (drop_S _ x) by done. by rewrite drop_ge by lia.
Qed.

Lemma E_app_l h h' k : k < length h -> E (h ++ h') k = E h k.
Proof. intros H. unfold E. by rewrite lookup_total_app_l. Qed.

Lemma E_insert_ne h i k x : k <> i -> E (<[i := x]> h) k = E h k.
Proof. intros H. unfold E. by rewrite list_lookup_total_insert_ne. Qed.

Lemma E_insert_eq h i x : i < length h -> E (<[i := x]> h) i = expires x.
Proof. intros H. unfold E. by rewrite list_lookup_total_insert_eq. Qed.

Lemma heap_ok_app h h' n : n <= length h -> heap_ok (h ++ h') n <-> heap_ok h n.
Proof.
  intros Hn. split; intros H k Hk; pose proof (parent_spec k ltac:(lia));
    specialize (H k Hk); rewrite !E_app_l in * by lia; lia.
Qed.

(** dropping the last node, of the whole heap or after the first [n] are repaired *)
Lemma pop_back_ok t n x :
  length (heap_ t) = S n -> heap_ t !! n = Some x -> heap_ok (heap_ t) n -> ref_ok t -> exists t',
  (x ← last (heap_ t);
   Some (mk_timer (take (length (heap_ t) - 1) (heap_ t)) (delete (node_id x) (ref_ t)))) = Some t' /\
  timer_ok t' /\ heap_ t ≡ₚ x :: heap_ t'.
Proof.
  intros Hl Hx Hok Hr. pose proof (take_last_snoc _ _ _ Hl Hx) as Hsnoc.
  destruct t as [h r]. cbn in *. replace (length h - 1) with n by lia.
  rewrite Hsnoc in Hok, Hr. assert (length (take n h) = n) as Hlt by (rewrite length_take; lia).
  rewrite heap_ok_app in Hok by lia. apply pop_back_ref_ok in Hr.
  assert (last h = Some x) as -> by (by rewrite last_lookup, Hl).
  cbn [mbind option_bind]. eexists. split; [done|]. split.
  - split; [|done]. cbn. by rewrite Hlt.
  - cbn. rewrite Hsnoc at 1. by rewrite Permutation_app_comm.
Qed.

(** the moved last node must be later than the root, unless the root is removed *)
Lemma del_spec t i x :
  timer_ok t -> (Z.of_nat (length (heap_ t)) <= 2 ^ 64)%Z -> heap_ t !! i = Some x ->
  (i = 0 \/ (E (heap_ t) 0 < E (heap_ t) (length (heap_ t) - 1))%Z) -> exists t',
  del_ t i = Some t' /\ timer_ok t' /\ heap_ t ≡ₚ x :: heap_ t'.
Proof.
  intros [Hok Href] Hmax Hx Hroot. pose proof (lookup_lt_Some _ _ _ Hx) as Hi. unfold del_.
  rewrite (proj2 (Nat.leb_gt _ _)) by lia. set (n := length (heap_ t) - 1) in *.
  destruct (i <? n)%nat eqn:Ein; zbool.
  - destruct (SwapNode_spec t i n Hi ltac:(lia) Href) as (t1 & -> & Hl1 & Hlk & HE & Hp1 & Hr1).
    cbn [mbind option_bind].
    assert (forall k, k <> i -> k <> n -> swapped i n k = k) as Hs
      by (intros; unfold swapped; by rewrite !decide_False).
    assert (swapped i n i = n) as Hsi by (unfold swapped; by rewrite decide_True).
    assert (swapped i n n = i) as Hsn
      by (unfold swapped; rewrite decide_False by lia; by rewrite decide_True).
    destruct (resift_spec t1 i n Hr1 ltac:(lia) Ein ltac:(lia)) as (t2 & Hrs & Hok2 & Hp2 & Hr2 & Hk2).
    + apply (heap_ok_hole (heap_ t)); [intros k Hk; apply Hok; lia|].
      intros k Hk Ni. by rewrite HE, Hs by lia.
    + destruct Hroot as [->|Hroot]; [by left|]. destruct (decide (i = 0)); [by left|]. right.
      by rewrite !HE, Hsi, Hs by lia.
    + cbn [mbind option_bind] in Hrs. rewrite Hrs. cbn [mbind option_bind].
      destruct (pop_back_ok t2 n x) as (t3 & Hpop & Hok3 & Hp3); [|by rewrite Hk2, Hlk, Hsn by lia|done..|].
      { rewrite Hp2, Hl1. lia. }
      exists t3. split_and!; try done. by rewrite <-Hp1, <-Hp2.
  - cbn [mbind option_bind]. assert (i = n) as -> by lia.
    apply (pop_back_ok t n x); [lia|done| |done]. intros k Hk. apply Hok. lia.
Qed.

(** ** The timer as a map from ids to expiry times *)

Definition timers (t : HeapTimer) : gmap Z Z :=
  list_to_map ((fun x => (node_id x, expires x)) <$> heap_ t).

Lemma ref_ok_nodup t : ref_ok t -> NoDup (node_id <$> heap_ t).
Proof.
  intros Href. apply NoDup_alt. intros i j id Hi Hj.
  apply list_lookup_fmap_Some in Hi as (x & -> & Hx).
  apply list_lookup_fmap_Some in Hj as (y & Hid & Hy).
  eapply ref_ok_inj; eauto.
Qed.

Lemma timers_lookup t id e : ref_ok t -> timers t !! id = Some e <-> mk_node id e ∈ heap_ t.
Proof.
  intros Href. unfold timers. rewrite <-elem_of_list_to_map.
  - rewrite list_elem_of_fmap. split.
    + intros ([id' e'] & [= -> ->] & H). done.
    + intros H. by exists (mk_node id e).
  - rewrite <-list_fmap_compose. by apply ref_ok_nodup.
Qed.

Lemma timers_perm t t' : ref_ok t -> ref_ok t' -> heap_ t ≡ₚ heap_ t' -> timers t = timers t'.
Proof.
  intros H H' Hp. apply map_eq. intros id. apply option_eq. intros e.
  rewrite !timers_lookup by done. by rewrite Hp.
Qed.

Lemma timers_cons t t' x :
  ref_ok t -> ref_ok t' -> heap_ t ≡ₚ x :: heap_ t' -> timers t' = delete (node_id x) (timers t).
Proof.
  intros H H' Hp. apply ref_ok_nodup in H as Hnd. rewrite Hp in Hnd. cbn in Hnd.
  apply NoDup_cons in Hnd as [Hx _]. apply map_eq. intros id. apply option_eq. intros e.
  rewrite lookup_delete_Some, !timers_lookup by done. rewrite Hp, elem_of_cons. split.
  - intros Hin. split; [|by right]. intros Heq. apply Hx. rewrite Heq. apply list_elem_of_fmap.
    by exists (mk_node id e).
  - intros [Hne [<-|Hin]]; [done|done].
Qed.

(** a node replaced in place *)
Lemma insert_ref_ok t i x y :
  ref_ok t -> heap_ t !! i = Some x -> node_id y = node_id x ->
  ref_ok (mk_timer (<[i := y]> (heap_ t)) (ref_ t)).
Proof.
  intros Href Hx Hid id k. cbn. rewrite (Href id k). apply lookup_lt_Some in Hx as Hlt.
  destruct (decide (k = i)) as [->|Nk].
  - rewrite list_lookup_insert_eq, Hx by done. naive_solver congruence.
  - by rewrite list_lookup_insert_ne.
Qed.

Lemma timers_replace t i x y r :
  ref_ok t -> heap_ t !! i = Some x -> node_id y = node_id x ->
  timers (mk_timer (<[i := y]> (heap_ t)) r) = <[node_id x := expires y]> (timers t).
Proof.
  intros Href Hx Hid. pose proof (insert_ref_ok _ _ _ _ Href Hx Hid) as Href'.
  change (timers (mk_timer (<[i:=y]> (heap_ t)) (ref_ t)) = <[node_id x:=expires y]> (timers t)).
  apply lookup_lt_Some in Hx as Hlt. apply map_eq. intros id. apply option_eq. intros e.
  rewrite lookup_insert_Some, !timers_lookup by done. rewrite !list_elem_of_lookup. cbn. split.
  - intros (k & Hk). destruct (decide (k = i)) as [->|Nk].
    + rewrite list_lookup_insert_eq in Hk by done. left. naive_solver.
    + rewrite list_lookup_insert_ne in Hk by done. right. split; [|by exists k].
      intros Heq. apply Nk. apply (ref_ok_inj t _ _ _ _ Href Hk Hx). done.
  - intros [[<- <-]|[Hne (k & Hk)]].
    + exists i. rewrite list_lookup_insert_eq by done. destruct y; cbn in *; congruence.
    + exists k. rewrite list_lookup_insert_ne; [done|]. intros ->. naive_solver.
Qed.

Lemma snoc_ref_ok t id e :
  ref_ok t -> ref_ t !! id = None ->
  ref_ok (mk_timer (heap_ t ++ [mk_node id e]) (<[id := length (heap_ t)]> (ref_ t))).
Proof.
  intros Href Hid id' k. cbn. rewrite lookup_insert_Some, (Href id' k). split.
  - intros [[<- <-]|[Hne (x & Hx & <-)]].
    + exists (mk_node id e). by rewrite lookup_app_r, Nat.sub_diag by lia.
    + exists x. split; [|done]. by apply lookup_app_l_Some.
  - intros (x & Hx & <-). apply lookup_app_Some in Hx as [Hx|[Hge Hx]].
    + right. split; [|by exists x]. intros ->. enough (ref_ t !! node_id x = Some k) by congruence.
      apply Href. by exists x.
    + apply list_lookup_singleton_Some in Hx as [? <-]. left. cbn. split; [done|lia].
Qed.

Lemma timers_snoc t id e r :
  ref_ok t -> ref_ t !! id = None ->
  timers (mk_timer (heap_ t ++ [mk_node id e]) r) = <[id := e]> (timers t).
Proof.
  intros Href Hid. pose proof (snoc_ref_ok t id e Href Hid) as Href'.
  change (timers (mk_timer (heap_ t ++ [mk_node id e]) (<[id := length (heap_ t)]> (ref_ t)))
          = <[id := e]> (timers t)).
  apply map_eq. intros id'. apply option_eq. intros e'.
  rewrite lookup_insert_Some, !timers_lookup by done. cbn. rewrite elem_of_app, list_elem_of_singleton.
  split.
  - intros [Hin|[= -> ->]]; [|by left]. right. split; [|done]. intros ->.
    apply list_elem_of_lookup in Hin as [k Hk]. enough (ref_ t !! id' = Some k) by congruence.
    apply Href. by eexists.
  - intros [[<- <-]|[Hne Hin]]; [by right|by left].
Qed.

Lemma perm_timer_ok t t' :
  ref_ok t -> ref_ok t' -> heap_ t' ≡ₚ heap_ t -> heap_ok (heap_ t') (length (heap_ t)) ->
  timer_ok t' /\ timers t' = timers t.
Proof.
  intros Hr Hr' Hp Hok. split; [|by apply timers_perm]. split; [|done].
  by rewrite (Permutation_length Hp).
Qed.

Lemma head_E (h : list TimerNode) x : head h = Some x -> E h 0 = expires x.
Proof. destruct h; [done|]. intros [= ->]. done. Qed.

Lemma add_new_spec t id e :
  timer_ok t -> (Z.of_nat (length (heap_ t)) < 2 ^ 64)%Z -> ref_ t !! id = None ->
  (forall root, head (heap_ t) = Some root -> (expires root < e)%Z) -> exists t',
  siftup_ (mk_timer (heap_ t ++ [mk_node id e]) (<[id := length (heap_ t)]> (ref_ t)))
    (length (heap_ t)) = Some t' /\ timer_ok t' /\ timers t' = <[id := e]> (timers t).
Proof.
  intros [Hok Hr] Hmax Hid Hroot. pose proof (snoc_ref_ok t id e Hr Hid) as Hr1.
  rewrite <-(timers_snoc t id e (<[id := length (heap_ t)]> (ref_ t)) Hr Hid).
  set (t1 := mk_timer _ _) in *. set (n := length (heap_ t)) in *.
  assert (length (heap_ t1) = S n) as Hl by (cbn; rewrite length_app; cbn; lia).
  assert (E (heap_ t1) n = e) as Hn.
  { unfold E. cbn. rewrite lookup_total_app_r, Nat.sub_diag by lia. done. }
  unfold siftup_. rewrite Hl, (proj2 (Nat.leb_gt _ _)) by lia. destruct (n =? 0)%nat eqn:En; zbool.
  { exists t1. split; [done|]. split; [|done]. split; [|done]. rewrite Hl, En. intros k Hk. lia. }
  destruct (siftup_loop_spec (S n) t1 n (S n)) as (t' & Ht' & Hok' & Hp & Hr' & _);
    [done|lia|lia|lia|lia| | |].
  - rewrite Hn. unfold t1. cbn [heap_]. rewrite E_app_l by (subst n; lia).
    destruct (heap_ t) as [|root h] eqn:Eh; [done|]. by apply (Hroot root).
  - split; intros k Hk; pose proof (parent_spec k ltac:(lia)); [|lia]. intros Nk.
    unfold t1. cbn [heap_]. rewrite !E_app_l by (subst n; lia). apply Hok. lia.
  - exists t'. split; [done|]. apply perm_timer_ok; try done. by rewrite Hl.
Qed.

(** Adding a timer, new or already present, whose expiry is later than the
    earliest one of the heap (or which is the earliest one) never leaves the
    vector, keeps heap order and positions, and sets the timer of that id to the
    new expiry while the others are unchanged. *)
Theorem add_correct t id timeout now :
  timer_ok t -> (Z.of_nat (length (heap_ t)) < 2 ^ 64)%Z -> (0 <= id)%Z ->
  (forall root, head (heap_ t) = Some root ->
     node_id root = id \/ (expires root < expiry now timeout)%Z) -> exists t',
  add t id timeout now = Some t' /\ timer_ok t' /\
  timers t' = <[id := expiry now timeout]> (timers t).
Proof.
  intros Hok Hmax Hid Hroot. unfold add. rewrite (proj2 (Z.ltb_ge id 0)) by done.
  destruct (ref_ t !! id) as [i|] eqn:Ei.
  - apply (proj2 Hok) in Ei as (x & Hx & <-). pose proof (lookup_lt_Some _ _ _ Hx).
    rewrite (proj2 (Nat.leb_gt _ _)) by done. cbn zeta. cbn [heap_].
    set (y := mk_node _ _). pose proof (insert_ref_ok t i x y (proj2 Hok) Hx eq_refl) as Hr1.
    pose proof (timers_replace t i x y (ref_ t) (proj2 Hok) Hx eq_refl) as Hrep. unfold y in Hrep; cbn [node_id expires] in Hrep; fold y in Hrep.
    rewrite <-Hrep.
    destruct (resift_spec (mk_timer (<[i := y]> (heap_ t)) (ref_ t)) i (length (heap_ t)))
      as (t' & Ht' & Hok' & Hp & Hr' & _); cbn [heap_]; rewrite ?length_insert; [done|lia..| | |].
    + apply (heap_ok_hole (heap_ t)); [apply Hok|]. intros k _ Nk. by apply E_insert_ne.
    + destruct (decide (i = 0)) as [|Ni]; [by left|right]. rewrite E_insert_ne, E_insert_eq by lia.
      destruct (heap_ t) as [|root h] eqn:Eh; [done|]. destruct (Hroot root eq_refl) as [Hid0|Hlt].
      * destruct Ni. apply (ref_ok_inj t i 0 x root (proj2 Hok)); rewrite ?Eh; done.
      * done.
    + exists t'. split; [done|]. apply perm_timer_ok; try done. cbn. by rewrite length_insert.
  - apply add_new_spec; try done. intros root Hh. destruct (Hroot root Hh) as [Hid0|]; [|done].
    destruct (heap_ t) as [|x h] eqn:Eh; [done|]. injection Hh as ->.
    enough (ref_ t !! id = Some 0) by congruence. apply (proj2 Hok). rewrite Eh. by exists root.
Qed.

(** Postponing a timer keeps heap order and positions, and sets its expiry
    while the others are unchanged. *)
Theorem adjust_later t id timeout now e :
  timer_ok t -> timers t !! id = Some e -> (e <= expiry now timeout)%Z -> exists t',
  adjust t id timeout now = Some t' /\ timer_ok t' /\
  timers t' = <[id := expiry now timeout]> (timers t).
Proof.
  intros [Hok Hr] Ht Hle. unfold adjust. apply (timers_lookup _ _ _ Hr) in Ht.
  apply list_elem_of_lookup in Ht as [i Hx]. pose proof (lookup_lt_Some _ _ _ Hx).
  assert (ref_ t !! id = Some i) as -> by (apply Hr; by eexists). cbn [mbind option_bind].
  rewrite Hx. cbn [mbind option_bind node_id]. cbn zeta. cbn [heap_].
  set (y := mk_node _ _). pose proof (insert_ref_ok t i _ y Hr Hx eq_refl) as Hr1.
  pose proof (timers_replace t i _ y (ref_ t) Hr Hx eq_refl) as Hrep. unfold y in Hrep; cbn [node_id expires] in Hrep; fold y in Hrep. rewrite <-Hrep.
  unfold siftdown_. cbn [heap_]. rewrite length_insert, (proj2 (Nat.leb_gt _ _)), Nat.ltb_irrefl by done.
  cbn [orb].
  destruct (siftdown_loop_spec (S (length (heap_ t))) (mk_timer (<[i := y]> (heap_ t)) (ref_ t)) i
              (length (heap_ t)))
    as (t' & i' & -> & _ & Hok' & Hp & Hr' & _); cbn [heap_]; rewrite ?length_insert; [done|lia..| |].
  - split; [|apply (heap_ok_hole (heap_ t)); [done|]; intros; by apply E_insert_ne].
    intros k Hk Np. rewrite (E_insert_ne _ _ (parent k)) by done. specialize (Hok k Hk).
    destruct (decide (k = i)) as [->|Nk].
    + rewrite E_insert_eq by done. rewrite (lookup_E _ _ _ Hx) in Hok. subst y. cbn in *. lia.
    + by rewrite E_insert_ne.
  - cbn [mbind option_bind]. exists t'. split; [done|]. apply perm_timer_ok; try done.
    cbn. by rewrite length_insert.
Qed.

(** the root is a timer that expires first *)
Lemma root_min (h : list TimerNode) n k : heap_ok h n -> k < n -> (E h 0 <= E h k)%Z.
Proof.
  intros Hok. induction k as [k IH] using (well_founded_induction lt_wf). intros Hk.
  destruct (decide (k = 0)) as [->|]; [done|]. pose proof (parent_spec k ltac:(lia)).
  pose proof (IH (parent k) ltac:(lia) ltac:(lia)). pose proof (Hok k ltac:(lia)). lia.
Qed.

Lemma root_first t x y : timer_ok t -> head (heap_ t) = Some x -> y ∈ heap_ t -> (expires x <= expires y)%Z.
Proof.
  intros [Hok _] Hx Hy. apply list_elem_of_lookup in Hy as [k Hk].
  rewrite <-(head_E _ _ Hx), <-(lookup_E _ _ _ Hk). eapply root_min; [done|]. by eapply lookup_lt_Some.
Qed.

Lemma pop_spec t x h :
  timer_ok t -> (Z.of_nat (length (heap_ t)) <= 2 ^ 64)%Z -> heap_ t = x :: h -> exists t',
  pop t = Some t' /\ timer_ok t' /\ h ≡ₚ heap_ t'.
Proof.
  intros Hok Hmax Hh. destruct (del_spec t 0 x) as (t' & Ht' & Hok' & Hp); try done.
  - by rewrite Hh.
  - by left.
  - exists t'. split_and!; try done. rewrite Hh in Hp. by apply Permutation_cons_inv in Hp.
Qed.

(** the clock reading [now k] is the one at which the k-th node was examined *)
Definition due (now : nat -> Z) (k : nat) (x : TimerNode) : Prop := (millis (expires x - now k) <= 0)%Z.

Lemma millis_mono a b : (a <= b)%Z -> (millis a <= millis b)%Z.
Proof. intros H. unfold millis. apply Z.quot_le_mono; lia. Qed.

Lemma tick_loop_spec fuel now k t :
  timer_ok t -> (Z.of_nat (length (heap_ t)) <= 2 ^ 64)%Z -> length (heap_ t) < fuel ->
  exists t' fired, tick_loop fuel now k t = Some (t', fired) /\ timer_ok t' /\
  heap_ t ≡ₚ fired ++ heap_ t' /\
  (forall i x, fired !! i = Some x -> due now (k + i) x) /\
  (forall y, y ∈ heap_ t' -> ~ due now (k + length fired) y) /\
  StronglySorted (fun x y => expires x <= expires y)%Z fired.
Proof.
  revert k t; induction fuel as [|fuel IH]; intros k t Hok Hmax Hf; [lia|]. cbn [tick_loop].
  destruct (heap_ t) as [|x h] eqn:Eh.
  { exists t, []. rewrite Eh. split_and!; try done; [by intros ? ?%elem_of_nil|constructor]. }
  destruct (_ <? _)%Z eqn:Edue; zbool.
  - exists t, []. split_and!; try done; [by rewrite Eh| |constructor].
    intros y Hy Hdue. cbn [length] in Hdue. rewrite Nat.add_0_r in Hdue. unfold due in Hdue.
    assert (expires x <= expires y)%Z as Hxy by (eapply root_first; [done|by rewrite Eh|done]).
    pose proof (millis_mono (expires x - now k) (expires y - now k) ltac:(lia)). lia.
  - rewrite <-Eh in Hmax. destruct (pop_spec t x h Hok Hmax Eh) as (t1 & -> & Hok1 & Hp1).
    rewrite Eh in Hmax. cbn [mbind option_bind length] in *.
    assert (length (heap_ t1) = length h) as Hl1 by (by rewrite Hp1).
    destruct (IH (S k) t1 Hok1 ltac:(lia) ltac:(lia))
      as (t2 & fired & -> & Hok2 & Hp2 & Hd & Hnd & Hs). cbn [mbind option_bind].
    exists t2, (x :: fired). split_and!; try done.
    + cbn. by rewrite Hp1, Hp2.
    + intros [|i] y; cbn; [intros [= <-]; unfold due; rewrite Nat.add_0_r; lia|].
      intros Hy. rewrite Nat.add_succ_r. by apply (Hd i).
    + intros y Hy. cbn [length]. rewrite Nat.add_succ_r. by apply Hnd.
    + constructor; [done|]. apply Forall_forall. intros y Hy. apply (root_first t); [done|by rewrite Eh|].
      rewrite Eh, elem_of_cons. right. rewrite Hp1, Hp2, elem_of_app. by left.
Qed.

(** C24. A tick always finishes: it runs the callbacks of timers in order of
    expiry, each at a time when it is due, each once; it removes exactly these
    timers, and of the timers it leaves none is due at the last clock reading. *)
Theorem tick_correct now t :
  timer_ok t -> (Z.of_nat (length (heap_ t)) <= 2 ^ 64)%Z ->
  exists t' fired, tick now t = Some (t', fired) /\ timer_ok t' /\
  heap_ t ≡ₚ fired ++ heap_ t' /\
  (forall i x, fired !! i = Some x -> due now i x) /\
  (forall y, y ∈ heap_ t' -> ~ due now (length fired) y) /\
  StronglySorted (fun x y => expires x <= expires y)%Z fired.
Proof. intros Hok Hmax. apply (tick_loop_spec _ now 0 t Hok Hmax). lia. Qed.

(** Triggering a timer by its id runs its callback once and removes it,
    when the earliest timer is strictly earlier than the last one of the heap;
    an unknown id does nothing. *)
Theorem doWork_correct t id :
  timer_ok t -> (Z.of_nat (length (heap_ t)) <= 2 ^ 64)%Z ->
  (forall root x, head (heap_ t) = Some root -> last (heap_ t) = Some x ->
     node_id root = id \/ (expires root < expires x)%Z) ->
  match timers t !! id with
  | None => doWork t id = Some (t, [])
  | Some e => exists t', doWork t id = Some (t', [mk_node id e]) /\ timer_ok t' /\
                timers t' = delete id (timers t)
  end.
Proof.
  intros Hok Hmax Hroot. unfold doWork. pose proof (proj2 Hok) as Hr.
  destruct (timers t !! id) as [e|] eqn:Et.
  - apply (timers_lookup _ _ _ Hr), list_elem_of_lookup in Et as [i Hx].
    assert (ref_ t !! id = Some i) as -> by (apply Hr; by eexists).
    destruct (del_spec t i _ Hok Hmax Hx) as (t' & Ht' & Hok' & Hp).
    { destruct (heap_ t) as [|root h] eqn:Eh; [done|]. rewrite <-Eh in *.
      destruct (last (heap_ t)) as [x|] eqn:El; [|by rewrite Eh, last_cons in El; destruct (last h)].
      destruct (Hroot root x ltac:(by rewrite Eh) eq_refl) as [Hid|Hlt].
      - left. apply (ref_ok_inj t i 0 _ root Hr Hx); [by rewrite Eh|done].
      - right. rewrite last_lookup in El. rewrite (head_E _ root) by (by rewrite Eh).
        rewrite <-Nat.sub_1_r in El. by rewrite (lookup_E _ _ _ El). }
    destruct (heap_ t) as [|root h] eqn:Eh; [done|]. rewrite Hx. cbn [mbind option_bind].
    rewrite Ht'. cbn [mbind option_bind]. exists t'. split_and!; [done|done|].
    apply (timers_cons t t' (mk_node id e) Hr (proj2 Hok')). by rewrite Eh.
  - destruct (heap_ t) eqn:Eh; [done|]. destruct (ref_ t !! id) as [i|] eqn:Ei; [|done].
    apply Hr in Ei as ([id' e] & Hx & Hid). cbn in Hid. subst id'.
    enough (timers t !! id = Some e) by congruence. apply timers_lookup; [done|].
    by eapply list_elem_of_lookup_2.
Qed.

(** the parent of the root lies outside every vector *)
Lemma siftup_root_undefined fuel t :
  (Z.of_nat (length (heap_ t)) < 2 ^ 63)%Z -> siftup_loop fuel t 0 = None.
Proof.
  intros Hl. destruct fuel as [|fuel]; [done|]. cbn [siftup_loop].
  set (j := Z.to_nat _). assert (length (heap_ t) <= j) as Hj.
  { subst j. change (Z.quot (wrap64 (Z.of_nat 0 - 1)) 2) with (2 ^ 63 - 1)%Z. lia. }
  by rewrite (proj2 (lookup_ge_None _ _) Hj).
Qed.

Lemma siftup_loop_undefined fuel t i :
  ref_ok t -> (Z.of_nat (length (heap_ t)) < 2 ^ 63)%Z -> i < length (heap_ t) ->
  (forall k, k < length (heap_ t) -> (E (heap_ t) i <= E (heap_ t) k)%Z) ->
  siftup_loop fuel t i = None.
Proof.
  revert t i; induction fuel as [|fuel IH]; intros t i Hr Hl Hi Hmin; [done|].
  destruct (decide (i = 0)) as [->|Ni]; [by apply siftup_root_undefined|].
  cbn [siftup_loop]. rewrite parent_size_t by lia. pose proof (parent_spec i ltac:(lia)).
  destruct (lookup_lt_is_Some_2 (heap_ t) (parent i)) as [x Hx]; [lia|].
  destruct (lookup_lt_is_Some_2 (heap_ t) i) as [y Hy]; [lia|]. rewrite Hx, Hy.
  cbn [mbind option_bind]. rewrite (node_lt_E _ _ _ _ _ Hx Hy).
  rewrite (proj2 (Z.ltb_ge _ _) (Hmin (parent i) ltac:(lia))).
  destruct (SwapNode_spec t i (parent i) ltac:(lia) ltac:(lia) Hr)
    as (t1 & -> & Hl1 & Hlk & HE & _ & Hr1). cbn [mbind option_bind].
  apply IH; [done|lia|lia|]. intros k Hk. rewrite !HE. unfold swapped.
  rewrite (decide_False (P := parent i = i)), (decide_True (P := parent i = parent i)) by lia.
  repeat case_decide; apply Hmin; lia.
Qed.

(** Adding a timer that does not expire after the earliest one is undefined
    behaviour: the loop of siftup_ swaps it to the root and then, as its
    condition [j >= 0] holds of every size_t, reads the vector at 2^63 - 1. *)
Theorem add_earliest_undefined t id timeout now root :
  timer_ok t -> (Z.of_nat (length (heap_ t)) + 1 < 2 ^ 63)%Z -> timers t !! id = None ->
  head (heap_ t) = Some root -> (expiry now timeout <= expires root)%Z ->
  add t id timeout now = None.
Proof.
  intros Hok Hl Hnew Hroot Hle. unfold add. destruct (id <? 0)%Z; [done|]. pose proof (proj2 Hok) as Hr.
  destruct (ref_ t !! id) as [i|] eqn:Ei.
  { apply Hr in Ei as ([id' e] & Hx & Hid). cbn in Hid. subst id'.
    enough (timers t !! id = Some e) by congruence. apply timers_lookup; [done|].
    by eapply list_elem_of_lookup_2. }
  unfold siftup_. cbn [heap_]. rewrite length_app. cbn [length].
  assert (0 < length (heap_ t)) by (destruct (heap_ t); [done|cbn; lia]).
  rewrite (proj2 (Nat.leb_gt _ _)), (proj2 (Nat.eqb_neq _ _)) by lia.
  apply siftup_loop_undefined; cbn [heap_]; rewrite ?length_app; cbn [length]; [|lia..|].
  - by apply snoc_ref_ok.
  - intros k Hk. assert (E (heap_ t ++ [mk_node id (expiry now timeout)]) (length (heap_ t))
      = expiry now timeout) as ->.
    { unfold E. by rewrite lookup_total_app_r, Nat.sub_diag by lia. }
    destruct (decide (k = length (heap_ t))) as [->|Nk].
    + unfold E. by rewrite lookup_total_app_r, Nat.sub_diag by lia.
    + rewrite E_app_l by lia. pose proof (root_min _ _ k (proj1 Hok) ltac:(lia)).
      rewrite (head_E _ _ Hroot) in *. lia.
Qed.

(** ** Deciding the invariant of a concrete timer *)

Definition positions (h : list TimerNode) : list (Z * nat) := imap (fun i x => (node_id x, i)) h.

Definition timer_okb (t : HeapTimer) : bool :=
  bool_decide (Forall (fun k => E (heap_ t) (parent k) <= E (heap_ t) k)%Z (seq 1 (length (heap_ t) - 1))) &&
  bool_decide (NoDup (node_id <$> heap_ t)) && bool_decide (ref_ t = list_to_map (positions (heap_ t))).

Lemma timer_okb_spec t : timer_okb t = true -> timer_ok t.
Proof.
  unfold timer_okb. rewrite !andb_true_iff, !bool_decide_eq_true. intros [[Hh Hnd] Hr]. split.
  - intros k Hk. rewrite Forall_forall in Hh. apply Hh, elem_of_seq. lia.
  - intros id i. rewrite Hr. rewrite <-elem_of_list_to_map.
    + unfold positions. rewrite list_elem_of_lookup. setoid_rewrite list_lookup_imap_Some. naive_solver.
    + enough ((positions (heap_ t)).*1 = node_id <$> heap_ t) as -> by done.
      apply list_eq. intros k. unfold positions. rewrite !list_lookup_fmap, list_lookup_imap.
      by destruct (heap_ t !! k).
Qed.

Ltac timer_ok_tac := apply timer_okb_spec; vm_compute; reflexivity.

Definition timer_ex : HeapTimer :=
  mk_timer [mk_node 1 5000000; mk_node 2 9000000; mk_node 3 7000000; mk_node 4 20000000]
    {[ 1%Z := 0; 2%Z := 1; 3%Z := 2; 4%Z := 3 ]}.

Lemma timer_ex_ok : timer_ok timer_ex.
Proof. timer_ok_tac. Qed.

(** Advancing a timer with adjust only sifts down, so heap order is lost. *)
Lemma adjust_earlier_breaks_order :
  timer_ok timer_ex /\ exists t', adjust timer_ex 4 1 0 = Some t' /\ ~ heap_ok (heap_ t') 4.
Proof.
  split; [apply timer_ex_ok|]. eexists. split; [vm_compute; reflexivity|].
  intros H. specialize (H 3 ltac:(lia)). vm_compute in H. by apply H.
Qed.

Lemma add_correct_witness : exists t',
  add timer_ex 9 6 0 = Some t' /\ timer_ok t' /\ timers t' = <[9%Z := 6000000%Z]> (timers timer_ex).
Proof.
  apply (add_correct timer_ex 9 6 0); [apply timer_ex_ok|cbn; lia|lia|].
  intros root [= <-]. right. vm_compute. reflexivity.
Defined.

Lemma adjust_later_witness : exists t',
  adjust timer_ex 1 30 0 = Some t' /\ timer_ok t' /\ timers t' = <[1%Z := 30000000%Z]> (timers timer_ex).
Proof.
  apply (adjust_later timer_ex 1 30 0 5000000); [apply timer_ex_ok|reflexivity|].
  vm_compute. discriminate.
Defined.

Lemma tick_correct_witness :
  (exists t', tick (fun _ => 7500000%Z) timer_ex = Some (t', [mk_node 1 5000000; mk_node 3 7000000])) /\
  exists t' fired, tick (fun _ => 7500000%Z) timer_ex = Some (t', fired) /\ timer_ok t'.
Proof.
  split; [eexists; vm_compute; reflexivity|].
  destruct (tick_correct (fun _ => 7500000%Z) timer_ex timer_ex_ok) as (t' & fired & H & Hok & _);
    [cbn; lia|]. by exists t', fired.
Defined.

Lemma doWork_correct_witness : exists t',
  doWork timer_ex 2 = Some (t', [mk_node 2 9000000]) /\ timer_ok t' /\
  timers t' = delete 2%Z (timers timer_ex).
Proof.
  apply (doWork_correct timer_ex 2 timer_ex_ok); [cbn; lia|].
  intros root x [= <-] [= <-]. right. vm_compute. reflexivity.
Defined.

Lemma add_earliest_undefined_witness : add timer_ex 9 5 0 = None.
Proof.
  apply (add_earliest_undefined timer_ex 9 5 0 (mk_node 1 5000000));
    [apply timer_ex_ok|cbn; lia|reflexivity|reflexivity|vm_compute; discriminate].
Defined.
