(* ===== verification/Buffer.v ===== *)
(** * The growable read/write buffer

    src/lib/buffer.cpp.  The vector's bytes and the two positions, which are
    size_t; a pointer into the vector is its offset.  [None] is a failed
    assertion, an exception, or an access outside the vector.  The results of
    readv and write are arguments of ReadFd and WriteFd.  The theorem at the end
    shows that every sequence of operations behaves as on a queue of bytes. *)

From Stdlib Require Import ZArith Lia.
From stdpp Require Import base numbers list.
From S2P Require Import Prelude.
Local Open Scope Z_scope.

Record Buffer := mk_buffer { buffer_ : bytes; readPos_ : Z; writePos_ : Z }.

Definition size (b : Buffer) : Z := Z.of_nat (length (buffer_ b)).

(** the constructor; a negative size makes the vector throw *)
Definition new_buffer (initBuffSize : Z) : option Buffer :=
  if initBuffSize <? 0 then None
  else Some (mk_buffer (replicate (Z.to_nat initBuffSize) 0) 0 0).

Definition ReadableBytes (b : Buffer) : Z := wrap64 (writePos_ b - readPos_ b).
Definition WritableBytes (b : Buffer) : Z := wrap64 (size b - writePos_ b).
Definition PrependableBytes (b : Buffer) : Z := readPos_ b.

(** &*buffer_.begin() *)
Definition BeginPtr_ (b : Buffer) : option Z := if size b =? 0 then None else Some 0.

Definition Peek (b : Buffer) : option Z := p ← BeginPtr_ b; Some (p + readPos_ b).
Definition BeginWriteConst (b : Buffer) : option Z := p ← BeginPtr_ b; Some (p + writePos_ b).
Definition BeginWrite (b : Buffer) : option Z := p ← BeginPtr_ b; Some (p + writePos_ b).

(** [n] bytes read at a pointer, and bytes stored at a pointer *)
Definition load (b : Buffer) (p n : Z) : option bytes :=
  if (p <? 0) || (size b <? p + n) then None
  else Some (slice (buffer_ b) (Z.to_nat p) (Z.to_nat n)).
Definition store (b : Buffer) (p : Z) (d : bytes) : option Buffer :=
  if (p <? 0) || (size b <? p + Z.of_nat (length d)) then None
  else Some (mk_buffer (take (Z.to_nat p) (buffer_ b) ++ d ++
                        drop (Z.to_nat p + length d) (buffer_ b)) (readPos_ b) (writePos_ b)).

Definition Retrieve (b : Buffer) (len : Z) : option Buffer :=
  if len <=? ReadableBytes b
  then Some (mk_buffer (buffer_ b) (wrap64 (readPos_ b + len)) (writePos_ b)) else None.

Definition RetrieveUntil (b : Buffer) (last : Z) : option Buffer :=
  p ← Peek b;
  if p <=? last then Retrieve b (wrap64 (last - p)) else None.

Definition RetrieveAll (b : Buffer) : option Buffer :=
  if size b =? 0 then None
  else Some (mk_buffer (replicate (length (buffer_ b)) 0) 0 0).

Definition RetrieveAllToStr (b : Buffer) : option (Buffer * bytes) :=
  p ← Peek b;
  str ← load b p (ReadableBytes b);
  b ← RetrieveAll b;
  Some (b, str).

Definition HasWritten (b : Buffer) (len : Z) : Buffer :=
  mk_buffer (buffer_ b) (readPos_ b) (wrap64 (writePos_ b + len)).

(** vector::resize; above max_size() it throws *)
Definition resize (s : bytes) (n : Z) : option bytes :=
  if 2 ^ 63 <=? n then None
  else Some (take (Z.to_nat n) s ++ replicate (Z.to_nat n - length s)%nat 0).

Definition MakeSpace_ (b : Buffer) (len : Z) : option Buffer :=
  if wrap64 (WritableBytes b + PrependableBytes b) <? len then
    s ← resize (buffer_ b) (wrap64 (writePos_ b + len + 1));
    Some (mk_buffer s (readPos_ b) (writePos_ b))
  else
    let readable := ReadableBytes b in
    p ← BeginPtr_ b;
    d ← load b (p + readPos_ b) (writePos_ b - readPos_ b);
    b ← store b p d;
    let b := mk_buffer (buffer_ b) 0 (wrap64 (0 + readable)) in
    if readable =? ReadableBytes b then Some b else None.

Definition EnsureWriteable (b : Buffer) (len : Z) : option Buffer :=
  b ← (if WritableBytes b <? len then MakeSpace_ b len else Some b);
  if len <=? WritableBytes b then Some b else None.

(** Append(const char *, size_t); the overloads for a string and for untyped
    data pass their bytes on *)
Definition Append (b : Buffer) (str : bytes) : option Buffer :=
  let len := Z.of_nat (length str) in
  b ← EnsureWriteable b len;
  p ← BeginWrite b;
  b ← store b p str;
  Some (HasWritten b len).

(** Append(const Buffer &), of another buffer *)
Definition Append_buffer (b buff : Buffer) : option Buffer :=
  p ← Peek buff;
  d ← load buff p (ReadableBytes buff);
  Append b d.

(** the outcome of a system call: an error number, or a value *)
Inductive io (A : Type) := io_error (errno : Z) | io_ok (a : A).
Arguments io_error {A}.
Arguments io_ok {A}.

(** readv has put [data] first into the writable part of the vector and then
    into the 65535 bytes of [buff]; the error number is stored in *saveErrno *)
Definition ReadFd (b : Buffer) (r : io bytes) : option (Buffer * Z * option Z) :=
  let writable := WritableBytes b in
  p ← BeginPtr_ b;
  match r with
  | io_error errno => Some (b, -1, Some errno)
  | io_ok data =>
      let len := Z.of_nat (length data) in
      b ← store b (p + writePos_ b) (take (Z.to_nat writable) data);
      b ← (if len <=? writable
           then Some (mk_buffer (buffer_ b) (readPos_ b) (wrap64 (writePos_ b + len)))
           else Append (mk_buffer (buffer_ b) (readPos_ b) (size b)) (drop (Z.to_nat writable) data));
      Some (b, len, None)
  end.

(** write has accepted the first [n] of the readable bytes, which are also returned *)
Definition WriteFd (b : Buffer) (r : io Z) : option (Buffer * Z * option Z * bytes) :=
  let readSize := ReadableBytes b in
  p ← Peek b;
  match r with
  | io_error errno => Some (b, -1, Some errno, [])
  | io_ok len =>
      sent ← load b p len;
      Some (mk_buffer (buffer_ b) (wrap64 (readPos_ b + len)) (writePos_ b), len, None, sent)
  end.

(** ** Contents and invariant *)

Definition contents (b : Buffer) : bytes :=
  slice (buffer_ b) (Z.to_nat (readPos_ b)) (Z.to_nat (writePos_ b - readPos_ b)).

Definition buffer_ok (b : Buffer) : Prop :=
  0 <= readPos_ b <= writePos_ b /\ writePos_ b <= size b /\ 0 < size b < 2 ^ 63.

Lemma length_contents b :
  buffer_ok b -> Z.of_nat (length (contents b)) = writePos_ b - readPos_ b.
Proof.
  unfold buffer_ok, size, contents, slice. intros H. rewrite length_take, length_drop. lia.
Qed.

Lemma ReadableBytes_eq b : buffer_ok b -> ReadableBytes b = writePos_ b - readPos_ b.
Proof. unfold buffer_ok, ReadableBytes. intros H. apply wrap64_small. lia. Qed.

Lemma WritableBytes_eq b : buffer_ok b -> WritableBytes b = size b - writePos_ b.
Proof. unfold buffer_ok, WritableBytes. intros H. apply wrap64_small. lia. Qed.

Lemma BeginPtr_eq b : buffer_ok b -> BeginPtr_ b = Some 0.
Proof. unfold buffer_ok, BeginPtr_. intros H. destruct (size b =? 0) eqn:E; zbool; [lia|done]. Qed.

Lemma Peek_eq b : buffer_ok b -> Peek b = Some (readPos_ b).
Proof. intros H. unfold Peek. by rewrite BeginPtr_eq. Qed.

Lemma load_eq b p n :
  0 <= p -> p + n <= size b -> load b p n = Some (slice (buffer_ b) (Z.to_nat p) (Z.to_nat n)).
Proof.
  intros H1 H2. unfold load. destruct (_ || _) eqn:E; [|done]. apply orb_true_iff in E as [E|E]; zbool; lia.
Qed.

Lemma store_eq b p d :
  0 <= p -> p + Z.of_nat (length d) <= size b ->
  store b p d = Some (mk_buffer (take (Z.to_nat p) (buffer_ b) ++ d ++
                        drop (Z.to_nat p + length d) (buffer_ b)) (readPos_ b) (writePos_ b)).
Proof.
  intros H1 H2. unfold store. destruct (_ || _) eqn:E; [|done]. apply orb_true_iff in E as [E|E]; zbool; lia.
Qed.

Lemma length_store (l d : bytes) p :
  (p + length d <= length l)%nat ->
  length (take p l ++ d ++ drop (p + length d) l) = length l.
Proof. intros H. rewrite !length_app, length_take, length_drop. lia. Qed.

(** a buffer given by what precedes, what it holds and what follows *)
Lemma contents_split b :
  buffer_ok b -> exists pre post, buffer_ b = pre ++ contents b ++ post /\
  Z.of_nat (length pre) = readPos_ b.
Proof.
  unfold buffer_ok, size. intros H. set (r := Z.to_nat (readPos_ b)).
  exists (take r (buffer_ b)), (drop (Z.to_nat (writePos_ b - readPos_ b)) (drop r (buffer_ b))).
  unfold contents, slice. fold r. rewrite take_drop, take_drop, length_take. split; [done|lia].
Qed.

Lemma contents_intro l r w pre mid post :
  l = pre ++ mid ++ post -> Z.of_nat (length pre) = r -> w = r + Z.of_nat (length mid) ->
  contents (mk_buffer l r w) = mid.
Proof.
  intros -> <- ->. unfold contents. cbn.
  replace (_ + _ - _) with (Z.of_nat (length mid)) by lia. rewrite !Nat2Z.id. apply slice_app_exact.
Qed.

Lemma contents_store b d :
  buffer_ok b -> writePos_ b + Z.of_nat (length d) <= size b -> exists b',
  store b (writePos_ b) d = Some b' /\ size b' = size b /\ readPos_ b' = readPos_ b /\
  writePos_ b' = writePos_ b /\ contents (HasWritten b' (Z.of_nat (length d))) = contents b ++ d /\
  buffer_ok (HasWritten b' (Z.of_nat (length d))) /\ buffer_ok b' /\ contents b' = contents b.
Proof.
  intros Hok Hd. pose proof (length_contents _ Hok) as Hlc. pose proof Hok as (H1 & H2 & H3).
  destruct (contents_split _ Hok) as (pre & post & Hb & Hpre).
  rewrite store_eq by lia. eexists. split; [done|].
  assert (Z.to_nat (writePos_ b) = length (pre ++ contents b)) as Hw by (rewrite length_app; lia).
  assert (take (Z.to_nat (writePos_ b)) (buffer_ b) = pre ++ contents b) as Htk
    by (by rewrite Hw, Hb, app_assoc, take_app_length).
  assert (size (mk_buffer (take (Z.to_nat (writePos_ b)) (buffer_ b) ++ d ++
            drop (Z.to_nat (writePos_ b) + length d) (buffer_ b)) (readPos_ b) (writePos_ b)) = size b) as Hs.
  { unfold size. cbn [buffer_]. rewrite length_store; [done|]. unfold size in Hd. lia. }
  split_and!; try done.
  - unfold HasWritten. cbn. rewrite wrap64_small by lia. eapply contents_intro; [|done|].
    + by rewrite Htk, <-!app_assoc.
    + rewrite length_app. lia.
  - unfold HasWritten. split_and!; cbn; rewrite ?wrap64_small by lia; try lia;
      unfold size in *; cbn in Hs |- *; lia.
  - split_and!; cbn; try lia; unfold size in *; cbn in Hs |- *; lia.
  - eapply contents_intro; [|done|lia]. by rewrite Htk, <-!app_assoc.
Qed.

Lemma MakeSpace_spec b len :
  buffer_ok b -> 0 <= len -> size b + len + 1 < 2 ^ 63 -> WritableBytes b < len -> exists b',
  MakeSpace_ b len = Some b' /\ buffer_ok b' /\ contents b' = contents b /\
  len <= size b' - writePos_ b' /\ size b' <= size b + len + 1.
Proof.
  intros Hok Hlen Hmax Hw. pose proof (length_contents _ Hok) as Hlc. pose proof Hok as (H1 & H2 & H3).
  destruct (contents_split _ Hok) as (pre & post & Hb & Hpre).
  rewrite WritableBytes_eq in Hw by done. unfold MakeSpace_, PrependableBytes.
  rewrite WritableBytes_eq, (wrap64_small (_ - _ + _)) by (done || lia). destruct (_ <? len) eqn:E; zbool.
  - rewrite wrap64_small by lia. unfold resize. rewrite (proj2 (Z.leb_gt _ _)) by lia.
    cbn [mbind option_bind]. eexists. split; [done|].
    rewrite take_ge by (unfold size in *; lia).
    assert (size (mk_buffer (buffer_ b ++ replicate (Z.to_nat (writePos_ b + len + 1) - length (buffer_ b)) 0)
              (readPos_ b) (writePos_ b)) = writePos_ b + len + 1) as Hs.
    { unfold size in *. cbn. rewrite length_app, length_replicate. lia. }
    unfold buffer_ok. rewrite Hs. cbn [readPos_ writePos_]. split_and!; try lia.
    eapply contents_intro; [|exact Hpre|lia]. by rewrite Hb, <-!app_assoc.
  - rewrite ReadableBytes_eq, BeginPtr_eq by done. cbn [mbind option_bind].
    rewrite load_eq by lia. cbn [mbind option_bind].
    change (slice _ _ _) with (contents b). rewrite store_eq by lia. cbn [mbind option_bind].
    cbv zeta. cbn [buffer_]. rewrite (wrap64_small (0 + _)) by lia.
    set (b' := mk_buffer _ _ _).
    assert (size b' = size b) as Hs.
    { unfold size, b'. cbn. rewrite length_store; [done|]. unfold size in *. lia. }
    assert (buffer_ok b') as Hok' by (split_and!; cbn; rewrite ?Hs; lia).
    rewrite (ReadableBytes_eq b') by done. cbn [readPos_ writePos_ b'].
    rewrite (proj2 (Z.eqb_eq _ _)) by lia.
    exists b'. split_and!; try done; [|rewrite Hs; cbn; lia|lia].
    eapply (contents_intro _ _ _ []); [cbn; reflexivity|done|lia].
Qed.

Lemma EnsureWriteable_spec b len :
  buffer_ok b -> 0 <= len -> size b + len + 1 < 2 ^ 63 -> exists b',
  EnsureWriteable b len = Some b' /\ buffer_ok b' /\ contents b' = contents b /\
  len <= size b' - writePos_ b' /\ size b' <= size b + len + 1.
Proof.
  intros Hok Hlen Hmax. unfold EnsureWriteable. destruct (_ <? len) eqn:E; zbool.
  - destruct (MakeSpace_spec b len Hok Hlen Hmax E) as (b' & -> & Hok' & Hc & Hl & Hs).
    cbn [mbind option_bind]. rewrite WritableBytes_eq, (proj2 (Z.leb_le _ _)) by (done || lia).
    by exists b'.
  - cbn [mbind option_bind]. rewrite WritableBytes_eq in * by done.
    rewrite (proj2 (Z.leb_le _ _)) by lia. exists b. split_and!; (done || lia).
Qed.

Lemma Append_spec b d :
  buffer_ok b -> size b + Z.of_nat (length d) + 1 < 2 ^ 63 -> exists b',
  Append b d = Some b' /\ buffer_ok b' /\ contents b' = contents b ++ d /\
  size b' <= size b + Z.of_nat (length d) + 1.
Proof.
  intros Hok Hmax. unfold Append.
  destruct (EnsureWriteable_spec b (Z.of_nat (length d)) Hok ltac:(lia) Hmax) as (b1 & -> & Hok1 & Hc & Hl & Hs).
  cbn [mbind option_bind]. unfold BeginWrite. rewrite BeginPtr_eq by done. cbn [mbind option_bind].
  destruct (contents_store b1 d Hok1 ltac:(lia)) as (b2 & Hst & Hs2 & _ & _ & Hc2 & Hok2 & _).
  rewrite Z.add_0_l, Hst. cbn [mbind option_bind]. eexists. split; [done|]. rewrite Hc2, Hc.
  split_and!; try done. unfold size in *. cbn. lia.
Qed.

(** ** Refinement of a queue of bytes *)

(** RetrieveUntil is given a pointer [n] bytes after Peek() *)
Inductive op :=
| op_append (d : bytes)
| op_append_buffer (buff : Buffer)
| op_retrieve (n : Z)
| op_retrieve_until (n : Z)
| op_retrieve_all
| op_retrieve_all_to_str
| op_ensure_writeable (n : Z)
| op_read_fd (r : io bytes)
| op_write_fd (r : io Z).

(** what a caller sees: a string, or a return value, an error number and the
    bytes that went out *)
Inductive out :=
| out_none
| out_str (s : bytes)
| out_io (len : Z) (errno : option Z) (sent : bytes).

Definition step (b : Buffer) (o : op) : option (Buffer * out) :=
  match o with
  | op_append d => b ← Append b d; Some (b, out_none)
  | op_append_buffer buff => b ← Append_buffer b buff; Some (b, out_none)
  | op_retrieve n => b ← Retrieve b n; Some (b, out_none)
  | op_retrieve_until n => p ← Peek b; b ← RetrieveUntil b (p + n); Some (b, out_none)
  | op_retrieve_all => b ← RetrieveAll b; Some (b, out_none)
  | op_retrieve_all_to_str => '(b, s) ← RetrieveAllToStr b; Some (b, out_str s)
  | op_ensure_writeable n => b ← EnsureWriteable b n; Some (b, out_none)
  | op_read_fd r => '(b, len, errno) ← ReadFd b r; Some (b, out_io len errno [])
  | op_write_fd r => '(b, len, errno, sent) ← WriteFd b r; Some (b, out_io len errno sent)
  end.

(** the queue; [None] is a use that the buffer does not promise to support *)
Definition queue_step (q : bytes) (o : op) : option (bytes * out) :=
  let within n := (0 <=? n) && (n <=? Z.of_nat (length q)) in
  match o with
  | op_append d => Some (q ++ d, out_none)
  | op_append_buffer buff => if bool_decide (buffer_ok buff) then Some (q ++ contents buff, out_none) else None
  | op_retrieve n | op_retrieve_until n =>
      if within n then Some (drop (Z.to_nat n) q, out_none) else None
  | op_retrieve_all => Some ([], out_none)
  | op_retrieve_all_to_str => Some ([], out_str q)
  | op_ensure_writeable n => if 0 <=? n then Some (q, out_none) else None
  | op_read_fd (io_ok d) =>
      let len := Z.of_nat (length d) in
      if len <=? 65535 then Some (q ++ d, out_io len None []) else None
  | op_write_fd (io_ok n) =>
      if within n then Some (drop (Z.to_nat n) q, out_io n None (take (Z.to_nat n) q)) else None
  | op_read_fd (io_error errno) | op_write_fd (io_error errno) => Some (q, out_io (-1) (Some errno) [])
  end.

Definition run_ops {S : Type} (f : S -> op -> option (S * out)) :=
  fix go (s : S) (ops : list op) : option (S * list out) :=
    match ops with
    | [] => Some (s, [])
    | o :: ops => '(s, x) ← f s o; '(s, xs) ← go s ops; Some (s, x :: xs)
    end.

(** how much an operation may enlarge the vector *)
Definition cost (o : op) : Z :=
  match o with
  | op_append d => Z.of_nat (length d) + 1
  | op_append_buffer buff => writePos_ buff - readPos_ buff + 1
  | op_ensure_writeable n => n + 1
  | op_read_fd (io_ok d) => Z.of_nat (length d) + 1
  | _ => 0
  end.

Definition total_cost (ops : list op) : Z := foldr (fun o z => cost o + z) 0 ops.

(** removing [n] bytes from the front *)
Lemma retrieve_contents b n :
  buffer_ok b -> 0 <= n <= Z.of_nat (length (contents b)) ->
  let b' := mk_buffer (buffer_ b) (wrap64 (readPos_ b + n)) (writePos_ b) in
  buffer_ok b' /\ contents b' = drop (Z.to_nat n) (contents b).
Proof.
  intros Hok Hn. pose proof (length_contents _ Hok) as Hlc. pose proof Hok as (H1 & H2 & H3).
  destruct (contents_split _ Hok) as (pre & post & Hb & Hpre). cbv zeta. split.
  - unfold buffer_ok, size in *. cbn. rewrite wrap64_small by lia. lia.
  - rewrite wrap64_small by lia.
    eapply (contents_intro _ _ _ (pre ++ take (Z.to_nat n) (contents b)) _ post).
    + rewrite Hb at 1. rewrite <-!app_assoc. f_equal. by rewrite app_assoc, take_drop.
    + rewrite length_app, length_take. lia.
    + rewrite length_drop. lia.
Qed.

Lemma Retrieve_spec b n :
  buffer_ok b -> 0 <= n <= Z.of_nat (length (contents b)) -> exists b',
  Retrieve b n = Some b' /\ buffer_ok b' /\ contents b' = drop (Z.to_nat n) (contents b) /\ size b' = size b.
Proof.
  intros Hok Hn. pose proof (length_contents _ Hok) as Hlc. unfold Retrieve.
  rewrite ReadableBytes_eq, (proj2 (Z.leb_le _ _)) by (done || lia). eexists. split; [done|].
  destruct (retrieve_contents b n Hok Hn). split_and!; done.
Qed.

Lemma RetrieveAll_spec b :
  buffer_ok b -> exists b',
  RetrieveAll b = Some b' /\ buffer_ok b' /\ contents b' = [] /\ size b' = size b.
Proof.
  intros (H1 & H2 & H3). unfold RetrieveAll. rewrite (proj2 (Z.eqb_neq _ _)) by lia.
  eexists. split; [done|]. unfold buffer_ok, size in *. cbn. rewrite length_replicate.
  split_and!; (done || lia).
Qed.

Lemma load_contents b n :
  buffer_ok b -> 0 <= n <= Z.of_nat (length (contents b)) ->
  load b (readPos_ b) n = Some (take (Z.to_nat n) (contents b)).
Proof.
  intros Hok Hn. pose proof (length_contents _ Hok) as Hlc. pose proof Hok as (H1 & H2 & H3).
  rewrite load_eq by lia. unfold contents, slice. rewrite take_take. do 2 f_equal. lia.
Qed.

Lemma ReadFd_spec b d :
  buffer_ok b -> size b + Z.of_nat (length d) + 1 < 2 ^ 63 -> exists b',
  ReadFd b (io_ok d) = Some (b', Z.of_nat (length d), None) /\ buffer_ok b' /\
  contents b' = contents b ++ d /\ size b' <= size b + Z.of_nat (length d) + 1.
Proof.
  intros Hok Hmax. pose proof Hok as (H1 & H2 & H3). unfold ReadFd.
  rewrite BeginPtr_eq, WritableBytes_eq by done. cbn [mbind option_bind]. rewrite Z.add_0_l.
  set (w := Z.to_nat (size b - writePos_ b)).
  destruct (contents_store b (take w d) Hok) as (b1 & -> & Hs & Hr & Hw & Hc & Hok1 & _ & _).
  { rewrite length_take. lia. }
  cbn [mbind option_bind]. destruct (_ <=? _) eqn:E; zbool.
  - rewrite (take_ge d) in * by lia. cbn [mbind option_bind]. eexists. split; [done|].
    split_and!; try done. unfold size in *. cbn. lia.
  - rewrite length_take, Nat.min_l in * by lia.
    assert (HasWritten b1 (Z.of_nat w) = mk_buffer (buffer_ b1) (readPos_ b1) (size b1)) as Hhw.
    { unfold HasWritten. rewrite wrap64_small by lia. f_equal. lia. }
    rewrite Hhw in *.
    destruct (Append_spec _ (drop w d) Hok1) as (b2 & -> & Hok2 & Hc2 & Hs2).
    + rewrite length_drop. unfold size in *. cbn. lia.
    + cbn [mbind option_bind]. exists b2. rewrite Hc2, Hc, <-app_assoc, take_drop.
      split_and!; try done. rewrite length_drop in Hs2. unfold size in *. cbn in *. lia.
Qed.

Lemma cost_nonneg q o q' x : queue_step q o = Some (q', x) -> 0 <= cost o.
Proof.
  destruct o as [d|buff| | | | |n|[e|d]|[e|n]]; cbn; intros H; try lia.
  - case_bool_decide as Hb; [|done]. destruct Hb. lia.
  - destruct (_ <=? _) eqn:E; zbool; [lia|done].
Qed.

Lemma cost_steps ops q qx : run_ops queue_step q ops = Some qx -> 0 <= total_cost ops.
Proof.
  revert q qx; induction ops as [|o ops IH]; intros q qx; cbn; [lia|].
  intros H. apply bind_Some in H as ([q1 x] & Hq & H).
  apply bind_Some in H as ([q2 xs] & Hqs & H). pose proof (cost_nonneg _ _ _ _ Hq).
  pose proof (IH _ _ Hqs). unfold total_cost in *. lia.
Qed.

Lemma step_refines b o q' x :
  buffer_ok b -> size b + cost o < 2 ^ 63 -> queue_step (contents b) o = Some (q', x) -> exists b',
  step b o = Some (b', x) /\ buffer_ok b' /\ contents b' = q' /\ size b' <= size b + cost o.
Proof.
  intros Hok Hmax Hq. pose proof (length_contents _ Hok) as Hlc.
  destruct o as [d|buff|n|n| | |n|[e|d]|[e|n]]; cbn [step queue_step cost] in *.
  - injection Hq as <- <-. destruct (Append_spec b d Hok ltac:(lia)) as (b' & -> & ? & ? & ?).
    exists b'. split_and!; try done. lia.
  - case_bool_decide as Hb; [|done]. injection Hq as <- <-. unfold Append_buffer.
    pose proof (length_contents _ Hb). rewrite Peek_eq, ReadableBytes_eq by done.
    cbn [mbind option_bind]. rewrite load_contents, take_ge by (done || lia). cbn [mbind option_bind].
    destruct (Append_spec b (contents buff) Hok ltac:(lia)) as (b' & -> & ? & ? & ?).
    exists b'. split_and!; try done. lia.
  - destruct (_ && _) eqn:E; zbool; [|done]. injection Hq as <- <-.
    destruct (Retrieve_spec b n Hok ltac:(lia)) as (b' & -> & ? & ? & ?).
    exists b'. split_and!; try done. lia.
  - destruct (_ && _) eqn:E; zbool; [|done]. injection Hq as <- <-. unfold RetrieveUntil.
    rewrite Peek_eq by done. cbn [mbind option_bind]. rewrite (proj2 (Z.leb_le _ _)) by lia.
    pose proof Hok as (? & ? & ?). rewrite wrap64_small by lia. replace (_ + n - _) with n by lia.
    destruct (Retrieve_spec b n Hok ltac:(lia)) as (b' & -> & ? & ? & ?).
    exists b'. split_and!; try done. lia.
  - injection Hq as <- <-. destruct (RetrieveAll_spec b Hok) as (b' & -> & ? & ? & ?).
    exists b'. split_and!; try done. lia.
  - injection Hq as <- <-. unfold RetrieveAllToStr. rewrite Peek_eq, ReadableBytes_eq by done.
    cbn [mbind option_bind]. rewrite load_contents, take_ge by (done || lia). cbn [mbind option_bind].
    destruct (RetrieveAll_spec b Hok) as (b' & -> & ? & ? & ?).
    exists b'. split_and!; try done. lia.
  - destruct (_ <=? _) eqn:E; zbool; [|done]. injection Hq as <- <-.
    destruct (EnsureWriteable_spec b n Hok E ltac:(lia)) as (b' & -> & ? & ? & ? & ?).
    exists b'. split_and!; try done. lia.
  - injection Hq as <- <-. unfold ReadFd. rewrite BeginPtr_eq by done. cbn [mbind option_bind].
    exists b. split_and!; try done. lia.
  - destruct (_ <=? _) eqn:E; zbool; [|done]. injection Hq as <- <-.
    destruct (ReadFd_spec b d Hok ltac:(lia)) as (b' & -> & ? & ? & ?).
    exists b'. split_and!; try done. lia.
  - injection Hq as <- <-. unfold WriteFd. rewrite Peek_eq by done. cbn [mbind option_bind].
    exists b. split_and!; try done. lia.
  - destruct (_ && _) eqn:E; zbool; [|done]. injection Hq as <- <-. unfold WriteFd.
    rewrite Peek_eq by done. cbn [mbind option_bind].
    rewrite load_contents by (done || lia). cbn [mbind option_bind].
    destruct (retrieve_contents b n Hok ltac:(lia)) as [Hok' Hc].
    eexists. split_and!; [done|done|done|]. unfold size. cbn. lia.
Qed.

Lemma run_refines ops b q xs :
  buffer_ok b -> size b + total_cost ops < 2 ^ 63 ->
  run_ops queue_step (contents b) ops = Some (q, xs) -> exists b',
  run_ops step b ops = Some (b', xs) /\ buffer_ok b' /\ contents b' = q.
Proof.
  revert b xs; induction ops as [|o ops IH]; intros b xs Hok Hmax H; cbn in *.
  { injection H as <- <-. by exists b. }
  apply bind_Some in H as ([q1 x] & Hq & H). apply bind_Some in H as ([q2 xs'] & Hqs & [= -> <-]).
  pose proof (cost_steps _ _ _ Hqs). pose proof (cost_nonneg _ _ _ _ Hq). unfold total_cost in *.
  destruct (step_refines b o q1 x Hok ltac:(lia) Hq) as (b1 & -> & Hok1 & Hc1 & Hs1).
  rewrite <-Hc1 in Hqs. destruct (IH b1 xs' Hok1 ltac:(lia) Hqs) as (b2 & Hrun & Hok2 & Hc2).
  cbn [mbind option_bind]. rewrite Hrun. by exists b2.
Qed.

(** C25. The buffer is a queue of bytes: a sequence of operations that a queue
    supports (no more bytes taken than are there, system calls that stay within
    what they were given) meets no failed assertion and no access outside the
    vector, gives the queue's results and leaves the queue's bytes, as long as the
    vector does not outgrow the address space. *)
Theorem buffer_refines_queue init ops q xs :
  0 < init -> init + total_cost ops < 2 ^ 63 -> run_ops queue_step [] ops = Some (q, xs) ->
  exists b0 b, new_buffer init = Some b0 /\ run_ops step b0 ops = Some (b, xs) /\
  buffer_ok b /\ contents b = q.
Proof.
  intros Hi Hmax Hq. unfold new_buffer. rewrite (proj2 (Z.ltb_ge _ _)) by lia. eexists.
  pose proof (cost_steps _ _ _ Hq). set (b0 := mk_buffer _ _ _).
  assert (size b0 = init) as Hs by (unfold size; cbn; rewrite length_replicate; lia).
  destruct (run_refines ops b0 q xs) as (b & Hrun & Hok & Hc); [|lia| |].
  - split_and!; rewrite ?Hs; cbn; lia.
  - exact Hq.
  - exists b. split_and!; done.
Qed.

Lemma buffer_refines_queue_witness :
  exists b0 b, new_buffer 4 = Some b0 /\
  run_ops step b0 [op_append [1; 2; 3]; op_retrieve 2; op_append [4; 5; 6]; op_read_fd (io_ok [7; 8]);
                   op_write_fd (io_ok 1); op_retrieve_all_to_str] =
    Some (b, [out_none; out_none; out_none; out_io 2 None []; out_io 1 None [3]; out_str [4; 5; 6; 7; 8]]) /\
  buffer_ok b /\ contents b = [].
Proof. apply buffer_refines_queue; [lia|cbn; lia|vm_compute; reflexivity]. Defined.
