(* ===== verification/Itoa.v ===== *)
(** * Integer to decimal conversion

    src/include/netcore/itoa.hpp: the digit generator [dec_::convert], which
    divides by multiplying with an inverse and emits two digits at a time, and
    [xtoa].  The text written so far stands for the pointer [p]: writing forward
    appends to it, writing in reverse prepends to it. *)

From Stdlib Require Import ZArith Lia.
From stdpp Require Import base numbers list strings.
From S2P Require Import Prelude CStd.
Local Open Scope Z_scope.

Inductive Direction := Fwd | Rev.

(** the unsigned type of N bytes, N = 1, 2, 4 *)
Definition U (N : Z) (z : Z) : Z := z mod 2 ^ (8 * N).

(** the pair of characters of u, from the table [digits] *)
Definition digit_char (i : Z) : Z :=
  48 + (if i mod 2 =? 0 then (i / 2) / 10 else (i / 2) mod 10).
Definition dd (u : Z) : bytes := [digit_char (2 * u); digit_char (2 * u + 1)].

Definition pow10 (x : nat) : Z := 10 ^ Z.of_nat x.

(** MulInv<UInt, A, M, S> for the types of 2 and 4 bytes *)
Record MulInv := mk_inv { mi_a : Z; mi_m : Z; mi_s : Z }.
Definition MI2 : MulInv := mk_inv 1 41943 22.
Definition MI4 : MulInv := mk_inv 0 3518437209 45.

(** split<N>: the product is computed in the type of 2N bytes *)
Definition split (N : Z) (mi : MulInv) (u : Z) : Z * Z :=
  let q := U N (Z.shiftr (U (2 * N) (mi_m mi * U (2 * N) (u + mi_a mi))) (mi_s mi)) in
  (q, U (N / 2) (u - q * pow10 (Z.to_nat N))).
Definition split2 (u : Z) : Z * Z := split 2 MI2 u.
Definition split4 (u : Z) : Z * Z := split 4 MI4 u.

Definition out (D : Direction) (p obj : bytes) : bytes :=
  match D with Fwd => p ++ obj | Rev => obj ++ p end.

Definition head1 (D : Direction) (p : bytes) (u : Z) : bytes :=
  if u <? 10 then out D p [48 + u] else out D p (dd u).

Definition tail1 (D : Direction) (p : bytes) (u : Z) : bytes := out D p (dd u).

Definition tail2 (D : Direction) (p : bytes) (u : Z) : bytes :=
  let x := split2 u in
  match D with
  | Fwd => tail1 D (tail1 D p (U 1 x.1)) x.2
  | Rev => tail1 D (tail1 D p x.2) (U 1 x.1)
  end.

(** head<2> and head<4> of a quotient and remainder *)
Definition head_qr2 (D : Direction) (p : bytes) (x : Z * Z) : bytes :=
  match D with
  | Fwd => tail1 D (head1 D p (U 1 x.1)) x.2
  | Rev => head1 D (tail1 D p x.2) (U 1 x.1)
  end.
Definition head2 (D : Direction) (p : bytes) (u : Z) : bytes :=
  if u <? pow10 2 then head1 D p (U 1 u) else head_qr2 D p (split2 u).

Definition head_qr4 (D : Direction) (p : bytes) (x : Z * Z) : bytes :=
  match D with
  | Fwd => tail2 D (head2 D p (U 2 x.1)) x.2
  | Rev => head2 D (tail2 D p x.2) (U 2 x.1)
  end.

(** large<4>: values of at least 10^8 *)
Definition large4 (D : Direction) (p : bytes) (x : Z * Z) : bytes :=
  let y := split4 x.1 in
  match D with
  | Fwd => tail2 D (tail2 D (head2 D p (U 2 y.1)) y.2) x.2
  | Rev => head2 D (tail2 D (tail2 D p x.2) y.2) (U 2 y.1)
  end.

(** itoa of an unsigned value of 4 bytes *)
Definition itoa4 (D : Direction) (p : bytes) (u : Z) : bytes :=
  if u <? pow10 4 then head2 D p (U 2 u)
  else
    let x := split4 u in
    if u <? pow10 8 then head_qr4 D p x else large4 D p x.

(** itoa of an int: the minus sign stored first is overwritten by the first
    digit when the value is not negative *)
Definition itoa_int (D : Direction) (i : Z) (p : bytes) : bytes :=
  let mask := if i <? 0 then 2 ^ 32 - 1 else 0 in
  let u := U 4 (Z.land (U 4 (2 * U 4 i)) (2 ^ 32 - 1 - mask) - U 4 i) in
  let p := match D with Fwd => if Z.land mask 1 =? 1 then p ++ [45] else p | Rev => p end in
  let p := itoa4 D p u in
  match D with
  | Rev => if negb (mask =? 0) then 45 :: p else p
  | Fwd => p
  end.

Definition itoa_fwd (i : Z) (p : bytes) : bytes := itoa_int Fwd i p.
Definition itoa_rev (i : Z) (p : bytes) : bytes := itoa_int Rev i p.

(** xtoa: the digits in reverse order, then swapped in place *)
Fixpoint xtoa_digits (fuel : nat) (uval uradix : Z) (sp : bytes) : option bytes :=
  match fuel with
  | O => None
  | S fuel =>
      let rem := uval mod uradix in
      let uval := uval / uradix in
      let sp := sp ++ [if rem <? 10 then 48 + rem else 65 + rem - 10] in
      if 0 <? uval then xtoa_digits fuel uval uradix sp else Some sp
  end.

(** the two pointers of the reversing loop are [i] and [j] *)
Fixpoint xtoa_reverse (fuel : nat) (str : bytes) (i j : nat) : bytes :=
  match fuel with
  | O => str
  | S fuel =>
      if (i <? j)%nat then
        match str !! i, str !! j with
        | Some a, Some b => xtoa_reverse fuel (<[j := a]> (<[i := b]> str)) (S i) (j - 1)
        | _, _ => str
        end
      else str
  end.

(** the text before the terminating NUL; a radix below 2 does not terminate or divides by zero *)
Definition xtoa (sval radix : Z) (signedp : bool) : option bytes :=
  let uradix := wrap32 radix in
  if uradix <? 2 then None
  else
    let neg := signedp && (10 =? uradix) && (sval <? 0) in
    let sign := if neg then [45] else [] in
    let uval := wrap64 (if neg then - sval else sval) in
    ds ← xtoa_digits 64 uval uradix [];
    Some (sign ++ xtoa_reverse (length ds) ds 0 (length ds - 1)).

Example itoa_fwd_ex : itoa_fwd (-2147483648) [] = bs "-2147483648" /\ itoa_rev 10203 [] = bs "10203".
Proof. split; reflexivity. Qed.
Example xtoa_ex : xtoa (-1203) 10 true = Some (bs "-1203") /\ xtoa 48879 16 false = Some (bs "BEEF").
Proof. split; reflexivity. Qed.

(** ** Division by multiplication *)

Lemma mulinv2 u : 0 <= u < 2 ^ 16 -> (41943 * (u + 1)) / 2 ^ 22 = u / 100.
Proof.
  intros H. pose proof (Z_div_mod_eq_full u 100). pose proof (Z.mod_pos_bound u 100 ltac:(lia)).
  symmetry. apply (Z.div_unique_pos _ _ _ (41943 * (u + 1) - 2 ^ 22 * (u / 100))); lia.
Qed.

Lemma mulinv4 u : 0 <= u < 2 ^ 32 -> (3518437209 * u) / 2 ^ 45 = u / 10000.
Proof.
  intros H. pose proof (Z_div_mod_eq_full u 10000). pose proof (Z.mod_pos_bound u 10000 ltac:(lia)).
  symmetry. apply (Z.div_unique_pos _ _ _ (3518437209 * u - 2 ^ 45 * (u / 10000))); lia.
Qed.

Lemma U_small N z : 0 <= z < 2 ^ (8 * N) -> U N z = z.
Proof. apply Z.mod_small. Qed.

Lemma split2_eq u : 0 <= u < 2 ^ 16 -> split2 u = (u / 100, u mod 100).
Proof.
  intros H. unfold split2, split. cbn [mi_m mi_a mi_s MI2].
  pose proof (Z_div_mod_eq_full u 100). pose proof (Z.mod_pos_bound u 100 ltac:(lia)).
  rewrite (U_small (2 * 2) (u + 1)), (U_small (2 * 2)), Z.shiftr_div_pow2, mulinv2 by lia.
  rewrite (U_small 2) by lia. change (pow10 (Z.to_nat 2)) with 100. change (2 / 2) with 1.
  rewrite U_small by lia. f_equal. lia.
Qed.

Lemma split4_eq u : 0 <= u < 2 ^ 32 -> split4 u = (u / 10000, u mod 10000).
Proof.
  intros H. unfold split4, split. cbn [mi_m mi_a mi_s MI4].
  pose proof (Z_div_mod_eq_full u 10000). pose proof (Z.mod_pos_bound u 10000 ltac:(lia)).
  rewrite Z.add_0_r, (U_small (2 * 4) u), (U_small (2 * 4)), Z.shiftr_div_pow2, mulinv4 by lia.
  rewrite (U_small 4) by lia. change (pow10 (Z.to_nat 4)) with 10000. change (4 / 2) with 2.
  rewrite U_small by lia. f_equal. lia.
Qed.

(** ** Digits *)

Lemma dd_eq u : 0 <= u -> dd u = [48 + u / 10; 48 + u mod 10].
Proof.
  intros H. unfold dd, digit_char.
  assert ((2 * u) mod 2 = 0) as -> by (by rewrite Z.mul_comm, Z.mod_mul).
  assert ((2 * u + 1) mod 2 = 1) as -> by (symmetry; apply (Z.mod_unique_pos _ _ u); lia).
  assert ((2 * u) / 2 = u) as -> by (by rewrite Z.mul_comm, Z.div_mul).
  assert ((2 * u + 1) / 2 = u) as -> by (symmetry; apply (Z.div_unique_pos _ _ _ 1); lia). done.
Qed.

Lemma dec_string_small u : 0 <= u < 10 -> dec_string u = [48 + u].
Proof. intros H. unfold dec_string. by rewrite digits_small. Qed.

Lemma dec_string_snoc q d : 0 < q -> 0 <= d < 10 -> dec_string (q * 10 + d) = dec_string q ++ [48 + d].
Proof. intros H1 H2. unfold dec_string. by rewrite digits_snoc, fmap_app by lia. Qed.

Lemma dec_string_dd q r : 0 < q -> 0 <= r < 100 -> dec_string (q * 100 + r) = dec_string q ++ dd r.
Proof.
  intros H1 H2. pose proof (Z_div_mod_eq_full r 10). pose proof (Z.mod_pos_bound r 10 ltac:(lia)).
  replace (q * 100 + r) with ((q * 10 + r / 10) * 10 + r mod 10) by lia.
  rewrite !dec_string_snoc, dd_eq, <-app_assoc by (try apply Z.div_pos; lia). done.
Qed.

(** four digits, with leading zeros *)
Definition quad (u : Z) : bytes := dd (u / 100) ++ dd (u mod 100).

Lemma dec_string_quad q r :
  0 < q -> 0 <= r < 10000 -> dec_string (q * 10000 + r) = dec_string q ++ quad r.
Proof.
  intros H1 H2. pose proof (Z_div_mod_eq_full r 100). pose proof (Z.mod_pos_bound r 100 ltac:(lia)).
  replace (q * 10000 + r) with ((q * 100 + r / 100) * 100 + r mod 100) by lia. unfold quad.
  rewrite !dec_string_dd, <-app_assoc by lia. done.
Qed.

(** ** The generator writes decimal digits *)

Lemma head1_eq D p u : 0 <= u < 100 -> head1 D p u = out D p (dec_string u).
Proof.
  intros H. unfold head1. destruct (u <? 10) eqn:E; zbool; [by rewrite dec_string_small by lia|].
  pose proof (Z_div_mod_eq_full u 10). pose proof (Z.mod_pos_bound u 10 ltac:(lia)).
  rewrite dd_eq by lia. f_equal. set (q := u / 10) in *. set (d := u mod 10) in *.
  replace u with (q * 10 + d) by lia. by rewrite dec_string_snoc, dec_string_small by lia.
Qed.

Lemma tail2_eq D p u : 0 <= u < 10000 -> tail2 D p u = out D p (quad u).
Proof.
  intros H. pose proof (Z_div_mod_eq_full u 100). pose proof (Z.mod_pos_bound u 100 ltac:(lia)).
  unfold tail2, quad. rewrite split2_eq by lia. cbn [fst snd]. rewrite U_small by lia.
  by destruct D; unfold tail1, out; rewrite <-app_assoc.
Qed.

Lemma head2_eq D p u : 0 <= u < 10000 -> head2 D p u = out D p (dec_string u).
Proof.
  intros H. unfold head2. change (pow10 2) with 100. destruct (u <? 100) eqn:E; zbool.
  - rewrite U_small by lia. by rewrite head1_eq by lia.
  - pose proof (Z_div_mod_eq_full u 100). pose proof (Z.mod_pos_bound u 100 ltac:(lia)).
    unfold head_qr2. rewrite split2_eq by lia. cbn [fst snd]. rewrite U_small by lia.
    set (q := u / 100) in *. set (d := u mod 100) in *.
    assert (dec_string u = dec_string q ++ dd d) as -> by (rewrite <-dec_string_dd by lia; f_equal; lia).
    destruct D; rewrite !head1_eq by lia; unfold tail1, out; by rewrite <-app_assoc.
Qed.

Lemma itoa4_eq D p u : 0 <= u < 2 ^ 32 -> itoa4 D p u = out D p (dec_string u).
Proof.
  intros H. unfold itoa4. change (pow10 4) with 10000. change (pow10 8) with 100000000.
  destruct (u <? 10000) eqn:E1; zbool.
  { rewrite U_small by lia. apply head2_eq; lia. }
  pose proof (Z_div_mod_eq_full u 10000). pose proof (Z.mod_pos_bound u 10000 ltac:(lia)).
  rewrite split4_eq by lia. set (q := u / 10000) in *. set (r := u mod 10000) in *.
  assert (dec_string u = dec_string q ++ quad r) as ->.
  { rewrite <-dec_string_quad by lia. f_equal. lia. }
  destruct (u <? 100000000) eqn:E2; zbool.
  - unfold head_qr4. cbn [fst snd]. rewrite U_small by lia.
    destruct D; rewrite head2_eq, tail2_eq by lia; unfold out; by rewrite <-app_assoc.
  - pose proof (Z_div_mod_eq_full q 10000). pose proof (Z.mod_pos_bound q 10000 ltac:(lia)).
    unfold large4. cbn [fst snd]. rewrite split4_eq by lia. cbn [fst snd].
    rewrite U_small by lia.
    assert (dec_string q = dec_string (q / 10000) ++ quad (q mod 10000)) as ->.
    { rewrite <-dec_string_quad by lia. f_equal. lia. }
    destruct D; rewrite head2_eq, !tail2_eq by lia; unfold out; by rewrite <-!app_assoc.
Qed.

Lemma itoa_int_eq D i p :
  - 2 ^ 31 <= i < 2 ^ 31 -> itoa_int D i p = out D p (to_string i).
Proof.
  intros H. unfold itoa_int, to_string. destruct (i <? 0) eqn:E; zbool.
  - assert (U 4 i = 2 ^ 32 + i) as Ui.
    { unfold U. symmetry. apply (Z.mod_unique_pos _ _ (-1)); cbn; lia. }
    rewrite Z.sub_diag, Z.land_0_r, Ui.
    assert (U 4 (0 - (2 ^ 32 + i)) = - i) as ->.
    { unfold U. symmetry. apply (Z.mod_unique_pos _ _ (-1)); cbn; lia. }
    change (Z.land (2 ^ 32 - 1) 1 =? 1) with true. change (negb (2 ^ 32 - 1 =? 0)) with true. cbv iota.
    destruct D; rewrite itoa4_eq by lia; unfold out; [by rewrite <-app_assoc|done].
  - rewrite Z.sub_0_r, (U_small 4 i), (U_small 4 (2 * i)) by lia.
    assert (Z.land (2 * i) (2 ^ 32 - 1) = 2 * i) as ->.
    { change (2 ^ 32 - 1) with (Z.ones 32). rewrite Z.land_ones by lia. apply Z.mod_small. lia. }
    replace (2 * i - i) with i by lia. rewrite U_small by lia.
    change (Z.land 0 1 =? 1) with false. change (negb (0 =? 0)) with false. cbv iota.
    destruct D; by rewrite itoa4_eq by lia.
Qed.

(** For every int the digit generator writes its decimal representation, a
    minus sign included, after the text already written when it works forward
    and before it when it works in reverse. *)
Theorem itoa_correct D i p :
  - 2 ^ 31 <= i < 2 ^ 31 -> itoa_int D i p = out D p (to_string i).
Proof. apply itoa_int_eq. Qed.

Lemma itoa_correct_witness :
  itoa_int Fwd 1234567890 (bs "x") = bs "x1234567890" /\ itoa_int Rev (-7) (bs "x") = bs "-7x".
Proof.
  split; [rewrite (itoa_correct Fwd 1234567890 (bs "x")) by lia|rewrite (itoa_correct Rev (-7) (bs "x")) by lia];
    reflexivity.
Defined.

(** ** xtoa *)

Lemma xtoa_digits_eq fuel u b sp :
  2 <= b -> 0 <= u < 2 ^ Z.of_nat (S fuel) ->
  xtoa_digits (S fuel) u b sp = Some (sp ++ rev (hex_upper <$> digits_aux (S fuel) b u [])).
Proof.
  intros Hb. revert u sp; induction fuel as [|fuel IH]; intros u sp Hu; rewrite digits_aux_S.
  - cbn in Hu. rewrite (proj2 (Z.ltb_lt u b)) by lia. cbn [xtoa_digits].
    rewrite Z.div_small, Z.mod_small by lia. cbn. unfold hex_upper.
    destruct (u <? 10); do 3 f_equal; lia.
  - remember (S fuel) as f eqn:Ef. cbn [xtoa_digits].
    assert (65 + u mod b - 10 = 55 + u mod b) as -> by lia. fold (hex_upper (u mod b)).
    destruct (u <? b) eqn:E; zbool.
    + by rewrite Z.div_small by lia.
    + assert (0 < u / b) as Hpos by (apply Z.div_str_pos; lia).
      rewrite (proj2 (Z.ltb_lt _ _) Hpos), IH.
      * by rewrite fmap_app, rev_app_distr, <-app_assoc.
      * subst f. rewrite (Nat2Z.inj_succ (S fuel)), Z.pow_succ_r in Hu by lia.
        split; [lia|]. apply Z.div_lt_upper_bound; nia.
Qed.

Lemma xtoa_reverse_eq fuel pre mid post :
  (length mid <= fuel)%nat ->
  xtoa_reverse fuel (pre ++ mid ++ post) (length pre) (length pre + length mid - 1) = pre ++ rev mid ++ post.
Proof.
  revert pre mid post; induction fuel as [|fuel IH]; intros pre mid post Hf.
  { destruct mid; [done|cbn in Hf; lia]. }
  cbn [xtoa_reverse]. destruct mid as [|x mid].
  { by rewrite (proj2 (Nat.ltb_ge _ _)) by (cbn; lia). }
  destruct mid as [|y mid _] using rev_ind.
  { by rewrite (proj2 (Nat.ltb_ge _ _)) by (cbn; lia). }
  cbn [length] in Hf. rewrite length_app in Hf. cbn [length] in Hf.
  rewrite (proj2 (Nat.ltb_lt _ _)) by (cbn [length]; rewrite length_app; cbn; lia).
  assert (length pre + length (x :: mid ++ [y]) - 1 = length (pre ++ x :: mid))%nat as ->.
  { rewrite length_app. cbn [length]. rewrite length_app. cbn. lia. }
  assert (pre ++ (x :: mid ++ [y]) ++ post = (pre ++ x :: mid) ++ y :: post) as El
    by (by rewrite <-!app_assoc; cbn; rewrite <-!app_assoc).
  assert ((pre ++ (x :: mid ++ [y]) ++ post) !! length pre = Some x) as ->
    by (cbn; by rewrite list_lookup_middle).
  rewrite El. rewrite list_lookup_middle by done.
  assert (<[length pre := y]> ((pre ++ x :: mid) ++ y :: post) = (pre ++ y :: mid) ++ y :: post) as ->.
  { rewrite <-!app_assoc. cbn. by rewrite insert_app_r_alt, Nat.sub_diag by lia. }
  assert (<[length (pre ++ x :: mid) := x]> ((pre ++ y :: mid) ++ y :: post)
    = (pre ++ [y]) ++ mid ++ x :: post) as ->.
  { replace (length (pre ++ x :: mid)) with (length (pre ++ y :: mid)) by (by rewrite !length_app).
    rewrite insert_app_r_alt, Nat.sub_diag by lia. cbn. by rewrite <-!app_assoc. }
  replace (S (length pre)) with (length (pre ++ [y])) by (rewrite length_app; cbn; lia).
  replace (length (pre ++ x :: mid) - 1)%nat with (length (pre ++ [y]) + length mid - 1)%nat
    by (rewrite !length_app; cbn; lia).
  rewrite IH by lia. cbn [rev]. rewrite rev_app_distr. cbn. by rewrite <-!app_assoc.
Qed.

(** xtoa writes the digits of the value in the given radix, most significant
    first and with upper-case letters: of the absolute value after a minus sign
    when a negative value is printed as signed decimal, of the value as a 64-bit
    unsigned number otherwise. *)
Theorem xtoa_correct sval radix signedp :
  - 2 ^ 63 <= sval < 2 ^ 63 -> (signedp = true -> sval <> - 2 ^ 63) -> 2 <= radix <= 36 ->
  xtoa sval radix signedp =
  Some (if signedp && (radix =? 10) && (sval <? 0)
        then 45 :: (hex_upper <$> digits radix (- sval))
        else hex_upper <$> digits radix (wrap64 sval)).
Proof.
  intros Hs _ Hr. unfold xtoa. rewrite wrap32_small, (proj2 (Z.ltb_ge radix 2)) by lia.
  rewrite (Z.eqb_sym 10). set (neg := signedp && _ && _).
  assert (wrap64 (if neg then - sval else sval) = if neg then - sval else wrap64 sval) as ->.
  { subst neg. destruct (signedp && _ && _) eqn:E; zbool; [|done]. apply wrap64_small. lia. }
  assert (0 <= (if neg then - sval else wrap64 sval) < 2 ^ 64) as Hu.
  { subst neg. destruct (signedp && _ && _) eqn:E; zbool; [lia|]. apply wrap64_range. }
  set (u := if neg then _ else _) in *. rewrite (xtoa_digits_eq 63) by lia. cbn [mbind option_bind].
  rewrite app_nil_l. set (ds := rev _).
  pose proof (xtoa_reverse_eq (length ds) [] ds [] ltac:(lia)) as Hrev.
  rewrite !app_nil_r, !app_nil_l in Hrev. cbn [length Nat.add] in Hrev. rewrite Hrev. subst ds.
  rewrite rev_involutive.
  assert (digits_aux 64 radix u [] = digits radix u) as ->.
  { unfold digits. apply (digits_aux_fuel 63); [lia|lia|]. apply digits_fuel. lia. }
  subst u. by destruct neg.
Qed.

Lemma xtoa_correct_witness :
  xtoa (-255) 10 true = Some (bs "-255") /\ xtoa 51966 16 false = Some (bs "CAFE").
Proof.
  split; [rewrite (xtoa_correct (-255) 10 true) by (lia || done)|rewrite (xtoa_correct 51966 16 false) by (lia || done)];
    vm_compute; reflexivity.
Defined.
