(* ===== verification/ToStr.v ===== *)
(** * Values as text, and identifiers

    include/netcore/utils.hpp: to_str for the types it converts by a routine of its own
    (int, the two 64-bit types) or passes on (strings), over the formatters of Itoa.v;
    uuid_str, which writes a clock's reading and a counter behind each other. *)

From Stdlib Require Import ZArith Lia.
From stdpp Require Import base numbers list strings.
From S2P Require Import Prelude CStd Itoa Transition.
Local Open Scope Z_scope.

(** ** to_str *)

Inductive value := Int (i : Z) | Int64 (i : Z) | UInt64 (i : Z) | Str (s : bytes).

(** the buffers are filled with zeros, so that the text ends behind what is written *)
Definition to_str (v : value) : option bytes :=
  match v with
  | Int i => Some (itoa_fwd i [])
  | Int64 i => xtoa i 10 true
  | UInt64 i => xtoa (if i <? 2 ^ 63 then i else i - 2 ^ 64) 10 false
  | Str s => Some s
  end.

(** the values of the types; the negation of the least 64-bit value is undefined *)
Definition value_ok (v : value) : Prop :=
  match v with
  | Int i => - 2 ^ 31 <= i < 2 ^ 31
  | Int64 i => - 2 ^ 63 < i < 2 ^ 63
  | UInt64 i => 0 <= i < 2 ^ 64
  | Str _ => True
  end.

Lemma upper_digits n : 0 <= n -> hex_upper <$> digits 10 n = dec_string n.
Proof.
  intros Hn. unfold dec_string. pose proof (digits_range 10 n ltac:(lia) Hn) as H.
  induction H as [|d ds Hd _ IH]; [done|]. rewrite !fmap_cons, IH. f_equal. unfold hex_upper. by rewrite (proj2 (Z.ltb_lt _ _)) by lia.
Qed.

(** both routines and std::to_string agree *)
Theorem to_str_decimal v : value_ok v ->
  to_str v = Some (match v with Int i | Int64 i | UInt64 i => to_string i | Str s => s end).
Proof.
  destruct v as [i|i|i|s]; cbn [value_ok to_str]; intros H; [| | |done].
  - unfold itoa_fwd. by rewrite itoa_int_eq.
  - rewrite xtoa_correct by lia. unfold to_string. cbn [andb]. change (10 =? 10) with true.
    destruct (i <? 0) eqn:E; zbool; cbn [andb]; rewrite upper_digits by (lia || apply wrap64_range); [done|].
    by rewrite wrap64_small by lia.
  - assert (- 2 ^ 63 <= (if i <? 2 ^ 63 then i else i - 2 ^ 64) < 2 ^ 63) as Hr by (destruct (i <? 2 ^ 63) eqn:E; zbool; lia).
    rewrite xtoa_correct by lia. cbn [andb]. unfold to_string. rewrite (proj2 (Z.ltb_ge i 0)) by lia.
    assert (wrap64 (if i <? 2 ^ 63 then i else i - 2 ^ 64) = i) as ->.
    { unfold wrap64. destruct (i <? 2 ^ 63); [apply Z.mod_small; lia|].
      replace (i - 2 ^ 64) with (i + -1 * 2 ^ 64) by lia. rewrite Z.mod_add by lia. apply Z.mod_small; lia. }
    by rewrite upper_digits by lia.
Qed.

(** ** uuid_str *)

(** what a thread reads of the counter is its value when it reads, after its own increment *)
Record caller := mk_caller { nano : Z; counted : bool; result : option bytes }.
Record uuid_state := mk_uuid { counter : Z; callers : list caller }.

Definition uuid_text (nano id : Z) : bytes := to_string nano ++ to_string id.

Inductive uuid_action := Call (nano : Z) | Increment (i : nat) | Read (i : nat).

(** id_++ and the read of id_ are two operations *)
Definition uuid_step (a : uuid_action) (s : uuid_state) : option uuid_state :=
  match a with
  | Call n => Some (mk_uuid (counter s) (callers s ++ [mk_caller n false None]))
  | Increment i =>
      c ← callers s !! i;
      if counted c then None
      else Some (mk_uuid (counter s + 1) (<[i := mk_caller (nano c) true None]> (callers s)))
  | Read i =>
      c ← callers s !! i;
      match counted c, result c with
      | true, None => Some (mk_uuid (counter s) (<[i := mk_caller (nano c) true (Some (uuid_text (nano c) (counter s)))]> (callers s)))
      | _, _ => None
      end
  end.

(** one call without another in between *)
Definition uuid_str (nano id : Z) : bytes * Z := (uuid_text nano (id + 1), id + 1).

Lemma uuid_str_steps n s : let i := length (callers s) in
  exists s', run uuid_step [Call n; Increment i; Read i] s = Some s' /\ counter s' = (uuid_str n (counter s)).2 /\
    callers s' = callers s ++ [mk_caller n true (Some (uuid_str n (counter s)).1)].
Proof.
  intros i. cbn [run mbind option_bind uuid_step callers counter].
  rewrite (list_lookup_middle (callers s) [] _ i) by done. cbn [mbind option_bind counted nano callers counter].
  rewrite list_lookup_insert_eq by (rewrite length_app; cbn; lia). cbn [mbind option_bind counted result nano].
  eexists. split; [reflexivity|]. split; [done|]. cbn [callers]. rewrite list_insert_insert_eq.
  rewrite insert_app_r_alt by done. by rewrite Nat.sub_diag.
Qed.

Lemma undigits_dec n : 0 <= n -> undigits 10 ((fun c => c - 48) <$> dec_string n) = n.
Proof.
  intros Hn. unfold dec_string. rewrite <-list_fmap_compose.
  assert ((fun c => c - 48) ∘ (fun d => 48 + d) <$> digits 10 n = digits 10 n) as ->.
  { induction (digits 10 n) as [|d l IH]; [done|]. rewrite fmap_cons, IH. f_equal. unfold compose. lia. }
  by apply undigits_digits.
Qed.

Lemma undigits_bound b ds : 2 <= b -> Forall (fun d => 0 <= d < b) ds -> undigits b ds < b ^ Z.of_nat (length ds).
Proof.
  intros Hb. induction ds as [|d ds IH] using rev_ind; intros H; [done|].
  apply Forall_app in H as [H Hd]. apply (Forall_singleton _ d) in Hd. specialize (IH H). rewrite undigits_snoc, length_app. cbn [length].
  rewrite Nat.add_1_r, Nat2Z.inj_succ, Z.pow_succ_r by lia.
  revert IH. generalize (b ^ Z.of_nat (length ds)) (undigits b ds). intros p u Hpu. cbn in Hd. nia.
Qed.

Lemma dec_string_length n k : 10 ^ Z.of_nat k <= n < 10 ^ Z.of_nat (S k) -> length (dec_string n) = S k.
Proof.
  intros Hn. pose proof (Z.pow_pos_nonneg 10 (Z.of_nat k) ltac:(lia) ltac:(lia)). unfold dec_string. rewrite length_fmap.
  pose proof (digits_length 10 n k ltac:(lia) ltac:(lia)).
  pose proof (undigits_bound 10 (digits 10 n) ltac:(lia) (digits_range 10 n ltac:(lia) ltac:(lia))) as Hu.
  rewrite undigits_digits in Hu by lia.
  assert (10 ^ Z.of_nat k < 10 ^ Z.of_nat (length (digits 10 n))) as Hlt by (eapply Z.le_lt_trans; [apply Hn|exact Hu]).
  apply Z.pow_lt_mono_r_iff in Hlt; lia.
Qed.

(** identifiers are different as long as readings of the clock have as many digits (those of
    a nanosecond clock do between the years 2001 and 2286) and calls follow each other *)
Theorem uuid_str_unique n1 n2 id1 id2 :
  10 ^ 18 <= n1 < 10 ^ 19 -> 10 ^ 18 <= n2 < 10 ^ 19 -> 0 <= id1 -> 0 <= id2 ->
  (uuid_str n1 id1).1 = (uuid_str n2 id2).1 -> n1 = n2 /\ id1 = id2.
Proof.
  intros H1 H2 Hi1 Hi2 E. cbn [uuid_str fst] in E. unfold uuid_text, to_string in E.
  rewrite !(proj2 (Z.ltb_ge _ 0)) in E by lia.
  assert (forall n, 10 ^ 18 <= n < 10 ^ 19 -> length (dec_string n) = 19%nat) as L.
  { intros n Hn. by apply (dec_string_length n 18). }
  apply app_inj_1 in E as [E1 E2]; [|by rewrite !L].
  apply (f_equal (fun l => undigits 10 ((fun c => c - 48) <$> l))) in E1, E2. rewrite !undigits_dec in E1, E2 by lia. lia.
Qed.

(** two threads that both increment before either reads get one identifier in one tick *)
Lemma uuid_str_raced n s : callers s = [] ->
  option_map (fun s' => result <$> callers s') (run uuid_step [Call n; Call n; Increment 0; Increment 1; Read 0; Read 1] s) =
  Some [Some (uuid_text n (counter s + 1 + 1)); Some (uuid_text n (counter s + 1 + 1))].
Proof. destruct s as [k l]. cbn. by intros ->. Qed.
