(* ===== verification/Cookie.v ===== *)
(** * Dates and cookies

    The time strings of src/include/netcore/utils.hpp (gmtime and strftime in the
    "C" locale) and the cookie of src/include/netcore/cookie.hpp. *)

From Stdlib Require Import ZArith Lia.
From stdpp Require Import base numbers list strings.
From S2P Require Import Prelude CStd PicoHttp PicoHttpFacts.
Local Open Scope Z_scope.

(** ** Broken-down time *)

Record tm := mk_tm {
  tm_sec : Z; tm_min : Z; tm_hour : Z; tm_mday : Z; tm_mon : Z; tm_year : Z; tm_wday : Z
}.

(** gmtime: the proleptic Gregorian date of a number of seconds since 1970 *)
Definition gmtime (t : Z) : tm :=
  let days := t / 86400 in
  let sod := t mod 86400 in
  let z := days + 719468 in
  let era := z / 146097 in
  let doe := z mod 146097 in
  let yoe := (doe - doe / 1460 + doe / 36524 - doe / 146096) / 365 in
  let doy := doe - (365 * yoe + yoe / 4 - yoe / 100) in
  let mp := (5 * doy + 2) / 153 in
  let m := if mp <? 10 then mp + 3 else mp - 9 in
  mk_tm (sod mod 60) (sod / 60 mod 60) (sod / 3600) (doy - (153 * mp + 2) / 5 + 1) (m - 1)
    (yoe + era * 400 + (if m <=? 2 then 1 else 0)) ((days + 4) mod 7).

Definition weekdays : list bytes :=
  [bs "Sun"; bs "Mon"; bs "Tue"; bs "Wed"; bs "Thu"; bs "Fri"; bs "Sat"].
Definition months : list bytes :=
  [bs "Jan"; bs "Feb"; bs "Mar"; bs "Apr"; bs "May"; bs "Jun"; bs "Jul"; bs "Aug"; bs "Sep";
   bs "Oct"; bs "Nov"; bs "Dec"].

Definition two (n : Z) : bytes := [48 + n / 10; 48 + n mod 10].

(** "%a, %d %b %Y %H:%M:%S" and "%Y-%m-%d %H:%M:%S" *)
Definition http_date (d : tm) : bytes :=
  nth (Z.to_nat (tm_wday d)) weekdays [] ++ bs ", " ++ two (tm_mday d) ++ bs " " ++
  nth (Z.to_nat (tm_mon d)) months [] ++ bs " " ++ to_string (tm_year d) ++ bs " " ++
  two (tm_hour d) ++ bs ":" ++ two (tm_min d) ++ bs ":" ++ two (tm_sec d).
Definition iso_date (d : tm) : bytes :=
  to_string (tm_year d) ++ bs "-" ++ two (tm_mon d + 1) ++ bs "-" ++ two (tm_mday d) ++ bs " " ++
  two (tm_hour d) ++ bs ":" ++ two (tm_min d) ++ bs ":" ++ two (tm_sec d).

(** get_gmt_time_str; %Z is the name of the zone *)
Definition get_gmt_time_str (t : Z) : bytes := http_date (gmtime t) ++ bs " " ++ bs "GMT".

(** get_time_str; [offset t] is the offset of the local zone at time [t] *)
Definition get_time_str (offset : Z -> Z) (t : Z) : bytes := iso_date (gmtime (t + offset t)).

Example get_gmt_time_str_ex :
  get_gmt_time_str 784111777 = bs "Sun, 06 Nov 1994 08:49:37 GMT" /\
  get_gmt_time_str 951782400 = bs "Tue, 29 Feb 2000 00:00:00 GMT" /\
  get_time_str (fun _ => 28800) 0 = bs "1970-01-01 08:00:00".
Proof. split_and!; vm_compute; reflexivity. Qed.

(** ** Cookies *)

Record cookie := mk_cookie {
  version_ : Z; name_ : bytes; value_ : bytes; comment_ : bytes; domain_ : bytes; path_ : bytes;
  priority_ : bytes; secure_ : bool; max_age_ : Z; http_only_ : bool
}.

Definition new_cookie (name value : bytes) : cookie :=
  mk_cookie 0 name value [] [] [] [] false (-1) false.

Definition set_version (c : cookie) (version : Z) : cookie :=
  mk_cookie version (name_ c) (value_ c) (comment_ c) (domain_ c) (path_ c) (priority_ c) (secure_ c)
    (max_age_ c) (http_only_ c).
Definition set_name (c : cookie) (name : bytes) : cookie :=
  mk_cookie (version_ c) name (value_ c) (comment_ c) (domain_ c) (path_ c) (priority_ c) (secure_ c)
    (max_age_ c) (http_only_ c).
Definition set_value (c : cookie) (value : bytes) : cookie :=
  mk_cookie (version_ c) (name_ c) value (comment_ c) (domain_ c) (path_ c) (priority_ c) (secure_ c)
    (max_age_ c) (http_only_ c).
Definition set_comment (c : cookie) (comment : bytes) : cookie :=
  mk_cookie (version_ c) (name_ c) (value_ c) comment (domain_ c) (path_ c) (priority_ c) (secure_ c)
    (max_age_ c) (http_only_ c).
Definition set_domain (c : cookie) (domain : bytes) : cookie :=
  mk_cookie (version_ c) (name_ c) (value_ c) (comment_ c) domain (path_ c) (priority_ c) (secure_ c)
    (max_age_ c) (http_only_ c).
Definition set_path (c : cookie) (path : bytes) : cookie :=
  mk_cookie (version_ c) (name_ c) (value_ c) (comment_ c) (domain_ c) path (priority_ c) (secure_ c)
    (max_age_ c) (http_only_ c).
Definition set_priority (c : cookie) (priority : bytes) : cookie :=
  mk_cookie (version_ c) (name_ c) (value_ c) (comment_ c) (domain_ c) (path_ c) priority (secure_ c)
    (max_age_ c) (http_only_ c).
Definition set_secure (c : cookie) (secure : bool) : cookie :=
  mk_cookie (version_ c) (name_ c) (value_ c) (comment_ c) (domain_ c) (path_ c) (priority_ c) secure
    (max_age_ c) (http_only_ c).
Definition set_max_age (c : cookie) (seconds : Z) : cookie :=
  mk_cookie (version_ c) (name_ c) (value_ c) (comment_ c) (domain_ c) (path_ c) (priority_ c) (secure_ c)
    seconds (http_only_ c).
Definition set_http_only (c : cookie) (http_only : bool) : cookie :=
  mk_cookie (version_ c) (name_ c) (value_ c) (comment_ c) (domain_ c) (path_ c) (priority_ c) (secure_ c)
    (max_age_ c) http_only.

Definition dquote : bytes := [34].

(** an attribute that is written when its value is not empty *)
Definition opt_attr (label v close : bytes) : bytes :=
  if bool_decide (v = []) then [] else label ++ v ++ close.

Definition flag_attrs (c : cookie) : bytes :=
  (if secure_ c then bs "; secure" else []) ++ (if http_only_ c then bs "; HttpOnly" else []).

(** cookie::to_string, in the Netscape and the RFC 2109 form *)
Definition cookie_to_string (c : cookie) : bytes :=
  name_ c ++ bs "=" ++
  (if version_ c =? 0 then
     value_ c ++
     opt_attr (bs "; path=") (path_ c) [] ++
     opt_attr (bs "; Priority=") (priority_ c) [] ++
     (if negb (max_age_ c =? -1) then bs "; expires=" ++ get_gmt_time_str (max_age_ c) else []) ++
     flag_attrs c
   else
     dquote ++ value_ c ++ dquote ++
     opt_attr (bs "; Comment=" ++ dquote) (comment_ c) dquote ++
     opt_attr (bs "; Path=" ++ dquote) (path_ c) dquote ++
     opt_attr (bs "; Priority=" ++ dquote) (priority_ c) dquote ++
     (if negb (max_age_ c =? -1) then bs "; Max-Age=" ++ dquote ++ to_string (max_age_ c) ++ dquote else []) ++
     flag_attrs c ++ bs "; Version=" ++ dquote ++ bs "1" ++ dquote).

(** ** Cookie and date strings are header values *)

(** bytes that may appear in a header value *)
Definition clean (s : bytes) : Prop := Forall (fun c => is_byte c /\ is_ctl c = false) s.

#[export] Instance clean_dec s : Decision (clean s).
Proof. unfold clean; apply _. Defined.

Lemma clean_nil : clean [].
Proof. constructor. Qed.

Lemma clean_app a b : clean a -> clean b -> clean (a ++ b).
Proof. intros. by apply Forall_app. Qed.

Lemma clean_range c : 32 <= c <= 126 -> is_byte c /\ is_ctl c = false.
Proof.
  intros H. assert (is_byte c) as Hb by (unfold is_byte; lia). split; [done|].
  assert (forall c, is_byte c -> negb ((32 <=? c) && (c <=? 126)) || negb (is_ctl c) = true) as Hall
    by (apply all_bytes_check; by vm_compute).
  specialize (Hall c Hb). rewrite (proj2 (Z.leb_le _ _)), (proj2 (Z.leb_le _ _)) in Hall by lia.
  by destruct (is_ctl c).
Qed.

Lemma clean_two n : 0 <= n < 100 -> clean (two n).
Proof.
  intros H. pose proof (Z_div_mod_eq_full n 10). pose proof (Z.mod_pos_bound n 10 ltac:(lia)).
  constructor; [|constructor; [|constructor]]; apply clean_range; lia.
Qed.

Lemma clean_dec_string n : 0 <= n -> clean (dec_string n).
Proof.
  intros H. apply Forall_fmap. eapply Forall_impl; [apply (digits_range 10 n); lia|].
  intros d Hd. cbv beta in Hd. unfold compose. apply clean_range. lia.
Qed.

Lemma clean_to_string n : clean (to_string n).
Proof.
  unfold to_string. destruct (n <? 0) eqn:E; zbool; [|by apply clean_dec_string].
  constructor; [by apply clean_range|]. apply clean_dec_string. lia.
Qed.

(** a closed string, checked by evaluation *)
Ltac clean_const :=
  lazymatch goal with
  | |- clean (bs _) => idtac
  | |- clean dquote => idtac
  | |- clean [] => idtac
  | |- Forall clean _ => idtac
  end; apply (bool_decide_unpack _); vm_compute; exact I.
Ltac clean :=
  repeat match goal with
  | |- clean (_ ++ _) => apply clean_app
  | |- clean (to_string _) => apply clean_to_string
  | |- clean _ => assumption || clean_const
  end.

(** the day of the month, from the day of a year that starts in March *)
Lemma mday_range doy : 1 <= doy - (153 * ((5 * doy + 2) / 153) + 2) / 5 + 1 <= 31.
Proof.
  pose proof (Z_div_mod_eq_full (5 * doy + 2) 153). pose proof (Z.mod_pos_bound (5 * doy + 2) 153 ltac:(lia)).
  set (mp := (5 * doy + 2) / 153) in *.
  pose proof (Z_div_mod_eq_full (153 * mp + 2) 5). pose proof (Z.mod_pos_bound (153 * mp + 2) 5 ltac:(lia)). lia.
Qed.

Lemma clean_nth (l : list bytes) n : Forall clean l -> clean (nth n l []).
Proof.
  intros H. revert n; induction H; intros [|n]; cbn; try apply clean_nil; auto.
Qed.

Lemma clean_http_date t : clean (http_date (gmtime t)).
Proof.
  unfold http_date.
  pose proof (Z.mod_pos_bound t 86400 ltac:(lia)) as Hs. clean.
  - apply clean_nth. clean_const.
  - apply clean_two. cbv zeta beta delta [gmtime tm_mday]. cbv iota.
    match goal with |- 0 <= ?doy - _ + 1 < _ => pose proof (mday_range doy) end. lia.
  - apply clean_nth. clean_const.
  - apply clean_two. cbv zeta beta delta [gmtime tm_hour]. cbv iota.
    split; [apply Z.div_pos; lia|]. apply Z.div_lt_upper_bound; lia.
  - apply clean_two. cbv zeta beta delta [gmtime tm_min]. cbv iota.
    pose proof (Z.mod_pos_bound (t mod 86400 / 60) 60). lia.
  - apply clean_two. cbv zeta beta delta [gmtime tm_sec]. cbv iota.
    pose proof (Z.mod_pos_bound (t mod 86400) 60). lia.
Qed.

Lemma clean_gmt t : clean (get_gmt_time_str t).
Proof. pose proof (clean_http_date t). unfold get_gmt_time_str. clean. Qed.

(** a date starts with the name of a weekday *)
Lemma http_date_head t : exists c s, http_date (gmtime t) = c :: s /\ c <> 32 /\ c <> 9.
Proof.
  unfold http_date. change (tm_wday (gmtime t)) with ((t / 86400 + 4) mod 7).
  pose proof (Z.mod_pos_bound (t / 86400 + 4) 7 ltac:(lia)). set (w := (t / 86400 + 4) mod 7) in *.
  assert (w = 0 \/ w = 1 \/ w = 2 \/ w = 3 \/ w = 4 \/ w = 5 \/ w = 6) as Hw by lia.
  destruct Hw as [-> | [-> | [-> | [-> | [-> | [-> | ->]]]]]]; eexists _, _; (split; [reflexivity|done]).
Qed.

Lemma clean_opt_attr l v c : clean l -> clean v -> clean c -> clean (opt_attr l v c).
Proof. intros. unfold opt_attr. destruct (bool_decide _); clean. Qed.

Definition cookie_clean (c : cookie) : Prop :=
  clean (name_ c) /\ clean (value_ c) /\ clean (comment_ c) /\ clean (path_ c) /\ clean (priority_ c).

Lemma clean_flags c : clean (flag_attrs c).
Proof. unfold flag_attrs. destruct (secure_ c), (http_only_ c); clean. Qed.

Lemma clean_cookie c : cookie_clean c -> clean (cookie_to_string c).
Proof.
  intros (H1 & H2 & H3 & H4 & H5). unfold cookie_to_string. pose proof (clean_flags c).
  pose proof (clean_gmt (max_age_ c)).
  apply clean_app; [done|]. apply clean_app; [clean_const|]. destruct (version_ c =? 0);
    destruct (max_age_ c =? -1); cbn [negb]; clean; apply clean_opt_attr; clean.
Qed.
