(* ===== verification/Response.v ===== *)
(** * Responses

    The status and header constants of src/include/netcore/response_cv.hpp and the
    response of src/include/netcore/response.hpp: how the text of a response is
    assembled.  The theorem at the end reads the text back with the response
    parser of picohttpparser.  Time points are nanoseconds since 1970; a reading
    of the clock and the offset of the local time zone are arguments.  Building
    without CINATRA_ENABLE_GZIP is modelled. *)

From Stdlib Require Import ZArith Lia.
From stdpp Require Import base numbers list strings.
From S2P Require Import Prelude CStd PicoHttp PicoHttpFacts Utils Itoa Cookie Chunked.
Local Open Scope Z_scope.

(** ** response_cv.hpp *)

Inductive status_type :=
| st_init
| st_switching_protocols
| st_ok
| st_created
| st_accepted
| st_no_content
| st_partial_content
| st_multiple_choices
| st_moved_permanently
| st_moved_temporarily
| st_not_modified
| st_temporary_redirect
| st_bad_request
| st_unauthorized
| st_forbidden
| st_not_found
| st_internal_server_error
| st_not_implemented
| st_bad_gateway
| st_service_unavailable.

Definition status_code (s : status_type) : Z :=
  match s with
  | st_init => 0
  | st_switching_protocols => 101
  | st_ok => 200
  | st_created => 201
  | st_accepted => 202
  | st_no_content => 204
  | st_partial_content => 206
  | st_multiple_choices => 300
  | st_moved_permanently => 301
  | st_moved_temporarily => 302
  | st_not_modified => 304
  | st_temporary_redirect => 307
  | st_bad_request => 400
  | st_unauthorized => 401
  | st_forbidden => 403
  | st_not_found => 404
  | st_internal_server_error => 500
  | st_not_implemented => 501
  | st_bad_gateway => 502
  | st_service_unavailable => 503
  end.

Inductive content_encoding := enc_gzip | enc_none.

Definition page_ok : bytes :=
  bs "OK".
Definition page_created : bytes :=
  bs "<html><head><title>Created</title></head><body><h1>201 Created</h1></body></html>".
Definition page_accepted : bytes :=
  bs "<html><head><title>Accepted</title></head><body><h1>202 Accepted</h1></body></html>".
Definition page_no_content : bytes :=
  bs "<html><head><title>No Content</title></head><body><h1>204 Content</h1></body></html>".
Definition page_multiple_choices : bytes :=
  bs "<html><head><title>Multiple Choices</title></head><body><h1>300 Multiple Choices</h1></body></html>".
Definition page_moved_permanently : bytes :=
  bs "<html><head><title>Moved Permanently</title></head><body><h1>301 Moved Permanently</h1></body></html>".
Definition page_temporary_redirect : bytes :=
  bs "<html><head><title>Temporary Redirect</title></head><body><h1>307 Temporary Redirect</h1></body></html>".
Definition page_moved_temporarily : bytes :=
  bs "<html><head><title>Moved Temporarily</title></head><body><h1>302 Moved Temporarily</h1></body></html>".
Definition page_not_modified : bytes :=
  bs "<html><head><title>Not Modified</title></head><body><h1>304 Not Modified</h1></body></html>".
Definition page_bad_request : bytes :=
  bs "<html><head><title>Bad Request</title></head><body><h1>400 Bad Request</h1></body></html>".
Definition page_unauthorized : bytes :=
  bs "<html><head><title>Unauthorized</title></head><body><h1>401 Unauthorized</h1></body></html>".
Definition page_forbidden : bytes :=
  bs "<html><head><title>Forbidden</title></head><body><h1>403 Forbidden</h1></body></html>".
Definition page_not_found : bytes :=
  bs "<html><head><title>Not Found</title></head><body><h1>404 Not Found</h1></body></html>".
Definition page_internal_server_error : bytes :=
  bs "<html><head><title>Internal Server Error</title></head><body><h1>500 Internal Server Error</h1></body></html>".
Definition page_not_implemented : bytes :=
  bs "<html><head><title>Not Implemented</title></head><body><h1>501 Not Implemented</h1></body></html>".
Definition page_bad_gateway : bytes :=
  bs "<html><head><title>Bad Gateway</title></head><body><h1>502 Bad Gateway</h1></body></html>".
Definition page_service_unavailable : bytes :=
  bs "<html><head><title>Service Unavailable</title></head><body><h1>503 Service Unavailable</h1></body></html>".

Definition rep_switching_protocols : bytes := bs "HTTP/1.1 101 Switching Protocals" ++ CRLF.
Definition rep_ok : bytes := bs "HTTP/1.1 200 OK" ++ CRLF.
Definition rep_created : bytes := bs "HTTP/1.1 201 Created" ++ CRLF.
Definition rep_accepted : bytes := bs "HTTP/1.1 202 Accepted" ++ CRLF.
Definition rep_no_content : bytes := bs "HTTP/1.1 204 No Content" ++ CRLF.
Definition rep_partial_content : bytes := bs "HTTP/1.1 206 Partial Content" ++ CRLF.
Definition rep_multiple_choices : bytes := bs "HTTP/1.1 300 Multiple Choices" ++ CRLF.
Definition rep_moved_permanently : bytes := bs "HTTP/1.1 301 Moved Permanently" ++ CRLF.
Definition rep_temporary_redirect : bytes := bs "HTTP/1.1 307 Temporary Redirect" ++ CRLF.
Definition rep_moved_temporarily : bytes := bs "HTTP/1.1 302 Moved Temporarily" ++ CRLF.
Definition rep_not_modified : bytes := bs "HTTP/1.1 304 Not Modified" ++ CRLF.
Definition rep_bad_request : bytes := bs "HTTP/1.1 400 Bad Request" ++ CRLF.
Definition rep_unauthorized : bytes := bs "HTTP/1.1 401 Unauthorized" ++ CRLF.
Definition rep_forbidden : bytes := bs "HTTP/1.1 403 Forbidden" ++ CRLF.
Definition rep_not_found : bytes := bs "HTTP/1.1 404 Not Found" ++ CRLF.
Definition rep_internal_server_error : bytes := bs "HTTP/1.1 500 Internal Server Error" ++ CRLF.
Definition rep_not_implemented : bytes := bs "HTTP/1.1 501 Not Implemented" ++ CRLF.
Definition rep_bad_gateway : bytes := bs "HTTP/1.1 502 Bad Gateway" ++ CRLF.
Definition rep_service_unavailable : bytes := bs "HTTP/1.1 503 Service Unavailable" ++ CRLF.
Definition rep_html : bytes := bs "Content-Type: text/html; charset=UTF-8" ++ CRLF.
Definition rep_json : bytes := bs "Content-Type: application/json; charset=UTF-8" ++ CRLF.
Definition rep_string : bytes := bs "Content-Type: text/plain; charset=UTF-8" ++ CRLF.
Definition rep_multipart : bytes := bs "Content-Type: multipart/form-data; boundary=".
Definition rep_keep : bytes := bs "Connection: keep-alive" ++ CRLF.
Definition rep_close : bytes := bs "Connection: close     " ++ CRLF.
Definition rep_len : bytes := bs "Content-Length: ".
Definition rep_crcf : bytes := CRLF.
Definition rep_server : bytes := bs "Server: netcore" ++ CRLF.

Definition name_value_separator : bytes := bs ": ".
Definition http_chunk_header : bytes :=
  bs "HTTP/1.1 200 OK" ++ CRLF ++ bs "Transfer-Encoding: chunked" ++ CRLF.
Definition http_range_chunk_header : bytes :=
  bs "HTTP/1.1 206 Partial Content" ++ CRLF ++ bs "Transfer-Encoding: chunked" ++ CRLF.

Definition to_content_type_str (type : req_content_type) : bytes :=
  match type with
  | ct_html => rep_html
  | ct_json => rep_json
  | ct_string => rep_string
  | ct_multipart => rep_multipart
  | ct_none => []
  end.

(** num_to_string<num>: the digits are peeled off the right by [explode] *)
Fixpoint explode (fuel : nat) (rem : Z) (ds : list Z) : list Z :=
  match fuel with
  | O => ds
  | S fuel => if rem =? 0 then ds else explode fuel (rem / 10) (rem mod 10 :: ds)
  end.
Definition num_to_string (num : Z) : bytes :=
  rep_len ++ ((fun d => 48 + d) <$> explode 32 (num / 10) [num mod 10]) ++ rep_crcf.

(** boost::asio::buffer(p, n) is std::string(p, n) *)
Definition to_buffer (s : status_type) : bytes :=
  match s with
  | st_switching_protocols => take (length rep_switching_protocols) rep_switching_protocols
  | st_ok => take (length rep_ok) rep_ok
  | st_created => take (length rep_created) rep_created
  | st_accepted => take (length rep_created) rep_accepted
  | st_no_content => take (length rep_no_content) rep_no_content
  | st_partial_content => take (length rep_partial_content) rep_partial_content
  | st_multiple_choices => take (length rep_multiple_choices) rep_multiple_choices
  | st_moved_permanently => take (length rep_moved_permanently) rep_moved_permanently
  | st_temporary_redirect => take (length rep_temporary_redirect) rep_temporary_redirect
  | st_moved_temporarily => take (length rep_moved_temporarily) rep_moved_temporarily
  | st_not_modified => take (length rep_not_modified) rep_not_modified
  | st_bad_request => take (length rep_bad_request) rep_bad_request
  | st_unauthorized => take (length rep_unauthorized) rep_unauthorized
  | st_forbidden => take (length rep_forbidden) rep_forbidden
  | st_not_found => take (length rep_not_found) rep_not_found
  | st_internal_server_error => take (length rep_internal_server_error) rep_internal_server_error
  | st_not_implemented => take (length rep_not_implemented) rep_not_implemented
  | st_bad_gateway => take (length rep_bad_gateway) rep_bad_gateway
  | st_service_unavailable => take (length rep_service_unavailable) rep_service_unavailable
  | _ => take (length rep_internal_server_error) rep_internal_server_error
  end.

Definition to_rep_string (s : status_type) : bytes :=
  match s with
  | st_switching_protocols => rep_switching_protocols
  | st_ok => rep_ok
  | st_created => rep_created
  | st_accepted => rep_accepted
  | st_no_content => rep_no_content
  | st_partial_content => rep_partial_content
  | st_multiple_choices => rep_multiple_choices
  | st_moved_permanently => rep_moved_permanently
  | st_moved_temporarily => rep_moved_temporarily
  | st_not_modified => rep_not_modified
  | st_temporary_redirect => rep_temporary_redirect
  | st_bad_request => rep_bad_request
  | st_unauthorized => rep_unauthorized
  | st_forbidden => rep_forbidden
  | st_not_found => rep_not_found
  | st_internal_server_error => rep_internal_server_error
  | st_not_implemented => rep_not_implemented
  | st_bad_gateway => rep_bad_gateway
  | st_service_unavailable => rep_service_unavailable
  | _ => rep_not_implemented
  end.

(** to_string(status_type) *)
Definition status_to_string (s : status_type) : bytes :=
  match s with
  | st_ok => page_ok
  | st_created => page_created
  | st_accepted => page_accepted
  | st_no_content => page_no_content
  | st_multiple_choices => page_multiple_choices
  | st_moved_permanently => page_moved_permanently
  | st_moved_temporarily => page_moved_temporarily
  | st_temporary_redirect => page_temporary_redirect
  | st_not_modified => page_not_modified
  | st_bad_request => page_bad_request
  | st_unauthorized => page_unauthorized
  | st_forbidden => page_forbidden
  | st_not_found => page_not_found
  | st_internal_server_error => page_internal_server_error
  | st_not_implemented => page_not_implemented
  | st_bad_gateway => page_bad_gateway
  | st_service_unavailable => page_service_unavailable
  | _ => page_internal_server_error
  end.
(** ** response.hpp *)

Inductive content_type :=
| cty_string | cty_json | cty_multipart | cty_urlencoded | cty_chunked | cty_octet_stream
| cty_websocket | cty_unknown.
#[export] Instance content_type_eq_dec : EqDecision content_type.
Proof. solve_decision. Defined.
#[export] Instance req_content_type_eq_dec : EqDecision req_content_type.
Proof. solve_decision. Defined.

(** the request's headers are kept as the texts their pointers denote *)
Record response := mk_response {
  raw_url_ : bytes;
  headers_ : list (bytes * bytes);
  cache_data : list bytes;
  content_ : bytes;
  body_type_ : content_type;
  status_ : status_type;
  proc_continue_ : bool;
  delay_ : bool;
  req_headers_ : list (bytes * bytes);
  res_domain_ : bytes;
  res_path_ : bytes;
  rep_str_ : bytes;
  last_time_ : Z;
  last_date_str_ : bytes;
  res_type_ : req_content_type;
  keep_alive_ : bool;
  need_response_time_ : bool;
  cookie_sh_ptr : option cookie
}.

(** assignments to one member *)
Definition put_raw_url (r : response) (v : bytes) : response :=
  mk_response v (headers_ r) (cache_data r) (content_ r) (body_type_ r) (status_ r) (proc_continue_ r) (delay_ r) (req_headers_ r) (res_domain_ r) (res_path_ r) (rep_str_ r) (last_time_ r) (last_date_str_ r) (res_type_ r) (keep_alive_ r) (need_response_time_ r) (cookie_sh_ptr r).
Definition put_headers (r : response) (v : list (bytes * bytes)) : response :=
  mk_response (raw_url_ r) v (cache_data r) (content_ r) (body_type_ r) (status_ r) (proc_continue_ r) (delay_ r) (req_headers_ r) (res_domain_ r) (res_path_ r) (rep_str_ r) (last_time_ r) (last_date_str_ r) (res_type_ r) (keep_alive_ r) (need_response_time_ r) (cookie_sh_ptr r).
Definition put_content (r : response) (v : bytes) : response :=
  mk_response (raw_url_ r) (headers_ r) (cache_data r) v (body_type_ r) (status_ r) (proc_continue_ r) (delay_ r) (req_headers_ r) (res_domain_ r) (res_path_ r) (rep_str_ r) (last_time_ r) (last_date_str_ r) (res_type_ r) (keep_alive_ r) (need_response_time_ r) (cookie_sh_ptr r).
Definition put_body_type (r : response) (v : content_type) : response :=
  mk_response (raw_url_ r) (headers_ r) (cache_data r) (content_ r) v (status_ r) (proc_continue_ r) (delay_ r) (req_headers_ r) (res_domain_ r) (res_path_ r) (rep_str_ r) (last_time_ r) (last_date_str_ r) (res_type_ r) (keep_alive_ r) (need_response_time_ r) (cookie_sh_ptr r).
Definition put_status (r : response) (v : status_type) : response :=
  mk_response (raw_url_ r) (headers_ r) (cache_data r) (content_ r) (body_type_ r) v (proc_continue_ r) (delay_ r) (req_headers_ r) (res_domain_ r) (res_path_ r) (rep_str_ r) (last_time_ r) (last_date_str_ r) (res_type_ r) (keep_alive_ r) (need_response_time_ r) (cookie_sh_ptr r).
Definition put_proc_continue (r : response) (v : bool) : response :=
  mk_response (raw_url_ r) (headers_ r) (cache_data r) (content_ r) (body_type_ r) (status_ r) v (delay_ r) (req_headers_ r) (res_domain_ r) (res_path_ r) (rep_str_ r) (last_time_ r) (last_date_str_ r) (res_type_ r) (keep_alive_ r) (need_response_time_ r) (cookie_sh_ptr r).
Definition put_delay (r : response) (v : bool) : response :=
  mk_response (raw_url_ r) (headers_ r) (cache_data r) (content_ r) (body_type_ r) (status_ r) (proc_continue_ r) v (req_headers_ r) (res_domain_ r) (res_path_ r) (rep_str_ r) (last_time_ r) (last_date_str_ r) (res_type_ r) (keep_alive_ r) (need_response_time_ r) (cookie_sh_ptr r).
Definition put_req_headers (r : response) (v : list (bytes * bytes)) : response :=
  mk_response (raw_url_ r) (headers_ r) (cache_data r) (content_ r) (body_type_ r) (status_ r) (proc_continue_ r) (delay_ r) v (res_domain_ r) (res_path_ r) (rep_str_ r) (last_time_ r) (last_date_str_ r) (res_type_ r) (keep_alive_ r) (need_response_time_ r) (cookie_sh_ptr r).
Definition put_res_domain (r : response) (v : bytes) : response :=
  mk_response (raw_url_ r) (headers_ r) (cache_data r) (content_ r) (body_type_ r) (status_ r) (proc_continue_ r) (delay_ r) (req_headers_ r) v (res_path_ r) (rep_str_ r) (last_time_ r) (last_date_str_ r) (res_type_ r) (keep_alive_ r) (need_response_time_ r) (cookie_sh_ptr r).
Definition put_res_path (r : response) (v : bytes) : response :=
  mk_response (raw_url_ r) (headers_ r) (cache_data r) (content_ r) (body_type_ r) (status_ r) (proc_continue_ r) (delay_ r) (req_headers_ r) (res_domain_ r) v (rep_str_ r) (last_time_ r) (last_date_str_ r) (res_type_ r) (keep_alive_ r) (need_response_time_ r) (cookie_sh_ptr r).
Definition put_rep_str (r : response) (v : bytes) : response :=
  mk_response (raw_url_ r) (headers_ r) (cache_data r) (content_ r) (body_type_ r) (status_ r) (proc_continue_ r) (delay_ r) (req_headers_ r) (res_domain_ r) (res_path_ r) v (last_time_ r) (last_date_str_ r) (res_type_ r) (keep_alive_ r) (need_response_time_ r) (cookie_sh_ptr r).
Definition put_last_time (r : response) (v : Z) : response :=
  mk_response (raw_url_ r) (headers_ r) (cache_data r) (content_ r) (body_type_ r) (status_ r) (proc_continue_ r) (delay_ r) (req_headers_ r) (res_domain_ r) (res_path_ r) (rep_str_ r) v (last_date_str_ r) (res_type_ r) (keep_alive_ r) (need_response_time_ r) (cookie_sh_ptr r).
Definition put_last_date_str (r : response) (v : bytes) : response :=
  mk_response (raw_url_ r) (headers_ r) (cache_data r) (content_ r) (body_type_ r) (status_ r) (proc_continue_ r) (delay_ r) (req_headers_ r) (res_domain_ r) (res_path_ r) (rep_str_ r) (last_time_ r) v (res_type_ r) (keep_alive_ r) (need_response_time_ r) (cookie_sh_ptr r).
Definition put_res_type (r : response) (v : req_content_type) : response :=
  mk_response (raw_url_ r) (headers_ r) (cache_data r) (content_ r) (body_type_ r) (status_ r) (proc_continue_ r) (delay_ r) (req_headers_ r) (res_domain_ r) (res_path_ r) (rep_str_ r) (last_time_ r) (last_date_str_ r) v (keep_alive_ r) (need_response_time_ r) (cookie_sh_ptr r).
Definition put_keep_alive (r : response) (v : bool) : response :=
  mk_response (raw_url_ r) (headers_ r) (cache_data r) (content_ r) (body_type_ r) (status_ r) (proc_continue_ r) (delay_ r) (req_headers_ r) (res_domain_ r) (res_path_ r) (rep_str_ r) (last_time_ r) (last_date_str_ r) (res_type_ r) v (need_response_time_ r) (cookie_sh_ptr r).
Definition put_need_response_time (r : response) (v : bool) : response :=
  mk_response (raw_url_ r) (headers_ r) (cache_data r) (content_ r) (body_type_ r) (status_ r) (proc_continue_ r) (delay_ r) (req_headers_ r) (res_domain_ r) (res_path_ r) (rep_str_ r) (last_time_ r) (last_date_str_ r) (res_type_ r) (keep_alive_ r) v (cookie_sh_ptr r).
Definition put_cookie_sh_ptr (r : response) (v : option cookie) : response :=
  mk_response (raw_url_ r) (headers_ r) (cache_data r) (content_ r) (body_type_ r) (status_ r) (proc_continue_ r) (delay_ r) (req_headers_ r) (res_domain_ r) (res_path_ r) (rep_str_ r) (last_time_ r) (last_date_str_ r) (res_type_ r) (keep_alive_ r) (need_response_time_ r) v.

(** a new response; [res_type] is the member without initialiser, [now] the
    reading of the clock *)
Definition new_response (res_type : req_content_type) (now : Z) : response :=
  mk_response [] [] [] [] cty_unknown st_init true false [] [] [] [] now [] res_type false false None.

Definition response_str (r : response) : bytes := rep_str_ r.
Definition set_response (r : response) (str : bytes) : response := put_rep_str r str.

(** system_clock::to_time_t *)
Definition to_time_t (t : Z) : Z := Z.quot t 1000000000.

(** strftime(..., "%a, %d %b %Y %T GMT", localtime(...)) *)
Definition local_date_str (offset : Z -> Z) (t : Z) : bytes :=
  http_date (gmtime (to_time_t t + offset (to_time_t t))) ++ bs " GMT".

Definition enable_response_time (offset : Z -> Z) (r : response) (enable : bool) : response :=
  let r := put_need_response_time r enable in
  if enable then put_last_date_str r (local_date_str offset (last_time_ r)) else r.

Definition append_str (r : response) (s : bytes) : response := put_rep_str r (rep_str_ r ++ s).

Definition append_date_time (offset : Z -> Z) (now : Z) (r : response) : response :=
  if 1000000000 <? now - last_time_ r then
    let mbstr := local_date_str offset now in
    let r := put_last_date_str r mbstr in
    let r := append_str r (bs "Date: " ++ mbstr ++ CRLF ++ CRLF) in
    put_last_time r now
  else append_str r (bs "Date: " ++ last_date_str_ r ++ CRLF ++ CRLF).

Definition get_content_type (type : req_content_type) : bytes :=
  match type with
  | ct_html => rep_html
  | ct_json => rep_json
  | ct_string => rep_string
  | ct_multipart => rep_multipart
  | ct_none => []
  end.

Definition header_line (h : bytes * bytes) : bytes := h.1 ++ bs ":" ++ h.2 ++ CRLF.

(** the conversion of the size to int *)
Definition content_size (r : response) : Z := to_int32 (Z.of_nat (length (content_ r))).

Definition build_response_str (offset : Z -> Z) (now : Z) (r : response) : response :=
  let r := put_rep_str r [] in
  let r := append_str r (to_rep_string (status_ r)) in
  let r := append_str r (mjoin (header_line <$> headers_ r)) in
  let r := put_headers r [] in
  let temp := itoa_fwd (content_size r) [] in
  let r := append_str r (bs "Content-Length: " ++ temp ++ CRLF) in
  let r := append_str r (if bool_decide (res_type_ r = ct_none) then []
                         else get_content_type (res_type_ r)) in
  let r := append_str r (bs "Server: netcore" ++ CRLF) in
  let r := append_str r (match cookie_sh_ptr r with
                         | Some c => bs "Set-Cookie: " ++ cookie_to_string c ++ CRLF
                         | None => []
                         end) in
  let r := if need_response_time_ r then append_date_time offset now r else append_str r CRLF in
  append_str r (content_ r).

(** the overload for constant content, which appends to the text *)
Definition set_status_and_constant (offset : Z -> Z) (now : Z) (r : response) (status : status_type)
    (type : req_content_type) (content : bytes) : response :=
  let r := append_str r (to_rep_string status ++ num_to_string (Z.of_nat (length content)) ++
                         to_content_type_str type ++ rep_server) in
  let r := if need_response_time_ r then append_date_time offset now r else append_str r CRLF in
  append_str r content.

Definition add_header (r : response) (key value : bytes) : response :=
  put_headers r (headers_ r ++ [(key, value)]).
Definition clear_headers (r : response) : response := put_headers r [].

Definition to_buffers (r : response) : response * list bytes :=
  let r := add_header r (bs "Host") (bs "netcore") in
  let r := match cookie_sh_ptr r with
           | Some c => append_str r (bs "Set-Cookie: " ++ cookie_to_string c ++ CRLF)
           | None => r
           end in
  (r, [to_buffer (status_ r)] ++
      mjoin ((fun h => [h.1; name_value_separator; h.2; CRLF]) <$> headers_ r) ++ [CRLF] ++
      (if bool_decide (body_type_ r = cty_string) then [content_ r] else [])).

Definition set_status (r : response) (status : status_type) : response := put_status r status.
Definition get_status (r : response) : status_type := status_ r.
Definition set_delay (r : response) (delay : bool) : response := put_delay r delay.
Definition need_delay (r : response) : bool := delay_ r.

Definition set_content (r : response) (content : bytes) : response :=
  put_content (put_body_type r cty_string) content.

Definition set_status_and_content0 (offset : Z -> Z) (now : Z) (r : response) (status : status_type)
  : response :=
  let r := put_status r status in
  let r := set_content r (status_to_string status) in
  build_response_str offset now r.

Definition set_status_and_content (offset : Z -> Z) (now : Z) (r : response) (status : status_type)
    (content : bytes) (res_type : req_content_type) (encoding : content_encoding) : response :=
  let r := put_status r status in
  let r := put_res_type r res_type in
  let r := set_content r content in
  build_response_str offset now r.

(** [cache_data.clear()] runs only when cache_data is empty *)
Definition reset (r : response) : response :=
  let r := if bool_decide (headers_ r = []) then put_rep_str r [] else r in
  let r := put_res_type r ct_none in
  let r := put_status r st_init in
  let r := put_proc_continue r true in
  let r := put_delay r false in
  let r := put_headers r [] in
  let r := put_content r [] in
  let r := put_keep_alive r false in
  put_cookie_sh_ptr r None.

Definition set_keep_alive (r : response) (kal : bool) : response := put_keep_alive r kal.
Definition set_continue (r : response) (con : bool) : response := put_proc_continue r con.
Definition need_continue (r : response) : bool := proc_continue_ r.
Definition set_chunked (r : response) : response :=
  add_header r (bs "Transfer-Encoding") (bs "chunked").

Definition CSESSIONID : bytes := bs "CSESSIONID".

(** [expire_time] is a uint64_t; the result of the conditional is converted to time_t *)
Definition to_int64 (z : Z) : Z := (z + 2 ^ 63) mod 2 ^ 64 - 2 ^ 63.
Definition create_session (now : Z) (r : response) (uuid : bytes) (expire_time : Z) : response :=
  let cok := new_cookie CSESSIONID uuid in
  let cok := Cookie.set_domain cok (bs "/") in
  let time_stamp_ := wrap64 (expire_time + now) in
  let cok := set_max_age cok (to_int64 (if expire_time =? wrap64 (-1) then wrap64 (-1) else time_stamp_)) in
  let cok := Cookie.set_domain cok [] in
  let cok := Cookie.set_path cok (bs "/") in
  let cok := set_version cok 0 in
  put_cookie_sh_ptr r (Some cok).

Definition set_domain (r : response) (domain : bytes) : response := put_res_domain r domain.
Definition get_domain (r : response) : bytes := res_domain_ r.
Definition set_path (r : response) (path : bytes) : response := put_res_path r path.
Definition get_path (r : response) : bytes := res_path_ r.
Definition set_url (r : response) (url : bytes) : response := put_raw_url r url.
Definition get_url (r : response) (url : bytes) : bytes := raw_url_ r.
Definition set_headers (r : response) (headers : list (bytes * bytes)) : response :=
  put_req_headers r headers.

Definition render_string (offset : Z -> Z) (now : Z) (r : response) (content : bytes) : response :=
  set_status_and_content offset now r st_ok content ct_string enc_none.
Definition raw_content (r : response) : list bytes := cache_data r.

(** std::string(url.c_str()) *)
Fixpoint c_str (s : bytes) : bytes :=
  match s with
  | [] => []
  | c :: s => if c =? 0 then [] else c :: c_str s
  end.

Definition redirect (offset : Z -> Z) (now : Z) (r : response) (url : bytes) (is_forever : bool) : response :=
  let r := add_header r (bs "Location") (c_str url) in
  if negb is_forever then set_status_and_content0 offset now r st_moved_temporarily
  else set_status_and_content0 offset now r st_moved_permanently.

Definition redirect_post (offset : Z -> Z) (now : Z) (r : response) (url : bytes) : response :=
  let r := add_header r (bs "Location") (c_str url) in
  set_status_and_content0 offset now r st_temporary_redirect.

Definition get_header_value (r : response) (key : bytes) : bytes :=
  match list_find (fun h => iequal h.1 key = true) (req_headers_ r) with
  | Some (_, h) => h.2
  | None => []
  end.

(** ** Reading a response back *)

(** a status line and header block, as the parser expects them *)
Definition print_response (v d1 d2 d3 : Z) (msg : bytes) (hs : list (bytes * bytes * bytes)) : bytes :=
  bs "HTTP/1." ++ 48 + v :: 32 :: 48 + d1 :: 48 + d2 :: 48 + d3 :: 32 :: msg ++ CRLF ++
  concat (raw_field <$> hs) ++ CRLF.

Lemma PARSE_INT_digit mul d p s :
  0 <= d <= 9 -> PARSE_INT mul p (48 + d :: s) = POk (mul * d) (S p) s.
Proof.
  intros Hd. unfold PARSE_INT. assert (schar (48 + d) = 48 + d) as ->.
  { unfold schar. destruct (_ <? _) eqn:E; zbool; lia. }
  rewrite (proj2 (Z.ltb_ge _ _)), (proj2 (Z.ltb_ge _ _)) by lia. cbn [orb]. f_equal. lia.
Qed.

Lemma get_token_to_eol_any sse p s :
  Forall is_byte s -> get_token_to_eol sse p s = get_token_to_eol false p s.
Proof. intros H. destruct sse; [by apply get_token_to_eol_sse|done]. Qed.

Lemma parse_headers_any sse room hs p s :
  Forall is_byte s -> parse_headers sse room hs p s = parse_headers false room hs p s.
Proof. intros H. destruct sse; [by apply parse_headers_sse|done]. Qed.

Lemma parse_response_print sse mh v d1 d2 d3 msg hs rest :
  0 <= v <= 9 -> 0 <= d1 <= 9 -> 0 <= d2 <= 9 -> 0 <= d3 <= 9 -> clean msg ->
  Forall raw_ok hs -> (length hs <= mh)%nat -> Forall is_byte (print_response v d1 d2 d3 msg hs ++ rest) ->
  parse_response sse mh 0 (print_response v d1 d2 d3 msg hs ++ rest) =
  (mk_resp_out v (100 * d1 + 10 * d2 + d3) (Some (13%nat, length msg)) (printed_headers (15 + length msg) hs),
   POk tt (length (print_response v d1 d2 d3 msg hs)) rest).
Proof.
  intros Hv H1 H2 H3 Hmsg Hhs Hmh Hb. unfold print_response in *. rewrite <-app_assoc in *.
  cbn [app] in *. rewrite <-!app_assoc in *. apply Forall_app in Hb as [_ Hb].
  do 6 apply Forall_cons in Hb as [_ Hb]. pose proof Hb as Hb2. apply Forall_app in Hb2 as [_ Hb2].
  apply Forall_app in Hb2 as [_ Hb2]. unfold parse_response.
  rewrite parse_http_version_print by done. cbn [EXPECT_CHAR_NO_CHECK]. rewrite Z.eqb_refl.
  rewrite (proj2 (Nat.ltb_ge _ _)) by (cbn [length]; lia). unfold PARSE_INT_3.
  rewrite !PARSE_INT_digit by done. cbn [EXPECT_CHAR_NO_CHECK]. rewrite Z.eqb_refl.
  rewrite get_token_to_eol_any, get_token_to_eol_print by done.
  rewrite parse_headers_any, parse_headers_print by done. rewrite app_nil_l. f_equal.
  - f_equal; [lia|f_equal; lia].
  - f_equal. rewrite !length_app. cbn [length]. rewrite !length_app. cbn [length CRLF bs]. cbn. lia.
Qed.

Lemma phr_parse_response_print sse mh v d1 d2 d3 msg hs rest :
  0 <= v <= 9 -> 0 <= d1 <= 9 -> 0 <= d2 <= 9 -> 0 <= d3 <= 9 -> clean msg ->
  Forall raw_ok hs -> (length hs <= mh)%nat ->
  let buf := print_response v d1 d2 d3 msg hs ++ rest in
  Forall is_byte buf -> exists o,
  phr_parse_response sse buf mh 0 = (o, Some (to_int32 (Z.of_nat (length (print_response v d1 d2 d3 msg hs))))) /\
  r_minor_version o = v /\ PicoHttp.status o = 100 * d1 + 10 * d2 + d3 /\
  header_view buf <$> r_headers o = field_of <$> hs.
Proof.
  intros Hv H1 H2 H3 Hmsg Hhs Hmh buf Hb. unfold phr_parse_response. cbn [Nat.eqb].
  unfold buf in *. rewrite parse_response_print by done. eexists. split.
  { cbn [phr_ret]. do 3 f_equal; lia. }
  cbn [r_minor_version PicoHttp.status r_headers]. split_and!; try done.
  set (pre := bs "HTTP/1." ++ 48 + v :: 32 :: 48 + d1 :: 48 + d2 :: 48 + d3 :: 32 :: msg ++ CRLF).
  replace (15 + length msg)%nat with (length pre) by (unfold pre; cbn; rewrite length_app; cbn; lia).
  rewrite <-(printed_headers_view pre hs (CRLF ++ rest)). do 2 f_equal.
  unfold print_response, pre. rewrite <-!app_assoc. cbn [app]. by rewrite <-!app_assoc.
Qed.

(** ** The text of a response *)

(** the code on the status line; a response without a status says 501 *)
Definition response_code (s : status_type) : Z :=
  match s with st_init => 501 | _ => status_code s end.

Lemma to_rep_string_shape s : exists d1 d2 d3 msg,
  to_rep_string s = bs "HTTP/1." ++ 48 + 1 :: 32 :: 48 + d1 :: 48 + d2 :: 48 + d3 :: 32 :: msg ++ CRLF /\
  0 <= d1 <= 9 /\ 0 <= d2 <= 9 /\ 0 <= d3 <= 9 /\ clean msg /\ 100 * d1 + 10 * d2 + d3 = response_code s.
Proof.
  exists (nth 9 (to_rep_string s) 0 - 48), (nth 10 (to_rep_string s) 0 - 48),
    (nth 11 (to_rep_string s) 0 - 48), (slice (to_rep_string s) 13 (length (to_rep_string s) - 15)).
  destruct s; (split_and!; [reflexivity|vm_compute; done..|apply (bool_decide_unpack _); vm_compute; exact I|reflexivity]).
Qed.

Definition type_fields (t : req_content_type) : list (bytes * bytes) :=
  match t with
  | ct_html => [(bs "Content-Type", bs "text/html; charset=UTF-8")]
  | ct_json => [(bs "Content-Type", bs "application/json; charset=UTF-8")]
  | ct_string => [(bs "Content-Type", bs "text/plain; charset=UTF-8")]
  | ct_multipart | ct_none => []
  end.

Definition date_value (offset : Z -> Z) (now : Z) (r : response) : bytes :=
  if 1000000000 <? now - last_time_ r then local_date_str offset now else last_date_str_ r.

(** the fields that follow the ones of [headers_] *)
Definition standard_fields (offset : Z -> Z) (now : Z) (r : response) : list (bytes * bytes) :=
  [(bs "Content-Length", dec_string (Z.of_nat (length (content_ r))))] ++ type_fields (res_type_ r) ++
  [(bs "Server", bs "netcore")] ++
  match cookie_sh_ptr r with Some c => [(bs "Set-Cookie", cookie_to_string c)] | None => [] end ++
  (if need_response_time_ r then [(bs "Date", date_value offset now r)] else []).

Definition response_fields (offset : Z -> Z) (now : Z) (r : response) : list (bytes * bytes) :=
  headers_ r ++ standard_fields offset now r.

Definition no_sp (h : bytes * bytes) : bytes * bytes * bytes := (h.1, [], h.2).

Lemma header_lines hs : mjoin (header_line <$> hs) = concat (raw_field <$> (no_sp <$> hs)).
Proof.
  induction hs as [|h hs IH]; [done|]. rewrite !fmap_cons. cbn [concat]. rewrite <-IH.
  reflexivity.
Qed.

Lemma type_text t : t <> ct_multipart -> get_content_type t = concat (print_field <$> type_fields t).
Proof. by destruct t. Qed.

(** what the fields must satisfy to be printed as header lines *)
Definition response_ok (r : response) : Prop :=
  Forall field_ok (headers_ r) /\ res_type_ r <> ct_multipart /\
  Z.of_nat (length (content_ r)) < 2 ^ 31 /\ Forall is_byte (content_ r) /\
  (forall c, cookie_sh_ptr r = Some c -> cookie_clean c /\ field_value_ok (name_ c)) /\
  (need_response_time_ r = true -> field_value_ok (last_date_str_ r)).

(** the text of a built response: the status line, the fields, the content *)
Lemma build_text offset now r :
  response_ok r ->
  rep_str_ (build_response_str offset now r) =
  to_rep_string (status_ r) ++
  concat (raw_field <$> ((no_sp <$> headers_ r) ++ (with_sp <$> standard_fields offset now r))) ++
  CRLF ++ content_ r.
Proof.
  intros (_ & Htype & Hlen & _). unfold build_response_str.
  assert (forall r', content_size r' = content_size r ->
    itoa_fwd (content_size r') [] = dec_string (Z.of_nat (length (content_ r)))) as Hitoa.
  { intros r' ->. unfold content_size, to_int32. rewrite Z.mod_small by lia.
    rewrite Z.add_simpl_r. unfold itoa_fwd. rewrite itoa_int_eq by lia. cbn [out].
    unfold to_string. by rewrite (proj2 (Z.ltb_ge _ _)) by lia. }
  rewrite fmap_app, concat_app, concat_with_sp, <-header_lines.
  unfold standard_fields, date_value. rewrite !fmap_app, !concat_app, <-(type_text _ Htype).
  specialize (Hitoa (put_headers r [])). specialize (Hitoa eq_refl).
  destruct r as [url hs cd content bt st pc dl rh dom pth rs lt lds rt ka nrt ck].
  assert (content_size (put_headers (mk_response url hs cd content bt st pc dl rh dom pth rs lt lds rt ka
    nrt ck) []) = to_int32 (Z.of_nat (length content))) as Hcs by done. rewrite Hcs in Hitoa. clear Hcs Htype Hlen.
  destruct ck, nrt;
  cbv beta iota zeta delta [append_str put_rep_str put_headers put_last_date_str put_last_time
    append_date_time content_size raw_url_ headers_ cache_data content_ body_type_ status_ proc_continue_ delay_
    req_headers_ res_domain_ res_path_ rep_str_ last_time_ last_date_str_ res_type_ keep_alive_
    need_response_time_ cookie_sh_ptr] in *;
  destruct (bool_decide_reflect (rt = ct_none)) as [->|]; try destruct (_ <? _); rewrite Hitoa;
    cbn [concat fmap list_fmap app]; unfold print_field; cbn [fst snd get_content_type];
    rewrite ?app_nil_r, ?app_nil_l, <-?app_assoc; reflexivity.
Qed.

Lemma field_value_clean v : field_value_ok v -> clean v.
Proof. by intros []. Qed.

Lemma clean_value v c s : clean v -> v = c :: s -> c <> 32 -> c <> 9 -> field_value_ok v.
Proof. intros Hv -> H1 H2. split; [done|]. split; cbn; congruence. Qed.

Lemma cookie_value_ok c : cookie_clean c -> field_value_ok (name_ c) -> field_value_ok (cookie_to_string c).
Proof.
  intros Hc (_ & H1 & H2). pose proof (clean_cookie c Hc) as Hclean. split; [done|].
  unfold cookie_to_string. destruct (name_ c); [done|]. done.
Qed.

Lemma local_date_ok offset t : field_value_ok (local_date_str offset t).
Proof.
  unfold local_date_str. set (u := to_time_t t + _).
  destruct (http_date_head u) as (c & s & Hd & Hc1 & Hc2).
  apply (clean_value _ c (s ++ bs " GMT")); [|by rewrite Hd|done..].
  pose proof (clean_http_date u). clean.
Qed.

Lemma dec_string_value n : 0 <= n -> field_value_ok (dec_string n).
Proof.
  intros Hn. pose proof (clean_dec_string n Hn) as Hc. pose proof (digits_range 10 n ltac:(lia) Hn) as Hr.
  unfold dec_string in *. destruct (digits 10 n) as [|d ds] eqn:E; [by apply digits_nonempty in E|].
  apply Forall_cons in Hr as [Hd _]. apply (clean_value _ (48 + d) ((fun d => 48 + d) <$> ds)); (done || lia).
Qed.

Lemma standard_fields_ok offset now r :
  response_ok r -> Forall field_ok (standard_fields offset now r).
Proof.
  intros (_ & Ht & Hl & _ & Hc & Hd). unfold standard_fields.
  assert (forall n v, field_name_ok n -> field_value_ok v -> Forall field_ok [(n, v)]) as Hone
    by (intros; constructor; [by split|constructor]).
  repeat apply Forall_app_2.
  - apply Hone; [|apply dec_string_value; lia]. split; [done|]. apply (bool_decide_unpack _). by vm_compute.
  - destruct (res_type_ r); [| | |done|constructor]; apply (bool_decide_unpack _); vm_compute; exact I.
  - apply (bool_decide_unpack _). vm_compute. exact I.
  - destruct (cookie_sh_ptr r) as [c|]; [|constructor]. destruct (Hc c eq_refl).
    apply Hone; [|by apply cookie_value_ok]. split; [done|]. apply (bool_decide_unpack _). by vm_compute.
  - destruct (need_response_time_ r) eqn:En; [|constructor]. apply Hone.
    + split; [done|]. apply (bool_decide_unpack _). by vm_compute.
    + unfold date_value. destruct (_ <? _); [apply local_date_ok|by apply Hd].
Qed.

Lemma token_char_byte c : token_char c = true -> is_byte c.
Proof.
  intros H. destruct (decide (0 <= c < 256)) as [Hc|Hc]; [unfold is_byte; lia|]. exfalso.
  unfold token_char in H. destruct (decide (c < 0)) as [Hn|Hp].
  - rewrite Z2Nat.nonpos in H by lia. by vm_compute in H.
  - rewrite (proj2 (lookup_ge_None _ _)) in H; [done|]. change (length token_char_map) with 256%nat. lia.
Qed.

Lemma clean_bytes s : clean s -> Forall is_byte s.
Proof. intros H. eapply Forall_impl; [exact H|]. by intros ? []. Qed.

Lemma raw_field_bytes hs : Forall raw_ok hs -> Forall is_byte (concat (raw_field <$> hs)).
Proof.
  induction 1 as [|[[n ws] v] hs [[[_ Hn] Hv] Hws] _ IH]; [constructor|]. cbn [fst snd] in *.
  rewrite fmap_cons. cbn [concat]. apply Forall_app_2; [|done]. unfold raw_field. cbn [fst snd].
  apply Forall_app_2; [eapply Forall_impl; [exact Hn|apply token_char_byte]|].
  constructor; [unfold is_byte; lia|]. apply Forall_app_2.
  - eapply Forall_impl; [exact Hws|]. intros c [-> | ->]; unfold is_byte; lia.
  - apply Forall_app_2; [by apply clean_bytes, field_value_clean|].
    apply (bool_decide_unpack _). vm_compute. exact I.
Qed.

Lemma CRLF_bytes : Forall is_byte CRLF.
Proof. apply (bool_decide_unpack _). vm_compute. exact I. Qed.

Lemma print_response_bytes v d1 d2 d3 msg hs :
  0 <= v <= 9 -> 0 <= d1 <= 9 -> 0 <= d2 <= 9 -> 0 <= d3 <= 9 -> clean msg -> Forall raw_ok hs ->
  Forall is_byte (print_response v d1 d2 d3 msg hs).
Proof.
  intros Hv H1 H2 H3 Hmsg Hhs. unfold print_response. pose proof CRLF_bytes.
  apply Forall_app_2; [apply (bool_decide_unpack _); vm_compute; exact I|].
  do 6 (apply Forall_cons_2; [unfold is_byte; lia|]).
  repeat apply Forall_app_2; [by apply clean_bytes|done|by apply raw_field_bytes|done].
Qed.

Lemma no_sp_ok hs : Forall field_ok hs -> Forall raw_ok (no_sp <$> hs).
Proof. intros H. apply Forall_fmap. eapply Forall_impl; [exact H|]. intros [n v] Hf. by split. Qed.

Lemma field_of_no_sp (hs : list (bytes * bytes)) : field_of <$> (no_sp <$> hs) = hs.
Proof. rewrite <-list_fmap_compose. rewrite <-(list_fmap_id hs) at 2. apply list_fmap_ext. by intros ? []. Qed.

(** C10. The server's own response parser reads a built response back: whatever
    the status, the well-formed headers added by the handler, the cookie and the
    date, and with every content type but multipart ([response_ok];
    [multipart_type_swallows_server] shows what multipart does), it accepts the
    text; the status code, the header fields in order (with the decimal length of
    the content as Content-Length) and the position at which the content starts,
    which it returns cast to int, are those of the response. *)
Theorem response_build_parse (sse : bool) offset now r max_headers :
  response_ok r -> (length (response_fields offset now r) <= max_headers)%nat ->
  let buf := rep_str_ (build_response_str offset now r) in
  exists o n, phr_parse_response sse buf max_headers 0 = (o, Some (to_int32 (Z.of_nat n))) /\
    r_minor_version o = 1 /\ PicoHttp.status o = response_code (status_ r) /\
    header_view buf <$> r_headers o = response_fields offset now r /\
    drop n buf = content_ r.
Proof.
  intros Hok Hmax buf. subst buf. rewrite build_text by done.
  pose proof Hok as (Hh & _ & _ & Hcontent & _).
  destruct (to_rep_string_shape (status_ r)) as (d1 & d2 & d3 & msg & -> & H1 & H2 & H3 & Hmsg & <-).
  set (hs := (no_sp <$> headers_ r) ++ (with_sp <$> standard_fields offset now r)).
  assert (Forall raw_ok hs) as Hhs
    by (apply Forall_app_2; [by apply no_sp_ok|by apply with_sp_ok, standard_fields_ok]).
  assert (field_of <$> hs = response_fields offset now r) as Hfields
    by (unfold hs, response_fields; by rewrite fmap_app, field_of_no_sp, field_of_with_sp).
  assert (length hs <= max_headers)%nat as Hlen by (by rewrite <-Hfields, length_fmap in Hmax).
  assert ((bs "HTTP/1." ++ 48 + 1 :: 32 :: 48 + d1 :: 48 + d2 :: 48 + d3 :: 32 :: msg ++ CRLF) ++
    concat (raw_field <$> hs) ++ CRLF ++ content_ r = print_response 1 d1 d2 d3 msg hs ++ content_ r) as ->.
  { unfold print_response. rewrite <-!app_assoc. cbn [app]. by rewrite <-!app_assoc. }
  assert (Forall is_byte (print_response 1 d1 d2 d3 msg hs ++ content_ r)) as Hb.
  { apply Forall_app_2; [|done]. apply print_response_bytes; (done || lia). }
  destruct (phr_parse_response_print sse max_headers 1 d1 d2 d3 msg hs (content_ r))
    as (o & Hparse & Hv & Hst & Hhv); try done.
  exists o, (length (print_response 1 d1 d2 d3 msg hs)).
  split_and!; [done|done|done|by rewrite Hhv|by rewrite drop_app_length].
Qed.

(** ** The buffers of a response *)

(** a response without a status says 500 here *)
Definition buffer_code (s : status_type) : Z :=
  match s with st_init => 500 | _ => status_code s end.

Lemma to_buffer_shape s : s <> st_accepted -> exists d1 d2 d3 msg,
  to_buffer s = bs "HTTP/1." ++ 48 + 1 :: 32 :: 48 + d1 :: 48 + d2 :: 48 + d3 :: 32 :: msg ++ CRLF /\
  0 <= d1 <= 9 /\ 0 <= d2 <= 9 /\ 0 <= d3 <= 9 /\ clean msg /\ 100 * d1 + 10 * d2 + d3 = buffer_code s.
Proof.
  intros Hs. exists (nth 9 (to_buffer s) 0 - 48), (nth 10 (to_buffer s) 0 - 48),
    (nth 11 (to_buffer s) 0 - 48), (slice (to_buffer s) 13 (length (to_buffer s) - 15)).
  destruct s; try done;
    (split_and!; [reflexivity|vm_compute; done..|apply (bool_decide_unpack _); vm_compute; exact I|reflexivity]).
Qed.

Definition buffer_fields (r : response) : list (bytes * bytes) :=
  headers_ r ++ [(bs "Host", bs "netcore")].

Definition buffer_body (r : response) : bytes :=
  if bool_decide (body_type_ r = cty_string) then content_ r else [].

Lemma buffers_text (hs : list (bytes * bytes)) :
  mjoin (mjoin ((fun h => [h.1; name_value_separator; h.2; CRLF]) <$> hs)) = concat (print_field <$> hs).
Proof.
  induction hs as [|h hs IH]; [done|]. rewrite !fmap_cons. cbn [concat]. rewrite <-IH.
  unfold print_field. rewrite <-!app_assoc. reflexivity.
Qed.

Lemma mjoin_app_bytes (a b : list bytes) : mjoin (a ++ b) = mjoin a ++ mjoin b.
Proof. apply join_app. Qed.

Lemma to_buffers_text r :
  mjoin (to_buffers r).2 =
  to_buffer (status_ r) ++ concat (raw_field <$> (with_sp <$> buffer_fields r)) ++ CRLF ++ buffer_body r.
Proof.
  assert ((to_buffers r).2 = [to_buffer (status_ r)] ++
    mjoin ((fun h => [h.1; name_value_separator; h.2; CRLF]) <$> buffer_fields r) ++ [CRLF] ++
    (if bool_decide (body_type_ r = cty_string) then [content_ r] else [])) as ->.
  { unfold to_buffers, buffer_fields. change (cookie_sh_ptr (add_header r _ _)) with (cookie_sh_ptr r).
    destruct (cookie_sh_ptr r); reflexivity. }
  rewrite !mjoin_app_bytes, buffers_text, concat_with_sp. unfold buffer_body.
  assert (forall b : bytes, mjoin [b] = b) as Hone by (intros b; apply app_nil_r).
  rewrite !Hone. by destruct (bool_decide _); rewrite ?Hone.
Qed.

(** Written out one after the other, the buffers of a response (as sent for a
    websocket handshake) form a message that the response parser accepts, with
    the response's status code, its headers followed by Host, and its content,
    for every status but 202. *)
Theorem to_buffers_parse (sse : bool) r max_headers :
  status_ r <> st_accepted -> Forall field_ok (headers_ r) -> Forall is_byte (content_ r) ->
  (length (headers_ r) < max_headers)%nat ->
  let buf := mjoin (to_buffers r).2 in
  exists o n, phr_parse_response sse buf max_headers 0 = (o, Some (to_int32 (Z.of_nat n))) /\
    PicoHttp.status o = buffer_code (status_ r) /\
    header_view buf <$> r_headers o = buffer_fields r /\ drop n buf = buffer_body r.
Proof.
  intros Hs Hh Hcontent Hmax buf. subst buf. rewrite to_buffers_text.
  destruct (to_buffer_shape (status_ r) Hs) as (d1 & d2 & d3 & msg & -> & H1 & H2 & H3 & Hmsg & <-).
  set (hs := with_sp <$> buffer_fields r).
  assert (Forall raw_ok hs) as Hhs.
  { apply with_sp_ok, Forall_app_2; [done|]. apply (bool_decide_unpack _). vm_compute. exact I. }
  assert (length hs <= max_headers)%nat as Hlen.
  { unfold hs, buffer_fields. rewrite length_fmap, length_app. cbn. lia. }
  assert (Forall is_byte (buffer_body r)) as Hbody by (unfold buffer_body; by destruct (bool_decide _)).
  assert ((bs "HTTP/1." ++ 48 + 1 :: 32 :: 48 + d1 :: 48 + d2 :: 48 + d3 :: 32 :: msg ++ CRLF) ++
    concat (raw_field <$> hs) ++ CRLF ++ buffer_body r = print_response 1 d1 d2 d3 msg hs ++ buffer_body r) as ->.
  { unfold print_response. rewrite <-!app_assoc. cbn [app]. by rewrite <-!app_assoc. }
  destruct (phr_parse_response_print sse max_headers 1 d1 d2 d3 msg hs (buffer_body r))
    as (o & Hparse & Hv & Hst & Hhv); try done.
  { apply Forall_app_2; [|done]. apply print_response_bytes; (done || lia). }
  exists o, (length (print_response 1 d1 d2 d3 msg hs)).
  split_and!; [done|done|by rewrite Hhv; unfold hs; rewrite field_of_with_sp|by rewrite drop_app_length].
Qed.

(** The buffer of the status line 202 is cut to the length of the line 201 and
    lacks its line feed. *)
Lemma to_buffer_accepted_truncated : to_buffer st_accepted = bs "HTTP/1.1 202 Accepted" ++ [13].
Proof. vm_compute. reflexivity. Qed.

(** The content type multipart/form-data is written without a boundary and
    without a line end, so the next header becomes part of its value. *)
Lemma multipart_type_swallows_server : exists tail,
  rep_str_ (set_status_and_content (fun _ => 0) 0 (new_response ct_none 0) st_ok [] ct_multipart enc_none) =
  bs "HTTP/1.1 200 OK" ++ CRLF ++ bs "Content-Length: 0" ++ CRLF ++
  bs "Content-Type: multipart/form-data; boundary=Server: netcore" ++ CRLF ++ tail.
Proof. eexists. vm_compute. reflexivity. Qed.

(** ** Constant content *)

Lemma explode_digits fuel rem ds :
  0 <= rem < 10 ^ Z.of_nat fuel -> explode fuel rem ds = (if rem =? 0 then [] else digits 10 rem) ++ ds.
Proof.
  revert rem ds; induction fuel as [|fuel IH]; intros rem ds Hr.
  { cbn in Hr. assert (rem = 0) as -> by lia. done. }
  cbn [explode]. destruct (rem =? 0) eqn:E; zbool; [done|].
  pose proof (Z_div_mod_eq_full rem 10). pose proof (Z.mod_pos_bound rem 10 ltac:(lia)).
  rewrite Nat2Z.inj_succ, Z.pow_succ_r in Hr by lia. rewrite IH by lia.
  destruct (rem / 10 =? 0) eqn:E2; zbool.
  - rewrite digits_small by lia. cbn. f_equal. lia.
  - replace rem with (rem / 10 * 10 + rem mod 10) at 3 by lia.
    rewrite digits_snoc, <-app_assoc by lia. done.
Qed.

(** the Content-Length line computed at compile time *)
Lemma num_to_string_correct num :
  0 <= num < 2 ^ 32 -> num_to_string num = bs "Content-Length: " ++ dec_string num ++ CRLF.
Proof.
  intros H. unfold num_to_string, dec_string, rep_len, rep_crcf. do 3 f_equal.
  pose proof (Z_div_mod_eq_full num 10). pose proof (Z.mod_pos_bound num 10 ltac:(lia)).
  rewrite explode_digits by (change (10 ^ Z.of_nat 32) with (10 ^ 32); lia).
  destruct (num / 10 =? 0) eqn:E; zbool.
  - rewrite digits_small by lia. cbn. f_equal. lia.
  - replace num with (num / 10 * 10 + num mod 10) at 3 by lia. by rewrite digits_snoc by lia.
Qed.

Definition response_ex : response :=
  create_session 1700000000
    (add_header (set_content (put_status (put_res_type (new_response ct_none 0) ct_html) st_not_found) (bs "gone"))
       (bs "X-Id") (bs "7")) (bs "abc") 60.

Lemma response_ex_ok : response_ok response_ex.
Proof.
  split_and!; try (apply (bool_decide_unpack _); vm_compute; exact I); try done.
  intros c [= <-]. split; [repeat split|]; apply (bool_decide_unpack _); vm_compute; exact I.
Qed.

Lemma response_build_parse_witness :
  exists o n, phr_parse_response true
      (rep_str_ (build_response_str (fun _ => 0) 0 response_ex)) 8 0 = (o, Some (to_int32 (Z.of_nat n))) /\
    PicoHttp.status o = 404 /\
    header_view (rep_str_ (build_response_str (fun _ => 0) 0 response_ex)) <$> r_headers o =
      [(bs "X-Id", bs "7"); (bs "Content-Length", bs "4");
       (bs "Content-Type", bs "text/html; charset=UTF-8"); (bs "Server", bs "netcore");
       (bs "Set-Cookie", bs "CSESSIONID=abc; path=/; expires=Tue, 14 Nov 2023 22:14:20 GMT")].
Proof.
  destruct (response_build_parse true (fun _ => 0) 0 response_ex 8 response_ex_ok)
    as (o & n & H1 & _ & H2 & H3 & _); [vm_compute; lia|].
  exists o, n. split; [exact H1|]. split; [exact H2|]. rewrite H3. vm_compute. reflexivity.
Defined.

Lemma to_buffers_parse_witness :
  exists o n, phr_parse_response false (mjoin (to_buffers response_ex).2) 8 0 = (o, Some (to_int32 (Z.of_nat n))) /\
    PicoHttp.status o = 404.
Proof.
  destruct (to_buffers_parse false response_ex 8) as (o & n & H1 & H2 & _);
    [done|apply (bool_decide_unpack _); vm_compute; exact I..|vm_compute; lia|].
  exists o, n. split; [exact H1|exact H2].
Defined.
