(* ===== verification/Router.v ===== *)
(** * The router

    src/include/netcore/http_router.hpp: the three tables of handlers, their
    registration, the aspects run around a handler, and [route].  The request and
    the response a handler works on are one state [W]; a stored handler is a
    function on it.  A compiled regular expression is the set of strings it
    matches.  The order in which the unordered_map of wildcard handlers is
    traversed is the argument [order].  [None] is an access outside a string. *)

From Stdlib Require Import ZArith Lia.
From stdpp Require Import base numbers list gmap strings.
From S2P Require Import Prelude Utils.
Local Open Scope Z_scope.

Definition DOT : Z := 46.
Definition SLASH : Z := 47.
Definition INDEX : bytes := bs "index".
Definition STATIC_RESOURCE : bytes := bs "netcore_static_resource".

Section router.
Context {W : Type}.

(** the methods before and after of an aspect, where it has them; [T] is what
    the handler returns, unit when it returns nothing *)
Record aspect (T : Type) := mk_aspect {
  before : option (W -> bool * W);
  after : option (T -> W -> bool * W)
}.
Arguments mk_aspect {T}.
Arguments before {T}.
Arguments after {T}.

(** do_ap_before: from the first aspect to the last, until one says no *)
Fixpoint do_ap_before {T} (aps : list (aspect T)) (r : bool) (w : W) : bool * W :=
  match aps with
  | [] => (r, w)
  | item :: aps =>
      let '(r, w) := if r then match before item with Some b => b w | None => (r, w) end else (r, w) in
      do_ap_before aps r w
  end.

(** do_after and do_void_after visit the aspects from the last to the first *)
Fixpoint do_after_list {T} (result : T) (aps : list (aspect T)) (r : bool) (w : W) : W :=
  match aps with
  | [] => w
  | item :: aps =>
      let '(r, w) := if r then match after item with Some a => a result w | None => (r, w) end else (r, w) in
      do_after_list result aps r w
  end.
Definition do_after {T} (result : T) (aps : list (aspect T)) (w : W) : W :=
  do_after_list result (rev aps) true w.
Definition do_void_after (aps : list (aspect unit)) (w : W) : W := do_after tt aps w.

(** invoke, for a handler that returns a value and for one that does not *)
Definition invoke {T} (f : W -> T * W) (aps : list (aspect T)) (w : W) : W :=
  let '(r, w) := do_ap_before aps true w in
  if negb r then w
  else let '(result, w) := f w in do_after result aps w.
Definition invoke_void (f : W -> W) (aps : list (aspect unit)) (w : W) : W :=
  let '(r, w) := do_ap_before aps true w in
  if negb r then w
  else do_void_after aps (f w).

(** invoke_mem: a member function, on [self] or on a new object *)
Definition invoke_mem {T O} (f : O -> W -> T * W) (self : option O) (fresh : O) (aps : list (aspect T)) (w : W)
  : W :=
  let '(r, w) := do_ap_before aps true w in
  if negb r then w
  else let '(result, w) := match self with Some o => f o w | None => f fresh w end in
       do_after result aps w.

(** the flags of the 26 first letters, and the bound call of invoke *)
Definition invoker_function : Type := list Z * (W -> W).

Record http_router := mk_router {
  map_invokers_ : gmap bytes invoker_function;
  wildcard_invokers_ : gmap bytes invoker_function;
  regex_invokers_ : list ((bytes -> bool) * invoker_function)
}.

Definition new_router : http_router := mk_router ∅ ∅ [].

(** register_nonmember_func and register_member_func; raw_name.back() of an
    empty name is undefined *)
Definition register_func (rt : http_router) (raw_name : bytes) (arr : list Z) (g : W -> W)
  : option http_router :=
  c ← last raw_name;
  Some (if c =? 42
        then mk_router (map_invokers_ rt)
               (<[take (length raw_name - 1) raw_name := (arr, g)]> (wildcard_invokers_ rt)) (regex_invokers_ rt)
        else mk_router (<[raw_name := (arr, g)]> (map_invokers_ rt)) (wildcard_invokers_ rt)
               (regex_invokers_ rt)).

(** register_handler<Is...>; without a method the array is all zero *)
Definition methods_array (methods : list http_method) : list Z :=
  match methods with [] => replicate 26 0 | _ => get_method_arr methods end.
Definition register_handler (rt : http_router) (methods : list http_method) (name : bytes) (g : W -> W)
  : option http_router := register_func rt name (methods_array methods) g.
Definition register_handler_for_regex (rt : http_router) (methods : list http_method)
    (re : bytes -> bool) (g : W -> W) : http_router :=
  mk_router (map_invokers_ rt) (wildcard_invokers_ rt)
    (regex_invokers_ rt ++ [(re, (methods_array methods, g))]).

Definition remove_handler (rt : http_router) (name : bytes) : http_router :=
  mk_router (delete name (map_invokers_ rt)) (wildcard_invokers_ rt) (regex_invokers_ rt).

(** call the handler if the method's first letter is set *)
Definition try_invoker (p : invoker_function) (method : bytes) (route_it : bool) (w : W) : option (bool * W) :=
  c ← head method;
  let c := schar c in
  if (c <? 65) || (90 <? c) then Some (false, w)
  else
    flag ← p.1 !! Z.to_nat (c - 65);
    if flag =? 0 then Some (false, w)
    else Some (true, if route_it then p.2 w else w).

(** the traversal of the wildcard handlers *)
Fixpoint get_wildcard_function (entries : list (bytes * invoker_function)) (key : bytes) (route_it : bool) (w : W)
  : bool * W :=
  match entries with
  | [] => (false, w)
  | (k, t) :: entries =>
      match find_str k key with
      | Some _ => (true, if route_it then t.2 w else w)
      | None => get_wildcard_function entries key route_it w
      end
  end.

(** route; it calls itself for a static file *)
Fixpoint route (fuel : nat) (order : gmap bytes invoker_function -> list (bytes * invoker_function))
    (rt : http_router) (method url : bytes) (route_it : bool) (w : W) : option (bool * W) :=
  match fuel with
  | O => None
  | S fuel =>
      match list_find (fun r => r.1 url = true) (regex_invokers_ rt) with
      | Some (_, r) => try_invoker r.2 method route_it w
      | None =>
          match map_invokers_ rt !! url with
          | Some p => try_invoker p method route_it w
          | None =>
              match rfind_char DOT url with
              | Some _ => route fuel order rt method STATIC_RESOURCE route_it w
              | None => Some (get_wildcard_function (order (wildcard_invokers_ rt)) url route_it w)
              end
          end
      end
  end.

(** pick: the index of the first regular expression that matches *)
Definition pick (rt : http_router) (url : bytes) : bool * Z :=
  match list_find (fun r => r.1 url = true) (regex_invokers_ rt) with
  | Some (i, _) => (true, Z.of_nat i)
  | None => (false, -1)
  end.
End router.
Arguments mk_aspect {W T}.
Arguments aspect : clear implicits.
Arguments http_router : clear implicits.
Arguments invoker_function : clear implicits.

(** ** Routers that can be built *)

Inductive built {W} : http_router W -> Prop :=
| built_new : built new_router
| built_register rt methods name g rt' :
    built rt -> register_handler rt methods name g = Some rt' -> built rt'
| built_regex rt methods re g : built rt -> built (register_handler_for_regex rt methods re g)
| built_remove rt name : built rt -> built (remove_handler rt name).

(** every stored array has its 26 entries *)
Definition router_ok {W} (rt : http_router W) : Prop :=
  (forall k p, map_invokers_ rt !! k = Some p -> length p.1 = 26%nat) /\
  (forall i r, regex_invokers_ rt !! i = Some r -> length r.2.1 = 26%nat).

Lemma length_method_arr methods : length (get_method_arr methods) = 26%nat.
Proof.
  unfold get_method_arr. assert (forall arr, length arr = 26%nat ->
    length (fold_left (fun arr mthd => match type_to_name mthd with
      | Some (c :: _) => <[Z.to_nat (c - 65) := c]> arr | _ => arr end) methods arr) = 26%nat) as H.
  { induction methods as [|m ms IH]; intros arr Ha; [done|]. cbn [fold_left]. apply IH.
    destruct (type_to_name m) as [[|c s]|]; by rewrite ?length_insert. }
  by apply H.
Qed.

Lemma length_methods_array methods : length (methods_array methods) = 26%nat.
Proof. destruct methods; [done|]. apply length_method_arr. Qed.

Lemma built_ok {W} (rt : http_router W) : built rt -> router_ok rt.
Proof.
  induction 1 as [|rt methods name g rt' _ [IH1 IH2] Hreg|rt methods re g _ [IH1 IH2]|rt name _ [IH1 IH2]].
  - split; intros k p; cbn; [by rewrite lookup_empty|done].
  - unfold register_handler, register_func in Hreg. apply bind_Some in Hreg as (c & _ & [= <-]).
    destruct (c =? 42); (split; [|done]); cbn; [done|]. intros k p.
    rewrite lookup_insert_Some. intros [[_ <-]|[_ Hk]]; [apply length_methods_array|by eapply IH1].
  - split; [done|]. cbn. intros i r Hr. apply lookup_app_Some in Hr as [Hr|[_ Hr]]; [by eapply IH2|].
    apply list_lookup_singleton_Some in Hr as [_ <-]. apply length_methods_array.
  - split; [|done]. intros k p. cbn. rewrite lookup_delete_Some. intros [_ Hk]. by eapply IH1.
Qed.

(** ** Looking without calling *)

Lemma try_invoker_total {W} (p : invoker_function W) method w :
  length p.1 = 26%nat -> method <> [] -> exists b w',
  try_invoker p method true w = Some (b, w') /\ try_invoker p method false w = Some (b, w).
Proof.
  intros Hl Hm. destruct method as [|c m]; [done|]. unfold try_invoker. cbn [head mbind option_bind].
  destruct (_ || _) eqn:E; [by eexists _, _|]. zbool.
  destruct (lookup_lt_is_Some_2 p.1 (Z.to_nat (schar c - 65))) as [f Hf]; [lia|]. rewrite Hf.
  cbn [mbind option_bind]. destruct (f =? 0); by eexists _, _.
Qed.

Lemma wildcard_peek {W} (l : list (bytes * invoker_function W)) key w :
  get_wildcard_function l key false w = ((get_wildcard_function l key true w).1, w).
Proof. induction l as [|[k t] l IH]; [done|]. cbn. by destruct (find_str k key). Qed.

Lemma route_step {W} order (rt : http_router W) method url w n :
  router_ok rt -> method <> [] ->
  (forall i, rfind_char DOT url = Some i ->
     exists b w', route n order rt method STATIC_RESOURCE true w = Some (b, w') /\
                  route n order rt method STATIC_RESOURCE false w = Some (b, w)) ->
  exists b w', route (S n) order rt method url true w = Some (b, w') /\
               route (S n) order rt method url false w = Some (b, w).
Proof.
  intros [Hmap Hre] Hm Hstatic. cbn [route].
  destruct (list_find _ (regex_invokers_ rt)) as [[i r]|] eqn:Ef.
  { apply list_find_Some in Ef as (Hr & _). apply try_invoker_total; [by eapply Hre|done]. }
  destruct (map_invokers_ rt !! url) as [p|] eqn:Ep.
  { apply try_invoker_total; [by eapply Hmap|done]. }
  destruct (rfind_char DOT url) as [i|] eqn:Ed; [by apply (Hstatic i)|].
  rewrite wildcard_peek. destruct (get_wildcard_function _ _ true w) as [b w'] eqn:Ew. by exists b, w'.
Qed.

(** Routing a request with a method always ends, after at most one redirection
    to the handler of static files, on every router that can be built.  Asked only
    to look (route_it false), it gives the same answer and calls nothing. *)
Theorem route_total {W} order (rt : http_router W) method url w :
  built rt -> method <> [] -> exists b w', forall n,
  route (2 + n) order rt method url true w = Some (b, w') /\
  route (2 + n) order rt method url false w = Some (b, w).
Proof.
  intros Hb Hm. apply built_ok in Hb.
  destruct (route_step order rt method url w 1 Hb Hm) as (b & w' & H1 & H2).
  { intros _ _. apply route_step; [done|done|]. intros i Hi. by vm_compute in Hi. }
  exists b, w'. intros n.
  assert (forall g, route (2 + n) order rt method url g w = route 2 order rt method url g w) as Hfuel.
  { intros g. change (2 + n)%nat with (S (S n)). cbn [route].
    destruct (list_find _ _) as [[]|]; [done|]. destruct (map_invokers_ rt !! url); [done|].
    by destruct (rfind_char DOT url). }
  by rewrite !Hfuel.
Qed.

(** ** Methods *)

(** [m] is one of the methods, or has the first letter of one *)
Definition method_accepted (methods : list http_method) (m : http_method) : bool :=
  bool_decide (m ∈ methods) ||
  (bool_decide (m = POST) && bool_decide (PUT ∈ methods)) ||
  (bool_decide (m = PUT) && bool_decide (POST ∈ methods)).

Definition letter (m : http_method) : Z := default 0 (head (method_name m)).

Lemma letter_eq m m' : m <> UNKNOW -> m' <> UNKNOW ->
  letter m = letter m' <-> m = m' \/ (m = POST /\ m' = PUT) \/ (m = PUT /\ m' = POST).
Proof. intros H H'. destruct m, m'; try done; split; intros Heq; naive_solver. Qed.

Lemma letter_range m : m <> UNKNOW -> 65 <= letter m <= 90.
Proof. by destruct m. Qed.

Lemma method_arr_fold methods m arr :
  UNKNOW ∉ methods -> m <> UNKNOW -> length arr = 26%nat -> exists f,
  fold_left (fun arr mthd => match type_to_name mthd with
    | Some (c :: _) => <[Z.to_nat (c - 65) := c]> arr | _ => arr end) methods arr
    !! Z.to_nat (letter m - 65) = Some f /\
  (f = 0 <-> arr !! Z.to_nat (letter m - 65) = Some 0 /\ forall m', m' ∈ methods -> letter m <> letter m').
Proof.
  intros Hu Hm Ha. pose proof (letter_range m Hm).
  induction methods as [|x ms IH] using rev_ind; cbn [fold_left].
  - destruct (lookup_lt_is_Some_2 arr (Z.to_nat (letter m - 65))) as [f Hf]; [lia|].
    exists f. split; [done|]. rewrite Hf. split; [intros ->|by intros [[= ->] _]].
    split; [done|]. by intros m' ?%elem_of_nil.
  - apply not_elem_of_app in Hu as [Hu Hx]. apply not_elem_of_cons in Hx as [Hx _].
    destruct (IH Hu) as (f & Hf & Hiff). rewrite fold_left_app. cbn [fold_left].
    set (arr' := fold_left _ ms arr) in *.
    assert (exists s, type_to_name x = Some (letter x :: s)) as [s ->]
      by (destruct x; try done; eexists; reflexivity).
    pose proof (letter_range x ltac:(congruence)).
    pose proof (lookup_lt_Some _ _ _ Hf). destruct (decide (letter m = letter x)) as [El|Nl].
    + exists (letter x). rewrite El in *. rewrite list_lookup_insert_eq by done. split; [done|].
      split; [lia|]. intros [_ Hall]. exfalso. apply (Hall x); [apply elem_of_app; right; by left|done].
    + exists f. rewrite list_lookup_insert_ne by lia. split; [done|]. rewrite Hiff.
      split; (intros [Ha1 Ha2]; split; [done|]; intros m').
      * rewrite elem_of_app, list_elem_of_singleton. intros [Hin| ->]; [by apply Ha2|done].
      * intros Hin. apply Ha2, elem_of_app. by left.
Qed.

Lemma method_arr_flag methods m :
  UNKNOW ∉ methods -> m <> UNKNOW -> exists f,
  get_method_arr methods !! Z.to_nat (letter m - 65) = Some f /\
  (f = 0 <-> method_accepted methods m = false).
Proof.
  intros Hu Hm. destruct (method_arr_fold methods m (replicate 26 0) Hu Hm) as (f & Hf & Hiff); [done|].
  exists f. split; [done|]. rewrite Hiff.
  assert (forall m', m' ∈ methods -> m' <> UNKNOW) as Hne by (intros m' ? ->; done).
  unfold method_accepted. rewrite !orb_false_iff, !andb_false_iff, !bool_decide_eq_false. split.
  - intros [_ Hall]. split_and!.
    + intros Hin. by apply (Hall m).
    + destruct (decide (m = POST)) as [->|]; [right|by left]. intros Hin. by apply (Hall PUT).
    + destruct (decide (m = PUT)) as [->|]; [right|by left]. intros Hin. by apply (Hall POST).
  - intros [[H1 H2] H3]. split; [apply lookup_replicate_2; pose proof (letter_range m Hm); lia|].
    intros m' Hin Heq.
    destruct (proj1 (letter_eq m m' Hm (Hne m' Hin)) Heq) as [->|[[-> ->]|[-> ->]]]; naive_solver.
Qed.

Lemma registered_route {W} order (rt rt' : http_router W) methods name g m route_it w n :
  UNKNOW ∉ methods -> methods <> [] -> m <> UNKNOW -> last name <> Some 42 ->
  Forall (fun r => r.1 name = false) (regex_invokers_ rt) ->
  register_handler rt methods name g = Some rt' ->
  route (S n) order rt' (method_name m) name route_it w =
  Some (if method_accepted methods m then (true, if route_it then g w else w) else (false, w)).
Proof.
  intros Hu Hms Hm Hstar Hre Hreg. unfold register_handler, register_func in Hreg.
  apply bind_Some in Hreg as (c & Hc & [= <-]).
  destruct (c =? 42) eqn:Ec; zbool; [subst c; congruence|]. cbn [route map_invokers_ regex_invokers_].
  assert (list_find (fun r : (bytes -> bool) * invoker_function W => r.1 name = true) (regex_invokers_ rt) = None) as ->.
  { apply list_find_None. eapply Forall_impl; [exact Hre|]. intros r Hr. cbn in *. congruence. }
  rewrite lookup_insert_eq. destruct (method_arr_flag methods m Hu Hm) as (f & Hf & Hiff).
  pose proof (letter_range m Hm). unfold try_invoker.
  assert (head (method_name m) = Some (letter m)) as -> by (by destruct m). cbn [mbind option_bind].
  assert (schar (letter m) = letter m) as -> by (unfold schar; by rewrite (proj2 (Z.ltb_lt _ _)) by lia).
  rewrite (proj2 (Z.ltb_ge _ _)), (proj2 (Z.ltb_ge _ _)) by lia. cbn [orb fst snd].
  assert (methods_array methods = get_method_arr methods) as -> by (by destruct methods).
  rewrite Hf. cbn [mbind option_bind]. destruct (method_accepted methods m); destruct (f =? 0) eqn:Ef; zbool.
  - destruct Hiff as [Hf0 _]. by specialize (Hf0 Ef).
  - done.
  - done.
  - by destruct Ef, Hiff as [_ ->].
Qed.

(** C26. A handler registered for some methods under an exact name is called for a
    request to that name exactly when the method is one of these or shares its
    first letter with one (POST and PUT), unless a regular expression claims the
    name; otherwise nothing is called and the answer is no. *)
Theorem register_then_route {W} order (rt rt' : http_router W) methods name g m route_it w n :
  UNKNOW ∉ methods -> methods <> [] -> m <> UNKNOW -> last name <> Some 42 ->
  Forall (fun r => r.1 name = false) (regex_invokers_ rt) ->
  register_handler rt methods name g = Some rt' ->
  route (S n) order rt' (method_name m) name route_it w =
  Some (if method_accepted methods m then (true, if route_it then g w else w) else (false, w)).
Proof. apply registered_route. Qed.

(** ** Wildcards *)

Lemma wildcard_spec {W} (l : list (bytes * invoker_function W)) key w :
  (exists k t, (k, t) ∈ l /\ is_Some (find_str k key) /\ get_wildcard_function l key true w = (true, t.2 w)) \/
  ((forall k t, (k, t) ∈ l -> find_str k key = None) /\ get_wildcard_function l key true w = (false, w)).
Proof.
  induction l as [|[k t] l IH]; cbn.
  { right. split; [|done]. by intros k t ?%elem_of_nil. }
  destruct (find_str k key) as [i|] eqn:Ef.
  { left. exists k, t. split_and!; [by left|by eexists|done]. }
  destruct IH as [(k' & t' & Hin & Hs & Hg)|[Hall Hg]]; rewrite Hg.
  - left. exists k', t'. split_and!; [by right|done|done].
  - right. split; [|done]. intros k' t' [[= -> ->]|Hin]%elem_of_cons; [done|by apply (Hall k' t')].
Qed.

(** A name without a dot that no regular expression and no exact entry claims
    goes to a wildcard handler whose registered part occurs in it, whatever the
    method and whatever the order in which the table is traversed; if there is
    none, nothing is called and the answer is no. *)
Theorem wildcard_route {W} order (rt : http_router W) method url w n :
  (forall m, order m ≡ₚ map_to_list m) ->
  Forall (fun r => r.1 url = false) (regex_invokers_ rt) -> map_invokers_ rt !! url = None ->
  DOT ∉ url ->
  (exists k t, wildcard_invokers_ rt !! k = Some t /\ is_Some (find_str k url) /\
     route (S n) order rt method url true w = Some (true, t.2 w)) \/
  ((forall k t, wildcard_invokers_ rt !! k = Some t -> find_str k url = None) /\
     route (S n) order rt method url true w = Some (false, w)).
Proof.
  intros Hord Hre Hmap Hdot. cbn [route].
  assert (list_find (fun r : (bytes -> bool) * invoker_function W => r.1 url = true) (regex_invokers_ rt) = None) as ->.
  { apply list_find_None. eapply Forall_impl; [exact Hre|]. intros r Hr. cbn in *. congruence. }
  rewrite Hmap, (rfind_char_None _ _ Hdot).
  assert (forall k t, (k, t) ∈ order (wildcard_invokers_ rt) <-> wildcard_invokers_ rt !! k = Some t) as Hin
    by (intros k t; rewrite Hord; apply elem_of_map_to_list).
  destruct (wildcard_spec (order (wildcard_invokers_ rt)) url w) as [(k & t & Hk & Hs & ->)|[Hall ->]].
  - left. exists k, t. split_and!; [by apply Hin|done|done].
  - right. split; [|done]. intros k t Hk. apply (Hall k t), Hin, Hk.
Qed.

(** ** Aspects *)

Inductive call := Before (i : nat) | Handler | After (i : nat).

(** an aspect that records its calls: its number, and what before and after answer *)
Definition logged (x : nat * (bool * bool)) : aspect (list call) unit :=
  mk_aspect (Some (fun w => (x.2.1, w ++ [Before x.1]))) (Some (fun _ w => (x.2.2, w ++ [After x.1]))).

(** the elements up to and including the first one that answers no *)
Fixpoint upto {A} (ok : A -> bool) (l : list A) : list A :=
  match l with
  | [] => []
  | x :: l => x :: (if ok x then upto ok l else [])
  end.

Lemma do_ap_before_stopped {W T} (aps : list (aspect W T)) w : do_ap_before aps false w = (false, w).
Proof. induction aps; [done|]. by cbn. Qed.

Lemma do_after_stopped {W T} (x : T) (aps : list (aspect W T)) w : do_after_list x aps false w = w.
Proof. induction aps; [done|]. by cbn. Qed.

Lemma do_ap_before_log l w :
  do_ap_before (logged <$> l) true w =
  (forallb (fun x => x.2.1) l, w ++ ((fun x => Before x.1) <$> upto (fun x => x.2.1) l)).
Proof.
  revert w; induction l as [|[i [b a]] l IH]; intros w; cbn; [by rewrite app_nil_r|].
  destruct b; cbn.
  - by rewrite IH, <-app_assoc.
  - by rewrite do_ap_before_stopped.
Qed.

Lemma do_after_log l w :
  do_after_list tt (logged <$> l) true w = w ++ ((fun x => After x.1) <$> upto (fun x => x.2.2) l).
Proof.
  revert w; induction l as [|[i [b a]] l IH]; intros w; cbn; [by rewrite app_nil_r|].
  destruct a; cbn.
  - by rewrite IH, <-app_assoc.
  - by rewrite do_after_stopped.
Qed.

(** Aspects wrap a handler: their before parts run in the order of
    registration until one says no, in which case neither the handler nor any
    after part runs; otherwise the handler runs and then the after parts in
    reverse order until one says no. *)
Theorem invoke_order (l : list (nat * (bool * bool))) w :
  invoke_void (fun w => w ++ [Handler]) (logged <$> l) w =
  w ++ ((fun x => Before x.1) <$> upto (fun x => x.2.1) l) ++
  (if forallb (fun x => x.2.1) l
   then Handler :: ((fun x => After x.1) <$> upto (fun x => x.2.2) (rev l)) else []).
Proof.
  unfold invoke_void. rewrite do_ap_before_log. destruct (forallb _ l); cbn [negb].
  - unfold do_void_after, do_after. rewrite <-map_rev, do_after_log. by rewrite <-!app_assoc.
  - by rewrite app_nil_r.
Qed.

(** ** A small router *)

Definition router_a : http_router (list Z) :=
  default new_router (register_handler new_router [GET; POST] (bs "/a") (fun w => w ++ [1])).
Definition router_ex : http_router (list Z) :=
  default new_router (register_handler router_a [GET] (bs "/b/*") (fun w => w ++ [2])).

Lemma router_ex_built : built router_ex.
Proof.
  apply (built_register router_a [GET] (bs "/b/*") (fun w => w ++ [2])); [|reflexivity].
  apply (built_register new_router [GET; POST] (bs "/a") (fun w => w ++ [1])); [apply built_new|reflexivity].
Qed.

(** POST and PUT share their first letter, so a handler for POST gets PUT too. *)
Lemma put_reaches_post_handler order :
  route 2 order router_ex (bs "PUT") (bs "/a") true [] = Some (true, [1]).
Proof. vm_compute. reflexivity. Qed.

(** A handler registered under an exact name without a method is never called. *)
Lemma methodless_handler_unreachable order : exists rt : http_router (list Z),
  register_handler new_router [] (bs "/a") (fun w => w ++ [1]) = Some rt /\
  route 2 order rt (bs "GET") (bs "/a") true [] = Some (false, []).
Proof. eexists. split; [reflexivity|]. vm_compute. reflexivity. Qed.

Lemma route_total_witness : exists b w', forall n,
  route (2 + n) map_to_list router_ex (bs "GET") (bs "/logo.png") true [] = Some (b, w') /\
  route (2 + n) map_to_list router_ex (bs "GET") (bs "/logo.png") false [] = Some (b, []).
Proof. apply route_total; [apply router_ex_built|done]. Defined.

Lemma register_then_route_witness :
  route 2 map_to_list router_a (method_name POST) (bs "/a") true [] = Some (true, [1]) /\
  route 2 map_to_list router_a (method_name TRACE) (bs "/a") true [] = Some (false, []).
Proof.
  assert (UNKNOW ∉ [GET; POST]) as Hu by (apply (bool_decide_unpack _); vm_compute; exact I).
  split.
  - apply (register_then_route map_to_list new_router router_a [GET; POST] (bs "/a") (fun w => w ++ [1]) POST true [] 1 Hu);
      (done || constructor || reflexivity).
  - apply (register_then_route map_to_list new_router router_a [GET; POST] (bs "/a") (fun w => w ++ [1]) TRACE true [] 1 Hu);
      (done || constructor || reflexivity).
Defined.

Lemma wildcard_route_witness :
  (exists k t, wildcard_invokers_ router_ex !! k = Some t /\ is_Some (find_str k (bs "/b/x")) /\
     route 1 map_to_list router_ex (bs "DELETE") (bs "/b/x") true [] = Some (true, t.2 [])) \/
  ((forall k t, wildcard_invokers_ router_ex !! k = Some t -> find_str k (bs "/b/x") = None) /\
     route 1 map_to_list router_ex (bs "DELETE") (bs "/b/x") true [] = Some (false, [])).
Proof.
  apply wildcard_route; [done|constructor|reflexivity|].
  apply (bool_decide_unpack _). vm_compute. exact I.
Defined.
