(* ===== verification/Request.v ===== *)
(** * Requests

    src/include/netcore/request.hpp.  The receive buffer and what parse_header
    takes from it.  A pointer into the buffer is an offset; a string_view kept in
    a map or a string is the text it denotes when it is stored.  The member
    check_headers_ is the argument [check] (always true when it is not set), the
    flag [sse] selects the build of the parser.  Not modelled: the uploaded files,
    the event callbacks, the connection pointer and gzip. QueryValue.v has the
    queries by position and their numeric conversions. *)

From Stdlib Require Import ZArith Lia.
From stdpp Require Import base numbers list gmap strings.
From S2P Require Import Prelude CStd PicoHttp PicoHttpFacts Codec Utils Itoa Cookie Response.
Local Open Scope Z_scope.

(** std::map from strings to strings *)
Notation smap := (gmap bytes bytes).

(** emplace keeps an existing entry *)
Definition emplace (k v : bytes) (m : smap) : smap :=
  match m !! k with Some _ => m | None => <[k := v]> m end.

Inductive data_proc_state :=
| data_begin | data_continue | data_end | data_all_end | data_close | data_error.
#[export] Instance data_proc_state_eq_dec : EqDecision data_proc_state.
Proof. solve_decision. Defined.

(** multipart_headers_ is a std::map: its entries in key order *)
Record request := mk_request {
  buf_ : bytes;
  headers_ : list phr_header;
  method_ : nat;
  method_len_ : nat;
  url_ : nat;
  url_len_ : nat;
  minor_version_ : Z;
  header_len_ : Z;
  body_len_ : Z;
  raw_url_ : bytes;
  method_str_ : bytes;
  url_str_ : bytes;
  cookie_str_ : bytes;
  copy_headers_ : list (bytes * bytes);
  cur_size_ : Z;
  left_body_len_ : Z;
  last_len_ : Z;
  queries_ : smap;
  form_url_map_ : smap;
  multipart_form_map_ : smap;
  has_gzip_ : bool;
  is_chunked_ : bool;
  max_header_len_ : Z;
  state_ : data_proc_state;
  http_type_ : content_type;
  part_data_ : bytes;
  multipart_headers_ : list (bytes * bytes);
  last_multpart_key_ : bytes;
  utf8_character_params_ : smap;
  range_start_pos_ : Z;
  is_range_resource_ : bool;
  static_resource_file_size_ : Z;
  aspect_data_ : list bytes;
  m_user_id : Z
}.

(** assignments to one member *)
Definition put_buf (v : bytes) (r : request) : request :=
  mk_request v (headers_ r) (method_ r) (method_len_ r) (url_ r) (url_len_ r) (minor_version_ r) (header_len_ r) (body_len_ r) (raw_url_ r) (method_str_ r) (url_str_ r) (cookie_str_ r) (copy_headers_ r) (cur_size_ r) (left_body_len_ r) (last_len_ r) (queries_ r) (form_url_map_ r) (multipart_form_map_ r) (has_gzip_ r) (is_chunked_ r) (max_header_len_ r) (state_ r) (http_type_ r) (part_data_ r) (multipart_headers_ r) (last_multpart_key_ r) (utf8_character_params_ r) (range_start_pos_ r) (is_range_resource_ r) (static_resource_file_size_ r) (aspect_data_ r) (m_user_id r).
Definition put_headers (v : list phr_header) (r : request) : request :=
  mk_request (buf_ r) v (method_ r) (method_len_ r) (url_ r) (url_len_ r) (minor_version_ r) (header_len_ r) (body_len_ r) (raw_url_ r) (method_str_ r) (url_str_ r) (cookie_str_ r) (copy_headers_ r) (cur_size_ r) (left_body_len_ r) (last_len_ r) (queries_ r) (form_url_map_ r) (multipart_form_map_ r) (has_gzip_ r) (is_chunked_ r) (max_header_len_ r) (state_ r) (http_type_ r) (part_data_ r) (multipart_headers_ r) (last_multpart_key_ r) (utf8_character_params_ r) (range_start_pos_ r) (is_range_resource_ r) (static_resource_file_size_ r) (aspect_data_ r) (m_user_id r).
Definition put_method (v : nat) (r : request) : request :=
  mk_request (buf_ r) (headers_ r) v (method_len_ r) (url_ r) (url_len_ r) (minor_version_ r) (header_len_ r) (body_len_ r) (raw_url_ r) (method_str_ r) (url_str_ r) (cookie_str_ r) (copy_headers_ r) (cur_size_ r) (left_body_len_ r) (last_len_ r) (queries_ r) (form_url_map_ r) (multipart_form_map_ r) (has_gzip_ r) (is_chunked_ r) (max_header_len_ r) (state_ r) (http_type_ r) (part_data_ r) (multipart_headers_ r) (last_multpart_key_ r) (utf8_character_params_ r) (range_start_pos_ r) (is_range_resource_ r) (static_resource_file_size_ r) (aspect_data_ r) (m_user_id r).
Definition put_method_len (v : nat) (r : request) : request :=
  mk_request (buf_ r) (headers_ r) (method_ r) v (url_ r) (url_len_ r) (minor_version_ r) (header_len_ r) (body_len_ r) (raw_url_ r) (method_str_ r) (url_str_ r) (cookie_str_ r) (copy_headers_ r) (cur_size_ r) (left_body_len_ r) (last_len_ r) (queries_ r) (form_url_map_ r) (multipart_form_map_ r) (has_gzip_ r) (is_chunked_ r) (max_header_len_ r) (state_ r) (http_type_ r) (part_data_ r) (multipart_headers_ r) (last_multpart_key_ r) (utf8_character_params_ r) (range_start_pos_ r) (is_range_resource_ r) (static_resource_file_size_ r) (aspect_data_ r) (m_user_id r).
Definition put_url (v : nat) (r : request) : request :=
  mk_request (buf_ r) (headers_ r) (method_ r) (method_len_ r) v (url_len_ r) (minor_version_ r) (header_len_ r) (body_len_ r) (raw_url_ r) (method_str_ r) (url_str_ r) (cookie_str_ r) (copy_headers_ r) (cur_size_ r) (left_body_len_ r) (last_len_ r) (queries_ r) (form_url_map_ r) (multipart_form_map_ r) (has_gzip_ r) (is_chunked_ r) (max_header_len_ r) (state_ r) (http_type_ r) (part_data_ r) (multipart_headers_ r) (last_multpart_key_ r) (utf8_character_params_ r) (range_start_pos_ r) (is_range_resource_ r) (static_resource_file_size_ r) (aspect_data_ r) (m_user_id r).
Definition put_url_len (v : nat) (r : request) : request :=
  mk_request (buf_ r) (headers_ r) (method_ r) (method_len_ r) (url_ r) v (minor_version_ r) (header_len_ r) (body_len_ r) (raw_url_ r) (method_str_ r) (url_str_ r) (cookie_str_ r) (copy_headers_ r) (cur_size_ r) (left_body_len_ r) (last_len_ r) (queries_ r) (form_url_map_ r) (multipart_form_map_ r) (has_gzip_ r) (is_chunked_ r) (max_header_len_ r) (state_ r) (http_type_ r) (part_data_ r) (multipart_headers_ r) (last_multpart_key_ r) (utf8_character_params_ r) (range_start_pos_ r) (is_range_resource_ r) (static_resource_file_size_ r) (aspect_data_ r) (m_user_id r).
Definition put_minor_version (v : Z) (r : request) : request :=
  mk_request (buf_ r) (headers_ r) (method_ r) (method_len_ r) (url_ r) (url_len_ r) v (header_len_ r) (body_len_ r) (raw_url_ r) (method_str_ r) (url_str_ r) (cookie_str_ r) (copy_headers_ r) (cur_size_ r) (left_body_len_ r) (last_len_ r) (queries_ r) (form_url_map_ r) (multipart_form_map_ r) (has_gzip_ r) (is_chunked_ r) (max_header_len_ r) (state_ r) (http_type_ r) (part_data_ r) (multipart_headers_ r) (last_multpart_key_ r) (utf8_character_params_ r) (range_start_pos_ r) (is_range_resource_ r) (static_resource_file_size_ r) (aspect_data_ r) (m_user_id r).
Definition put_header_len (v : Z) (r : request) : request :=
  mk_request (buf_ r) (headers_ r) (method_ r) (method_len_ r) (url_ r) (url_len_ r) (minor_version_ r) v (body_len_ r) (raw_url_ r) (method_str_ r) (url_str_ r) (cookie_str_ r) (copy_headers_ r) (cur_size_ r) (left_body_len_ r) (last_len_ r) (queries_ r) (form_url_map_ r) (multipart_form_map_ r) (has_gzip_ r) (is_chunked_ r) (max_header_len_ r) (state_ r) (http_type_ r) (part_data_ r) (multipart_headers_ r) (last_multpart_key_ r) (utf8_character_params_ r) (range_start_pos_ r) (is_range_resource_ r) (static_resource_file_size_ r) (aspect_data_ r) (m_user_id r).
Definition put_body_len (v : Z) (r : request) : request :=
  mk_request (buf_ r) (headers_ r) (method_ r) (method_len_ r) (url_ r) (url_len_ r) (minor_version_ r) (header_len_ r) v (raw_url_ r) (method_str_ r) (url_str_ r) (cookie_str_ r) (copy_headers_ r) (cur_size_ r) (left_body_len_ r) (last_len_ r) (queries_ r) (form_url_map_ r) (multipart_form_map_ r) (has_gzip_ r) (is_chunked_ r) (max_header_len_ r) (state_ r) (http_type_ r) (part_data_ r) (multipart_headers_ r) (last_multpart_key_ r) (utf8_character_params_ r) (range_start_pos_ r) (is_range_resource_ r) (static_resource_file_size_ r) (aspect_data_ r) (m_user_id r).
Definition put_raw_url (v : bytes) (r : request) : request :=
  mk_request (buf_ r) (headers_ r) (method_ r) (method_len_ r) (url_ r) (url_len_ r) (minor_version_ r) (header_len_ r) (body_len_ r) v (method_str_ r) (url_str_ r) (cookie_str_ r) (copy_headers_ r) (cur_size_ r) (left_body_len_ r) (last_len_ r) (queries_ r) (form_url_map_ r) (multipart_form_map_ r) (has_gzip_ r) (is_chunked_ r) (max_header_len_ r) (state_ r) (http_type_ r) (part_data_ r) (multipart_headers_ r) (last_multpart_key_ r) (utf8_character_params_ r) (range_start_pos_ r) (is_range_resource_ r) (static_resource_file_size_ r) (aspect_data_ r) (m_user_id r).
Definition put_method_str (v : bytes) (r : request) : request :=
  mk_request (buf_ r) (headers_ r) (method_ r) (method_len_ r) (url_ r) (url_len_ r) (minor_version_ r) (header_len_ r) (body_len_ r) (raw_url_ r) v (url_str_ r) (cookie_str_ r) (copy_headers_ r) (cur_size_ r) (left_body_len_ r) (last_len_ r) (queries_ r) (form_url_map_ r) (multipart_form_map_ r) (has_gzip_ r) (is_chunked_ r) (max_header_len_ r) (state_ r) (http_type_ r) (part_data_ r) (multipart_headers_ r) (last_multpart_key_ r) (utf8_character_params_ r) (range_start_pos_ r) (is_range_resource_ r) (static_resource_file_size_ r) (aspect_data_ r) (m_user_id r).
Definition put_url_str (v : bytes) (r : request) : request :=
  mk_request (buf_ r) (headers_ r) (method_ r) (method_len_ r) (url_ r) (url_len_ r) (minor_version_ r) (header_len_ r) (body_len_ r) (raw_url_ r) (method_str_ r) v (cookie_str_ r) (copy_headers_ r) (cur_size_ r) (left_body_len_ r) (last_len_ r) (queries_ r) (form_url_map_ r) (multipart_form_map_ r) (has_gzip_ r) (is_chunked_ r) (max_header_len_ r) (state_ r) (http_type_ r) (part_data_ r) (multipart_headers_ r) (last_multpart_key_ r) (utf8_character_params_ r) (range_start_pos_ r) (is_range_resource_ r) (static_resource_file_size_ r) (aspect_data_ r) (m_user_id r).
Definition put_cookie_str (v : bytes) (r : request) : request :=
  mk_request (buf_ r) (headers_ r) (method_ r) (method_len_ r) (url_ r) (url_len_ r) (minor_version_ r) (header_len_ r) (body_len_ r) (raw_url_ r) (method_str_ r) (url_str_ r) v (copy_headers_ r) (cur_size_ r) (left_body_len_ r) (last_len_ r) (queries_ r) (form_url_map_ r) (multipart_form_map_ r) (has_gzip_ r) (is_chunked_ r) (max_header_len_ r) (state_ r) (http_type_ r) (part_data_ r) (multipart_headers_ r) (last_multpart_key_ r) (utf8_character_params_ r) (range_start_pos_ r) (is_range_resource_ r) (static_resource_file_size_ r) (aspect_data_ r) (m_user_id r).
Definition put_copy_headers (v : list (bytes * bytes)) (r : request) : request :=
  mk_request (buf_ r) (headers_ r) (method_ r) (method_len_ r) (url_ r) (url_len_ r) (minor_version_ r) (header_len_ r) (body_len_ r) (raw_url_ r) (method_str_ r) (url_str_ r) (cookie_str_ r) v (cur_size_ r) (left_body_len_ r) (last_len_ r) (queries_ r) (form_url_map_ r) (multipart_form_map_ r) (has_gzip_ r) (is_chunked_ r) (max_header_len_ r) (state_ r) (http_type_ r) (part_data_ r) (multipart_headers_ r) (last_multpart_key_ r) (utf8_character_params_ r) (range_start_pos_ r) (is_range_resource_ r) (static_resource_file_size_ r) (aspect_data_ r) (m_user_id r).
Definition put_cur_size (v : Z) (r : request) : request :=
  mk_request (buf_ r) (headers_ r) (method_ r) (method_len_ r) (url_ r) (url_len_ r) (minor_version_ r) (header_len_ r) (body_len_ r) (raw_url_ r) (method_str_ r) (url_str_ r) (cookie_str_ r) (copy_headers_ r) v (left_body_len_ r) (last_len_ r) (queries_ r) (form_url_map_ r) (multipart_form_map_ r) (has_gzip_ r) (is_chunked_ r) (max_header_len_ r) (state_ r) (http_type_ r) (part_data_ r) (multipart_headers_ r) (last_multpart_key_ r) (utf8_character_params_ r) (range_start_pos_ r) (is_range_resource_ r) (static_resource_file_size_ r) (aspect_data_ r) (m_user_id r).
Definition put_left_body_len (v : Z) (r : request) : request :=
  mk_request (buf_ r) (headers_ r) (method_ r) (method_len_ r) (url_ r) (url_len_ r) (minor_version_ r) (header_len_ r) (body_len_ r) (raw_url_ r) (method_str_ r) (url_str_ r) (cookie_str_ r) (copy_headers_ r) (cur_size_ r) v (last_len_ r) (queries_ r) (form_url_map_ r) (multipart_form_map_ r) (has_gzip_ r) (is_chunked_ r) (max_header_len_ r) (state_ r) (http_type_ r) (part_data_ r) (multipart_headers_ r) (last_multpart_key_ r) (utf8_character_params_ r) (range_start_pos_ r) (is_range_resource_ r) (static_resource_file_size_ r) (aspect_data_ r) (m_user_id r).
Definition put_last_len (v : Z) (r : request) : request :=
  mk_request (buf_ r) (headers_ r) (method_ r) (method_len_ r) (url_ r) (url_len_ r) (minor_version_ r) (header_len_ r) (body_len_ r) (raw_url_ r) (method_str_ r) (url_str_ r) (cookie_str_ r) (copy_headers_ r) (cur_size_ r) (left_body_len_ r) v (queries_ r) (form_url_map_ r) (multipart_form_map_ r) (has_gzip_ r) (is_chunked_ r) (max_header_len_ r) (state_ r) (http_type_ r) (part_data_ r) (multipart_headers_ r) (last_multpart_key_ r) (utf8_character_params_ r) (range_start_pos_ r) (is_range_resource_ r) (static_resource_file_size_ r) (aspect_data_ r) (m_user_id r).
Definition put_queries (v : smap) (r : request) : request :=
  mk_request (buf_ r) (headers_ r) (method_ r) (method_len_ r) (url_ r) (url_len_ r) (minor_version_ r) (header_len_ r) (body_len_ r) (raw_url_ r) (method_str_ r) (url_str_ r) (cookie_str_ r) (copy_headers_ r) (cur_size_ r) (left_body_len_ r) (last_len_ r) v (form_url_map_ r) (multipart_form_map_ r) (has_gzip_ r) (is_chunked_ r) (max_header_len_ r) (state_ r) (http_type_ r) (part_data_ r) (multipart_headers_ r) (last_multpart_key_ r) (utf8_character_params_ r) (range_start_pos_ r) (is_range_resource_ r) (static_resource_file_size_ r) (aspect_data_ r) (m_user_id r).
Definition put_form_url_map (v : smap) (r : request) : request :=
  mk_request (buf_ r) (headers_ r) (method_ r) (method_len_ r) (url_ r) (url_len_ r) (minor_version_ r) (header_len_ r) (body_len_ r) (raw_url_ r) (method_str_ r) (url_str_ r) (cookie_str_ r) (copy_headers_ r) (cur_size_ r) (left_body_len_ r) (last_len_ r) (queries_ r) v (multipart_form_map_ r) (has_gzip_ r) (is_chunked_ r) (max_header_len_ r) (state_ r) (http_type_ r) (part_data_ r) (multipart_headers_ r) (last_multpart_key_ r) (utf8_character_params_ r) (range_start_pos_ r) (is_range_resource_ r) (static_resource_file_size_ r) (aspect_data_ r) (m_user_id r).
Definition put_multipart_form_map (v : smap) (r : request) : request :=
  mk_request (buf_ r) (headers_ r) (method_ r) (method_len_ r) (url_ r) (url_len_ r) (minor_version_ r) (header_len_ r) (body_len_ r) (raw_url_ r) (method_str_ r) (url_str_ r) (cookie_str_ r) (copy_headers_ r) (cur_size_ r) (left_body_len_ r) (last_len_ r) (queries_ r) (form_url_map_ r) v (has_gzip_ r) (is_chunked_ r) (max_header_len_ r) (state_ r) (http_type_ r) (part_data_ r) (multipart_headers_ r) (last_multpart_key_ r) (utf8_character_params_ r) (range_start_pos_ r) (is_range_resource_ r) (static_resource_file_size_ r) (aspect_data_ r) (m_user_id r).
Definition put_has_gzip (v : bool) (r : request) : request :=
  mk_request (buf_ r) (headers_ r) (method_ r) (method_len_ r) (url_ r) (url_len_ r) (minor_version_ r) (header_len_ r) (body_len_ r) (raw_url_ r) (method_str_ r) (url_str_ r) (cookie_str_ r) (copy_headers_ r) (cur_size_ r) (left_body_len_ r) (last_len_ r) (queries_ r) (form_url_map_ r) (multipart_form_map_ r) v (is_chunked_ r) (max_header_len_ r) (state_ r) (http_type_ r) (part_data_ r) (multipart_headers_ r) (last_multpart_key_ r) (utf8_character_params_ r) (range_start_pos_ r) (is_range_resource_ r) (static_resource_file_size_ r) (aspect_data_ r) (m_user_id r).
Definition put_is_chunked (v : bool) (r : request) : request :=
  mk_request (buf_ r) (headers_ r) (method_ r) (method_len_ r) (url_ r) (url_len_ r) (minor_version_ r) (header_len_ r) (body_len_ r) (raw_url_ r) (method_str_ r) (url_str_ r) (cookie_str_ r) (copy_headers_ r) (cur_size_ r) (left_body_len_ r) (last_len_ r) (queries_ r) (form_url_map_ r) (multipart_form_map_ r) (has_gzip_ r) v (max_header_len_ r) (state_ r) (http_type_ r) (part_data_ r) (multipart_headers_ r) (last_multpart_key_ r) (utf8_character_params_ r) (range_start_pos_ r) (is_range_resource_ r) (static_resource_file_size_ r) (aspect_data_ r) (m_user_id r).
Definition put_max_header_len (v : Z) (r : request) : request :=
  mk_request (buf_ r) (headers_ r) (method_ r) (method_len_ r) (url_ r) (url_len_ r) (minor_version_ r) (header_len_ r) (body_len_ r) (raw_url_ r) (method_str_ r) (url_str_ r) (cookie_str_ r) (copy_headers_ r) (cur_size_ r) (left_body_len_ r) (last_len_ r) (queries_ r) (form_url_map_ r) (multipart_form_map_ r) (has_gzip_ r) (is_chunked_ r) v (state_ r) (http_type_ r) (part_data_ r) (multipart_headers_ r) (last_multpart_key_ r) (utf8_character_params_ r) (range_start_pos_ r) (is_range_resource_ r) (static_resource_file_size_ r) (aspect_data_ r) (m_user_id r).
Definition put_state (v : data_proc_state) (r : request) : request :=
  mk_request (buf_ r) (headers_ r) (method_ r) (method_len_ r) (url_ r) (url_len_ r) (minor_version_ r) (header_len_ r) (body_len_ r) (raw_url_ r) (method_str_ r) (url_str_ r) (cookie_str_ r) (copy_headers_ r) (cur_size_ r) (left_body_len_ r) (last_len_ r) (queries_ r) (form_url_map_ r) (multipart_form_map_ r) (has_gzip_ r) (is_chunked_ r) (max_header_len_ r) v (http_type_ r) (part_data_ r) (multipart_headers_ r) (last_multpart_key_ r) (utf8_character_params_ r) (range_start_pos_ r) (is_range_resource_ r) (static_resource_file_size_ r) (aspect_data_ r) (m_user_id r).
Definition put_http_type (v : content_type) (r : request) : request :=
  mk_request (buf_ r) (headers_ r) (method_ r) (method_len_ r) (url_ r) (url_len_ r) (minor_version_ r) (header_len_ r) (body_len_ r) (raw_url_ r) (method_str_ r) (url_str_ r) (cookie_str_ r) (copy_headers_ r) (cur_size_ r) (left_body_len_ r) (last_len_ r) (queries_ r) (form_url_map_ r) (multipart_form_map_ r) (has_gzip_ r) (is_chunked_ r) (max_header_len_ r) (state_ r) v (part_data_ r) (multipart_headers_ r) (last_multpart_key_ r) (utf8_character_params_ r) (range_start_pos_ r) (is_range_resource_ r) (static_resource_file_size_ r) (aspect_data_ r) (m_user_id r).
Definition put_part_data (v : bytes) (r : request) : request :=
  mk_request (buf_ r) (headers_ r) (method_ r) (method_len_ r) (url_ r) (url_len_ r) (minor_version_ r) (header_len_ r) (body_len_ r) (raw_url_ r) (method_str_ r) (url_str_ r) (cookie_str_ r) (copy_headers_ r) (cur_size_ r) (left_body_len_ r) (last_len_ r) (queries_ r) (form_url_map_ r) (multipart_form_map_ r) (has_gzip_ r) (is_chunked_ r) (max_header_len_ r) (state_ r) (http_type_ r) v (multipart_headers_ r) (last_multpart_key_ r) (utf8_character_params_ r) (range_start_pos_ r) (is_range_resource_ r) (static_resource_file_size_ r) (aspect_data_ r) (m_user_id r).
Definition put_multipart_headers (v : list (bytes * bytes)) (r : request) : request :=
  mk_request (buf_ r) (headers_ r) (method_ r) (method_len_ r) (url_ r) (url_len_ r) (minor_version_ r) (header_len_ r) (body_len_ r) (raw_url_ r) (method_str_ r) (url_str_ r) (cookie_str_ r) (copy_headers_ r) (cur_size_ r) (left_body_len_ r) (last_len_ r) (queries_ r) (form_url_map_ r) (multipart_form_map_ r) (has_gzip_ r) (is_chunked_ r) (max_header_len_ r) (state_ r) (http_type_ r) (part_data_ r) v (last_multpart_key_ r) (utf8_character_params_ r) (range_start_pos_ r) (is_range_resource_ r) (static_resource_file_size_ r) (aspect_data_ r) (m_user_id r).
Definition put_last_multpart_key (v : bytes) (r : request) : request :=
  mk_request (buf_ r) (headers_ r) (method_ r) (method_len_ r) (url_ r) (url_len_ r) (minor_version_ r) (header_len_ r) (body_len_ r) (raw_url_ r) (method_str_ r) (url_str_ r) (cookie_str_ r) (copy_headers_ r) (cur_size_ r) (left_body_len_ r) (last_len_ r) (queries_ r) (form_url_map_ r) (multipart_form_map_ r) (has_gzip_ r) (is_chunked_ r) (max_header_len_ r) (state_ r) (http_type_ r) (part_data_ r) (multipart_headers_ r) v (utf8_character_params_ r) (range_start_pos_ r) (is_range_resource_ r) (static_resource_file_size_ r) (aspect_data_ r) (m_user_id r).
Definition put_utf8_character_params (v : smap) (r : request) : request :=
  mk_request (buf_ r) (headers_ r) (method_ r) (method_len_ r) (url_ r) (url_len_ r) (minor_version_ r) (header_len_ r) (body_len_ r) (raw_url_ r) (method_str_ r) (url_str_ r) (cookie_str_ r) (copy_headers_ r) (cur_size_ r) (left_body_len_ r) (last_len_ r) (queries_ r) (form_url_map_ r) (multipart_form_map_ r) (has_gzip_ r) (is_chunked_ r) (max_header_len_ r) (state_ r) (http_type_ r) (part_data_ r) (multipart_headers_ r) (last_multpart_key_ r) v (range_start_pos_ r) (is_range_resource_ r) (static_resource_file_size_ r) (aspect_data_ r) (m_user_id r).
Definition put_range_start_pos (v : Z) (r : request) : request :=
  mk_request (buf_ r) (headers_ r) (method_ r) (method_len_ r) (url_ r) (url_len_ r) (minor_version_ r) (header_len_ r) (body_len_ r) (raw_url_ r) (method_str_ r) (url_str_ r) (cookie_str_ r) (copy_headers_ r) (cur_size_ r) (left_body_len_ r) (last_len_ r) (queries_ r) (form_url_map_ r) (multipart_form_map_ r) (has_gzip_ r) (is_chunked_ r) (max_header_len_ r) (state_ r) (http_type_ r) (part_data_ r) (multipart_headers_ r) (last_multpart_key_ r) (utf8_character_params_ r) v (is_range_resource_ r) (static_resource_file_size_ r) (aspect_data_ r) (m_user_id r).
Definition put_is_range_resource (v : bool) (r : request) : request :=
  mk_request (buf_ r) (headers_ r) (method_ r) (method_len_ r) (url_ r) (url_len_ r) (minor_version_ r) (header_len_ r) (body_len_ r) (raw_url_ r) (method_str_ r) (url_str_ r) (cookie_str_ r) (copy_headers_ r) (cur_size_ r) (left_body_len_ r) (last_len_ r) (queries_ r) (form_url_map_ r) (multipart_form_map_ r) (has_gzip_ r) (is_chunked_ r) (max_header_len_ r) (state_ r) (http_type_ r) (part_data_ r) (multipart_headers_ r) (last_multpart_key_ r) (utf8_character_params_ r) (range_start_pos_ r) v (static_resource_file_size_ r) (aspect_data_ r) (m_user_id r).
Definition put_static_resource_file_size (v : Z) (r : request) : request :=
  mk_request (buf_ r) (headers_ r) (method_ r) (method_len_ r) (url_ r) (url_len_ r) (minor_version_ r) (header_len_ r) (body_len_ r) (raw_url_ r) (method_str_ r) (url_str_ r) (cookie_str_ r) (copy_headers_ r) (cur_size_ r) (left_body_len_ r) (last_len_ r) (queries_ r) (form_url_map_ r) (multipart_form_map_ r) (has_gzip_ r) (is_chunked_ r) (max_header_len_ r) (state_ r) (http_type_ r) (part_data_ r) (multipart_headers_ r) (last_multpart_key_ r) (utf8_character_params_ r) (range_start_pos_ r) (is_range_resource_ r) v (aspect_data_ r) (m_user_id r).
Definition put_aspect_data (v : list bytes) (r : request) : request :=
  mk_request (buf_ r) (headers_ r) (method_ r) (method_len_ r) (url_ r) (url_len_ r) (minor_version_ r) (header_len_ r) (body_len_ r) (raw_url_ r) (method_str_ r) (url_str_ r) (cookie_str_ r) (copy_headers_ r) (cur_size_ r) (left_body_len_ r) (last_len_ r) (queries_ r) (form_url_map_ r) (multipart_form_map_ r) (has_gzip_ r) (is_chunked_ r) (max_header_len_ r) (state_ r) (http_type_ r) (part_data_ r) (multipart_headers_ r) (last_multpart_key_ r) (utf8_character_params_ r) (range_start_pos_ r) (is_range_resource_ r) (static_resource_file_size_ r) v (m_user_id r).
Definition put_m_user_id (v : Z) (r : request) : request :=
  mk_request (buf_ r) (headers_ r) (method_ r) (method_len_ r) (url_ r) (url_len_ r) (minor_version_ r) (header_len_ r) (body_len_ r) (raw_url_ r) (method_str_ r) (url_str_ r) (cookie_str_ r) (copy_headers_ r) (cur_size_ r) (left_body_len_ r) (last_len_ r) (queries_ r) (form_url_map_ r) (multipart_form_map_ r) (has_gzip_ r) (is_chunked_ r) (max_header_len_ r) (state_ r) (http_type_ r) (part_data_ r) (multipart_headers_ r) (last_multpart_key_ r) (utf8_character_params_ r) (range_start_pos_ r) (is_range_resource_ r) (static_resource_file_size_ r) (aspect_data_ r) v.

(** maxRequestSize, 3 MB; headers_ has 32 entries *)
Definition MaxSize : Z := 3 * 1024 * 1024.
Definition max_headers : nat := 32.

Definition new_request : request :=
  mk_request (replicate 1024 0) [] 0 0 0 0 0 0 0 [] [] [] [] [] 0 0 0 ∅ ∅ ∅ false false (1024 * 1024)
    data_begin cty_unknown [] [] [] ∅ 0 false 0 [] 0.

(** ** Sizes *)

Definition set_body_len (len : Z) (r : request) : request :=
  put_left_body_len len (put_body_len len r).
Definition total_len (r : request) : Z := wrap64 (header_len_ r + body_len_ r).
Definition header_len (r : request) : Z := wrap64 (header_len_ r).
Definition body_len (r : request) : Z := body_len_ r.
Definition current_size (r : request) : Z := cur_size_ r.
Definition buf_size (r : request) : Z := Z.of_nat (length (buf_ r)).
Definition has_recieved_all (r : request) : bool := total_len r <=? current_size r.
Definition has_recieved_all_part (r : request) : bool :=
  body_len_ r =? wrap64 (cur_size_ r - header_len_ r).
Definition at_capacity (r : request) : bool := MaxSize <? wrap64 (header_len_ r + body_len_ r).
Definition left_size (r : request) : Z := wrap64 (buf_size r - cur_size_ r).
Definition has_body (r : request) : bool := negb (body_len_ r =? 0) || is_chunked_ r.
Definition is_http11 (r : request) : bool := minor_version_ r =? 1.
Definition left_body_len (r : request) : Z :=
  if buf_size r <? left_body_len_ r then buf_size r else left_body_len_ r.
Definition left_body_size (r : request) : Z := left_body_len r.
Definition body_finished (r : request) : bool := left_body_len_ r =? 0.
Definition reduce_left_body_size (size : Z) (r : request) : request :=
  put_left_body_len (wrap64 (left_body_len_ r - size)) r.

(** ** Headers *)

(** a name or value, read through its pointer *)
Definition header_texts (r : request) : list (bytes * bytes) := header_view (buf_ r) <$> headers_ r.

Definition lookup_header (hs : list (bytes * bytes)) (key : bytes) : bytes :=
  match list_find (fun h => iequal h.1 key = true) hs with
  | Some (_, h) => h.2
  | None => []
  end.
Definition get_header_value (r : request) (key : bytes) : bytes :=
  lookup_header (if bool_decide (copy_headers_ r = []) then header_texts r else copy_headers_ r) key.

Definition get_method (r : request) : bytes :=
  if negb (method_len_ r =? 0)%nat then slice (buf_ r) (method_ r) (method_len_ r) else method_str_ r.
Definition get_url (r : request) : bytes :=
  if negb (method_len_ r =? 0)%nat then slice (buf_ r) (url_ r) (url_len_ r) else url_str_ r.

(** get_multipart_field_name: the value between the first quote after the field
    name and the last quote, of the first header *)
Definition get_multipart_field_name (r : request) (field_name : bytes) : bytes :=
  match multipart_headers_ r with
  | [] => []
  | (_, val) :: _ =>
      match find_str field_name val with
      | None => []
      | Some pos =>
          let start := match find_char 34 (drop pos val) with Some i => (pos + i + 1)%nat | None => 0%nat end in
          match rfind_char 34 val with
          | None => []
          | Some last => if (last <? start)%nat then [] else slice val start (last - start)
          end
      end
  end.

(** copy_method_url_headers *)
Definition copy_method_url_headers (r : request) : request :=
  if (method_len_ r =? 0)%nat then r
  else
    let hs := header_texts r in
    let r := put_method_str (slice (buf_ r) (method_ r) (method_len_ r)) r in
    let r := put_url_str (slice (buf_ r) (url_ r) (url_len_ r)) r in
    let r := put_method_len 0 r in
    let r := put_url_len 0 r in
    let filename := get_multipart_field_name r (bs "filename") in
    let r := put_multipart_headers [] r in
    let r := if bool_decide (filename = []) then r
             else put_copy_headers (copy_headers_ r ++ [(bs "filename", filename)]) r in
    if header_len_ r <? 0 then r else put_copy_headers (copy_headers_ r ++ hs) r.

Definition resize (size : Z) (r : request) : request :=
  let r := copy_method_url_headers r in
  put_buf (take (Z.to_nat size) (buf_ r) ++ replicate (Z.to_nat size - length (buf_ r)) 0) r.
Definition resize_double (r : request) : request := resize (2 * buf_size r) r.

Definition update_size (size : Z) (r : request) : request * bool :=
  let r := put_cur_size (wrap64 (cur_size_ r + size)) r in
  (r, MaxSize <? cur_size_ r).
Definition update_and_expand_size (size : Z) (r : request) : request * bool :=
  let '(r, full) := update_size size r in
  if (full : bool) then (r, true)
  else (if buf_size r <=? cur_size_ r then resize_double r else r, false).

(** fit_size and expand_size *)
Definition grow_to (total : Z) (r : request) : request :=
  if buf_size r =? MaxSize then r
  else if total <? MaxSize then if buf_size r <? total then resize total r else r
  else resize MaxSize r.
Definition fit_size (r : request) : request := grow_to (left_body_len_ r) r.
Definition expand_size (r : request) : request := grow_to (total_len r) r.

Definition set_current_size (size : Z) (r : request) : request :=
  let r := put_cur_size size r in
  if size =? 0 then copy_method_url_headers r else r.

(** the body, read at [header_len_]; outside the buffer is undefined *)
Definition body (r : request) : option bytes :=
  if (0 <=? header_len_ r) && (header_len_ r + body_len_ r <=? buf_size r)
  then Some (slice (buf_ r) (Z.to_nat (header_len_ r)) (Z.to_nat (body_len_ r))) else None.

Definition check_gzip (r : request) : request :=
  let encoding := get_header_value r (bs "content-encoding") in
  put_has_gzip (if bool_decide (encoding = []) then false
                else match find_str (bs "gzip") encoding with Some _ => true | None => false end) r.

(** ** Queries *)

(** the loop of parse_query: the position, the key, the entries so far *)
Fixpoint query_loop (str : bytes) (i pos : nat) (rest : bytes) (key : bytes) (query : smap)
  : nat * bytes * smap :=
  match rest with
  | [] => (pos, key, query)
  | c :: rest =>
      if c =? 61 then query_loop str (S i) (S i) rest (trim (slice str pos (i - pos))) query
      else if c =? 38 then query_loop str (S i) (S i) rest key (emplace key (trim (slice str pos (i - pos))) query)
      else query_loop str (S i) pos rest key query
  end.

Definition parse_query (str : bytes) : smap :=
  let '(pos, key, query) := query_loop str 0 0 str [] ∅ in
  if (pos =? 0)%nat then ∅
  else if (0 <? length str - pos)%nat then emplace key (trim (slice str pos (length str - pos))) query
  else emplace key [] query.

Definition parse_form_urlencoded (r : request) : option (request * bool) :=
  let r := put_form_url_map ∅ r in
  b ← body r;
  let r := put_form_url_map (parse_query b) r in
  Some (r, negb (bool_decide (form_url_map_ r = ∅))).

(** get_query_value(key): decoded values are cached under the url and the key *)
Definition get_query_value (r : request) (key : bytes) : request * bytes :=
  let url := get_url r in
  let url := match last url with
             | Some 47 => if (1 <? length url)%nat then take (length url - 1) url else url
             | _ => url
             end in
  let map_key := url ++ key in
  let decode v :=
    if is_url_encode v then
      let m := emplace map_key (get_string_by_urldecode v) (utf8_character_params_ r) in
      (put_utf8_character_params m r, default [] (m !! map_key))
    else (r, v) in
  match queries_ r !! key with
  | Some v => decode v
  | None =>
      match form_url_map_ r !! key with
      | Some v => decode v
      | None => (r, [])
      end
  end.

(** ** parse_header *)

(** the Content-Length is read from the start of its value on *)
Definition content_length_at (r : request) : option nat :=
  match list_find (fun h => iequal (header_view (buf_ r) h).1 (bs "content-length") = true) (headers_ r) with
  | Some (_, h) => Some (value h)
  | None => None
  end.

(** the out parameters of phr_parse_request *)
Definition store_parsed (o : req_out) (ret : Z) (r : request) : request :=
  let r := put_headers (PicoHttp.headers o) r in
  let r := put_minor_version (PicoHttp.minor_version o) r in
  let r := put_method (from_option fst 0%nat (PicoHttp.method o)) r in
  let r := put_method_len (from_option snd 0%nat (PicoHttp.method o)) r in
  let r := put_url (from_option fst 0%nat (PicoHttp.path o)) r in
  let r := put_url_len (from_option snd 0%nat (PicoHttp.path o)) r in
  put_header_len ret r.

Definition parse_length (r : request) : request :=
  if bool_decide (get_header_value r (bs "content-length") = []) then
    put_body_len 0
      (put_is_chunked (is_chunked_ r || bool_decide (get_header_value r (bs "transfer-encoding") = bs "chunked")) r)
  else
    match content_length_at r with
    | Some p => set_body_len (wrap64 (atoll (drop p (buf_ r)))) r
    | None => r
    end.

Definition parse_cookie (r : request) : request :=
  let cookie := get_header_value r (bs "cookie") in
  put_cookie_str (if bool_decide (cookie = []) then cookie_str_ r else cookie) r.

(** the url without its query; false if it has no slash *)
Definition parse_url (r : request) : request * bool :=
  let r := put_raw_url (slice (buf_ r) (url_ r) (url_len_ r)) r in
  match find_char 47 (raw_url_ r), find_char 63 (raw_url_ r) with
  | None, _ => (r, false)
  | Some _, Some pos => (put_url_len pos (put_queries (parse_query (drop (pos + 1) (raw_url_ r))) r), true)
  | Some _, None => (r, true)
  end.

Definition parse_header (sse : bool) (check : request -> bool) (last_len : nat) (r : request)
  : option (request * Z) :=
  let r := put_copy_headers [] r in
  let '(o, ret) := phr_parse_request sse (take (Z.to_nat (cur_size_ r)) (buf_ r)) max_headers last_len in
  ret ← ret;
  let r := store_parsed o ret r in
  if max_header_len_ r <? cur_size_ r then Some (r, -1)
  else if ret <? 0 then Some (r, ret)
  else if negb (check r) then Some (r, -1)
  else
    let r := check_gzip r in
    let r := parse_length r in
    let r := parse_cookie r in
    let '(r, found) := parse_url r in
    Some (r, if (found : bool) then ret else -1).

(** ** Multipart fields *)

(** map insertion and assignment on the entries in key order *)
Fixpoint bytes_lt (a b : bytes) : bool :=
  match a, b with
  | [], [] => false
  | [], _ :: _ => true
  | _ :: _, [] => false
  | x :: a, y :: b => if x <? y then true else if y <? x then false else bytes_lt a b
  end.
Fixpoint assign (k v : bytes) (l : list (bytes * bytes)) : list (bytes * bytes) :=
  match l with
  | [] => [(k, v)]
  | (k', v') :: l =>
      if bytes_lt k k' then (k, v) :: (k', v') :: l
      else if bytes_lt k' k then (k', v') :: assign k v l
      else (k, v) :: l
  end.

Definition set_multipart_headers (headers : list (bytes * bytes)) (r : request) : request :=
  put_multipart_headers (fold_left (fun m p => assign p.1 p.2 m) headers (multipart_headers_ r)) r.

Definition save_multipart_key_value (key value : bytes) (r : request) : request :=
  if bool_decide (key = []) then r
  else put_multipart_form_map (emplace key value (multipart_form_map_ r)) r.

Definition update_multipart_value (key data : bytes) (r : request) : request :=
  let '(key, r) := if bool_decide (key = []) then (last_multpart_key_ r, r)
                   else (key, put_last_multpart_key key r) in
  match multipart_form_map_ r !! key with
  | Some v => put_multipart_form_map (<[key := v ++ data]> (multipart_form_map_ r)) r
  | None => r
  end.

(** operator[] inserts an empty value *)
Definition get_multipart_value_by_key (key : bytes) (r : request) : request * bytes :=
  if bool_decide (key = []) then (r, [])
  else (put_multipart_form_map (emplace key [] (multipart_form_map_ r)) r,
        default [] (multipart_form_map_ r !! key)).

Definition handle_multipart_key_value (r : request) : request :=
  put_form_url_map (form_url_map_ r ∪ multipart_form_map_ r) r.

Definition multipart_header (r : request) (k : bytes) : option bytes :=
  match list_find (fun h => h.1 = k) (multipart_headers_ r) with
  | Some (_, h) => Some h.2
  | None => None
  end.
Definition is_multipart_file (r : request) : bool :=
  match multipart_headers_ r with
  | [] => false
  | _ =>
      let has_content_type := bool_decide (is_Some (multipart_header r (bs "Content-Type"))) in
      match multipart_header r (bs "Content-Disposition") with
      | Some v => match find_str (bs "filename") v with Some _ => true | None => false end
      | None => has_content_type
      end
  end.

(** ** The rest *)

Definition get_res_path (r : request) : option bytes :=
  match get_url r with [] => None | _ :: s => Some s end.
Definition get_relative_filename (r : request) : bytes :=
  let file_name := get_url r in
  if is_form_url_encode file_name then get_string_by_urldecode file_name else file_name.
Definition get_filename_from_path (r : request) : option bytes :=
  file_name ← get_res_path r;
  Some (if is_form_url_encode file_name then get_string_by_urldecode file_name else file_name).

Definition get_cookies (r : request) : smap := get_cookies_map (cookie_str_ r).

Fixpoint until_semicolon (s : bytes) : bytes :=
  match s with
  | [] => []
  | c :: s => if c =? 59 then [] else c :: until_semicolon s
  end.
Definition get_cookie_value (r : request) : bytes :=
  match find_str (bs "CSESSIONID=") (cookie_str_ r) with
  | None => []
  | Some pos => until_semicolon (drop (pos + 11) (cookie_str_ r))
  end.

Definition set_range_flag (flag : bool) (r : request) : request := put_is_range_resource flag r.

(** the digits after the equals sign, up to the dash or further: [atoll] reads
    the memory from the start of pos_str on, [after] is what follows the header *)
Definition set_range_start_pos (range_header after : bytes) (r : request) : request :=
  if is_range_resource_ r then
    let l := match find_char 61 range_header with Some i => S i | None => 0%nat end in
    put_range_start_pos (atoll (drop l range_header ++ after)) r
  else r.
Definition get_range_start_pos (r : request) : Z := if is_range_resource_ r then range_start_pos_ r else 0.

Definition reset_request (r : request) : request :=
  let r := put_cur_size 0 r in
  let r := put_is_chunked false r in
  let r := put_state data_begin r in
  let r := put_part_data [] r in
  let r := put_utf8_character_params ∅ r in
  let r := put_queries ∅ r in
  let r := put_cookie_str [] r in
  let r := put_form_url_map ∅ r in
  let r := put_multipart_form_map ∅ r in
  let r := put_is_range_resource false r in
  let r := put_range_start_pos 0 r in
  let r := put_static_resource_file_size 0 r in
  let r := put_last_len 0 r in
  put_copy_headers [] r.

(** ** Reading a printed query back *)

Definition print_pair (p : bytes * bytes) : bytes := p.1 ++ 61 :: p.2.
Fixpoint print_query (qs : list (bytes * bytes)) : bytes :=
  match qs with
  | [] => []
  | [p] => print_pair p
  | p :: qs => print_pair p ++ 38 :: print_query qs
  end.

(** keys and values without separators and without surrounding blanks *)
Definition query_ok (p : bytes * bytes) : Prop :=
  (61 ∉ p.1) /\ (38 ∉ p.1) /\ (61 ∉ p.2) /\ (38 ∉ p.2) /\ trim p.1 = p.1 /\ trim p.2 = p.2.

#[export] Instance query_ok_dec p : Decision (query_ok p).
Proof. unfold query_ok; apply _. Defined.

Lemma query_loop_plain str i pos s rest key q :
  61 ∉ s -> 38 ∉ s ->
  query_loop str i pos (s ++ rest) key q = query_loop str (i + length s) pos rest key q.
Proof.
  revert i; induction s as [|c s IH]; intros i H1 H2; cbn [app length query_loop].
  { by rewrite Nat.add_0_r. }
  apply not_elem_of_cons in H1 as [N1 H1], H2 as [N2 H2].
  rewrite (proj2 (Z.eqb_neq c 61)), (proj2 (Z.eqb_neq c 38)) by congruence.
  rewrite IH by done. by rewrite Nat.add_succ_comm.
Qed.

(** up to the value of a pair *)
Lemma query_loop_key pre k rest key q :
  61 ∉ k -> 38 ∉ k -> trim k = k ->
  query_loop (pre ++ k ++ 61 :: rest) (length pre) (length pre) (k ++ 61 :: rest) key q =
  query_loop (pre ++ k ++ 61 :: rest) (length (pre ++ k ++ [61])) (length (pre ++ k ++ [61])) rest k q.
Proof.
  intros H1 H2 Ht. rewrite query_loop_plain by done. cbn [query_loop]. rewrite Z.eqb_refl.
  replace (length pre + length k - length pre)%nat with (length k) by lia.
  rewrite slice_app_exact, Ht, !length_app. cbn [length].
  by replace (S (length pre + length k)) with (length pre + (length k + 1))%nat by lia.
Qed.

Lemma query_loop_pair pre p rest key q :
  query_ok p ->
  query_loop (pre ++ print_pair p ++ 38 :: rest) (length pre) (length pre) (print_pair p ++ 38 :: rest) key q =
  query_loop (pre ++ print_pair p ++ 38 :: rest) (length (pre ++ print_pair p ++ [38]))
    (length (pre ++ print_pair p ++ [38])) rest p.1 (emplace p.1 p.2 q).
Proof.
  destruct p as [k v]. intros (H1 & H2 & H3 & H4 & H5 & H6). unfold print_pair. cbn [fst snd] in *.
  rewrite <-!app_assoc. cbn [app]. rewrite query_loop_key, query_loop_plain by done.
  cbn [query_loop]. change (38 =? 61) with false. rewrite Z.eqb_refl.
  replace (length (pre ++ k ++ [61%Z]) + length v - length (pre ++ k ++ [61%Z]))%nat with (length v) by lia.
  assert (slice (pre ++ k ++ 61 :: v ++ 38 :: rest) (length (pre ++ k ++ [61])) (length v) = v) as ->.
  { etransitivity; [|apply (slice_app_exact (pre ++ k ++ [61]) v (38 :: rest))]. f_equal.
    by rewrite <-!app_assoc. }
  rewrite H6. replace (S (length (pre ++ k ++ [61]) + length v)) with (length (pre ++ k ++ 61 :: v ++ [38])).
  - done.
  - rewrite !length_app. cbn [length]. rewrite length_app. cbn. lia.
Qed.

Lemma foldl_emplace (qs : list (bytes * bytes)) (m : smap) :
  fold_left (fun m p => emplace p.1 p.2 m) qs m = m ∪ list_to_map qs.
Proof.
  revert m; induction qs as [|[k v] qs IH]; intros m; cbn.
  { by rewrite map_union_empty. }
  rewrite IH. apply map_eq. intros x. unfold emplace. destruct (m !! k) as [w|] eqn:Em.
  - rewrite !lookup_union. destruct (decide (x = k)) as [->|N]; [by rewrite Em; destruct (list_to_map _ !! k), (<[k:=v]> _ !! k)|].
    by rewrite lookup_insert_ne.
  - rewrite !lookup_union. destruct (decide (x = k)) as [->|N].
    + rewrite Em, !lookup_insert_eq. by destruct (list_to_map qs !! k).
    + by rewrite !lookup_insert_ne.
Qed.

Lemma parse_query_loop pre qs p key q :
  Forall query_ok (p :: qs) ->
  exists k, query_loop (pre ++ print_query (p :: qs)) (length pre) (length pre) (print_query (p :: qs)) key q =
  (length (pre ++ print_query (p :: qs)) - length (from_option snd [] (last (p :: qs))),
   k, fold_left (fun m p => emplace p.1 p.2 m) (removelast (p :: qs)) q)%nat /\
  last (p :: qs) = Some (k, from_option snd [] (last (p :: qs))).
Proof.
  revert pre p key q; induction qs as [|p' qs IH]; intros pre [k v] key q Hok.
  - apply Forall_cons in Hok as [(H1 & H2 & H3 & H4 & H5 & H6) _]. exists k. cbn [print_query last removelast fold_left].
    split; [|done]. unfold print_pair. cbn [fst snd from_option] in *. rewrite query_loop_key by done.
    pose proof (query_loop_plain (pre ++ k ++ 61 :: v) (length (pre ++ k ++ [61])) (length (pre ++ k ++ [61])) v []
      k q H3 H4) as Hv. rewrite app_nil_r in Hv. rewrite Hv. cbn [query_loop]. do 2 f_equal.
    rewrite !length_app. cbn [length]. lia.
  - apply Forall_cons in Hok as [Hp Hok]. cbn [print_query].
    rewrite query_loop_pair by done.
    destruct (IH (pre ++ print_pair (k, v) ++ [38]) p' k (emplace k v q) Hok) as (k' & Hl & Hlast).
    exists k'. split; [|exact Hlast].
    assert (pre ++ print_pair (k, v) ++ 38 :: print_query (p' :: qs) =
      (pre ++ print_pair (k, v) ++ [38]) ++ print_query (p' :: qs)) as Heq by (by rewrite <-!app_assoc).
    change (print_query (p' :: qs)) with (match qs with [] => print_pair p' | _ => print_pair p' ++ 38 :: print_query qs end) in *.
    rewrite Heq. exact Hl.
Qed.

Lemma print_query_suffix qs p k v :
  last (p :: qs) = Some (k, v) -> exists pre, print_query (p :: qs) = pre ++ v /\ pre <> [].
Proof.
  revert p; induction qs as [|p' qs IH]; intros p Hl.
  - injection Hl as ->. exists (k ++ [61]). unfold print_query, print_pair. rewrite <-app_assoc.
    split; [done|by destruct k].
  - destruct (IH p') as (pre & Hpre & _); [exact Hl|].
    exists (print_pair p ++ 38 :: pre). cbn [print_query]. split; [|by destruct (print_pair p)].
    rewrite <-app_assoc. cbn [app]. f_equal. f_equal. exact Hpre.
Qed.

Lemma last_split {A} (l : list A) x : last l = Some x -> l = removelast l ++ [x].
Proof.
  induction l as [|a [|b l] IH]; [done|by intros [= ->]|]. intros H. cbn [removelast]. cbn in IH |- *.
  f_equal. by apply IH.
Qed.

Lemma parse_query_pairs qs : Forall query_ok qs -> parse_query (print_query qs) = list_to_map qs.
Proof.
  intros Hok. destruct qs as [|p qs]; [done|]. unfold parse_query.
  destruct (parse_query_loop [] qs p [] ∅ Hok) as (k & Hl & Hlast). cbn [app length] in Hl. rewrite Hl.
  set (v := from_option snd [] (last (p :: qs))) in *.
  assert (query_ok (k, v)) as (_ & _ & _ & _ & _ & Htrim).
  { rewrite Forall_forall in Hok. apply Hok. rewrite (last_split _ _ Hlast). apply elem_of_app. right. by left. }
  cbn [snd] in Htrim. destruct (print_query_suffix qs p k v Hlast) as (pre & Hpre & Hne).
  rewrite Hpre. rewrite length_app. assert (0 < length pre)%nat by (destruct pre; [done|cbn; lia]).
  replace (length pre + length v - length v)%nat with (length pre) by lia.
  rewrite (proj2 (Nat.eqb_neq _ _)) by lia.
  replace (length pre + length v - length pre)%nat with (length v) by lia.
  assert (slice (pre ++ v) (length pre) (length v) = v) as ->.
  { rewrite <-(app_nil_r v) at 1. apply slice_app_exact. }
  rewrite Htrim.
  assert ((if (0 <? length v)%nat then emplace k v else emplace k []) = emplace k v) as Hv.
  { destruct v; [done|]. by cbn. }
  transitivity ((if (0 <? length v)%nat then emplace k v else emplace k [])
    (fold_left (fun m p => emplace p.1 p.2 m) (removelast (p :: qs)) ∅)); [by destruct (0 <? length v)%nat|].
  rewrite Hv. rewrite (last_split _ _ Hlast) at 2. rewrite <-(map_empty_union (list_to_map _)), <-foldl_emplace, fold_left_app.
  done.
Qed.

(** parse_query inverts printing: from keys and values without separators and
    surrounding blanks, written key=value and joined by ampersands, it recovers
    the map; of several values of a key the first one counts. *)
Theorem parse_query_print qs : Forall query_ok qs -> parse_query (print_query qs) = list_to_map qs.
Proof. apply parse_query_pairs. Qed.

Lemma parse_query_print_witness :
  parse_query (print_query [(bs "a", bs "1"); (bs "b", []); (bs "a", bs "2")]) =
  list_to_map [(bs "a", bs "1"); (bs "b", []); (bs "a", bs "2")].
Proof. apply parse_query_print. apply (bool_decide_unpack _). vm_compute. exact I. Defined.

(** ** Reading a printed request back *)

Lemma phr_parse_print sse mh m u v hs content :
  token_ok m -> m <> [] -> token_ok u -> 0 <= v <= 9 -> Forall raw_ok hs -> (length hs <= mh)%nat ->
  Forall is_byte (print_request m u v hs ++ content) ->
  phr_parse_request sse (print_request m u v hs ++ content) mh 0 =
  (mk_req_out (Some (0, length m)) (Some (length m + 1, length u)) v
     (printed_headers (length m + length u + 12) hs),
   Some (to_int32 (Z.of_nat (length (print_request m u v hs)))))%nat.
Proof.
  intros Hm Hne Hu Hv Hhs Hlen Hb.
  assert (phr_parse_request sse (print_request m u v hs ++ content) mh 0 =
    phr_parse_request false (print_request m u v hs ++ content) mh 0) as ->
    by (destruct sse; [by apply phr_parse_request_sse|done]).
  unfold phr_parse_request. rewrite advance_ptr_Ok, drop_0 by lia. cbn [Nat.eqb Nat.add].
  rewrite parse_request_print by done. cbn [phr_ret]. do 3 f_equal. lia.
Qed.

(** a proper prefix of a printed request is incomplete *)
Lemma phr_parse_prefix sse mh m u v hs p q :
  token_ok m -> m <> [] -> token_ok u -> 0 <= v <= 9 -> Forall raw_ok hs -> (length hs <= mh)%nat ->
  print_request m u v hs = p ++ q -> q <> [] -> Forall is_byte (print_request m u v hs) ->
  Z.of_nat (length (print_request m u v hs)) < 2 ^ 31 ->
  (phr_parse_request sse p mh 0).2 = Some (-2).
Proof.
  intros Hm Hne Hu Hv Hhs Hlen Heq Hq Hby H31.
  assert (Forall is_byte p) as Hp by (rewrite Heq in Hby; by apply Forall_app in Hby as [? _]).
  destruct (phr_parse_request_safe false p mh 0 Hp ltac:(lia)) as (r & Hr & Hrange & _).
  assert (phr_parse_request sse p mh 0 = phr_parse_request false p mh 0) as ->
    by (destruct sse; [by apply phr_parse_request_sse|done]).
  destruct (decide (r = -2)) as [->|Hn]; [done|].
  pose proof (phr_parse_request_stable p q mh 0 r ltac:(lia) Hr Hn) as Hs. rewrite <-Heq in Hs.
  pose proof (phr_parse_print false mh m u v hs [] Hm Hne Hu Hv Hhs Hlen) as Hpr.
  rewrite app_nil_r in Hpr. rewrite Hpr in Hs by done. rewrite <-Hs in Hr. injection Hr as <-.
  rewrite Heq, length_app in Hrange, H31. assert (0 < length q)%nat by (destruct q; [done|cbn; lia]).
  rewrite to_int32_small in Hrange by lia. destruct Hrange as [?|[?|(n & En & Hn0)]]; [lia|lia|].
  rewrite to_int32_small in En; lia.
Qed.

(** what a header's value pointer points at *)
Lemma printed_headers_at pre hs post i h :
  printed_headers (length pre) hs !! i = Some h -> exists f rest, hs !! i = Some f /\
  drop (value h) (pre ++ concat (raw_field <$> hs) ++ post) = f.2 ++ CRLF ++ rest.
Proof.
  revert pre i; induction hs as [|[[n ws] v] hs IH]; intros pre i Hi; [done|].
  destruct i as [|i]; cbn in Hi.
  - injection Hi as <-. exists (n, ws, v), (concat (raw_field <$> hs) ++ post). split; [done|].
    cbn [value]. rewrite fmap_cons. cbn [concat]. unfold raw_field at 1. cbn [fst snd].
    replace (length pre + length n + 1 + length ws)%nat with (length (pre ++ n ++ 58%Z :: ws))
      by (rewrite !length_app; cbn [length]; lia).
    rewrite <-(drop_app_length (pre ++ n ++ 58 :: ws) (v ++ CRLF ++ concat (raw_field <$> hs) ++ post)). f_equal.
    rewrite <-!app_assoc. cbn [app]. by rewrite <-!app_assoc.
  - rewrite <-length_app in Hi. destruct (IH _ _ Hi) as (f & rest & Hf & Hd). exists f, rest. split; [done|].
    rewrite <-Hd. rewrite fmap_cons. cbn [concat].
    f_equal. unfold raw_field at 1. cbn [fst snd]. by rewrite <-!app_assoc.
Qed.

Lemma lookup_header_find (f : phr_header -> bytes * bytes) (hs : list phr_header) key :
  lookup_header (f <$> hs) key =
  match list_find (fun h => iequal (f h).1 key = true) hs with Some (_, h) => (f h).2 | None => [] end.
Proof.
  unfold lookup_header. rewrite list_find_fmap.
  change ((fun h : bytes * bytes => iequal h.1 key = true) ∘ f) with (fun h => iequal (f h).1 key = true).
  by destruct (list_find _ hs) as [[i h]|].
Qed.

(** a request as a client writes it: the fields with the blanks behind the colon *)
Record message := mk_message {
  msg_method : bytes; msg_path : bytes; msg_query : option (list (bytes * bytes)); msg_version : Z;
  msg_raw : list (bytes * bytes * bytes); msg_length : option Z; msg_content : bytes
}.

Definition msg_fields (x : message) : list (bytes * bytes) := field_of <$> msg_raw x.
Definition msg_target (x : message) : bytes :=
  msg_path x ++ match msg_query x with Some qs => 63 :: print_query qs | None => [] end.
Definition msg_head (x : message) : bytes :=
  print_request (msg_method x) (msg_target x) (msg_version x) (msg_raw x).

(** [msg_length] is what its Content-Length field says, if it has one *)
Definition message_ok (x : message) : Prop :=
  token_ok (msg_method x) /\ msg_method x <> [] /\ token_ok (msg_target x) /\
  (47 ∈ msg_path x) /\ (63 ∉ msg_path x) /\ from_option (Forall query_ok) True (msg_query x) /\
  0 <= msg_version x <= 9 /\ Forall raw_ok (msg_raw x) /\ (length (msg_raw x) <= max_headers)%nat /\
  match msg_length x with
  | Some n => 0 <= n < 2 ^ 62 /\ lookup_header (msg_fields x) (bs "content-length") = dec_string n
  | None => lookup_header (msg_fields x) (bs "content-length") = []
  end.

(** the message, complete up to [msg_content], lies at the start of the buffer *)
Definition received (x : message) (r : request) : Prop :=
  (exists slack, buf_ r = msg_head x ++ msg_content x ++ slack) /\
  cur_size_ r = Z.of_nat (length (msg_head x ++ msg_content x)) /\
  cur_size_ r <= max_header_len_ r < 2 ^ 31 /\
  Forall is_byte (msg_head x ++ msg_content x).

(** the pointers of a parsed request denote the parts of the message *)
Definition points_at (x : message) (r : request) : Prop :=
  (exists slack, buf_ r = msg_head x ++ msg_content x ++ slack) /\ copy_headers_ r = [] /\
  headers_ r = printed_headers (length (msg_method x) + length (msg_target x) + 12) (msg_raw x) /\
  method_ r = 0%nat /\ method_len_ r = length (msg_method x) /\ url_ r = (length (msg_method x) + 1)%nat /\
  minor_version_ r = msg_version x /\ header_len_ r = Z.of_nat (length (msg_head x)).

Lemma head_parts x post :
  msg_head x ++ post =
  (msg_method x ++ bs " " ++ msg_target x ++ bs " HTTP/1." ++ [48 + msg_version x] ++ CRLF) ++
  concat (raw_field <$> (msg_raw x)) ++ CRLF ++ post.
Proof. unfold msg_head, print_request. by rewrite <-!app_assoc. Qed.

Lemma head_offset x :
  (length (msg_method x) + length (msg_target x) + 12)%nat =
  length (msg_method x ++ bs " " ++ msg_target x ++ bs " HTTP/1." ++ [48 + msg_version x] ++ CRLF).
Proof. rewrite !length_app. cbn. lia. Qed.

Lemma points_headers x r key : points_at x r -> get_header_value r key = lookup_header (msg_fields x) key.
Proof.
  intros ((slack & Hb) & Hc & Hh & _). unfold get_header_value. rewrite Hc. cbn.
  unfold header_texts. rewrite Hb, Hh, head_parts, head_offset. by rewrite printed_headers_view.
Qed.

Lemma points_method x r : message_ok x -> points_at x r -> get_method r = msg_method x.
Proof.
  intros (_ & Hne & _) ((slack & Hb) & _ & _ & Hm & Hml & _). unfold get_method. rewrite Hml, Hm, Hb.
  rewrite (proj2 (Nat.eqb_neq _ _)) by (destruct (msg_method x); [done|cbn; lia]). cbn [negb].
  unfold msg_head, print_request. rewrite <-!app_assoc. apply (slice_app_exact []).
Qed.

(** a prefix of the target *)
Lemma points_target x r n :
  points_at x r -> (n <= length (msg_target x))%nat ->
  slice (buf_ r) (url_ r) n = take n (msg_target x).
Proof.
  intros ((slack & Hb) & _ & _ & _ & _ & Hu & _) Hn. rewrite Hb, Hu. unfold msg_head, print_request.
  rewrite <-!app_assoc. set (rest := bs " HTTP/1." ++ _).
  replace (length (msg_method x) + 1)%nat with (length (msg_method x ++ bs " ")) by (rewrite length_app; cbn; lia).
  rewrite (app_assoc (msg_method x)). unfold slice. rewrite drop_app_length.
  by rewrite take_app_le.
Qed.

Lemma store_points sse x r :
  message_ok x -> received x r -> exists o,
  phr_parse_request sse (take (Z.to_nat (cur_size_ r)) (buf_ r)) max_headers 0 =
    (o, Some (Z.of_nat (length (msg_head x)))) /\
  let r1 := store_parsed o (Z.of_nat (length (msg_head x))) (put_copy_headers [] r) in
  points_at x r1 /\ url_len_ r1 = length (msg_target x).
Proof.
  intros (Hm & Hne & Ht & _ & _ & _ & Hv & Hf & Hlen & _) ((slack & Hb) & Hc & Hmax & Hbytes).
  assert (take (Z.to_nat (cur_size_ r)) (buf_ r) = msg_head x ++ msg_content x) as ->.
  { rewrite Hc, Nat2Z.id, Hb, app_assoc. by rewrite take_app_length. }
  rewrite length_app in Hc. unfold msg_head at 1. rewrite phr_parse_print by done.
  change (print_request (msg_method x) (msg_target x) (msg_version x) (msg_raw x)) with (msg_head x).
  rewrite to_int32_small by lia. eexists. split; [reflexivity|].
  cbv zeta. split; [|done]. split; [by exists slack|]. split_and!; done.
Qed.

(** the length at the value pointer of the Content-Length field *)
Lemma points_content_length x r n :
  points_at x r -> lookup_header (msg_fields x) (bs "content-length") = dec_string n -> 0 <= n < 2 ^ 62 ->
  exists p, content_length_at r = Some p /\ atoll (drop p (buf_ r)) = n.
Proof.
  intros Hp Hl Hn. pose proof (points_headers x r (bs "content-length") Hp) as Hv. rewrite Hl in Hv.
  destruct Hp as ((slack & Hb) & Hc & Hh & _).
  unfold get_header_value in Hv. rewrite Hc in Hv. cbn [bool_decide list_eq_nil_dec] in Hv.
  unfold header_texts in Hv. rewrite lookup_header_find in Hv. unfold content_length_at.
  destruct (list_find _ (headers_ r)) as [[i h]|] eqn:Ef.
  2:{ symmetry in Hv. by apply fmap_nil_inv, digits_nonempty in Hv. }
  exists (value h). split; [done|]. apply list_find_Some in Ef as (Hi & _ & _).
  rewrite Hb in Hv |- *. rewrite head_parts in Hv |- *. rewrite Hh, head_offset in Hi.
  destruct (printed_headers_at _ _ (CRLF ++ msg_content x ++ slack) _ _ Hi) as (f & rest & Hf & ->).
  assert (f.2 = dec_string n) as ->.
  { rewrite <-Hv. pose proof (printed_headers_view
      (msg_method x ++ bs " " ++ msg_target x ++ bs " HTTP/1." ++ [48 + msg_version x] ++ CRLF)
      (msg_raw x) (CRLF ++ msg_content x ++ slack)) as Hall.
    apply (f_equal (fun l => l !! i)) in Hall. rewrite !list_lookup_fmap, Hi in Hall.
    rewrite Hf in Hall. cbn [fmap option_fmap option_map] in Hall.
    apply (inj Some) in Hall. rewrite Hall. done. }
  apply atoll_dec_string; [lia|]. by cbn.
Qed.

(** what the later stages of parse_header leave of a request that points at a
    message *)
Definition parsed_length (x : message) (old r : request) : Prop :=
  body_len_ r = default 0 (msg_length x) /\ left_body_len_ r = default (left_body_len_ old) (msg_length x).

Lemma parse_length_keeps r : cur_size_ (parse_length r) = cur_size_ r /\ buf_ (parse_length r) = buf_ r.
Proof. unfold parse_length. destruct (bool_decide _); [done|]. by destruct (content_length_at _). Qed.

Lemma parse_length_points x r :
  message_ok x -> points_at x r -> points_at x (parse_length r) /\ parsed_length x r (parse_length r) /\
  url_len_ (parse_length r) = url_len_ r /\ queries_ (parse_length r) = queries_ r /\
  is_chunked_ (parse_length r) =
    is_chunked_ r || bool_decide (msg_length x = None) &&
      bool_decide (lookup_header (msg_fields x) (bs "transfer-encoding") = bs "chunked").
Proof.
  intros (_ & _ & _ & _ & _ & _ & _ & _ & _ & Hlen) Hp. unfold parse_length, parsed_length.
  rewrite !(points_headers _ _ _ Hp).
  destruct (msg_length x) as [n|].
  - destruct Hlen as [Hn Hl]. rewrite bool_decide_false.
    2:{ rewrite Hl. intros H. by apply fmap_nil_inv, digits_nonempty in H. }
    destruct (points_content_length _ _ _ Hp Hl Hn) as (q & -> & ->).
    rewrite wrap64_small by lia. cbn [default]. split_and!; try done. by rewrite orb_false_r.
  - rewrite bool_decide_true by done. split_and!; done.
Qed.

Lemma parse_length_gzip r : has_gzip_ (parse_length r) = has_gzip_ r.
Proof. unfold parse_length. destruct (bool_decide _); [done|]. by destruct (content_length_at _). Qed.
Lemma parse_url_gzip r : has_gzip_ (parse_url r).1 = has_gzip_ r.
Proof. unfold parse_url. by repeat case_match. Qed.

Lemma parse_url_points x r :
  message_ok x -> points_at x r -> url_len_ r = length (msg_target x) -> exists r',
  parse_url r = (r', true) /\ points_at x r' /\ url_len_ r' = length (msg_path x) /\
  raw_url_ r' = msg_target x /\ queries_ r' = from_option list_to_map (queries_ r) (msg_query x) /\
  body_len_ r' = body_len_ r /\ left_body_len_ r' = left_body_len_ r /\ is_chunked_ r' = is_chunked_ r /\
  cur_size_ r' = cur_size_ r /\ buf_ r' = buf_ r.
Proof.
  intros (_ & _ & _ & Hslash & Hq & Hqs & _) Hp Hu. unfold parse_url. rewrite Hu.
  rewrite (points_target x r _ Hp), firstn_all by lia. cbn [put_raw_url raw_url_].
  destruct (find_char 47 (msg_target x)) as [i|] eqn:E47.
  2:{ apply find_char_None in E47. destruct E47. unfold msg_target. apply elem_of_app. by left. }
  unfold msg_target in *. destruct (msg_query x) as [qs|].
  - rewrite find_char_app_l by done. cbn [put_raw_url raw_url_].
    rewrite Nat.add_1_r, <-(Nat.add_1_r (length (msg_path x))), <-(length_app _ [63]).
    replace (msg_path x ++ 63 :: print_query qs) with ((msg_path x ++ [63]) ++ print_query qs)
      by (by rewrite <-app_assoc).
    rewrite drop_app_length, parse_query_pairs by done. rewrite <-app_assoc.
    eexists. split; [done|]. split_and!; done.
  - rewrite app_nil_r in *. rewrite (proj2 (find_char_None _ _) Hq).
    eexists. split; [done|]. split_and!; done.
Qed.

(** the outcome of parse_header on a message *)
Definition header_outcome (x : message) (r r' : request) : Prop :=
  let n := default 0 (msg_length x) in
  get_method r' = msg_method x /\ get_url r' = msg_path x /\ raw_url_ r' = msg_target x /\
  (forall key, get_header_value r' key = lookup_header (msg_fields x) key) /\
  queries_ r' = from_option list_to_map (queries_ r) (msg_query x) /\
  body_len_ r' = n /\ left_body_len_ r' = default (left_body_len_ r) (msg_length x) /\
  has_recieved_all r' = (n <=? Z.of_nat (length (msg_content x))) /\
  (n <= Z.of_nat (length (msg_content x)) -> body r' = Some (take (Z.to_nat n) (msg_content x))) /\
  header_len_ r' = Z.of_nat (length (msg_head x)) /\ buf_ r' = buf_ r /\ cur_size_ r' = cur_size_ r /\
  is_chunked_ r' = is_chunked_ r || bool_decide (msg_length x = None) &&
    bool_decide (lookup_header (msg_fields x) (bs "transfer-encoding") = bs "chunked") /\
  (lookup_header (msg_fields x) (bs "content-encoding") = [] -> has_gzip_ r' = false) /\
  minor_version_ r' = msg_version x.

Lemma outcome_points x r r' slack :
  message_ok x -> points_at x r' -> buf_ r = msg_head x ++ msg_content x ++ slack ->
  Z.of_nat (length (msg_head x ++ msg_content x)) < 2 ^ 31 ->
  cur_size_ r = Z.of_nat (length (msg_head x ++ msg_content x)) ->
  url_len_ r' = length (msg_path x) -> raw_url_ r' = msg_target x ->
  queries_ r' = from_option list_to_map (queries_ r) (msg_query x) ->
  body_len_ r' = default 0 (msg_length x) -> left_body_len_ r' = default (left_body_len_ r) (msg_length x) ->
  buf_ r' = buf_ r -> cur_size_ r' = cur_size_ r ->
  is_chunked_ r' = is_chunked_ r || bool_decide (msg_length x = None) &&
    bool_decide (lookup_header (msg_fields x) (bs "transfer-encoding") = bs "chunked") ->
  (lookup_header (msg_fields x) (bs "content-encoding") = [] -> has_gzip_ r' = false) ->
  header_outcome x r r'.
Proof.
  intros Hok Hp Hb Hlt Hcur Hu Hraw Hq Hbl Hleft Hbuf Hc Hch Hgz. pose proof Hp as (_ & _ & _ & _ & Hml & _ & Hmv & Hhl).
  assert (0 <= default 0 (msg_length x) < 2 ^ 62) as Hn.
  { destruct Hok as (_ & _ & _ & _ & _ & _ & _ & _ & _ & Hlen). destruct (msg_length x); cbn; lia. }
  rewrite length_app in *. unfold header_outcome. split_and!; try done.
  - by apply points_method.
  - unfold get_url. rewrite Hml. destruct Hok as (_ & Hne & _).
    rewrite (proj2 (Nat.eqb_neq _ _)) by (destruct (msg_method x); [done|cbn; lia]). cbn [negb].
    rewrite Hu, (points_target x) by (done || (unfold msg_target; rewrite length_app; lia)).
    unfold msg_target. apply take_app_length.
  - intros key. by apply points_headers.
  - unfold has_recieved_all, total_len, current_size. rewrite Hhl, Hbl, Hc, Hcur, wrap64_small by lia.
    apply eq_true_iff_eq. rewrite !Z.leb_le. lia.
  - intros Hle. unfold body, buf_size. rewrite Hhl, Hbl, Hbuf, Hb, !length_app.
    rewrite (proj2 (Z.leb_le _ _)), (proj2 (Z.leb_le _ _)) by lia. cbn [andb]. f_equal.
    rewrite Nat2Z.id. unfold slice. rewrite drop_app_length, take_app_le by lia. done.
Qed.

(** what parse_header leaves alone *)
Definition same_storage (r r' : request) : Prop :=
  buf_ r' = buf_ r /\ cur_size_ r' = cur_size_ r /\ max_header_len_ r' = max_header_len_ r /\
  state_ r' = state_ r /\ form_url_map_ r' = form_url_map_ r /\
  multipart_form_map_ r' = multipart_form_map_ r /\ multipart_headers_ r' = multipart_headers_ r.

Lemma parse_header_storage sse check last_len r r' ret :
  parse_header sse check last_len r = Some (r', ret) -> same_storage r r'.
Proof.
  unfold parse_header. destruct (phr_parse_request _ _ _ _) as [o [ret'|]]; [|done]. cbn [mbind option_bind].
  set (r1 := store_parsed o ret' _). assert (same_storage r r1) as H1 by done. clearbody r1.
  destruct (_ <? _); [by intros [= <- <-]|]. destruct (_ <? _); [by intros [= <- <-]|].
  destruct (negb _); [by intros [= <- <-]|].
  assert (same_storage r (parse_length (check_gzip r1))) as H2.
  { unfold parse_length. destruct (bool_decide _); [exact H1|]. destruct (content_length_at _); exact H1. }
  revert H2. generalize (parse_length (check_gzip r1)). clear H1. intros r2 H2.
  assert (same_storage r (parse_url (parse_cookie r2)).1) as H3.
  { unfold parse_url. by repeat case_match. }
  revert H3. destruct (parse_url _) as [r3 found]. by intros H3 [= <- <-].
Qed.

(** C12. parse_header reads a message a client wrote: when the head lies in the
    buffer (with any part of the body behind it), method, path, query map, raw
    url, every header value and the declared body length are those of the message,
    has_recieved_all tells whether the body is complete, and then body denotes its
    bytes; nothing of the buffer is changed. *)
Theorem parse_header_print sse check x r :
  message_ok x -> received x r -> (forall r', check r' = true) ->
  exists r', parse_header sse check 0 r = Some (r', Z.of_nat (length (msg_head x))) /\ header_outcome x r r'.
Proof.
  intros Hok Hr Hcheck. pose proof Hr as ((slack & Hb) & Hcur & Hmax & Hbytes).
  destruct (store_points sse x r Hok Hr) as (o & Hparse & Hp & Hu). unfold parse_header.
  change (phr_parse_request sse (take (Z.to_nat (cur_size_ (put_copy_headers [] r)))
    (buf_ (put_copy_headers [] r)))) with (phr_parse_request sse (take (Z.to_nat (cur_size_ r)) (buf_ r))).
  rewrite Hparse. cbn [mbind option_bind].
  set (r1 := store_parsed o _ _) in *.
  change (max_header_len_ r1) with (max_header_len_ r). change (cur_size_ r1) with (cur_size_ r).
  rewrite (proj2 (Z.ltb_ge _ _)), (proj2 (Z.ltb_ge _ _)), Hcheck by lia. cbn [negb].
  assert (points_at x (check_gzip r1)) as Hp2 by exact Hp.
  destruct (parse_length_points x (check_gzip r1) Hok Hp2) as (Hp3 & (Hbody & Hleft) & Hu3 & Hq3 & Hch3).
  set (r3 := parse_length (check_gzip r1)) in *.
  destruct (parse_length_keeps (check_gzip r1)) as [Hcur3 Hbuf3]. fold r3 in Hcur3, Hbuf3.
  change (cur_size_ (check_gzip r1)) with (cur_size_ r) in Hcur3.
  change (buf_ (check_gzip r1)) with (buf_ r) in Hbuf3.
  assert (points_at x (parse_cookie r3)) as Hp4 by exact Hp3.
  pose proof (parse_url_gzip (parse_cookie r3)) as Hgz5.
  destruct (parse_url_points x (parse_cookie r3) Hok Hp4) as
    (r5 & Hr5 & Hp5 & Hu5 & Hraw & Hq5 & Hbody5 & Hleft5 & Hch5 & Hcur5 & Hbuf5).
  { change (url_len_ (parse_cookie r3)) with (url_len_ r3). by rewrite Hu3. }
  rewrite Hr5 in Hgz5 |- *. cbn [fst] in Hgz5. exists r5. split; [done|].
  change (body_len_ (parse_cookie r3)) with (body_len_ r3) in Hbody5.
  change (left_body_len_ (parse_cookie r3)) with (left_body_len_ r3) in Hleft5.
  change (queries_ (parse_cookie r3)) with (queries_ r3) in Hq5.
  change (cur_size_ (parse_cookie r3)) with (cur_size_ r3) in Hcur5.
  change (buf_ (parse_cookie r3)) with (buf_ r3) in Hbuf5.
  change (left_body_len_ (check_gzip r1)) with (left_body_len_ r) in Hleft.
  change (queries_ (check_gzip r1)) with (queries_ r) in Hq3.
  change (is_chunked_ (parse_cookie r3)) with (is_chunked_ r3) in Hch5.
  change (is_chunked_ (check_gzip r1)) with (is_chunked_ r) in Hch3.
  assert (lookup_header (msg_fields x) (bs "content-encoding") = [] -> has_gzip_ r5 = false) as Hgz.
  { intros He. rewrite Hgz5. change (has_gzip_ (parse_cookie r3)) with (has_gzip_ r3). unfold r3.
    rewrite parse_length_gzip. unfold check_gzip. rewrite (points_headers _ _ _ Hp), He. done. }
  apply outcome_points with slack; congruence || (rewrite <-?Hcur; lia) || done.
Qed.

Definition sample_message : message :=
  mk_message (bs "POST") (bs "/a/b") (Some [(bs "x", bs "1")]) 1
    [(bs "Host", [], bs "h"); (bs "content-length", bs " ", bs "3")] (Some 3) (bs "abcGET").
Definition sample_request : request :=
  put_cur_size 59 (put_buf (msg_head sample_message ++ msg_content sample_message ++ replicate 964 0) new_request).

Lemma parse_header_print_witness :
  exists r', parse_header true (fun _ => true) 0 sample_request = Some (r', 53) /\
  get_url r' = bs "/a/b" /\ queries_ r' = <[bs "x" := bs "1"]> ∅ /\ body r' = Some (bs "abc").
Proof.
  destruct (parse_header_print true (fun _ => true) sample_message sample_request) as (r' & Hp & Ho).
  - unfold message_ok, token_ok. cbn [sample_message msg_length msg_query from_option]. split_and!;
      first [apply (bool_decide_unpack _); vm_compute; exact I | done | idtac].
  - split_and!; first [by eexists | apply (bool_decide_unpack _); vm_compute; exact I].
  - done.
  - exists r'. destruct Ho as (_ & Hu & _ & _ & Hq & _ & _ & _ & Hb & _).
    split_and!; [exact Hp|exact Hu|exact Hq|by apply Hb].
Defined.
