(* ===== verification/QueryValue.v ===== *)
(** * Query values by position and by type

    include/netcore/request.hpp: get_query_value(n), which counts through a std::map,
    and get_query_value<T>, which reads numbers with atoi and atoll.  A value is a
    string_view: the conversions go on reading behind it, in the request's buffer,
    unless the value was decoded; [behind] is what follows it in memory. *)

From Stdlib Require Import ZArith Lia.
From stdpp Require Import base numbers list sorting gmap fin_maps strings.
From S2P Require Import Prelude CStd Request.
Local Open Scope Z_scope.

(** ** The order of std::map<std::string_view, ...> *)

Fixpoint key_le (a b : bytes) : bool :=
  match a, b with
  | [], _ => true
  | _ :: _, [] => false
  | x :: a, y :: b => if x <? y then true else if y <? x then false else key_le a b
  end.

Definition entry_le (x y : bytes * bytes) : Prop := key_le x.1 y.1 = true.
#[export] Instance entry_le_dec x y : Decision (entry_le x y).
Proof. unfold entry_le; apply _. Defined.

(** from begin() to end() *)
Definition by_key (m : gmap bytes bytes) : list (bytes * bytes) := merge_sort entry_le (map_to_list m).

(** get_query_value(n) *)
Definition get_query_value_nth (n : nat) (r : request) : bytes :=
  let get_val m := default [] (snd <$> (by_key m !! n)) in
  if (size (queries_ r) <=? n)%nat then
    if (size (form_url_map_ r) <=? n)%nat then [] else get_val (form_url_map_ r)
  else get_val (queries_ r).

(** ** Numbers *)

Inductive number := Int32 | Uint32 | Bool | Char | Short | Int64 | Uint64.
Inductive conversion := Number (n : Z) | Empty_value | Not_an_integer.

(** return r, in the type that was asked for *)
Definition narrow (t : number) (r : Z) : Z :=
  match t with
  | Int32 | Int64 => r
  | Uint32 => wrap32 r
  | Bool => if r =? 0 then 0 else 1
  | Char => (r + 128) mod 256 - 128
  | Short => (r + 2 ^ 15) mod 2 ^ 16 - 2 ^ 15
  | Uint64 => wrap64 r
  end.

Definition read_number (t : number) (s : bytes) : Z :=
  match t with Int64 | Uint64 => atoll s | _ => atoi s end.

(** get_query_value<T>(key) *)
Definition get_query_number (t : number) (behind key : bytes) (r : request) : request * conversion :=
  let (r, val) := get_query_value r key in
  (r, match val with
      | [] => Empty_value
      | c :: _ =>
          let n := read_number t (val ++ behind) in
          if negb (c =? 48) && (n =? 0) then Not_an_integer else Number (narrow t n)
      end).

(** ** The order is one *)

Lemma key_le_refl a : key_le a a = true.
Proof. induction a as [|x a IH]; [done|]. cbn. by rewrite Z.ltb_irrefl. Qed.

Lemma key_le_total a b : key_le a b = true \/ key_le b a = true.
Proof.
  revert b; induction a as [|x a IH]; intros [|y b]; cbn; auto.
  destruct (x <? y) eqn:E1; [by left|]. destruct (y <? x) eqn:E2; [by right|]. apply IH.
Qed.

Lemma key_le_trans a b c : key_le a b = true -> key_le b c = true -> key_le a c = true.
Proof.
  revert b c; induction a as [|x a IH]; intros [|y b] [|z c]; cbn; try done.
  destruct (x <? y) eqn:E1; zbool.
  - intros _. destruct (y <? z) eqn:E2; zbool; [by rewrite (proj2 (Z.ltb_lt x z)) by lia|].
    destruct (z <? y) eqn:E3; zbool; [done|]. by rewrite (proj2 (Z.ltb_lt x z)) by lia.
  - destruct (y <? x) eqn:E2; zbool; [done|]. assert (x = y) as <- by lia. destruct (x <? z); [done|]. destruct (z <? x); [done|]. apply IH.
Qed.

Lemma key_le_antisym a b : key_le a b = true -> key_le b a = true -> a = b.
Proof.
  revert b; induction a as [|x a IH]; intros [|y b]; cbn; try done.
  destruct (x <? y) eqn:E1, (y <? x) eqn:E2; zbool; try done; try lia. intros H1 H2. f_equal; [lia|by apply IH].
Qed.

#[export] Instance entry_le_total : Total entry_le.
Proof. intros x y. apply key_le_total. Qed.
#[export] Instance entry_le_trans : Transitive entry_le.
Proof. intros x y z. apply key_le_trans. Qed.

Lemma by_key_perm m : by_key m ≡ₚ map_to_list m.
Proof. apply merge_sort_Permutation. Qed.

Lemma by_key_sorted m : StronglySorted entry_le (by_key m).
Proof. apply Sorted_StronglySorted; [apply _|]. apply Sorted_merge_sort; apply _. Qed.

Lemma by_key_length m : length (by_key m) = size m.
Proof. by rewrite by_key_perm, length_map_to_list. Qed.

(** the keys come in strictly increasing order: begin() to end() visits every pair of
    the map once, and there is only one such order *)
Lemma by_key_keys m i j x y :
  (i < j)%nat -> by_key m !! i = Some x -> by_key m !! j = Some y -> key_le x.1 y.1 = true /\ x.1 <> y.1.
Proof.
  intros Hij Hx Hy. split.
  - pose proof (by_key_sorted m) as S. revert i j Hij Hx Hy. induction S as [|z l S IH F]; intros i j Hij Hx Hy; [done|].
    destruct i as [|i], j as [|j]; try lia; cbn in *.
    + injection Hx as <-. rewrite Forall_lookup in F. exact (F _ _ Hy).
    + by eapply (IH i j); [lia| |].
  - intros E. assert (NoDup (by_key m).*1) as N by (rewrite by_key_perm; apply NoDup_fst_map_to_list).
    assert (i = j); [|lia]. eapply (NoDup_lookup _ _ _ x.1 N); rewrite list_lookup_fmap; [by rewrite Hx|by rewrite Hy, E].
Qed.

Lemma by_key_lookup m k v : m !! k = Some v <-> exists n, by_key m !! n = Some (k, v).
Proof. rewrite <-elem_of_map_to_list, <-(by_key_perm m). apply list_elem_of_lookup. Qed.

(** The n-th value of a query map is the value of its n-th key in lexicographic order. *)
Lemma get_query_value_nth_queries n r k v :
  by_key (queries_ r) !! n = Some (k, v) -> get_query_value_nth n r = v.
Proof.
  intros H. unfold get_query_value_nth. rewrite (proj2 (Nat.leb_gt _ _)); [by rewrite H|].
  rewrite <-by_key_length. by eapply lookup_lt_Some.
Qed.

(** ** Numbers that were printed are read *)

(** what may follow a number in the buffer *)
Definition ends_number (behind : bytes) : Prop :=
  match behind with [] => True | c :: _ => isdigit c = false /\ islower c = false /\ isupper c = false end.

Lemma read_dec n rest : 0 <= n -> ends_number rest -> read_digits 10 0 (dec_string n ++ rest) = n.
Proof.
  intros Hn Hr. unfold dec_string. rewrite (read_digits_value 10 (fun d => 48 + d)).
  - change (fold_left _ (digits 10 n) 0) with (undigits 10 (digits 10 n)). apply undigits_digits; lia.
  - apply digits_range; lia.
  - apply digit_value_dec.
  - destruct rest as [|c rest]; [done|]. unfold digit_value. by destruct Hr as (-> & -> & ->).
Qed.

Lemma skip_0x_10 s : skip_0x 10 s = s.
Proof. unfold skip_0x. repeat case_match; done. Qed.

Lemma atoll_to_string n rest : - 2 ^ 63 <= n < 2 ^ 63 -> ends_number rest -> atoll (to_string n ++ rest) = n.
Proof.
  intros Hn Hr. unfold to_string. destruct (n <? 0) eqn:E; zbool; [|by apply atoll_dec_string; [lia|]].
  unfold atoll, strtoll. cbn [app skip_space]. change (isspace 45) with false. cbn iota.
  rewrite skip_0x_10, read_dec by (lia || done). unfold clamp64. lia.
Qed.

Lemma atoi_to_string n rest : - 2 ^ 31 <= n < 2 ^ 31 -> ends_number rest -> atoi (to_string n ++ rest) = n.
Proof.
  intros Hn Hr. change (atoi (to_string n ++ rest)) with (to_int32 (atoll (to_string n ++ rest))).
  rewrite atoll_to_string by (lia || done). unfold to_int32. rewrite Z.mod_small; lia.
Qed.

Lemma strtoll_word c s : isdigit c = false -> isspace c = false -> c <> 43 -> c <> 45 -> strtoll 10 (c :: s) = 0.
Proof.
  intros H1 H2 H3 H4. unfold strtoll. cbn [skip_space]. rewrite H2.
  assert (read_digits 10 0 (c :: s) = 0) as R.
  { cbn [read_digits]. unfold digit_value. rewrite H1. unfold islower, isupper.
    destruct ((97 <=? c) && (c <=? 122)) eqn:E1; [|destruct ((65 <=? c) && (c <=? 90)) eqn:E2]; zbool; try done.
    - by rewrite (proj2 (Z.ltb_ge _ _)) by lia.
    - by rewrite (proj2 (Z.ltb_ge _ _)) by lia. }
  transitivity (clamp64 (read_digits 10 0 (skip_0x 10 (c :: s)))); [|by rewrite skip_0x_10, R].
  destruct c as [|p|p]; [done| |done].
  do 6 (destruct p as [p|p|]; try done; try lia).
Qed.

Definition number_range (t : number) : Z * Z :=
  match t with
  | Int32 => (- 2 ^ 31, 2 ^ 31 - 1) | Uint32 => (0, 2 ^ 31 - 1) | Bool => (0, 1) | Char => (-128, 127)
  | Short => (- 2 ^ 15, 2 ^ 15 - 1) | Int64 => (- 2 ^ 63, 2 ^ 63 - 1) | Uint64 => (0, 2 ^ 63 - 1)
  end.

Lemma narrow_id t n : (number_range t).1 <= n <= (number_range t).2 -> narrow t n = n.
Proof.
  destruct t; cbn [number_range fst snd narrow]; intros H; try lia.
  - unfold wrap32. apply Z.mod_small. lia.
  - destruct (n =? 0) eqn:E; zbool; lia.
  - rewrite Z.mod_small; lia.
  - rewrite Z.mod_small; lia.
  - apply wrap64_small. lia.
Qed.

Lemma to_string_head n : exists c s, to_string n = c :: s /\ (n = 0 -> c = 48).
Proof.
  destruct (decide (n = 0)) as [->|Hn]; [by exists 48, []|]. unfold to_string.
  destruct (n <? 0); [by exists 45; eexists|]. unfold dec_string.
  destruct (digits 10 n) as [|d ds] eqn:Ed; [by apply digits_nonempty in Ed|]. by eexists _, _.
Qed.

(** C33. A number that a client prints into a query is the number the handler reads, for
    each of the types that have a conversion ([number]) and every value of it that is in
    the range of the signed function that converts it ([number_range]: an unsigned only
    up to 2^31-1, a uint64_t only up to 2^63-1), whatever follows the value in the
    buffer, unless that is a digit or a letter; a value that is not there and a word
    without digits are reported. *)
Theorem query_number_print_read t n behind key r r' :
  (number_range t).1 <= n <= (number_range t).2 -> ends_number behind ->
  (get_query_value r key = (r', to_string n) -> get_query_number t behind key r = (r', Number n)) /\
  (get_query_value r key = (r', []) -> get_query_number t behind key r = (r', Empty_value)) /\
  (forall c w, isdigit c = false -> isspace c = false -> c <> 43 -> c <> 45 ->
     get_query_value r key = (r', c :: w) -> get_query_number t behind key r = (r', Not_an_integer)).
Proof.
  intros Hn Hb. split; [|split].
  - intros E. unfold get_query_number. rewrite E. destruct (to_string_head n) as (c & s & Hs & Hc).
    assert (read_number t (to_string n ++ behind) = n) as Hr.
    { destruct t; cbn [number_range fst snd read_number] in *; (apply atoi_to_string || apply atoll_to_string); (lia || done). }
    rewrite Hs in Hr |- *. cbv zeta. rewrite Hr, narrow_id by done.
    destruct (c =? 48) eqn:E1; [done|]. destruct (n =? 0) eqn:E2; [|done]. zbool. by destruct (E1 (Hc E2)).
  - intros E. unfold get_query_number. by rewrite E.
  - intros c w H1 H2 H3 H4 E. unfold get_query_number. rewrite E. cbv zeta.
    assert (read_number t ((c :: w) ++ behind) = 0) as ->.
    { assert (strtoll 10 (c :: w ++ behind) = 0) as S by (by apply strtoll_word). destruct t; cbn [read_number app]; unfold atoi, atoll; by rewrite S. }
    destruct (c =? 48) eqn:E1; [|done]. zbool. subst c. done.
Qed.

Definition asked : request := put_queries {[ bs "n" := bs "-42" ]} new_request.

Lemma query_number_print_read_witness :
  ((number_range Int32).1 <= -42 <= (number_range Int32).2 /\ ends_number (bs " HTTP/1.1")) /\
  get_query_value asked (bs "n") = (asked, to_string (-42)) /\
  get_query_number Int32 (bs " HTTP/1.1") (bs "n") asked = (asked, Number (-42)).
Proof.
  assert (H : ((number_range Int32).1 <= -42 <= (number_range Int32).2 /\ ends_number (bs " HTTP/1.1"))) by (split; [cbn; lia|done]).
  split; [exact H|]. split; [reflexivity|].
  apply (query_number_print_read Int32 (-42) (bs " HTTP/1.1") (bs "n") asked asked (proj1 H) (proj2 H)). reflexivity.
Defined.

(** ** Flaws *)

(** minus zero is an integer *)
Lemma minus_zero_refused t behind key r r' :
  ends_number behind -> get_query_value r key = (r', bs "-0") -> get_query_number t behind key r = (r', Not_an_integer).
Proof.
  intros Hb E. change (bs "-0") with (45 :: dec_string 0) in E. unfold get_query_number. rewrite E. cbv zeta.
  assert (strtoll 10 (45 :: dec_string 0 ++ behind) = 0) as S.
  { unfold strtoll. cbn [skip_space]. change (isspace 45) with false. cbn iota. by rewrite skip_0x_10, read_dec by done. }
  destruct t; cbn [read_number app]; unfold atoi, atoll; by rewrite S.
Qed.

(** digits behind the value in the buffer belong to the number that is read: here the
    body has more bytes than its Content-Length says *)
Lemma value_runs_on key r r' :
  get_query_value r key = (r', bs "12") -> get_query_number Int32 (bs "345") key r = (r', Number 12345).
Proof. intros E. unfold get_query_number. rewrite E. reflexivity. Qed.
