(* ===== verification/Upload.v ===== *)
(** * Uploaded files

    src/include/netcore/upload_file.hpp over a small POSIX file system: names lead
    to inodes, a stream writes to the inode it opened.  [can_open] says which
    paths std::ofstream can create or append to.  UploadMove.v has copy_to, move_to
    and the creation of directories. *)

From Stdlib Require Import ZArith Lia.
From stdpp Require Import base numbers list gmap.
From S2P Require Import Prelude.

(** ** The file system *)

Record filesystem := mk_fs {
  names : gmap bytes nat;
  inodes : gmap nat bytes;
  next_inode : nat
}.

Definition empty_fs : filesystem := mk_fs ∅ ∅ 0.

(** the content a path leads to *)
Definition read_file (fs : filesystem) (path : bytes) : option bytes :=
  i ← names fs !! path; inodes fs !! i.

(** opening for appending *)
Definition fs_open (path : bytes) (fs : filesystem) : filesystem * nat :=
  match names fs !! path with
  | Some i => (fs, i)
  | None =>
      (mk_fs (<[path := next_inode fs]> (names fs)) (<[next_inode fs := []]> (inodes fs)) (S (next_inode fs)),
       next_inode fs)
  end.
Definition fs_append (i : nat) (data : bytes) (fs : filesystem) : filesystem :=
  mk_fs (names fs) (<[i := default [] (inodes fs !! i) ++ data]> (inodes fs)) (next_inode fs).

(** rename(2): the new name takes over the inode; it fails if the old name is unknown *)
Definition fs_rename (old new : bytes) (fs : filesystem) : filesystem * bool :=
  match names fs !! old with
  | None => (fs, false)
  | Some i => (mk_fs (<[new := i]> (delete old (names fs))) (inodes fs) (next_inode fs), true)
  end.
Definition fs_remove (path : bytes) (fs : filesystem) : filesystem * bool :=
  match names fs !! path with
  | None => (fs, false)
  | Some _ => (mk_fs (delete path (names fs)) (inodes fs) (next_inode fs), true)
  end.

(** ** upload_file *)

(** [file_] is the open stream's inode, [failed_] its failbit *)
Record upload_file := mk_file {
  file_path_ : bytes;
  file_ : option nat;
  failed_ : bool;
  file_size_ : Z
}.

Definition new_file : upload_file := mk_file [] None false 0.

Section operations.
Context (can_open : bytes -> bool).

(** open: it reports whether a stream is open *)
Definition open (file_name : bytes) (fs : filesystem) (f : upload_file) : filesystem * upload_file * bool :=
  match file_ f with
  | Some i => (fs, mk_file file_name (Some i) true (file_size_ f), true)
  | None =>
      if can_open file_name then
        let '(fs, i) := fs_open file_name fs in
        (fs, mk_file file_name (Some i) false (file_size_ f), true)
      else (fs, mk_file (file_path_ f) None true (file_size_ f), false)
  end.
End operations.

Definition write (data : bytes) (fs : filesystem) (f : upload_file) : filesystem * upload_file :=
  let size := wrap64 (file_size_ f + Z.of_nat (length data)) in
  match file_ f with
  | Some i =>
      if failed_ f then (fs, mk_file (file_path_ f) (file_ f) true size)
      else (fs_append i data fs, mk_file (file_path_ f) (file_ f) false size)
  | None => (fs, mk_file (file_path_ f) None true size)
  end.

Definition close (f : upload_file) : upload_file :=
  match file_ f with
  | Some _ => mk_file (file_path_ f) None (failed_ f) (file_size_ f)
  | None => mk_file (file_path_ f) None true (file_size_ f)
  end.

Definition rename_file (new_file_name : bytes) (fs : filesystem) (f : upload_file) : filesystem * upload_file :=
  let '(fs, ok) := fs_rename (file_path_ f) new_file_name fs in
  (fs, if ok then mk_file new_file_name (file_ f) (failed_ f) (file_size_ f) else f).

Definition remove (fs : filesystem) (f : upload_file) : filesystem * upload_file * bool :=
  let f := close f in
  let '(fs, flag) := fs_remove (file_path_ f) fs in
  (fs, mk_file [] (file_ f) (failed_ f) 0, flag).

Definition get_file_size (f : upload_file) : Z := file_size_ f.
Definition get_file_path (f : upload_file) : bytes := file_path_ f.
Definition is_open (f : upload_file) : bool := bool_decide (is_Some (file_ f)).

(** ** An upload *)

Fixpoint write_all (parts : list bytes) (fs : filesystem) (f : upload_file) : filesystem * upload_file :=
  match parts with
  | [] => (fs, f)
  | data :: parts => let '(fs, f) := write data fs f in write_all parts fs f
  end.

Lemma write_all_content parts fs f i old :
  file_ f = Some i -> failed_ f = false -> inodes fs !! i = Some old ->
  let '(fs', f') := write_all parts fs f in
  names fs' = names fs /\ inodes fs' !! i = Some (old ++ mjoin parts) /\
  file_ f' = Some i /\ failed_ f' = false /\ file_path_ f' = file_path_ f.
Proof.
  revert fs f old; induction parts as [|data parts IH]; intros fs f old Hf Hb Hi; cbn [write_all].
  { cbn. by rewrite app_nil_r. }
  unfold write. rewrite Hf, Hb.
  specialize (IH (fs_append i data fs)
    (mk_file (file_path_ f) (file_ f) false (wrap64 (file_size_ f + Z.of_nat (length data)))) (old ++ data) Hf eq_refl).
  rewrite Hf in IH. destruct (write_all parts _ _) as [fs' f']. cbn [mjoin list_join].
  rewrite app_assoc. apply IH. cbn. by rewrite lookup_insert_eq, Hi.
Qed.

(** a file opened under a new name, written in pieces, closed and renamed is
    found under the new name with all that was written *)
Lemma upload_content can_open tmp final parts fs :
  can_open tmp = true -> names fs !! tmp = None ->
  let '(fs, f, _) := open can_open tmp fs new_file in
  let '(fs, f) := write_all parts fs f in
  let '(fs, f) := rename_file final fs (close f) in
  read_file fs final = Some (mjoin parts) /\ file_path_ f = final /\ is_open f = false.
Proof.
  intros Hc Hn. unfold open. cbn [file_ new_file]. rewrite Hc. unfold fs_open. rewrite Hn.
  set (fs1 := mk_fs _ _ _).
  pose proof (write_all_content parts fs1 (mk_file tmp (Some (next_inode fs)) false 0) (next_inode fs) []
    eq_refl eq_refl (lookup_insert_eq _ _ _)) as H.
  cbn [file_size_ new_file]. destruct (write_all parts _ _) as [fs2 f2].
  destruct H as (Hnames & Hi & Hf & Hb & Hp). cbn in Hp. unfold close. rewrite Hf. unfold rename_file, fs_rename.
  cbn [file_path_]. rewrite Hp, Hnames. subst fs1. cbn [names]. rewrite lookup_insert_eq.
  unfold read_file. cbn. by rewrite lookup_insert_eq.
Qed.
