(* ===== verification/UploadMove.v ===== *)
(** * Copying and moving uploaded files

    include/netcore/upload_file.hpp: check_and_create_directory, copy_to and move_to,
    over the file system of Upload.v and a set of directories.  Paths are compared as
    strings.  [None] is an exception of std::filesystem, or back() of an empty path.
    The streams of Upload.v are not buffered: what is copied is what was written. *)

From Stdlib Require Import Lia.
From stdpp Require Import base numbers list strings gmap sets.
From S2P Require Import Prelude Utils Upload.

Definition slash : Z := 47.

Record tree := mk_tree { files : filesystem; dirs : gset bytes }.

(** the root and the current directory are always there *)
Definition is_directory (t : tree) (d : bytes) : bool := bool_decide (d = []) || bool_decide (d ∈ dirs t).
Definition fs_exists (t : tree) (p : bytes) : bool := is_directory t p || bool_decide (is_Some (names (files t) !! p)).

(** the directory a path is in *)
Definition parent_path (p : bytes) : bytes := match rfind_char slash p with Some i => take i p | None => [] end.

Definition create_directory (d : bytes) (t : tree) : option tree :=
  if is_directory t (parent_path d) then Some (mk_tree (files t) ({[ d ]} ∪ dirs t)) else None.

(** copy_file does not overwrite *)
Definition copy_file (from to : bytes) (t : tree) : option tree :=
  data ← read_file (files t) from;
  if fs_exists t to || negb (is_directory t (parent_path to)) then None
  else let '(fs, i) := fs_open to (files t) in Some (mk_tree (fs_append i data fs) (dirs t)).

(** the loop of check_and_create_directory *)
Fixpoint make_directories (first : bool) (tmp_directory : bytes) (vec : list bytes) (t : tree) : option tree :=
  match vec with
  | [] => Some t
  | x :: vec =>
      let tmp_directory := tmp_directory ++ x ++ [slash] in
      if first then make_directories false tmp_directory vec t
      else
        let current := take (length tmp_directory - 1) tmp_directory in
        t ← (if fs_exists t current then Some t else create_directory current t);
        make_directories false tmp_directory vec t
  end.

Definition check_and_create_directory (directory_path : bytes) (t : tree) : option tree :=
  make_directories true [] (split directory_path [slash]) t.

(** where the copy goes *)
Definition target (directory_path file_name : bytes) (f : upload_file) : option bytes :=
  let write_file_name := match rfind_char slash (file_path_ f) with Some i => drop (S i) (file_path_ f) | None => file_path_ f end in
  let write_file_name := if bool_decide (file_name = []) then write_file_name else file_name in
  c ← last directory_path;
  Some ((if (c =? slash)%Z then directory_path else directory_path ++ [slash]) ++ write_file_name).

Definition copy_to (directory_path file_name : bytes) (t : tree) (f : upload_file) : option (tree * bool) :=
  t ← check_and_create_directory directory_path t;
  to ← target directory_path file_name f;
  t ← copy_file (file_path_ f) to t;
  Some (t, true).

Definition move_to (directory_path file_name : bytes) (t : tree) (f : upload_file) : option (tree * upload_file * bool) :=
  t ← check_and_create_directory directory_path t;
  to ← target directory_path file_name f;
  t ← copy_file (file_path_ f) to t;
  let f := Upload.close f in
  let '(fs, flag1) := fs_remove (file_path_ f) (files t) in
  Some (mk_tree fs (dirs t), mk_file to (file_ f) (failed_ f) (file_size_ f), true && flag1).

(** ** Paths *)

(** /c1/c2/.../cn *)
Definition absolute (l : list bytes) : bytes := mjoin ((fun c => slash :: c) <$> l).

Lemma absolute_snoc l c : absolute (l ++ [c]) = absolute l ++ slash :: c.
Proof. unfold absolute. rewrite fmap_app, join_app. cbn. by rewrite app_nil_r. Qed.

Lemma parent_path_snoc p c : slash ∉ c -> parent_path (p ++ slash :: c) = p.
Proof.
  intros Hc. unfold parent_path. by rewrite rfind_char_app, take_app_length.
Qed.

Lemma split_absolute l : Forall (fun c => slash ∉ c) l -> l <> [] -> split (absolute l) [slash] = [] :: l.
Proof.
  assert (K : forall l c, slash ∉ c -> Forall (fun c => slash ∉ c) l -> split (c ++ absolute l) [slash] = c :: l).
  { clear. induction l as [|d l IH]; intros c Hc F.
    - unfold absolute. cbn. rewrite app_nil_r. apply split_clean, Forall_forall. intros x Hx. set_solver.
    - apply Forall_cons in F as [Hd F]. change (c ++ absolute (d :: l)) with (c ++ slash :: (d ++ absolute l)).
      rewrite split_cons; [by rewrite IH| |by left]. apply Forall_forall. intros x Hx. set_solver. }
  intros F _. apply (K l []); [apply not_elem_of_nil|done].
Qed.

(** ** Directories *)

(** nothing on the way to the directory is a file *)
Definition no_files (t : tree) (l : list bytes) : Prop :=
  forall k, (0 < k <= length l)%nat -> names (files t) !! absolute (take k l) = None.

Lemma make_directories_ok l done t :
  Forall (fun c => slash ∉ c) l -> is_directory t (absolute done) = true -> no_files t (done ++ l) ->
  exists ds, make_directories false (absolute done ++ [slash]) l t = Some (mk_tree (files t) ds) /\
    (forall d, d ∈ ds -> d ∈ dirs t \/ (length d <= length (absolute (done ++ l)))%nat) /\
    is_directory (mk_tree (files t) ds) (absolute (done ++ l)) = true.
Proof.
  revert done t; induction l as [|c l IH]; intros dn t F Hd Hn; cbn [make_directories].
  { exists (dirs t). rewrite app_nil_r. split; [by destruct t|]. split; [by left|done]. }
  apply Forall_cons in F as [Hc F].
  assert ((absolute dn ++ [slash]) ++ c ++ [slash] = absolute (dn ++ [c]) ++ [slash]) as ->.
  { rewrite absolute_snoc, <-!app_assoc. done. }
  assert (take (length (absolute (dn ++ [c]) ++ [slash]) - 1) (absolute (dn ++ [c]) ++ [slash]) = absolute (dn ++ [c])) as ->.
  { rewrite length_app, Nat.add_sub. apply take_app_length. }
  assert (Hfile : names (files t) !! absolute (dn ++ [c]) = None).
  { specialize (Hn (length (dn ++ [c]))). rewrite (cons_middle c dn l), app_assoc, take_app_length in Hn. apply Hn.
    rewrite !length_app. cbn. lia. }
  rewrite (cons_middle c dn l), app_assoc in Hn |- *.
  destruct (fs_exists t (absolute (dn ++ [c]))) eqn:E.
  - apply IH; [done| |done]. unfold fs_exists in E. apply orb_true_iff in E as [E|E]; [done|].
    apply bool_decide_eq_true in E as [x E]. congruence.
  - unfold create_directory. rewrite absolute_snoc, parent_path_snoc by done. rewrite Hd. cbn [mbind option_bind]. rewrite <-absolute_snoc.
    destruct (IH (dn ++ [c]) (mk_tree (files t) ({[ absolute (dn ++ [c]) ]} ∪ dirs t))) as (ds & H1 & H2 & H3); try done.
    + unfold is_directory. cbn. apply orb_true_iff. right. apply bool_decide_eq_true. set_solver.
    + exists ds. cbn in H1, H2, H3. split; [done|]. split; [|done]. intros d Hds. destruct (H2 d Hds) as [H|H]; [|by right].
      apply elem_of_union in H as [H|H]; [|by left]. right. apply elem_of_singleton in H as ->.
      unfold absolute. rewrite (fmap_app _ _ l), join_app, length_app. lia.
Qed.

(** an absolute directory is made, with all that leads to it *)
Lemma directories_created l t :
  Forall (fun c => slash ∉ c) l -> l <> [] -> no_files t l ->
  exists ds, check_and_create_directory (absolute l) t = Some (mk_tree (files t) ds) /\
    (forall d, d ∈ ds -> d ∈ dirs t \/ (length d <= length (absolute l))%nat) /\
    is_directory (mk_tree (files t) ds) (absolute l) = true.
Proof.
  intros F Hl Hn. unfold check_and_create_directory. rewrite split_absolute by done. cbn [make_directories app].
  by apply (make_directories_ok l []).
Qed.

Definition base_name (p : bytes) : bytes := match rfind_char slash p with Some i => drop (S i) p | None => p end.

(** the name the copy gets *)
Definition new_name (file_name : bytes) (f : upload_file) : bytes :=
  if bool_decide (file_name = []) then base_name (file_path_ f) else file_name.

Lemma target_absolute l name f : l <> [] -> Forall (fun c => (slash ∉ c) /\ c <> []) l ->
  target (absolute l) name f = Some (absolute l ++ slash :: new_name name f).
Proof.
  intros Hl F. unfold target. destruct (last l) as [c|] eqn:El; [|by apply last_None in El].
  apply last_Some in El as [l' ->]. apply Forall_app in F as [_ [[Hc Hne] _]%Forall_cons].
  destruct c as [|x c] using rev_ind; [done|]. rewrite absolute_snoc, app_comm_cons, app_assoc, last_snoc. cbn [mbind option_bind].
  destruct (x =? slash)%Z eqn:E; zbool; [subst; set_solver|]. by rewrite <-app_assoc.
Qed.

Lemma fs_copy_content from to data t :
  read_file (files t) from = Some data -> fs_exists t to = false -> is_directory t (parent_path to) = true ->
  (forall p i, names (files t) !! p = Some i -> (i < next_inode (files t))%nat) -> from <> to ->
  exists t', copy_file from to t = Some t' /\ dirs t' = dirs t /\ read_file (files t') to = Some data /\ read_file (files t') from = Some data.
Proof.
  intros Hr He Hp Hi Hne. unfold copy_file. rewrite Hr. cbn [mbind option_bind]. rewrite He, Hp. cbn [orb negb].
  assert (names (files t) !! to = None) as Hn.
  { unfold fs_exists in He. apply orb_false_iff in He as [_ He]. apply bool_decide_eq_false in He. by apply eq_None_not_Some. }
  unfold fs_open. rewrite Hn. eexists. split; [done|]. split; [done|]. unfold read_file, fs_append in *. cbn.
  rewrite !lookup_insert_eq. cbn. rewrite lookup_insert_eq, (lookup_insert_ne (names _)) by done. split; [done|].
  destruct (names (files t) !! from) as [i|] eqn:Ei; [|done]. cbn in *. pose proof (Hi _ _ Ei).
  by rewrite !lookup_insert_ne by lia.
Qed.

(** the file system of a process: every name leads to an inode that was made *)
Definition inodes_ok (t : tree) : Prop := forall p i, names (files t) !! p = Some i -> (i < next_inode (files t))%nat.

Lemma copied l name t f data :
  Forall (fun c => (slash ∉ c) /\ c <> []) l -> l <> [] -> no_files t l -> inodes_ok t ->
  slash ∉ new_name name f -> read_file (files t) (file_path_ f) = Some data ->
  fs_exists t (absolute (l ++ [new_name name f])) = false ->
  let to := absolute (l ++ [new_name name f]) in
  file_path_ f <> to /\ target (absolute l) name f = Some to /\
  exists t1 t2, check_and_create_directory (absolute l) t = Some t1 /\ copy_file (file_path_ f) to t1 = Some t2 /\
    read_file (files t2) to = Some data /\ read_file (files t2) (file_path_ f) = Some data.
Proof.
  intros F Hl Hn Hi Hs Hr He to. destruct (directories_created l t) as (ds & H1 & H2 & H3); [|done|done|].
  { eapply Forall_impl; [exact F|]. by intros c [? _]. }
  assert (file_path_ f <> to) as Hne.
  { intros E. unfold fs_exists in He. fold to in He. apply orb_false_iff in He as [_ He]. apply bool_decide_eq_false in He. apply He.
    unfold read_file in Hr. rewrite E in Hr. destruct (names (files t) !! to) as [i|]; [by exists i|done]. }
  split; [done|]. split; [by unfold to; rewrite absolute_snoc, target_absolute|].
  destruct (fs_copy_content (file_path_ f) to data (mk_tree (files t) ds)) as (t2 & C1 & C2 & C3 & C4); try done.
  - unfold fs_exists in He |- *. fold to in He. apply orb_false_iff in He as [He1 He2]. apply orb_false_iff. split; [|done].
    unfold is_directory in He1 |- *. apply orb_false_iff in He1 as [He0 He1]. apply orb_false_iff. split; [done|].
    cbn. apply bool_decide_eq_false. apply bool_decide_eq_false in He1. intros Hd. destruct (H2 _ Hd) as [Hd'|Hd']; [done|].
    unfold to in Hd'. rewrite absolute_snoc, length_app in Hd'. cbn in Hd'. lia.
  - unfold to. by rewrite absolute_snoc, parent_path_snoc.
  - by exists (mk_tree (files t) ds), t2.
Qed.

(** C29. An uploaded file that is copied or moved to an absolute directory, of which any
    part may be missing: the directory is made, the copy has the content of the
    upload under the name asked for (or its own), the upload is kept by copy_to, and
    is gone after move_to, which then knows the new path. *)
Theorem upload_copied_and_moved l name t f data :
  Forall (fun c => (slash ∉ c) /\ c <> []) l -> l <> [] -> no_files t l -> inodes_ok t ->
  slash ∉ new_name name f -> read_file (files t) (file_path_ f) = Some data ->
  fs_exists t (absolute (l ++ [new_name name f])) = false ->
  let to := absolute (l ++ [new_name name f]) in
  (exists t', copy_to (absolute l) name t f = Some (t', true) /\
     read_file (files t') to = Some data /\ read_file (files t') (file_path_ f) = Some data) /\
  (exists t' f', move_to (absolute l) name t f = Some (t', f', true) /\
     read_file (files t') to = Some data /\ read_file (files t') (file_path_ f) = None /\ get_file_path f' = to).
Proof.
  intros F Hl Hn Hi Hs Hr He to.
  destruct (copied l name t f data F Hl Hn Hi Hs Hr He) as (Hne & Ht & t1 & t2 & H1 & H2 & H3 & H4). fold to in Hne, Ht, H2, H3.
  split.
  - exists t2. unfold copy_to. rewrite H1. cbn [mbind option_bind]. rewrite Ht. cbn [mbind option_bind]. by rewrite H2.
  - unfold move_to. rewrite H1. cbn [mbind option_bind]. rewrite Ht. cbn [mbind option_bind]. rewrite H2. cbn [mbind option_bind].
    assert (file_path_ (Upload.close f) = file_path_ f) as -> by (unfold Upload.close; by destruct (file_ f)).
    unfold fs_remove. unfold read_file in H4. destruct (names (files t2) !! file_path_ f) as [i|]; [|done].
    eexists _, _. split; [done|]. unfold read_file in H3 |- *. cbn. by rewrite lookup_delete_ne, lookup_delete_eq.
Qed.

Definition uploaded : upload_file := mk_file (bs "./www/upload/7.txt") None false 5.
Definition upload_disk : tree := mk_tree (mk_fs {[ bs "./www/upload/7.txt" := 0%nat ]} {[ 0%nat := bs "hello" ]} 1) {[ bs "/srv" ]}.

Lemma upload_copied_and_moved_witness :
  let to := absolute [bs "srv"; bs "files"; bs "new.txt"] in
  (exists t', copy_to (absolute [bs "srv"; bs "files"]) (bs "new.txt") upload_disk uploaded = Some (t', true) /\
     read_file (files t') to = Some (bs "hello") /\ read_file (files t') (bs "./www/upload/7.txt") = Some (bs "hello")) /\
  (exists t' f', move_to (absolute [bs "srv"; bs "files"]) (bs "new.txt") upload_disk uploaded = Some (t', f', true) /\
     read_file (files t') to = Some (bs "hello") /\ read_file (files t') (bs "./www/upload/7.txt") = None /\ get_file_path f' = to).
Proof.
  apply (upload_copied_and_moved [bs "srv"; bs "files"] (bs "new.txt") upload_disk uploaded (bs "hello")).
  - repeat constructor; try discriminate; intros H; vm_compute in H; repeat (apply elem_of_cons in H as [H|H]; [discriminate|]); by apply elem_of_nil in H.
  - discriminate.
  - intros k Hk. cbn [length] in Hk. assert (k = 1 \/ k = 2)%nat as [-> | ->] by lia; vm_compute; reflexivity.
  - intros p i Hp. cbn in Hp. apply lookup_singleton_Some in Hp as [_ <-]. cbn. lia.
  - intros H; vm_compute in H; repeat (apply elem_of_cons in H as [H|H]; [discriminate|]); by apply elem_of_nil in H.
  - vm_compute; reflexivity.
  - vm_compute; reflexivity.
Defined.

(** ** Flaws *)

(** the first component of a relative path is never made: a file cannot be copied to a
    new directory "up" *)
Lemma relative_directory_not_made c name t f :
  slash ∉ c -> slash ∉ new_name name f -> c <> [] -> is_directory t c = false ->
  copy_to c name t f = None.
Proof.
  intros Hc Hs Hne Hd. unfold copy_to, check_and_create_directory.
  rewrite split_clean by (apply Forall_forall; intros x Hx; set_solver). cbn [make_directories mbind option_bind].
  destruct c as [|x c] using rev_ind; [done|]. unfold target. rewrite last_snoc. cbn [mbind option_bind].
  destruct (x =? slash)%Z eqn:E; zbool; [subst; set_solver|]. unfold copy_file.
  destruct (read_file (files t) (file_path_ f)); [|done]. cbn [mbind option_bind].
  rewrite <-app_assoc. cbn [app]. fold (base_name (file_path_ f)). fold (new_name name f).
  replace (c ++ x :: slash :: new_name name f) with ((c ++ [x]) ++ slash :: new_name name f) by (by rewrite <-app_assoc).
  rewrite parent_path_snoc, Hd by done. by rewrite orb_true_r.
Qed.
