(* ===== verification/Connection.v ===== *)
(** * The connection

    src/include/netcore/connection.hpp: how a connection turns the bytes received
    so far into calls of the handlers and into a response.  The reactions that
    process() chooses between are one Definition each; [None] is undefined
    behaviour: an access outside a buffer, a failed assertion, an exception nobody
    catches.  The handlers, checks and event callbacks are the fields of
    [environment]; [app_] is what they keep for themselves.  files_ is the member
    of the request, [disk_] the file system, [wire_] what has been sent with
    direct_write.  The file tag is in StaticFile.v.  The messages a
    connection sends by itself are in WsSend.v.  Not modelled: gzip. *)

From Stdlib Require Import ZArith Lia.
From stdpp Require Import base numbers list gmap strings.
From S2P Require Import Prelude CStd PicoHttp PicoHttpFacts Codec Utils Multipart WebSocket Response Upload Request Chunked.
Local Open Scope Z_scope.

Inductive process_state := need_read | need_write | need_write_then_read.
#[export] Instance process_state_eq_dec : EqDecision process_state.
Proof. solve_decision. Defined.

(** the member functions continue_work_ points to *)
Inductive work := work_write_then_route | work_read_multipart | work_ws_data.
#[export] Instance work_eq_dec : EqDecision work.
Proof. solve_decision. Defined.

Section connection.
Context {A : Type}.

Record connection := mk_connection {
  req_ : request;
  res_ : response;
  ws_ : websocket;
  is_upgrade_ : bool;
  keep_alive_ : bool;
  has_shake_ : bool;
  last_ws_str_ : bytes;
  chunked_header_ : bytes;
  multipart_parser_ : multipart_parser;
  multipart_reader_ : multipart_reader;
  is_multi_part_file_ : bool;
  last_transfer_ : Z;
  continue_work_ : option work;
  has_closed_ : bool;
  files_ : list upload_file;
  disk_ : filesystem;
  wire_ : list bytes;
  app_ : A
}.

(** assignments to one member *)
Definition put_req (v : request) (c : connection) : connection :=
  mk_connection v (res_ c) (ws_ c) (is_upgrade_ c) (keep_alive_ c) (has_shake_ c) (last_ws_str_ c) (chunked_header_ c) (multipart_parser_ c) (multipart_reader_ c) (is_multi_part_file_ c) (last_transfer_ c) (continue_work_ c) (has_closed_ c) (files_ c) (disk_ c) (wire_ c) (app_ c).
Definition put_res (v : response) (c : connection) : connection :=
  mk_connection (req_ c) v (ws_ c) (is_upgrade_ c) (keep_alive_ c) (has_shake_ c) (last_ws_str_ c) (chunked_header_ c) (multipart_parser_ c) (multipart_reader_ c) (is_multi_part_file_ c) (last_transfer_ c) (continue_work_ c) (has_closed_ c) (files_ c) (disk_ c) (wire_ c) (app_ c).
Definition put_ws (v : websocket) (c : connection) : connection :=
  mk_connection (req_ c) (res_ c) v (is_upgrade_ c) (keep_alive_ c) (has_shake_ c) (last_ws_str_ c) (chunked_header_ c) (multipart_parser_ c) (multipart_reader_ c) (is_multi_part_file_ c) (last_transfer_ c) (continue_work_ c) (has_closed_ c) (files_ c) (disk_ c) (wire_ c) (app_ c).
Definition put_is_upgrade (v : bool) (c : connection) : connection :=
  mk_connection (req_ c) (res_ c) (ws_ c) v (keep_alive_ c) (has_shake_ c) (last_ws_str_ c) (chunked_header_ c) (multipart_parser_ c) (multipart_reader_ c) (is_multi_part_file_ c) (last_transfer_ c) (continue_work_ c) (has_closed_ c) (files_ c) (disk_ c) (wire_ c) (app_ c).
Definition put_keep_alive (v : bool) (c : connection) : connection :=
  mk_connection (req_ c) (res_ c) (ws_ c) (is_upgrade_ c) v (has_shake_ c) (last_ws_str_ c) (chunked_header_ c) (multipart_parser_ c) (multipart_reader_ c) (is_multi_part_file_ c) (last_transfer_ c) (continue_work_ c) (has_closed_ c) (files_ c) (disk_ c) (wire_ c) (app_ c).
Definition put_has_shake (v : bool) (c : connection) : connection :=
  mk_connection (req_ c) (res_ c) (ws_ c) (is_upgrade_ c) (keep_alive_ c) v (last_ws_str_ c) (chunked_header_ c) (multipart_parser_ c) (multipart_reader_ c) (is_multi_part_file_ c) (last_transfer_ c) (continue_work_ c) (has_closed_ c) (files_ c) (disk_ c) (wire_ c) (app_ c).
Definition put_last_ws_str (v : bytes) (c : connection) : connection :=
  mk_connection (req_ c) (res_ c) (ws_ c) (is_upgrade_ c) (keep_alive_ c) (has_shake_ c) v (chunked_header_ c) (multipart_parser_ c) (multipart_reader_ c) (is_multi_part_file_ c) (last_transfer_ c) (continue_work_ c) (has_closed_ c) (files_ c) (disk_ c) (wire_ c) (app_ c).
Definition put_chunked_header (v : bytes) (c : connection) : connection :=
  mk_connection (req_ c) (res_ c) (ws_ c) (is_upgrade_ c) (keep_alive_ c) (has_shake_ c) (last_ws_str_ c) v (multipart_parser_ c) (multipart_reader_ c) (is_multi_part_file_ c) (last_transfer_ c) (continue_work_ c) (has_closed_ c) (files_ c) (disk_ c) (wire_ c) (app_ c).
Definition put_multipart_parser (v : multipart_parser) (c : connection) : connection :=
  mk_connection (req_ c) (res_ c) (ws_ c) (is_upgrade_ c) (keep_alive_ c) (has_shake_ c) (last_ws_str_ c) (chunked_header_ c) v (multipart_reader_ c) (is_multi_part_file_ c) (last_transfer_ c) (continue_work_ c) (has_closed_ c) (files_ c) (disk_ c) (wire_ c) (app_ c).
Definition put_multipart_reader (v : multipart_reader) (c : connection) : connection :=
  mk_connection (req_ c) (res_ c) (ws_ c) (is_upgrade_ c) (keep_alive_ c) (has_shake_ c) (last_ws_str_ c) (chunked_header_ c) (multipart_parser_ c) v (is_multi_part_file_ c) (last_transfer_ c) (continue_work_ c) (has_closed_ c) (files_ c) (disk_ c) (wire_ c) (app_ c).
Definition put_is_multi_part_file (v : bool) (c : connection) : connection :=
  mk_connection (req_ c) (res_ c) (ws_ c) (is_upgrade_ c) (keep_alive_ c) (has_shake_ c) (last_ws_str_ c) (chunked_header_ c) (multipart_parser_ c) (multipart_reader_ c) v (last_transfer_ c) (continue_work_ c) (has_closed_ c) (files_ c) (disk_ c) (wire_ c) (app_ c).
Definition put_last_transfer (v : Z) (c : connection) : connection :=
  mk_connection (req_ c) (res_ c) (ws_ c) (is_upgrade_ c) (keep_alive_ c) (has_shake_ c) (last_ws_str_ c) (chunked_header_ c) (multipart_parser_ c) (multipart_reader_ c) (is_multi_part_file_ c) v (continue_work_ c) (has_closed_ c) (files_ c) (disk_ c) (wire_ c) (app_ c).
Definition put_continue_work (v : option work) (c : connection) : connection :=
  mk_connection (req_ c) (res_ c) (ws_ c) (is_upgrade_ c) (keep_alive_ c) (has_shake_ c) (last_ws_str_ c) (chunked_header_ c) (multipart_parser_ c) (multipart_reader_ c) (is_multi_part_file_ c) (last_transfer_ c) v (has_closed_ c) (files_ c) (disk_ c) (wire_ c) (app_ c).
Definition put_has_closed (v : bool) (c : connection) : connection :=
  mk_connection (req_ c) (res_ c) (ws_ c) (is_upgrade_ c) (keep_alive_ c) (has_shake_ c) (last_ws_str_ c) (chunked_header_ c) (multipart_parser_ c) (multipart_reader_ c) (is_multi_part_file_ c) (last_transfer_ c) (continue_work_ c) v (files_ c) (disk_ c) (wire_ c) (app_ c).
Definition put_files (v : list upload_file) (c : connection) : connection :=
  mk_connection (req_ c) (res_ c) (ws_ c) (is_upgrade_ c) (keep_alive_ c) (has_shake_ c) (last_ws_str_ c) (chunked_header_ c) (multipart_parser_ c) (multipart_reader_ c) (is_multi_part_file_ c) (last_transfer_ c) (continue_work_ c) (has_closed_ c) v (disk_ c) (wire_ c) (app_ c).
Definition put_disk (v : filesystem) (c : connection) : connection :=
  mk_connection (req_ c) (res_ c) (ws_ c) (is_upgrade_ c) (keep_alive_ c) (has_shake_ c) (last_ws_str_ c) (chunked_header_ c) (multipart_parser_ c) (multipart_reader_ c) (is_multi_part_file_ c) (last_transfer_ c) (continue_work_ c) (has_closed_ c) (files_ c) v (wire_ c) (app_ c).
Definition put_wire (v : list bytes) (c : connection) : connection :=
  mk_connection (req_ c) (res_ c) (ws_ c) (is_upgrade_ c) (keep_alive_ c) (has_shake_ c) (last_ws_str_ c) (chunked_header_ c) (multipart_parser_ c) (multipart_reader_ c) (is_multi_part_file_ c) (last_transfer_ c) (continue_work_ c) (has_closed_ c) (files_ c) (disk_ c) v (app_ c).
Definition put_app (v : A) (c : connection) : connection :=
  mk_connection (req_ c) (res_ c) (ws_ c) (is_upgrade_ c) (keep_alive_ c) (has_shake_ c) (last_ws_str_ c) (chunked_header_ c) (multipart_parser_ c) (multipart_reader_ c) (is_multi_part_file_ c) (last_transfer_ c) (continue_work_ c) (has_closed_ c) (files_ c) (disk_ c) (wire_ c) v.

(** what the connection is given: the functions its pointers lead to, the
    directory for uploads, the clocks, what ::send answers, and the contents of
    uninitialised memory *)
Record environment := mk_env {
  http_handler_ : connection -> option connection;
  http_handler_check_ : connection -> option (connection * bool);
  ws_connection_check_ : option (request -> response -> request * response * bool);
  upload_check_ : option (request -> response -> request * response * bool);
  check_headers_ : request -> bool;
  multipart_begin_ : option (request -> bytes -> request * bytes);
  event_call_backs_ : data_proc_state -> connection -> connection;
  static_dir_ : bytes;
  can_open_ : bytes -> bool;
  sse_ : bool;
  offset_ : Z -> Z;
  now_ : Z;
  nano_ : connection -> Z;
  send_results_ : list Z;
  sha_garbage_ : bytes;
  fresh_ : bytes
}.

Context (env : environment).

Definition modify_req (f : request -> request) (c : connection) : connection := put_req (f (req_ c)) c.
Definition modify_res (f : response -> response) (c : connection) : connection := put_res (f (res_ c)) c.

(** ** Responses *)

Definition response_back (status : status_type) (content : bytes) (c : connection) : connection :=
  modify_res (fun r => set_status_and_content (offset_ env) (now_ env) r status content ct_none enc_none) c.
Definition response_back_status (status : status_type) (c : connection) : connection :=
  modify_res (fun r => set_status_and_content0 (offset_ env) (now_ env) r status) c.

Definition on_error (status : status_type) (reason : bytes) (c : connection) : connection :=
  response_back status reason (modify_req (put_state data_error) (put_keep_alive false c)).

(** ** The life of a connection *)

Definition close_files (fs : list upload_file) : list upload_file :=
  match last fs with Some f => removelast fs ++ [Upload.close f] | None => fs end.

Definition reset (c : connection) : connection :=
  let c := put_last_transfer 0 c in
  let c := put_files [] (modify_req reset_request c) in
  modify_res Response.reset c.

Definition Close (c : connection) : connection :=
  if has_closed_ c then c
  else
    let c := reset c in
    let c := put_files (close_files (files_ c)) c in
    let c := put_has_closed true c in
    let c := put_has_shake false c in
    put_continue_work None c.

Definition on_close (c : connection) : connection :=
  Close (modify_req (put_state data_error) (put_keep_alive false c)).

Definition init (c : connection) : connection :=
  match continue_work_ c with None => put_has_closed false c | Some _ => c end.

Definition is_ws_socket (c : connection) : bool := is_upgrade_ c.
Definition IsKeepAlive (c : connection) : bool := keep_alive_ c && is_upgrade_ c.

(** ** Writing *)

Definition write_chunked_header (mime : bytes) (is_range : bool) (c : connection) : connection :=
  let c := modify_req (put_http_type cty_chunked) c in
  let header := (if is_range then http_range_chunk_header else http_chunk_header) ++
                bs "Content-Type: " ++ mime ++ CRLF ++ CRLF in
  let c := put_chunked_header [] (modify_res (fun r => set_response r header) c) in
  let c := modify_req (put_state data_continue) c in
  put_continue_work (Some work_write_then_route) c.

Definition write_ranges_header (header_str : bytes) (c : connection) : connection :=
  let c := modify_res (fun r => set_response r header_str) c in
  let c := modify_req (put_state data_continue) c in
  put_continue_work (Some work_write_then_route) c.

Definition write_ranges_data (buf : bytes) (eof : bool) (c : connection) : connection :=
  let c := modify_res (fun r => set_response r buf) c in
  modify_req (put_state (if eof then data_end else data_continue)) c.

(** Writen: the part of the buffer that ::send takes, by what its calls answer *)
Fixpoint Writen (results : list Z) (buffer : bytes) : bytes :=
  match buffer, results with
  | [], _ | _, [] => []
  | _, n :: results => if n <=? 0 then [] else take (Z.to_nat n) buffer ++ Writen results (drop (Z.to_nat n) buffer)
  end.
Definition direct_write (data : bytes) (c : connection) : connection :=
  put_wire (wire_ c ++ [Writen (send_results_ env) data]) c.

(** ** Handlers *)

Definition call_back (c : connection) : option connection := http_handler_ env c.
Definition call_event (s : data_proc_state) (c : connection) : connection := event_call_backs_ env s c.
Definition peek_route (c : connection) : option (connection * bool) := http_handler_check_ env c.
Definition call_back_data (c : connection) : option connection :=
  modify_req (put_part_data []) <$> call_back (modify_req (put_state data_continue) c).
(** the handler, then the response *)
Definition route_then_write (c : connection) : option (connection * process_state) :=
  c ← call_back c;
  Some (c, need_write).
Definition continue_write_then_route (c : connection) : option (connection * process_state) := route_then_write c.

Definition check_keep_alive (c : connection) : connection :=
  let h := Request.get_header_value (req_ c) (bs "connection") in
  let keep := if is_http11 (req_ c) then bool_decide (h = []) || negb (iequal h (bs "close"))
              else negb (bool_decide (h = [])) && iequal h (bs "keep-alive") in
  let c := put_keep_alive keep c in
  let c := modify_res (fun r => set_keep_alive r keep) c in
  if keep then
    let '(ws, up) := is_upgrade (ws_ c) (get_method (req_ c)) (Request.get_header_value (req_ c)) in
    put_is_upgrade up (put_ws ws c)
  else c.

(** the content type; a multipart boundary is set up in the parser *)
Definition unquote (bd : bytes) : bytes :=
  match bd with
  | 34 :: _ => match last bd with Some 34 => take (length bd - 2) (drop 1 bd) | _ => bd end
  | _ => bd
  end.
Definition contains (s p : bytes) : bool := match find_str p s with Some _ => true | None => false end.

Definition get_content_type (c : connection) : connection * content_type :=
  if is_chunked_ (req_ c) then (c, cty_chunked)
  else
    let ct := Request.get_header_value (req_ c) (bs "content-type") in
    if bool_decide (ct = []) then (c, cty_unknown)
    else if contains ct (bs "application/x-www-form-urlencoded") then (c, cty_urlencoded)
    else if contains ct (bs "multipart/form-data") then
      let bd := match find_char 61 ct with Some size => drop (size + 1) ct | None => ct end in
      (put_multipart_parser (set_boundary (CRLF ++ bs "--" ++ unquote bd) (fresh_ env)) c, cty_multipart)
    else if contains ct (bs "application/octet-stream") then (c, cty_octet_stream)
    else if contains ct (bs "application/json") then (c, cty_json)
    else (c, cty_string).

(** ** Multipart bodies *)

Definition open_upload_file (filename : bytes) (c : connection) : connection :=
  let '(fs, f, r) := open (can_open_ env) filename (disk_ c) new_file in
  let c := put_disk fs c in
  if (r : bool) then put_files (files_ c ++ [f]) c else c.

Definition on_part_begin_hook (headers : list (bytes * bytes)) (c : connection) : connection :=
  let c := modify_req (set_multipart_headers headers) c in
  let filename := get_multipart_field_name (req_ c) (bs "filename") in
  let is_file := is_multipart_file (req_ c) in
  let c := put_is_multi_part_file is_file c in
  if bool_decide (filename = []) && is_file then
    response_back st_bad_request (bs "mutipart error") (modify_req (put_state data_error) c)
  else if is_file then
    let ext := get_extension filename in
    let name := static_dir_ env ++ bs "/" ++ to_string (nano_ env c) ++ ext ++ bs "_ing" in
    match multipart_begin_ env with
    | Some begin =>
        let '(req, name) := begin (req_ c) name in
        open_upload_file (static_dir_ env ++ bs "/" ++ name) (put_req req c)
    | None => open_upload_file name c
    end
  else
    let key := get_multipart_field_name (req_ c) (bs "name") in
    modify_req (save_multipart_key_value key []) c.

(** write_upload_data asserts that a file has been opened *)
Definition write_upload_data (data : bytes) (c : connection) : option connection :=
  if (length data =? 0)%nat then Some c
  else
    f ← last (files_ c);
    let '(fs, f) := write data (disk_ c) f in
    Some (put_files (removelast (files_ c) ++ [f]) (put_disk fs c)).

Definition on_part_data_hook (data : bytes) (c : connection) : option connection :=
  if bool_decide (state_ (req_ c) = data_error) then Some c
  else if is_multi_part_file_ c then write_upload_data data c
  else
    let key := get_multipart_field_name (req_ c) (bs "name") in
    Some (modify_req (update_multipart_value key data) c).

Definition on_part_end_hook (c : connection) : connection :=
  if bool_decide (state_ (req_ c) = data_error) then c
  else if is_multi_part_file_ c then
    let c := put_files (close_files (files_ c)) c in
    match last (files_ c) with
    | Some f =>
        let old_name := get_file_path f in
        match rfind_str (bs "_ing") old_name with
        | Some _ =>
            let '(fs, f) := rename_file (take (length old_name - 4) old_name) (disk_ c) f in
            put_files (removelast (files_ c) ++ [f]) (put_disk fs c)
        | None => c
        end
    | None => c
    end
  else c.

Definition on_end_hook (c : connection) : connection :=
  if bool_decide (state_ (req_ c) = data_error) then c else modify_req handle_multipart_key_value c.

Definition run_hook (h : reader_call) (c : connection) : option connection :=
  match h with
  | on_part_begin headers => Some (on_part_begin_hook headers c)
  | on_part_data s => on_part_data_hook s c
  | on_part_end => Some (on_part_end_hook c)
  | on_end => Some (on_end_hook c)
  end.
Fixpoint run_hooks (hs : list reader_call) (c : connection) : option connection :=
  match hs with
  | [] => Some c
  | h :: hs => c ← run_hook h c; run_hooks hs c
  end.

(** one call of feed with its callbacks; the number of bytes it takes *)
Definition feed_hooks (data : bytes) (c : connection) : option (connection * nat) :=
  match feed (multipart_parser_ c) data with
  | Some (Fed n p es) =>
      let '(r, hs) := reader_run (multipart_reader_ c) es in
      c ← run_hooks hs (put_multipart_reader r (put_multipart_parser p c));
      Some (c, n)
  | _ => None
  end.

(** the loop of parse_multipart: it ends because a call that leaves bytes over
    has stopped the parser *)
Fixpoint feed_rest (fuel : nat) (data : bytes) (c : connection) : option connection :=
  match fuel with
  | O => None
  | S fuel =>
      '(c, n) ← feed_hooks data c;
      if (n <? length data)%nat && negb (stopped (multipart_parser_ c)) then feed_rest fuel (drop n data) c
      else Some c
  end.

(** parse_multipart: whether there was an error *)
Definition parse_multipart (size length : Z) (c : connection) : option (connection * bool) :=
  if length =? 0 then Some (c, false)
  else if buf_size (req_ c) <? size + length then None
  else
    let data := slice (buf_ (req_ c)) (Z.to_nat size) (Z.to_nat length) in
    let c := modify_req (put_part_data data) c in
    let multipart_body := if has_gzip_ (req_ c) then [] else part_data_ (req_ c) in
    c ← feed_rest (S (List.length multipart_body)) multipart_body c;
    if has_error (multipart_parser_ c) then Some (modify_req (put_state data_error) c, true)
    else Some (modify_req (reduce_left_body_size length) c, false).

Definition handle_multipart (c : connection) : option (connection * process_state) :=
  let '(c, allowed) := match upload_check_ env with
    | Some check => let '(req, res, r) := check (req_ c) (res_ c) in (put_res res (put_req req c), r)
    | None => (c, true)
    end in
  if negb allowed then
    Some (response_back st_bad_request (bs "upload_check_ error at line 553") (Close c), need_write)
  else
    '(c, has_error) ← parse_multipart (header_len (req_ c)) (wrap64 (current_size (req_ c) - header_len (req_ c))) c;
    if (has_error : bool) then Some (response_back st_bad_request (bs "mutipart error") c, need_write)
    else if has_recieved_all_part (req_ c) then route_then_write c
    else
      let c := modify_req (set_current_size 0) c in
      Some (put_continue_work (Some work_read_multipart) c, need_read).

Definition do_read_multipart (c : connection) : option (connection * process_state) :=
  let c := modify_req fit_size c in
  '(c, has_error) ← parse_multipart 0 (last_transfer_ c) c;
  if (has_error : bool) then
    Some (put_continue_work None (response_back st_bad_request (bs "mutipart error") (put_keep_alive false c)),
          need_write)
  else if body_finished (req_ c) then
    c ← call_back c;
    Some (put_continue_work None c, need_write)
  else
    let c := modify_req (set_current_size 0) c in
    Some (put_continue_work (Some work_read_multipart) c, need_read).

(** ** Other bodies *)

Definition too_long : bytes := bs "The request is too long, limitation is 3M".

(** uncompress does nothing in a build without gzip *)
Definition handle_body (c : connection) : option (connection * process_state) :=
  if at_capacity (req_ c) then
    Some (response_back st_bad_request (bs "The body is too long, limitation is 3M") c, need_write)
  else if bool_decide (http_type_ (req_ c) = cty_multipart) then
    '(c, has_error) ← parse_multipart (header_len (req_ c)) (wrap64 (current_size (req_ c) - header_len (req_ c))) c;
    Some (if (has_error : bool) then response_back st_bad_request (bs "mutipart error") c else c, need_write)
  else if (0 <? body_len (req_ c)) && negb (check_headers_ env (req_ c)) then
    Some (response_back st_bad_request (bs "request check error") c, need_write)
  else route_then_write c.

Definition handle_string_body (c : connection) : option (connection * process_state) :=
  if at_capacity (req_ c) then Some (response_back st_bad_request too_long c, need_write)
  else if has_recieved_all (req_ c) then
    '(c, _) ← handle_body c;
    Some (c, need_write)
  else
    let c := modify_req expand_size c in
    if current_size (req_ c) <? header_len (req_ c) then None
    else
      let part_size := wrap64 (current_size (req_ c) - header_len (req_ c)) in
      if part_size =? wrap64 (-1) then Some (response_back_status st_internal_server_error c, need_write)
      else Some (modify_req (reduce_left_body_size part_size) c, need_read).

Definition handle_url_urlencoded_body (c : connection) : option connection :=
  '(req, success) ← parse_form_urlencoded (req_ c);
  let c := put_req req c in
  if negb success then Some (response_back st_bad_request (bs "form urlencoded error") c)
  else if (0 <? body_len (req_ c)) && negb (check_headers_ env (req_ c)) then
    Some (response_back st_bad_request (bs "request check error") c)
  else call_back c.

Definition handle_form_urlencoded (bytes_transferred : Z) (c : connection) : option connection :=
  if at_capacity (req_ c) then Some (response_back st_bad_request too_long c)
  else if has_recieved_all (req_ c) then handle_url_urlencoded_body c
  else
    let c := modify_req expand_size c in
    let part_size := wrap64 (bytes_transferred - header_len (req_ c)) in
    Some (modify_req (reduce_left_body_size part_size) c).

(** parse_chunked always fails *)
Definition parse_chunked (c : connection) : Z := -1.
Definition handle_chunked (c : connection) : connection :=
  if parse_chunked c =? -1 then response_back st_internal_server_error (bs "not support yet") c else c.

Definition write_chunked_data (buf : bytes) (eof : bool) (c : connection) : connection :=
  let c := modify_res (fun r => set_response r (to_chunked_buffers buf eof)) c in
  modify_req (put_state (if eof then data_end else data_continue)) c.

(** ** Requests without a body *)

Definition response_handshake (c : connection) : option connection :=
  let c := modify_res (build_response_str (offset_ env) (now_ env)) c in
  if bool_decide (response_str (res_ c) = []) then Some (Close c)
  else
    let c := direct_write (response_str (res_ c)) c in
    let c := modify_req (put_state data_begin) c in
    c ← call_back c;
    let c := call_event (state_ (req_ c)) c in
    let c := modify_req (set_current_size 0) c in
    Some (put_continue_work (Some work_ws_data) c).

Definition handle_header_request (c : connection) : option (connection * process_state) :=
  if is_ws_socket c then
    let '(c, allowed) := match ws_connection_check_ env with
      | Some check => let '(req, res, r) := check (req_ c) (res_ c) in (put_res res (put_req req c), r)
      | None => (c, true)
      end in
    if negb allowed then
      let c := put_keep_alive false (put_is_upgrade false c) in
      Some (response_back st_forbidden (bs "not allowed") c, need_write)
    else
      let c := modify_req (put_http_type cty_websocket) c in
      hs ← upgrade_to_websocket (sha_garbage_ env) (ws_ c) (Request.get_header_value (req_ c));
      let c := modify_res (fun r => set_status r st_switching_protocols) c in
      let c := modify_res (fun r => fold_left (fun r h => add_header r h.1 h.2) hs r) c in
      c ← response_handshake c;
      Some (c, need_read)
  else route_then_write c.

(** ** WebSocket frames *)

(** handle_ws_frame; a close message of len bytes is read behind its code, where
    the payload and its terminator end *)
Definition handle_ws_frame (ret : ws_frame_type) (payload : bytes) (c : connection) : option (connection * bool) :=
  match ret with
  | WS_ERROR_FRAME => Some (Close (call_event data_error c), false)
  | WS_TEXT_FRAME | WS_BINARY_FRAME =>
      let temp := last_ws_str_ c ++ payload in
      let c := put_last_ws_str [] c in
      Some (call_event data_continue (modify_req (put_part_data temp) c), true)
  | WS_CLOSE_FRAME =>
      '(_, message) ← parse_close_payload payload;
      let len := Nat.min 123 (length payload) in
      close_msg ← match message with
        | None => if (len =? 0)%nat then Some [] else None
        | Some msg => if (length msg + 1 <? len)%nat then None else Some (take len (msg ++ [0]))
        end;
      let c := call_event data_close (modify_req (put_part_data close_msg) c) in
      let close_msg := format_close_payload (opcode_value WebSocket.close) close_msg in
      let header := format_header (Z.of_nat (length close_msg)) WebSocket.close in
      Some (modify_res (fun r => set_response r (header ++ close_msg)) c, false)
  | WS_PING_FRAME =>
      let header := format_header (Z.of_nat (length payload)) WebSocket.pong in
      Some (modify_res (fun r => set_response r (header ++ payload)) c, true)
  | _ => Some (c, true)
  end.

(** the loop of handle_ws_data: [start] moves past each header *)
Fixpoint ws_frames (fuel : nat) (buf : bytes) (start fin : nat) (c : connection)
  : option (connection * process_state) :=
  match fuel with
  | O => None
  | S fuel =>
      '(ws, ret) ← WebSocket.parse_header (ws_ c) (drop start buf) (fin - start);
      let c := put_ws ws c in
      if 0 <=? ret then
        let start := (start + Z.to_nat ret)%nat in
        let '(wsft, payload) := parse_payload (ws_ c) (slice buf start (fin - start)) [] in
        match wsft with
        | WS_INCOMPLETE_FRAME => Some (c, need_read)
        | _ =>
            let c := match wsft with
              | WS_INCOMPLETE_TEXT_FRAME | WS_INCOMPLETE_BINARY_FRAME =>
                  put_last_ws_str (last_ws_str_ c ++ payload) c
              | _ => c
              end in
            '(c, ok) ← handle_ws_frame wsft payload c;
            if negb ok then Some (c, need_write)
            else if is_fin (ws_ c) then Some (modify_req (set_current_size 0) c, need_write_then_read)
            else ws_frames fuel buf start fin c
        end
      else if ret =? -2 then Some (c, need_read)
      else Some (Close (call_event data_error c), need_write)
  end.
Definition handle_ws_data (c : connection) : option (connection * process_state) :=
  let fin := Z.to_nat (cur_size_ (req_ c)) in
  ws_frames (S fin) (buf_ (req_ c)) 0 fin c.

(** ** process *)

Definition handle_request (bytes_transferred : Z) (c : connection) : option (connection * process_state) :=
  if has_body (req_ c) then
    let '(c, type) := get_content_type c in
    let c := modify_req (put_http_type type) c in
    match type with
    | cty_string | cty_json | cty_unknown => handle_string_body c
    | cty_multipart => handle_multipart c
    | cty_octet_stream | cty_websocket => Some (c, need_write)
    | cty_urlencoded => c ← handle_form_urlencoded bytes_transferred c; Some (c, need_write)
    | cty_chunked => Some (handle_chunked c, need_write)
    end
  else handle_header_request c.

Definition handle_read (bytes_transferred : Z) (c : connection) : option (connection * process_state) :=
  '(req, ret) ← Request.parse_header (sse_ env) (check_headers_ env) 0 (req_ c);
  let c := put_req req c in
  if ret =? -1 then Some (response_back_status st_bad_request c, need_write)
  else
    '(c, found) ← peek_route c;
    if negb found then Some (response_back st_not_found (bs "404") c, need_write)
    else
      let c := check_keep_alive c in
      if ret =? -2 then Some (c, need_read) else handle_request bytes_transferred c.

Definition process (c : connection) : option (connection * process_state) :=
  if at_capacity (req_ c) then Some (response_back st_bad_request too_long c, need_write)
  else
    match continue_work_ c with
    | None => handle_read (last_transfer_ c) c
    | Some work_write_then_route => continue_write_then_route c
    | Some work_read_multipart => do_read_multipart c
    | Some work_ws_data => handle_ws_data c
    end.
End connection.
Arguments connection : clear implicits.
Arguments environment : clear implicits.

(** a new connection *)
Definition new_connection {A} (fresh_part : bytes) (disk : filesystem) (res_type : req_content_type) (now : Z) (app : A)
  : connection A :=
  mk_connection new_request (new_response res_type now) websocket0 false false false [] [] reset_parser reader0 false 0
    None false [] disk [] app.
