(* ===== verification/Server.v ===== *)
(** * The server

    include/netcore/http_server.hpp: the coroutine Server::handle that reads into
    the request's buffer, lets the connection process it and sends the response,
    and http_server, which puts the router behind the connection's handlers;
    include/netcore/core.hpp: the loops around ::recv and ::send below it;
    include/netcore/ws_before_ap.hpp.  What the socket answers is a list; where it
    ends, the coroutine is suspended in a read.  Where the socket takes only a part of a
    response the coroutine is suspended in that send, and this file stops: whether
    the rest is sent depends on the next events (RawConn.v, Rounds.v).  Static files are in StaticFile.v,
    accepting connections and the threads in Accept.v. *)

From Stdlib Require Import ZArith Lia.
From stdpp Require Import base numbers list gmap strings.
From S2P Require Import Prelude CStd PicoHttp PicoHttpFacts Codec Utils Response Request Connection.
From S2P Require Router.
Local Open Scope Z_scope.

(** ** The socket *)

(** what a call of ::recv or the wait before it answers: bytes (at least one),
    EAGAIN, the end of the stream, an error, a timeout *)
Inductive arrival := Arrive (b : Z) (s : bytes) | Again | Fin | Broken | Timeout.

Inductive read_result :=
| Received (data : bytes) (rest : list arrival)
| ReadThrow
| ReadWait.

(** recv: it reads until the socket has no more; a full buffer is an error, the
    end of the stream is answered with 0 bytes *)
Fixpoint recv (room : nat) (q : list arrival) (acc : bytes) : read_result :=
  match q with
  | [] | Timeout :: _ => ReadWait
  | Again :: q => Received acc q
  | Broken :: _ => ReadThrow
  | Fin :: q => Received [] q
  | Arrive b s :: q =>
      if (room =? 0)%nat then Received [] (Arrive b s :: q)
      else if (room <=? S (length s))%nat then ReadThrow
      else recv (room - S (length s)) q (acc ++ b :: s)
  end.
Definition async_read (room : Z) (q : list arrival) : read_result :=
  match q with
  | Timeout :: _ => ReadThrow
  | _ => recv (Z.to_nat room) q []
  end.

(** ::send takes some bytes, would block, or fails *)
Inductive send_answer := Took (n : nat) | WouldBlock | Failed.

(** send: how much was sent until it is done or would block, [None] for a throw *)
Fixpoint send (answers : list send_answer) (data : bytes) (sent : nat) : option (nat * list send_answer) :=
  match data with
  | [] => Some (sent, answers)
  | _ :: _ =>
      match answers with
      | [] => Some (sent, [])
      | WouldBlock :: answers => Some (sent, answers)
      | Failed :: _ => None
      | Took n :: answers => send answers (drop n data) (sent + Nat.min n (length data))
      end
  end.

Inductive send_result := Sent (answers : list send_answer) | SendThrow | SendWait (sent : nat).

(** async_send, up to where it suspends: await_suspend calls netcore::send once, if the
    socket is taken to be writable (else [answers] is empty); when all has been taken the
    coroutine goes on, when ::send failed await_resume throws, and otherwise the coroutine
    stays suspended with [sent] bytes out.  What becomes of it then depends on the events
    of the socket and is in RawConn.v *)
Definition async_send (answers : list send_answer) (data : bytes) : send_result :=
  match send answers data 0 with
  | None => SendThrow
  | Some (n, answers) => if (length data <=? n)%nat then Sent answers else SendWait n
  end.

(** ** Server::handle *)

(** bytes arriving at buffer() *)
Definition fill (data : bytes) (r : request) : request :=
  let n := Z.to_nat (cur_size_ r) in
  put_buf (take n (buf_ r) ++ data ++ drop (n + length data) (buf_ r)) r.

(** [Suspended] in a read, where the arrivals end; [InSend n] in a send of which n bytes
    are out *)
Inductive outcome := Suspended | InSend (n : nat) | Returned | Thrown | Undefined | OutOfFuel.

Section handle.
Context {A : Type} (env : environment A).

(** the outcome, the connection and the responses sent as a whole *)
Fixpoint handle (fuel : nat) (q : list arrival) (answers : list send_answer) (sent : list bytes) (c : connection A)
  : outcome * connection A * list bytes :=
  match fuel with
  | O => (OutOfFuel, c, sent)
  | S fuel =>
      match async_read (left_size (req_ c)) q with
      | ReadWait => (Suspended, c, sent)
      | ReadThrow => (Thrown, c, sent)
      | Received [] _ => (Returned, c, sent)
      | Received data q =>
          let c := modify_req (fill data) c in
          let '(req, overflow) := update_size (Z.of_nat (length data)) (req_ c) in
          let c := put_req req c in
          if (overflow : bool) then
            (Returned, response_back env st_bad_request (bs "overflow MaxSize 3M") c, sent)
          else
            match process env c with
            | None => (Undefined, c, sent)
            | Some (c, need_read) => handle fuel q answers sent c
            | Some (c, st) =>
                let rep_str := response_str (res_ c) in
                match async_send answers rep_str with
                | SendThrow => (Thrown, c, sent)
                | SendWait n => (InSend n, c, sent)
                | Sent answers =>
                    let sent := sent ++ [rep_str] in
                    if bool_decide (st = need_write) then (Returned, c, sent) else handle fuel q answers sent c
                end
            end
      end
  end.
End handle.

(** ** ws_before_ap.hpp *)

Definition ws_aps : Type := gmap bytes (request -> response -> request * response * bool).
Definition regist (name : bytes) (ap : request -> response -> request * response * bool) (m : ws_aps) : ws_aps :=
  match m !! name with Some _ => m | None => <[name := ap]> m end.
Definition invoke (m : ws_aps) (url_name : bytes) (req : request) (res : response) : request * response * bool :=
  match m !! url_name with Some f => f req res | None => (req, res, false) end.

(** ** http_server *)

Section http_server.
Context {A : Type}.

(** what a function of the application may throw *)
Inductive business_exception := Std_exception (what : bytes) | Unknown_exception.
(** what the router hands through the functions of the application: the connection, and
    what was thrown; behind a throw nothing runs *)
Definition business : Type := connection A * option business_exception.
Definition calls (g : connection A -> business) (w : business) : business :=
  match w.2 with None => g w.1 | Some _ => w end.
(** a function that does not throw *)
Definition returns (g : connection A -> connection A) (c : connection A) : business := (g c, None).

Record http_server := mk_server {
  http_router_ : Router.http_router business;
  ws_before_ap : ws_aps;
  not_found_ : option (connection A -> business);
  upload_checker_ : option (request -> response -> request * response * bool);
  static_path_ : bytes;      (** static_dir_ *)
  upload_path_ : bytes       (** upload_dir_ *)
}.

Context (offset : Z -> Z) (now : Z)
  (order : gmap bytes (Router.invoker_function business) -> list (bytes * Router.invoker_function business)).

(** the catch clauses *)
Definition exception_text (e : business_exception) : bytes :=
  match e with
  | Std_exception what => what ++ bs " exception in business function"
  | Unknown_exception => bs "unknown exception in business function"
  end.
Definition settle (w : business) : connection A :=
  match w.2 with
  | None => w.1
  | Some e => modify_res (fun r => set_status_and_content offset now r st_internal_server_error (exception_text e) ct_none enc_none) w.1
  end.

(** http_handler_check_; two rounds are enough for the router *)
Definition http_handler_check (s : http_server) (route_it : bool) (c : connection A) : option (connection A * bool) :=
  '(success, w) ← Router.route 2 order (http_router_ s) (get_method (req_ c)) (Request.get_url (req_ c)) route_it (c, None);
  Some (match w.2 with
        | Some _ => (settle w, false)
        | None =>
            let c := w.1 in
            if (success : bool) then (c, true)
            else (match not_found_ s with
                  | Some f => settle (f c)
                  | None => modify_res (fun r => set_status_and_content offset now r st_not_found (bs "404") ct_none enc_none) c
                  end, false)
        end).

(** http_handler_ hands the request's headers to the response first *)
Definition pass_headers (c : connection A) : connection A :=
  modify_res (fun r => Response.set_headers r
    (if bool_decide (copy_headers_ (req_ c) = []) then header_texts (req_ c) else copy_headers_ (req_ c))) c.
Definition http_handler (s : http_server) (c : connection A) : option (connection A) :=
  '(c, _) ← http_handler_check s true (pass_headers c);
  Some c.

Definition ws_connection_check (s : http_server) (req : request) (res : response) : request * response * bool :=
  invoke (ws_before_ap s) (Request.get_url req) req res.

Definition regist_ws_conn_check (url_name : bytes) (ap : request -> response -> request * response * bool)
    (s : http_server) : http_server :=
  mk_server (http_router_ s) (regist url_name ap (ws_before_ap s)) (not_found_ s) (upload_checker_ s) (static_path_ s) (upload_path_ s).
Definition put_router (rt : Router.http_router business) (s : http_server) : http_server :=
  mk_server rt (ws_before_ap s) (not_found_ s) (upload_checker_ s) (static_path_ s) (upload_path_ s).
Definition set_http_handler (methods : list http_method) (name : bytes) (g : connection A -> business)
    (s : http_server) : option http_server :=
  rt ← Router.register_handler (http_router_ s) methods name (calls g);
  Some (put_router rt s).

Definition set_http_regex_handler (methods : list http_method) (name : bytes -> bool) (g : connection A -> business)
    (s : http_server) : http_server :=
  put_router (Router.register_handler_for_regex (http_router_ s) methods name (calls g)) s.

(** set_file_dir: [absolute] and [current_path] are those of std::filesystem *)
Definition set_file_dir (absolute : bytes -> bytes) (current_path path : bytes) : bytes :=
  match path with
  | [] => current_path
  | c :: rest => if (c =? 47) || match rest with 58 :: _ => true | _ => false end then path else absolute path
  end.
Definition set_static_dir (absolute : bytes -> bytes) (current_path path : bytes) (s : http_server) : http_server :=
  mk_server (http_router_ s) (ws_before_ap s) (not_found_ s) (upload_checker_ s) (set_file_dir absolute current_path path)
    (upload_path_ s).
Definition set_upload_dir (absolute : bytes -> bytes) (current_path path : bytes) (s : http_server) : http_server :=
  mk_server (http_router_ s) (ws_before_ap s) (not_found_ s) (upload_checker_ s) (static_path_ s)
    (set_file_dir absolute current_path path).

(** the handlers that make_connection passes on; a connection stores uploads in what it
    is given as static_dir_ *)
Definition make_env (s : http_server) (events : data_proc_state -> connection A -> connection A)
    (can_open : bytes -> bool) (nano : connection A -> Z) (send_results : list Z) (garbage fresh : bytes) : environment A :=
  mk_env (http_handler s) (http_handler_check s false) (Some (ws_connection_check s)) (upload_checker_ s)
    (fun _ => true) None events (static_path_ s) can_open true offset now nano send_results garbage fresh.
End http_server.

