(* ===== verification/RawConn.v ===== *)
(** * A connection and the events of its socket

    include/netcore/core.hpp: RawConnection with its two awaiters, what they do
    when a coroutine awaits them, and ConnCallBack::on_callback, which the event
    loop calls with the events of the (edge-triggered) socket.  The coroutine is
    a parameter: how it goes on from what an await gave it.  An event comes with
    what the socket answers while it is handled.  [None] is undefined behaviour: a
    null awaiter that is used, or the connection read after the coroutine has
    ended and freed it. *)

From Stdlib Require Import ZArith Lia.
From stdpp Require Import base numbers list strings.
From S2P Require Import Prelude Server.

(** what a coroutine awaits, and what an await gives it *)
Inductive co_await := AwaitRead (buff_size : nat) | AwaitSend (data : bytes) | Done.
Inductive co_result := Read (data : bytes) | SentBytes (n : nat) | Rethrown.

Record io_event := mk_event {
  epollin : bool;
  epollout : bool;
  arrivals : list arrival;       (** what ::recv finds; then it would block *)
  answers : list send_answer     (** how ::send is answered; then it would block *)
}.

(** m_tranfer_bytes of a send awaiter counts what was sent *)
Record send_awaiter := mk_send { m_buff : bytes; m_tranfer_bytes : nat }.

Definition left_buf (a : send_awaiter) : bytes := drop (m_tranfer_bytes a) (m_buff a).
Definition update_sent_size (n : nat) (a : send_awaiter) : send_awaiter := mk_send (m_buff a) (m_tranfer_bytes a + n).
Definition finised (a : send_awaiter) : bool := (length (m_buff a) <=? m_tranfer_bytes a)%nat.

Section RawConnection.
Context {S : Type}.
Variable coroutine : S -> co_result -> option (S * bool * co_await).  (** the flag: clear_except *)

Record RawConnection := mk_conn {
  co : S;
  m_read_awaiter : option nat;
  m_send_awaiter : option send_awaiter;
  m_except : bool;
  m_recv_at_awaiter : bool;
  m_send_at_awaiter : bool;
  freed : bool;
  wire : bytes;                  (** what ::send has taken *)
  in_q : list arrival;
  out_q : list send_answer
}.

Definition put_sending (a : option send_awaiter) (sent : bytes) (q : list send_answer) (c : RawConnection) : RawConnection :=
  mk_conn (co c) (m_read_awaiter c) a (m_except c) (m_recv_at_awaiter c) (m_send_at_awaiter c) (freed c) (wire c ++ sent) (in_q c) q.
Definition put_reading (a : option nat) (q : list arrival) (c : RawConnection) : RawConnection :=
  mk_conn (co c) a (m_send_awaiter c) (m_except c) (m_recv_at_awaiter c) (m_send_at_awaiter c) (freed c) (wire c) q (out_q c).
Definition put_flags (recv_at send_at : bool) (c : RawConnection) : RawConnection :=
  mk_conn (co c) (m_read_awaiter c) (m_send_awaiter c) (m_except c) recv_at send_at (freed c) (wire c) (in_q c) (out_q c).
Definition put_except (x : bool) (c : RawConnection) : RawConnection :=
  mk_conn (co c) (m_read_awaiter c) (m_send_awaiter c) x (m_recv_at_awaiter c) (m_send_at_awaiter c) (freed c) (wire c) (in_q c) (out_q c).
Definition put_co (s : S) (c : RawConnection) : RawConnection :=
  mk_conn s (m_read_awaiter c) (m_send_awaiter c) (m_except c) (m_recv_at_awaiter c) (m_send_at_awaiter c) (freed c) (wire c) (in_q c) (out_q c).
Definition put_freed (c : RawConnection) : RawConnection :=
  mk_conn (co c) None None (m_except c) false false true (wire c) (in_q c) (out_q c).

(** netcore::recv into an awaiter's buffer: the bytes, and what is left of the
    socket's data (at its end the socket would block); a throw goes into m_except *)
Definition do_recv (size : nat) (c : RawConnection) : bytes * RawConnection :=
  match recv size (in_q c ++ [Again]) [] with
  | Received data q => (data, put_reading (m_read_awaiter c) (removelast q) c)
  | ReadThrow => ([], put_except true c)
  | ReadWait => ([], c)
  end.

(** netcore::send of what is left of an awaiter's buffer, and update_sent_size;
    whether it threw (what a call has sent before it throws is not counted) *)
Definition do_send (a : send_awaiter) (c : RawConnection) : bool * RawConnection :=
  match send (out_q c) (left_buf a) 0 with
  | Some (n, q) => (false, put_sending (Some (update_sent_size n a)) (take n (left_buf a)) q c)
  | None => (true, put_except true c)
  end.

(** await_resume of either awaiter *)
Definition await_resume (res : co_result) (c : RawConnection) : co_result :=
  if m_except c then Rethrown else res.

(** the coroutine runs until it is suspended; the fuel bounds the awaits it can
    get through without being suspended *)
Fixpoint run_co (fuel : nat) (res : co_result) (c : RawConnection) : option RawConnection :=
  match fuel with
  | O => None
  | Datatypes.S fuel =>
      '(s, clear_except, next) ← coroutine (co c) res;
      let c := put_co s (if (clear_except : bool) then put_except false c else c) in
      match next with
      | Done => Some (put_freed c)
      | AwaitRead size =>
          let c := put_reading (Some size) (in_q c) c in
          if m_recv_at_awaiter c then
            let '(data, c) := do_recv size c in
            let res := await_resume (Read data) c in
            run_co fuel res (put_reading None (in_q c) c)
          else Some c
      | AwaitSend data =>
          let a := mk_send data 0 in
          let c := put_sending (Some a) [] (out_q c) c in
          if m_send_at_awaiter c then
            let '(threw, c) := do_send a c in
            a ← m_send_awaiter c;
            if (threw : bool) || finised a
            then run_co fuel (await_resume (SentBytes (m_tranfer_bytes a)) c) (put_sending None [] (out_q c) c)
            else Some c
          else Some c
      end
  end.

Variable fuel : nat.

(** ConnCallBack::on_callback: the flags are set, and both awaiters are read; ... *)
Definition flagged (ev : io_event) (c : RawConnection) : RawConnection :=
  mk_conn (co c) (m_read_awaiter c) (m_send_awaiter c) (m_except c)
          (epollin ev || m_recv_at_awaiter c) (epollout ev || m_send_at_awaiter c)
          (freed c) (wire c) (in_q c ++ arrivals ev) (answers ev).

(** ... the half for EPOLLIN, with the read awaiter; ... *)
Definition on_readable (ev : io_event) (c : RawConnection) : option RawConnection :=
  let c := flagged ev c in
  if epollin ev then
    size ← m_read_awaiter c;
    let '(data, c) := do_recv size (put_flags false (m_send_at_awaiter c) c) in
    run_co fuel (await_resume (Read data) c) (put_reading None (in_q c) c)
  else Some c.

(** ... and the half for EPOLLOUT, with the send awaiter that was read before the first
    half, if there is one now *)
Definition on_writable (ev : io_event) (send_awaiter : option send_awaiter) (c : RawConnection) : option RawConnection :=
  if epollout ev then
    if freed c then None                                   (* m_connection->m_send_awaiter *)
    else
      match m_send_awaiter c with
      | None => Some c
      | Some _ =>
          let c := put_flags (m_recv_at_awaiter c) false c in
          a ← send_awaiter;                                (* the pointer read at the beginning *)
          let '(_, c) := do_send a c in
          a' ← m_send_awaiter c;
          if finised a'
          then run_co fuel (await_resume (SentBytes (m_tranfer_bytes a')) c) (put_sending None [] (out_q c) c)
          else Some c
      end
  else Some c.

Definition on_callback (ev : io_event) (c : RawConnection) : option RawConnection :=
  c' ← on_readable ev c; on_writable ev (m_send_awaiter c) c'.

Fixpoint on_events (evs : list io_event) (c : RawConnection) : option RawConnection :=
  match evs with
  | [] => Some c
  | ev :: evs => c ← on_callback ev c; on_events evs c
  end.

(** RawConnection::close resumes whoever waits, with 0 bytes *)
Definition close (c : RawConnection) : option RawConnection :=
  let c := put_flags false false c in
  c ← (match m_read_awaiter c with
       | Some _ => run_co fuel (await_resume (Read []) c) (put_reading None (in_q c) c)
       | None => Some c
       end);
  match m_send_awaiter c with
  | Some _ => run_co fuel (await_resume (SentBytes 0) c) (put_sending None [] (out_q c) c)
  | None => Some c
  end.

(** ** A response sent in pieces *)

Definition out_only (ev : io_event) : Prop := epollin ev = false /\ epollout ev = true.

(** what is left of the data after the events' sends; [None] when one throws *)
Fixpoint pieces (evs : list io_event) (data : bytes) : option bytes :=
  match evs with
  | [] => Some data
  | ev :: evs => '(n, _) ← send (answers ev) data 0; pieces evs (drop n data)
  end.

(** the coroutine is suspended in a send of which [k] bytes are done *)
Record sending (data : bytes) (k : nat) (c : RawConnection) : Prop := mk_sending {
  sending_awaiter : m_send_awaiter c = Some (mk_send data k);
  sending_read : m_read_awaiter c = None;
  sending_except : m_except c = false;
  sending_freed : freed c = false
}.

Lemma send_le ans data s s' q : send ans data s = Some (s', q) -> (s <= s' <= s + length data)%nat.
Proof.
  revert data s; induction ans as [|a ans IH]; intros data s H.
  - destruct data; simpl in H; simplify_eq; simpl; lia.
  - destruct data as [|b data]; [simpl in H; simplify_eq; simpl; lia|].
    cbn [send] in H. destruct a as [n| |]; simplify_eq; [|simpl; lia].
    apply IH in H. rewrite length_drop in H. simpl in *. lia.
Qed.

Lemma pieces_nil evs r : pieces evs [] = Some r -> r = [].
Proof.
  revert r; induction evs as [|ev evs IH]; intros r H; simpl in H; [congruence|].
  destruct (answers ev); simpl in H; eauto.
Qed.

(** one event: the awaiter moves on by what was taken *)
Lemma on_callback_out ev data k c n q :
  out_only ev -> sending data k c -> send (answers ev) (drop k data) 0 = Some (n, q) ->
  exists c1, sending data (k + n) c1 /\ wire c1 = wire c ++ take n (drop k data) /\ co c1 = co c /\
    on_callback ev c =
      if (length data <=? k + n)%nat
      then run_co fuel (SentBytes (k + n)) (put_sending None [] (out_q c1) c1)
      else Some c1.
Proof.
  intros [Ein Eout] [Ha Hr He Hf] Hs. unfold on_callback, on_readable, on_writable, flagged. rewrite Ein, Eout. simpl. rewrite Ha, Hf. simpl.
  unfold do_send. simpl. unfold left_buf. simpl. rewrite Hs. simpl.
  exists (mk_conn (co c) (m_read_awaiter c) (Some (mk_send data (k + n))) (m_except c) (m_recv_at_awaiter c) false
            (freed c) (wire c ++ take n (drop k data)) (in_q c ++ arrivals ev) q).
  split; [by constructor|]. split; [reflexivity|]. split; [reflexivity|].
  unfold finised. simpl. unfold await_resume; simpl. rewrite He, Hf. reflexivity.
Qed.

Lemma events_sending evs data k c r :
  Forall out_only evs -> sending data k c -> (k <= length data)%nat -> pieces evs (drop k data) = Some r -> r <> [] ->
  exists c1 k1, on_events evs c = Some c1 /\ sending data k1 c1 /\ (k1 <= length data)%nat /\ drop k1 data = r /\
    wire c1 ++ drop k1 data = wire c ++ drop k data /\ co c1 = co c.
Proof.
  revert k c; induction evs as [|ev evs IH]; intros k c Ho Hc Hk Hp Hr.
  - simpl in Hp; simplify_eq. exists c, k. by split_and!.
  - apply Forall_cons in Ho as [Hev Ho]. simpl in Hp.
    destruct (send (answers ev) (drop k data) 0) as [[n q]|] eqn:Es; [|done]. simpl in Hp.
    destruct (on_callback_out ev data k c n q Hev Hc Es) as (c1 & Hc1 & Hw & Hco & E).
    rewrite drop_drop in Hp.
    assert (Hlt : (k + n < length data)%nat).
    { destruct (decide (length data <= k + n)%nat) as [Hle|]; [|lia].
      rewrite drop_ge in Hp by lia. by apply pieces_nil in Hp. }
    apply leb_correct_conv in Hlt as Hb. rewrite Hb in E. simpl. rewrite E; simpl.
    destruct (IH (k + n)%nat c1 Ho Hc1) as (c2 & k2 & E2 & Hc2 & Hk2 & Hd2 & Hw2 & Hco2); [lia|done|done|].
    exists c2, k2. split; [exact E2|]. split; [exact Hc2|]. split; [lia|]. split; [exact Hd2|].
    split; [|congruence]. rewrite Hw2, Hw, <- app_assoc. f_equal.
    rewrite <- drop_drop. apply take_drop.
Qed.

Lemma on_events_app evs1 evs2 c c' :
  on_events evs1 c = Some c' -> on_events (evs1 ++ evs2) c = on_events evs2 c'.
Proof.
  revert c; induction evs1 as [|ev evs1 IH]; intros c H; simpl in *; [congruence|].
  destruct (on_callback ev c); [simpl in *; eauto|done].
Qed.

Lemma rest_sent evs ev data k c r :
  Forall out_only (evs ++ [ev]) -> sending data k c -> (k <= length data)%nat ->
  pieces evs (drop k data) = Some r -> r <> [] -> pieces [ev] r = Some [] ->
  (exists c1, on_events evs c = Some c1 /\ co c1 = co c) /\
  exists c', on_events (evs ++ [ev]) c = run_co fuel (SentBytes (length data)) c' /\
    co c' = co c /\ wire c' = wire c ++ drop k data /\ m_send_awaiter c' = None /\ m_except c' = false /\ freed c' = false.
Proof.
  intros [Ho Hev]%Forall_app Hc Hk Hp Hr Hlast. apply Forall_cons in Hev as [Hev _].
  destruct (events_sending evs data k c r Ho Hc Hk Hp Hr) as (c1 & k1 & E1 & Hc1 & Hk1 & Hd1 & Hw1 & Hco1).
  split; [eauto|]. simpl in Hlast.
  destruct (send (answers ev) r 0) as [[n q]|] eqn:Es; [|done]. simpl in Hlast.
  assert (Hn : n = length r).
  { pose proof (send_le _ _ _ _ _ Es). assert (Hl : length (drop n r) = 0%nat) by (replace (drop n r) with (@nil Z) by congruence; done).
    rewrite length_drop in Hl. lia. }
  rewrite <- Hd1 in Es. destruct (on_callback_out ev data k1 c1 n q Hev Hc1 Es) as (c2 & Hc2 & Hw2 & Hco2 & E2).
  assert (Hkn : (k1 + n = length data)%nat).
  { rewrite Hn, <- Hd1, length_drop. lia. }
  rewrite Hkn, Nat.leb_refl in E2.
  rewrite (on_events_app _ _ _ _ E1). simpl. rewrite E2.
  exists (put_sending None [] (out_q c2) c2). split.
  { match goal with |- (x ← ?y; Some x) = _ => by destruct y end. }
  split; [simpl; congruence|]. split; [|by destruct Hc2]. simpl.
  rewrite app_nil_r, Hw2, Hd1, take_ge by lia. rewrite <- Hd1. exact Hw1.
Qed.

(** C28. A response of which a part is sent while the coroutine waits is sent whole:
    when the socket becomes writable again and again (events without EPOLLIN) and
    takes the rest piece by piece, the bytes go out in order and once, and the
    coroutine is resumed with the whole length when the last piece is gone, and
    not before. *)
Theorem response_sent_in_pieces evs ev data k c r :
  Forall out_only (evs ++ [ev]) -> sending data k c -> (k <= length data)%nat ->
  pieces evs (drop k data) = Some r -> r <> [] -> pieces [ev] r = Some [] ->
  (exists c1, on_events evs c = Some c1 /\ co c1 = co c) /\
  exists c', on_events (evs ++ [ev]) c = run_co fuel (SentBytes (length data)) c' /\
    co c' = co c /\ wire c' = wire c ++ drop k data /\ m_send_awaiter c' = None.
Proof.
  intros Ho Hc Hk Hp Hr Hl. destruct (rest_sent evs ev data k c r Ho Hc Hk Hp Hr Hl) as [H (c' & H1 & H2 & H3 & H4 & _)].
  split; [exact H|]. by exists c'.
Qed.

(** ** What goes wrong *)

(** the coroutine waits for a read *)
Definition reading (size : nat) (c : RawConnection) : Prop :=
  m_read_awaiter c = Some size /\ m_send_awaiter c = None /\ m_except c = false /\ freed c = false /\ in_q c = [].

(** An event reports EPOLLIN and EPOLLOUT together (as the edge-triggered
    socket does when a request arrives).  If the coroutine answers what it reads
    with a send that the socket does not take in one go, the callback goes on
    with the send awaiter it looked up before there was one: it uses a null pointer. *)
Theorem partial_answer_undefined ev c size data q s clear resp n q' :
  epollin ev = true -> epollout ev = true -> reading size c ->
  recv size (arrivals ev ++ [Again]) [] = Received data q ->
  coroutine (co c) (Read data) = Some (s, clear, AwaitSend resp) ->
  send (answers ev) resp 0 = Some (n, q') -> (n < length resp)%nat ->
  on_callback ev c = None.
Proof.
  intros Ein Eout (Hr & Hs & He & Hf & Hq) Hrecv Hco Hsend Hn.
  unfold on_callback, on_readable, on_writable, flagged. rewrite Ein, Eout. simpl. rewrite Hr. simpl. unfold do_recv. simpl. rewrite Hq. simpl.
  rewrite Hrecv. simpl. unfold await_resume. simpl. rewrite He.
  destruct fuel as [|f]; [done|]. cbn [run_co co]. simpl. rewrite Hco.
  destruct clear; cbn; unfold do_send; cbn; unfold left_buf; cbn; rewrite drop_0, Hsend; cbn;
    unfold finised; cbn; apply leb_correct_conv in Hn; rewrite Hn; cbn; rewrite Hf; cbn; by rewrite Hs.
Qed.

(** data that arrives while the coroutine is in a send uses a null read awaiter *)
Lemma data_during_send_undefined ev c data k :
  epollin ev = true -> sending data k c -> on_callback ev c = None.
Proof. intros Ein [_ Hr _ _]. unfold on_callback, on_readable, on_writable, flagged. rewrite Ein. simpl. by rewrite Hr. Qed.

(** a coroutine that ends in such an event leaves the callback with a freed connection *)
Lemma end_in_event_undefined ev c size data q s clear :
  epollin ev = true -> epollout ev = true -> reading size c ->
  recv size (arrivals ev ++ [Again]) [] = Received data q ->
  coroutine (co c) (Read data) = Some (s, clear, Done) ->
  on_callback ev c = None.
Proof.
  intros Ein Eout (Hr & Hs & He & Hf & Hq) Hrecv Hco.
  unfold on_callback, on_readable, on_writable, flagged. rewrite Ein, Eout. simpl. rewrite Hr. simpl. unfold do_recv. simpl. rewrite Hq. simpl.
  rewrite Hrecv. simpl. unfold await_resume. simpl. rewrite He.
  destruct fuel as [|f]; [done|]. cbn [run_co co]. simpl. rewrite Hco. by destruct clear.
Qed.
End RawConnection.

(** a coroutine that answers whatever it reads with the same response, for ever *)
Module Echo.
Definition resp : bytes := bs "0123456789".
Definition coroutine (n : nat) (res : co_result) : option (nat * bool * co_await) :=
  Some match res with
       | Read [] => (n, false, Done)
       | Read _ => (n, false, AwaitSend resp)
       | SentBytes _ => (S n, false, AwaitRead 1024)
       | Rethrown => (n, true, Done)
       end.
Definition waits_in_send : RawConnection := mk_conn 0%nat None (Some (mk_send resp 3)) false false false false (bs "012") [] [].
Definition waits_in_read : RawConnection := mk_conn 0%nat (Some 1024%nat) None false false false false [] [] [].
Definition writable (n : nat) : io_event := mk_event false true [] [Took n].
End Echo.

Lemma response_sent_in_pieces_witness :
  exists c', on_events Echo.coroutine 5 ([Echo.writable 2; Echo.writable 4] ++ [Echo.writable 9]) Echo.waits_in_send =
      run_co Echo.coroutine 5 (SentBytes (length Echo.resp)) c' /\
    co c' = 0%nat /\ wire c' = bs "0123456789" /\ m_send_awaiter c' = None.
Proof.
  destruct (response_sent_in_pieces Echo.coroutine 5 [Echo.writable 2; Echo.writable 4] (Echo.writable 9) Echo.resp 3
              Echo.waits_in_send (bs "9")) as [_ H].
  - repeat constructor.
  - by constructor.
  - vm_compute; lia.
  - vm_compute; reflexivity.
  - discriminate.
  - vm_compute; reflexivity.
  - exact H.
Defined.

Lemma partial_answer_undefined_witness :
  on_callback Echo.coroutine 5 (mk_event true true [Arrive 71 []] [Took 4]) Echo.waits_in_read = None.
Proof.
  apply (partial_answer_undefined Echo.coroutine 5 (mk_event true true [Arrive 71 []] [Took 4]) Echo.waits_in_read
           1024 [71%Z] [] 0%nat false Echo.resp 4 []); [reflexivity|reflexivity|by split_and!|reflexivity|reflexivity|reflexivity|vm_compute; lia].
Defined.
