(* ===== verification/Rounds.v ===== *)
(** * One round of the loop, and the events of the socket

    include/netcore/http_server.hpp: Server::handle again, once over bursts of bytes, as
    Server.v has it, and once as the coroutine of a RawConnection (RawConn.v), resumed
    by the events of the socket.  What a request leads to is stated for both:
    [answered].  An event that brings the last bytes of a request and says EPOLLOUT too
    ends in undefined behaviour, be the answer sent or not (RawConn.v); [handed_over]
    says what has been handed to ::send before that. *)

From Stdlib Require Import ZArith Lia.
From stdpp Require Import base numbers list gmap strings.
From S2P Require Import Prelude CStd Response Request Connection Server.
From S2P Require RawConn.
Local Open Scope Z_scope.

(** ** Bursts *)

(** bytes that arrive together *)
Definition burst : Type := Z * bytes.
Definition burst_text (b : burst) : bytes := b.1 :: b.2.
Definition arrivals (l : list burst) : list arrival := mjoin ((fun b => [Arrive b.1 b.2; Again]) <$> l).
Definition text (l : list burst) : bytes := mjoin (burst_text <$> l).

Lemma recv_burst room b q :
  (length (burst_text b) < room)%nat -> recv room (Arrive b.1 b.2 :: Again :: q) [] = Received (burst_text b) q.
Proof.
  intros H. cbn [recv]. cbn [burst_text length] in H.
  rewrite (proj2 (Nat.eqb_neq _ _)), (proj2 (Nat.leb_gt _ _)) by lia. done.
Qed.

Lemma async_read_burst room b q :
  Z.of_nat (length (burst_text b)) < room -> async_read room (Arrive b.1 b.2 :: Again :: q) = Received (burst_text b) q.
Proof. intros H. change (async_read room _) with (recv (Z.to_nat room) (Arrive b.1 b.2 :: Again :: q) []). apply recv_burst. lia. Qed.

Lemma async_read_full room b q :
  0 < room <= Z.of_nat (length (burst_text b)) -> async_read room (Arrive b.1 b.2 :: Again :: q) = ReadThrow.
Proof.
  intros H. cbn [async_read recv]. cbn [burst_text length] in H.
  rewrite (proj2 (Nat.eqb_neq _ _)), (proj2 (Nat.leb_le _ _)) by lia. done.
Qed.

Section rounds.
Context {A : Type} (env : environment A).

(** ** Over bursts *)

(** the bytes are stored and counted *)
Definition take_in (data : bytes) (c : connection A) : connection A * bool :=
  let c := modify_req (fill data) c in
  let '(req, overflow) := update_size (Z.of_nat (length data)) (req_ c) in
  (put_req req c, overflow).

(** what the loop does behind process *)
Definition react (fuel : nat) (q : list arrival) (answers : list send_answer) (sent : list bytes)
    (c : connection A) (o : option (connection A * process_state)) : outcome * connection A * list bytes :=
  match o with
  | None => (Undefined, c, sent)
  | Some (c, need_read) => handle env fuel q answers sent c
  | Some (c, st) =>
      match async_send answers (response_str (res_ c)) with
      | SendThrow => (Thrown, c, sent)
      | SendWait n => (InSend n, c, sent)
      | Sent answers =>
          let sent := sent ++ [response_str (res_ c)] in
          if bool_decide (st = need_write) then (Returned, c, sent) else handle env fuel q answers sent c
      end
  end.

Lemma handle_burst fuel b q answers sent c c' :
  Z.of_nat (length (burst_text b)) < left_size (req_ c) -> take_in (burst_text b) c = (c', false) ->
  handle env (S fuel) (Arrive b.1 b.2 :: Again :: q) answers sent c = react fuel q answers sent c' (process env c').
Proof.
  intros Hlen Htake. cbn [handle]. rewrite async_read_burst by done. unfold burst_text at 1.
  unfold take_in in Htake. destruct (update_size _ _) as [req over] eqn:E. injection Htake as <- ->.
  change (b.1 :: b.2) with (burst_text b). by destruct (process env _) as [[c1 []]|].
Qed.

Lemma handle_full fuel b q answers sent c :
  0 < left_size (req_ c) <= Z.of_nat (length (burst_text b)) ->
  handle env (S fuel) (Arrive b.1 b.2 :: Again :: q) answers sent c = (Thrown, c, sent).
Proof. intros H. cbn [handle]. by rewrite async_read_full. Qed.

(** the bursts that lead to an answer: all but the last leave the connection reading *)
Inductive taken : list burst -> connection A -> connection A -> Prop :=
| taken_last b c c1 c2 :
    Z.of_nat (length (burst_text b)) < left_size (req_ c) -> take_in (burst_text b) c = (c1, false) ->
    process env c1 = Some (c2, need_write) -> taken [b] c c2
| taken_more b bs c c1 c2 c3 :
    Z.of_nat (length (burst_text b)) < left_size (req_ c) -> take_in (burst_text b) c = (c1, false) ->
    process env c1 = Some (c2, need_read) -> taken bs c2 c3 -> taken (b :: bs) c c3.

Lemma taken_handle bs c c' fuel q answers sent :
  taken bs c c' -> (length bs <= fuel)%nat ->
  handle env fuel (arrivals bs ++ q) answers sent c =
  match async_send answers (response_str (res_ c')) with
  | Sent _ => (Returned, c', sent ++ [response_str (res_ c')])
  | SendThrow => (Thrown, c', sent)
  | SendWait n => (InSend n, c', sent)
  end.
Proof.
  intros H. revert fuel; induction H as [b c c1 c2 Hroom Ht Hp|b bs c c1 c2 c3 Hroom Ht Hp _ IH]; intros fuel Hf.
  all: destruct fuel as [|fuel]; [cbn in Hf; lia|].
  - change (arrivals [b] ++ q) with (Arrive b.1 b.2 :: Again :: q).
    rewrite (handle_burst _ _ _ _ _ _ c1), Hp by done. cbn [react]. by destruct (async_send _ _).
  - change (arrivals (b :: bs) ++ q) with (Arrive b.1 b.2 :: Again :: arrivals bs ++ q).
    rewrite (handle_burst _ _ _ _ _ _ c1), Hp by done. cbn [react]. apply IH. cbn in Hf. lia.
Qed.

(** ** Over events *)

(** where the coroutine is: in its read, in its send, or at its end *)
Inductive co_state := Reading (c : connection A) | Writing (c : connection A) (st : process_state) | Ended (c : connection A) (o : outcome).

(** Server::handle from one co_await to the next; the catch clauses call clear_except *)
Definition resume (t : co_state) (res : RawConn.co_result) : option (co_state * bool * RawConn.co_await) :=
  match t, res with
  | Reading c, RawConn.Read [] => Some (Ended c Returned, false, RawConn.Done)
  | Reading c, RawConn.Read data =>
      let '(c, overflow) := take_in data c in
      if (overflow : bool) then
        Some (Ended (response_back env st_bad_request (bs "overflow MaxSize 3M") c) Returned, false, RawConn.Done)
      else
        '(c, st) ← process env c;
        Some (if bool_decide (st = need_read) then (Reading c, false, RawConn.AwaitRead (Z.to_nat (left_size (req_ c))))
              else (Writing c st, false, RawConn.AwaitSend (response_str (res_ c))))
  | Writing c st, RawConn.SentBytes _ =>
      Some (if bool_decide (st = need_write) then (Ended c Returned, false, RawConn.Done)
            else (Reading c, false, RawConn.AwaitRead (Z.to_nat (left_size (req_ c)))))
  | (Reading c | Writing c _), RawConn.Rethrown => Some (Ended c Thrown, true, RawConn.Done)
  | _, _ => None
  end.

Notation socket := (@RawConn.RawConnection co_state).
(** a resumed coroutine gets through at most two awaits before it is suspended *)
Definition on_readable : RawConn.io_event -> socket -> option socket := RawConn.on_readable resume 3.
Definition on_callback : RawConn.io_event -> socket -> option socket := RawConn.on_callback resume 3.
Definition on_events : list RawConn.io_event -> socket -> option socket := RawConn.on_events resume 3.

(** the coroutine waits in its read, and nothing has come since *)
Record at_read (c : connection A) (s : socket) : Prop := mk_at_read {
  read_co : RawConn.co s = Reading c;
  read_awaiter : RawConn.m_read_awaiter s = Some (Z.to_nat (left_size (req_ c)));
  read_no_send : RawConn.m_send_awaiter s = None;
  read_except : RawConn.m_except s = false;
  read_alive : RawConn.freed s = false;
  read_queue : RawConn.in_q s = []
}.

(** an event that brings a burst; whether it says EPOLLOUT too, and how ::send is answered
    while it is handled, is open *)
Definition carries (ev : RawConn.io_event) (b : burst) : Prop :=
  RawConn.epollin ev = true /\ RawConn.arrivals ev = [Arrive b.1 b.2].

(** the answer of a send in that event: nothing is tried on a socket that has not been
    writable yet *)
Definition send_in (ev : RawConn.io_event) (s : socket) (data : bytes) : send_result :=
  if RawConn.epollout ev || RawConn.m_send_at_awaiter s then async_send (RawConn.answers ev) data else SendWait 0.

(** the state in which the coroutine goes on with a burst *)
Definition resumed (ev : RawConn.io_event) (c : connection A) (s : socket) : socket :=
  RawConn.mk_conn (Reading c) None None false false (RawConn.epollout ev || RawConn.m_send_at_awaiter s) false
    (RawConn.wire s) [] (RawConn.answers ev).

Lemma burst_read ev b c s :
  carries ev b -> at_read c s -> Z.of_nat (length (burst_text b)) < left_size (req_ c) ->
  on_readable ev s = RawConn.run_co resume 3 (RawConn.Read (burst_text b)) (resumed ev c s).
Proof.
  intros [Hin Harr] [Hco Hr Hs He Hf Hq] Hroom. destruct s as [co0 ra sa ex rat sat fr w iq oq].
  cbn in Hco, Hr, Hs, He, Hf, Hq. subst. unfold on_readable, RawConn.on_readable, RawConn.flagged. cbn -[RawConn.run_co].
  rewrite Hin, Harr. cbn -[RawConn.run_co RawConn.do_recv]. unfold RawConn.do_recv. cbn -[RawConn.run_co recv burst_text].
  change [Arrive b.1 b.2; Again] with (Arrive b.1 b.2 :: Again :: []). rewrite recv_burst by lia. reflexivity.
Qed.

Lemma resume_burst b c :
  resume (Reading c) (RawConn.Read (burst_text b)) =
  let '(c, overflow) := take_in (burst_text b) c in
  if (overflow : bool) then
    Some (Ended (response_back env st_bad_request (bs "overflow MaxSize 3M") c) Returned, false, RawConn.Done)
  else
    '(c, st) ← process env c;
    Some (if bool_decide (st = need_read) then (Reading c, false, RawConn.AwaitRead (Z.to_nat (left_size (req_ c))))
          else (Writing c st, false, RawConn.AwaitSend (response_str (res_ c)))).
Proof. reflexivity. Qed.

(** a round that asks for more bytes *)
Lemma round_reads ev b c c1 c2 s :
  carries ev b -> at_read c s -> Z.of_nat (length (burst_text b)) < left_size (req_ c) ->
  take_in (burst_text b) c = (c1, false) -> process env c1 = Some (c2, need_read) ->
  exists s', on_callback ev s = Some s' /\ at_read c2 s' /\ RawConn.wire s' = RawConn.wire s /\
    RawConn.m_send_at_awaiter s' = RawConn.epollout ev || RawConn.m_send_at_awaiter s.
Proof.
  intros Hc Hr Hroom Ht Hp. exists (RawConn.mk_conn (Reading c2) (Some (Z.to_nat (left_size (req_ c2)))) None false false
    (RawConn.epollout ev || RawConn.m_send_at_awaiter s) false (RawConn.wire s) [] (RawConn.answers ev)).
  split; [|by split; [constructor|]].
  unfold on_callback, RawConn.on_callback. fold on_readable. rewrite (burst_read ev b c s Hc Hr Hroom).
  cbn [RawConn.run_co]. change (RawConn.co (resumed ev c s)) with (Reading c). rewrite resume_burst, Ht. cbv beta iota zeta.
  rewrite Hp. cbn [mbind option_bind]. rewrite bool_decide_true by done. unfold resumed. cbn.
  unfold RawConn.on_writable. by destruct (RawConn.epollout ev).
Qed.

(** what the last event makes of the answer of [c'] *)
Definition handed_over (ev : RawConn.io_event) (s : socket) (c' : connection A) : Prop :=
  exists s', on_readable ev s = Some s' /\ on_callback ev s = (if RawConn.epollout ev then None else Some s') /\
  match send_in ev s (response_str (res_ c')) with
  | Sent _ => RawConn.co s' = Ended c' Returned /\ RawConn.freed s' = true /\
              RawConn.wire s' = RawConn.wire s ++ response_str (res_ c')
  | SendThrow => RawConn.co s' = Ended c' Thrown /\ RawConn.freed s' = true
  | SendWait n => RawConn.co s' = Writing c' need_write /\ RawConn.sending (response_str (res_ c')) n s' /\
              RawConn.wire s' = RawConn.wire s ++ take n (response_str (res_ c'))
  end.

Lemma round_writes ev b c c1 c2 s :
  carries ev b -> at_read c s -> Z.of_nat (length (burst_text b)) < left_size (req_ c) ->
  take_in (burst_text b) c = (c1, false) -> process env c1 = Some (c2, need_write) -> handed_over ev s c2.
Proof.
  intros Hc Hr Hroom Ht Hp. unfold handed_over, on_callback, RawConn.on_callback. fold on_readable.
  rewrite (burst_read ev b c s Hc Hr Hroom). cbn [RawConn.run_co].
  change (RawConn.co (resumed ev c s)) with (Reading c). rewrite resume_burst, Ht. cbv beta iota zeta. rewrite Hp.
  cbn [mbind option_bind]. rewrite bool_decide_false by done.
  rewrite (read_no_send _ _ Hr). unfold send_in. generalize (response_str (res_ c2)). intros rep. unfold resumed. cbn.
  destruct (RawConn.epollout ev || RawConn.m_send_at_awaiter s) eqn:Eat.
  - unfold RawConn.do_send. cbn. unfold RawConn.left_buf. cbn. rewrite drop_0. unfold async_send.
    destruct (send (RawConn.answers ev) rep 0) as [[n q]|] eqn:Es; cbn.
    + unfold RawConn.finised. cbn. destruct (length rep <=? n)%nat eqn:En; cbn.
      * eexists. split; [reflexivity|]. split; [unfold RawConn.on_writable; by destruct (RawConn.epollout ev)|].
        cbn. split; [done|]. split; [done|]. rewrite !app_nil_r. f_equal. apply take_ge. by zbool.
      * eexists. split; [reflexivity|]. split; [unfold RawConn.on_writable; by destruct (RawConn.epollout ev)|].
        cbn. split; [done|]. split; [by constructor|]. by rewrite !app_nil_r.
    + eexists. split; [reflexivity|]. split; [unfold RawConn.on_writable; by destruct (RawConn.epollout ev)|]. done.
  - apply orb_false_iff in Eat as [Eo _]. eexists. split; [reflexivity|]. unfold RawConn.on_writable. rewrite Eo.
    split; [done|]. cbn. split; [done|]. split; [by constructor|]. by rewrite take_0.
Qed.

(** ** What a request leads to *)

Record answered (bs : list burst) (c c' : connection A) : Prop := mk_answered {
  (** in the loop over bursts, whatever comes behind them: the answer is sent when the socket
      takes it in one go, an error of ::send ends the coroutine, and otherwise it is left
      in its send *)
  answered_loop : forall fuel q answers sent, (length bs <= fuel)%nat ->
    handle env fuel (arrivals bs ++ q) answers sent c =
    match async_send answers (response_str (res_ c')) with
    | Sent _ => (Returned, c', sent ++ [response_str (res_ c')])
    | SendThrow => (Thrown, c', sent)
    | SendWait n => (InSend n, c', sent)
    end;
  (** on the socket, whatever its events say of EPOLLOUT and however ::send is answered: nothing
      is sent before the last of the events, and in that the answer is handed over *)
  answered_socket : forall evs ev s, Forall2 carries (evs ++ [ev]) bs -> at_read c s ->
    exists s', on_events evs s = Some s' /\ RawConn.wire s' = RawConn.wire s /\
      RawConn.m_send_at_awaiter s' = existsb RawConn.epollout evs || RawConn.m_send_at_awaiter s /\ handed_over ev s' c';
  (** when the last of them does not say EPOLLOUT and the socket has taken [n] bytes, and it
      takes the rest in any pieces in later events that say only EPOLLOUT, then the whole answer
      is out, in order and once, and the coroutine has ended *)
  answered_pieces : forall evs ev s s1 n later last r,
    Forall2 carries (evs ++ [ev]) bs -> at_read c s -> on_events evs s = Some s1 -> RawConn.epollout ev = false ->
    send_in ev s1 (response_str (res_ c')) = SendWait n -> Forall RawConn.out_only (later ++ [last]) ->
    RawConn.pieces later (drop n (response_str (res_ c'))) = Some r -> r <> [] -> RawConn.pieces [last] r = Some [] ->
    exists s', on_events (evs ++ ev :: later ++ [last]) s = Some s' /\ RawConn.co s' = Ended c' Returned /\
      RawConn.freed s' = true /\ RawConn.wire s' = RawConn.wire s ++ response_str (res_ c')
}.

Lemma send_in_le ev s data n : send_in ev s data = SendWait n -> (n <= length data)%nat.
Proof.
  unfold send_in, async_send. destruct (_ || _); [|intros [= <-]; lia].
  destruct (send _ data 0) as [[k q]|] eqn:E; [|done]. apply RawConn.send_le in E.
  destruct (_ <=? _)%nat; intros [= <-]. lia.
Qed.

(** the rest of an answer *)
Lemma handed_over_pieces ev s c' n later last r :
  handed_over ev s c' -> RawConn.epollout ev = false -> send_in ev s (response_str (res_ c')) = SendWait n ->
  Forall RawConn.out_only (later ++ [last]) -> RawConn.pieces later (drop n (response_str (res_ c'))) = Some r -> r <> [] ->
  RawConn.pieces [last] r = Some [] ->
  exists s', on_events (ev :: later ++ [last]) s = Some s' /\ RawConn.co s' = Ended c' Returned /\
    RawConn.freed s' = true /\ RawConn.wire s' = RawConn.wire s ++ response_str (res_ c').
Proof.
  intros (s1 & _ & E & Hs) Hout Hn Ho Hp Hr Hl. rewrite Hn in Hs. destruct Hs as (Hco & Hsend & Hw). rewrite Hout in E.
  apply send_in_le in Hn as Hle.
  destruct (RawConn.rest_sent resume 3 later last _ n s1 r Ho Hsend Hle Hp Hr Hl)
    as [_ (s2 & E2 & Hco2 & Hw2 & Hno & He & Hf)].
  unfold on_events. cbn [RawConn.on_events]. fold on_callback. rewrite E. change (x ← Some s1; ?k x) with (k s1).
  cbn [mbind option_bind]. rewrite E2. cbn [RawConn.run_co]. rewrite Hco2, Hco. cbn [resume mbind option_bind].
  rewrite bool_decide_true by done. eexists. split; [reflexivity|]. split_and!; [done..|].
  cbn. rewrite Hw2, Hw, <-app_assoc. f_equal. apply take_drop.
Qed.

Lemma taken_socket bs c c' evs ev s :
  taken bs c c' -> Forall2 carries (evs ++ [ev]) bs -> at_read c s ->
  exists s', on_events evs s = Some s' /\ RawConn.wire s' = RawConn.wire s /\
    RawConn.m_send_at_awaiter s' = existsb RawConn.epollout evs || RawConn.m_send_at_awaiter s /\ handed_over ev s' c'.
Proof.
  intros H. revert evs s; induction H as [b c c1 c2 Hroom Ht Hp|b bs c c1 c2 c3 Hroom Ht Hp H IH]; intros evs s Hev Hs.
  - destruct evs as [|ev' evs]; cbn [app] in Hev; inversion Hev as [|? ? ? ? Hb Hrest]; subst.
    + exists s. split; [done|]. split; [done|]. split; [done|]. by eapply round_writes.
    + inversion Hrest as [E|]. by destruct evs.
  - destruct evs as [|ev' evs]; cbn [app] in Hev; inversion Hev as [|? ? ? ? Hb Hrest]; subst.
    { inversion Hrest; subst. inversion H. }
    destruct (round_reads ev' b c c1 c2 s Hb Hs Hroom Ht Hp) as (s1 & E1 & Hs1 & Hw1 & Hm1).
    destruct (IH evs s1 Hrest Hs1) as (s2 & E2 & Hw2 & Hm2 & Hd).
    exists s2. unfold on_events in *. cbn [RawConn.on_events]. fold on_callback. rewrite E1. split; [exact E2|].
    split; [by rewrite Hw2|]. split; [|exact Hd]. rewrite Hm2, Hm1. cbn [existsb].
    by destruct (RawConn.epollout ev'), (existsb RawConn.epollout evs), (RawConn.m_send_at_awaiter s).
Qed.

Lemma taken_answered bs c c' : taken bs c c' -> answered bs c c'.
Proof.
  intros H. split; [intros; by apply taken_handle|intros; by eapply taken_socket|].
  intros evs ev s s1 n later last r Hev Hs Hs1 Hout Hn Ho Hp Hr Hl.
  destruct (taken_socket _ _ _ _ _ _ H Hev Hs) as (s2 & E & Hw & _ & Hd). rewrite Hs1 in E. injection E as <-.
  destruct (handed_over_pieces _ _ _ _ _ _ _ Hd Hout Hn Ho Hp Hr Hl) as (s3 & E3 & H1 & H2 & H3).
  exists s3. split; [|by rewrite H3, Hw]. unfold on_events in *. by rewrite (RawConn.on_events_app _ _ _ _ _ _ Hs1).
Qed.

(** ** A conversation *)

(** the bursts, and what is answered to them: the connection stays open *)
Inductive spoken : list burst -> connection A -> list bytes -> connection A -> Prop :=
| spoken_nil c : spoken [] c [] c
| spoken_read b bs c c1 c2 out c3 :
    Z.of_nat (length (burst_text b)) < left_size (req_ c) -> take_in (burst_text b) c = (c1, false) ->
    process env c1 = Some (c2, need_read) -> spoken bs c2 out c3 -> spoken (b :: bs) c out c3
| spoken_say b bs c c1 c2 st out c3 :
    Z.of_nat (length (burst_text b)) < left_size (req_ c) -> take_in (burst_text b) c = (c1, false) ->
    process env c1 = Some (c2, st) -> st <> need_read -> st <> need_write -> spoken bs c2 out c3 ->
    spoken (b :: bs) c (response_str (res_ c2) :: out) c3.

Lemma spoken_app bs1 bs2 c1 c2 c3 out1 out2 :
  spoken bs1 c1 out1 c2 -> spoken bs2 c2 out2 c3 -> spoken (bs1 ++ bs2) c1 (out1 ++ out2) c3.
Proof. intros H1 H2. induction H1; cbn [app]; [done|by eapply spoken_read; eauto|by eapply spoken_say; eauto]. Qed.

(** the socket takes every answer in one go *)
Fixpoint takes_all (answers : list send_answer) (out : list bytes) : option (list send_answer) :=
  match out with
  | [] => Some answers
  | s :: out => match async_send answers s with Sent answers => takes_all answers out | _ => None end
  end.

Lemma spoken_loop bs c out c' fuel answers answers' sent :
  spoken bs c out c' -> takes_all answers out = Some answers' -> (length bs < fuel)%nat ->
  handle env fuel (arrivals bs) answers sent c = (Suspended, c', sent ++ out).
Proof.
  intros H. revert fuel answers sent; induction H as [c|b bs c c1 c2 out c3 Hroom Ht Hp _ IH|b bs c c1 c2 st out c3 Hroom Ht Hp Hr Hw _ IH];
    intros fuel answers sent Hs Hf; destruct fuel as [|fuel]; cbn [length] in Hf; try lia.
  - by rewrite app_nil_r.
  - change (arrivals (b :: bs)) with (Arrive b.1 b.2 :: Again :: arrivals bs).
    rewrite (handle_burst _ _ _ _ _ _ c1), Hp by done. cbn [react]. by apply IH; [|lia].
  - change (arrivals (b :: bs)) with (Arrive b.1 b.2 :: Again :: arrivals bs). cbn [takes_all] in Hs.
    rewrite (handle_burst _ _ _ _ _ _ c1), Hp by done. destruct (async_send _ _) eqn:E; [|done..].
    cbn [react]. rewrite E, bool_decide_false by done.
    destruct st; [done..|]; rewrite (IH fuel _ _ Hs) by lia; by rewrite <-app_assoc.
Qed.

(** a round that answers *)
Lemma round_talks ev b c c1 c2 st q s :
  carries ev b -> at_read c s -> Z.of_nat (length (burst_text b)) < left_size (req_ c) ->
  take_in (burst_text b) c = (c1, false) -> process env c1 = Some (c2, st) -> st <> need_read -> st <> need_write ->
  send_in ev s (response_str (res_ c2)) = Sent q ->
  exists s', on_callback ev s = Some s' /\ at_read c2 s' /\ RawConn.wire s' = RawConn.wire s ++ response_str (res_ c2) /\
    RawConn.m_send_at_awaiter s' = RawConn.epollout ev || RawConn.m_send_at_awaiter s.
Proof.
  intros Hc Hr Hroom Ht Hp Hst1 Hst2 Hsend.
  unfold on_callback, RawConn.on_callback. fold on_readable. rewrite (burst_read ev b c s Hc Hr Hroom). cbn [RawConn.run_co].
  change (RawConn.co (resumed ev c s)) with (Reading c). rewrite resume_burst, Ht. cbv beta iota zeta. rewrite Hp.
  cbn [mbind option_bind]. rewrite bool_decide_false by done. rewrite (read_no_send _ _ Hr).
  unfold send_in in Hsend. revert Hsend. generalize (response_str (res_ c2)). intros rep. unfold resumed. cbn.
  destruct (RawConn.epollout ev || RawConn.m_send_at_awaiter s); [|done].
  unfold RawConn.do_send. cbn. unfold RawConn.left_buf. cbn. rewrite drop_0. unfold async_send.
  destruct (send (RawConn.answers ev) rep 0) as [[n q']|] eqn:Es; [|done]. cbn. unfold RawConn.finised. cbn.
  destruct (length rep <=? n)%nat eqn:En; [|done]. intros _. cbn. rewrite bool_decide_false by done.
  eexists. split; [unfold RawConn.on_writable; by destruct (RawConn.epollout ev)|]. split; [done|]. split; [|done].
  cbn. rewrite ?app_nil_r. f_equal. apply take_ge. by zbool.
Qed.

(** [out] can be handed to the socket in this event: it is or has been writable, and takes
    each of the answers in one go *)
Definition takes_each (s : socket) (out : list bytes) (ev : RawConn.io_event) : Prop :=
  RawConn.epollout ev || RawConn.m_send_at_awaiter s = true /\
  Forall (fun d => exists q, async_send (RawConn.answers ev) d = Sent q) out.

Lemma takes_each_weaken s s' out out' ev :
  takes_each s out ev -> (forall d, d ∈ out' -> d ∈ out) ->
  (RawConn.m_send_at_awaiter s = true -> RawConn.m_send_at_awaiter s' = true) -> takes_each s' out' ev.
Proof.
  intros [H1 H2] Hin Hm. split.
  - destruct (RawConn.epollout ev); [done|]. by apply Hm.
  - rewrite Forall_forall in *. auto.
Qed.

Lemma spoken_socket bs c out c' evs s :
  spoken bs c out c' -> Forall2 carries evs bs -> at_read c s -> Forall (takes_each s out) evs ->
  exists s', on_events evs s = Some s' /\ at_read c' s' /\ RawConn.wire s' = RawConn.wire s ++ mjoin out.
Proof.
  intros H. revert evs s; induction H as [c|b bs c c1 c2 out c3 Hroom Ht Hp _ IH|b bs c c1 c2 st out c3 Hroom Ht Hp Hr Hw _ IH];
    intros evs s Hev Hs Hout; inversion Hev as [|ev ? evs' ? Hb Hrest]; subst.
  - exists s. rewrite app_nil_r. done.
  - apply Forall_cons in Hout as [_ Hout].
    destruct (round_reads ev b c c1 c2 s Hb Hs Hroom Ht Hp) as (s1 & E1 & Hs1 & Hw1 & Hm1).
    destruct (IH evs' s1 Hrest Hs1) as (s2 & E2 & Hs2 & Hw2).
    { eapply Forall_impl; [exact Hout|]. intros e He. eapply takes_each_weaken; [exact He|done|].
      intros E. rewrite Hm1, E. apply orb_true_r. }
    exists s2. unfold on_events in *. cbn [RawConn.on_events]. fold on_callback. rewrite E1. split; [exact E2|].
    split; [done|]. by rewrite Hw2, Hw1.
  - apply Forall_cons in Hout as [[Hat Hsend] Hout]. apply Forall_cons in Hsend as [[q Hq] _].
    destruct (round_talks ev b c c1 c2 st q s Hb Hs Hroom Ht Hp Hr Hw) as (s1 & E1 & Hs1 & Hw1 & Hm1).
    { unfold send_in. by rewrite Hat. }
    destruct (IH evs' s1 Hrest Hs1) as (s2 & E2 & Hs2 & Hw2).
    { eapply Forall_impl; [exact Hout|]. intros e He. eapply takes_each_weaken; [exact He|by intros d Hd; right|].
      intros E. rewrite Hm1, E. apply orb_true_r. }
    exists s2. unfold on_events in *. cbn [RawConn.on_events]. fold on_callback. rewrite E1. split; [exact E2|].
    split; [done|]. rewrite Hw2, Hw1. change (mjoin (?x :: out)) with (x ++ mjoin out). by rewrite app_assoc.
Qed.

(** what a conversation leads to, in the loop and on the socket *)
Record conversed (bs : list burst) (c : connection A) (out : list bytes) (c' : connection A) : Prop := mk_conversed {
  (** in the loop over bursts: every answer that the socket takes in one go is sent, and the
      coroutine waits for more *)
  conversed_loop : forall fuel answers answers' sent, takes_all answers out = Some answers' -> (length bs < fuel)%nat ->
    handle env fuel (arrivals bs) answers sent c = (Suspended, c', sent ++ out);
  (** on the socket, whose events bring the bursts and may say EPOLLOUT: the callback is
      defined in all of them, the answers are sent in order and once, and the coroutine
      waits in its read *)
  conversed_socket : forall evs s, Forall2 carries evs bs -> at_read c s -> Forall (takes_each s out) evs ->
    exists s', on_events evs s = Some s' /\ at_read c' s' /\ RawConn.wire s' = RawConn.wire s ++ mjoin out
}.

Lemma spoken_conversed bs c out c' : spoken bs c out c' -> conversed bs c out c'.
Proof. intros H. split; intros; [by eapply spoken_loop|by eapply spoken_socket]. Qed.
End rounds.
