(* ===== verification/ServerFacts.v ===== *)
(** * Serving a request

    The composition of the reading loop, the request parser, the connection and
    the handlers: which requests reach their handler, and with what. *)

From Stdlib Require Import ZArith Lia.
From stdpp Require Import base numbers list gmap strings.
From S2P Require Import Prelude CStd PicoHttp PicoHttpFacts Codec Utils Response WebSocket Upload Request Connection Server Rounds.
From S2P Require RawConn.
Local Open Scope Z_scope.

(** ** Reading *)

Lemma recv_room room q acc data rest :
  recv room q acc = Received data rest -> (length acc < length acc + room)%nat ->
  data = [] \/ (length data < length acc + room)%nat.
Proof.
  revert room acc; induction q as [|[b s| | | |] q IH]; intros room acc H Hlt; cbn [recv] in H; try done.
  - destruct (room =? 0)%nat eqn:E0; [injection H as <- _; by left|].
    destruct (room <=? S (length s))%nat eqn:E1; [done|]. zbool.
    specialize (IH _ _ H). rewrite length_app in IH. cbn [length] in IH.
    destruct IH as [IH|IH]; [lia|by left|right; lia].
  - injection H as <- _. by right.
  - injection H as <- _. by left.
Qed.

(** a read leaves room in the buffer *)
Lemma async_read_room room q data rest :
  async_read room q = Received data rest -> data = [] \/ Z.of_nat (length data) < room.
Proof.
  intros H. assert (recv (Z.to_nat room) q [] = Received data rest) as Hr by (by destruct q as [|[]]).
  destruct (decide (0 < room)).
  - apply recv_room in Hr; cbn [length] in *; [|lia]. destruct Hr as [Hr|Hr]; [by left|right; lia].
  - replace (Z.to_nat room) with 0%nat in Hr by lia. left.
    destruct q as [|[b s| | | |] q]; cbn in Hr; congruence.
Qed.

(** C34. A read never writes behind the receive buffer: with the bytes received so
    far inside it, what recv hands over is shorter than the space that is left, the
    buffer keeps its length when it is stored, and the new count of received bytes
    is below that length, so that it has not wrapped around. *)
Theorem read_fits_buffer (r : request) q data rest :
  0 <= cur_size_ r <= buf_size r -> buf_size r < 2 ^ 64 ->
  async_read (left_size r) q = Received data rest ->
  length (buf_ (fill data r)) = length (buf_ r) /\
  (data <> [] -> cur_size_ r + Z.of_nat (length data) < buf_size r) /\
  cur_size_ (update_size (Z.of_nat (length data)) (fill data r)).1 = cur_size_ r + Z.of_nat (length data).
Proof.
  intros Hc Hb Hr. unfold left_size in Hr. rewrite wrap64_small in Hr by (unfold buf_size in *; lia).
  assert (Hlen : data = [] \/ cur_size_ r + Z.of_nat (length data) < buf_size r).
  { apply async_read_room in Hr as [->|H]; [by left|right; lia]. }
  split; [|split].
  - unfold fill, buf_size in *. cbn [put_buf buf_]. rewrite !length_app, length_take, length_drop.
    destruct Hlen as [->|Hlen]; cbn [length] in *; lia.
  - by destruct Hlen as [->|Hlen].
  - unfold update_size. cbn [fst put_cur_size cur_size_ fill put_buf]. apply wrap64_small.
    destruct Hlen as [->|Hlen]; cbn [length] in *; unfold buf_size in *; lia.
Qed.

Lemma read_fits_buffer_witness :
  let r := new_request in
  async_read (left_size r) [Arrive 71 (bs "ET /"); Again] = Received (bs "GET /") [] /\
  length (buf_ (fill (bs "GET /") r)) = length (buf_ r) /\
  (bs "GET /" <> [] -> cur_size_ r + Z.of_nat (length (bs "GET /")) < buf_size r) /\
  cur_size_ (update_size (Z.of_nat (length (bs "GET /"))) (fill (bs "GET /") r)).1 = cur_size_ r + Z.of_nat (length (bs "GET /")).
Proof.
  split; [vm_compute; reflexivity|].
  apply (read_fits_buffer new_request [Arrive 71 (bs "ET /"); Again] (bs "GET /") []); [vm_compute; split; discriminate|reflexivity|vm_compute; reflexivity].
Defined.

(** building the text leaves status and content as they are *)
Lemma append_end_keeps offset now r :
  let r' := if need_response_time_ r then append_date_time offset now r else append_str r CRLF in
  status_ r' = status_ r /\ content_ r' = content_ r.
Proof. cbv zeta. unfold append_date_time. by repeat case_match. Qed.

Lemma build_response_keeps offset now r :
  status_ (build_response_str offset now r) = status_ r /\ content_ (build_response_str offset now r) = content_ r.
Proof.
  unfold build_response_str. cbv zeta.
  match goal with |- context [if need_response_time_ ?y then _ else _] => pose proof (append_end_keeps offset now y) as [H1 H2] end.
  split; [exact H1|exact H2].
Qed.

Lemma response_back_keeps {A} (env : environment A) st content c :
  status_ (res_ (response_back env st content c)) = st /\ content_ (res_ (response_back env st content c)) = content /\
  app_ (response_back env st content c) = app_ c.
Proof.
  split_and!; [| |done].
  - etransitivity; [apply build_response_keeps|done].
  - etransitivity; [apply build_response_keeps|done].
Qed.

(** ** Messages *)

Definition with_content (x : message) (s : bytes) : message :=
  mk_message (msg_method x) (msg_path x) (msg_query x) (msg_version x) (msg_raw x) (msg_length x) s.

(** the body is handed over as it is, and there is no change of protocol *)
Definition plain_type (x : message) : Prop :=
  let ct := lookup_header (msg_fields x) (bs "content-type") in
  contains ct (bs "application/x-www-form-urlencoded") = false /\
  contains ct (bs "multipart/form-data") = false /\
  contains ct (bs "application/octet-stream") = false /\
  (msg_length x = None -> lookup_header (msg_fields x) (bs "transfer-encoding") <> bs "chunked") /\
  lookup_header (msg_fields x) (bs "upgrade") = [].
#[export] Instance plain_type_dec x : Decision (plain_type x).
Proof. unfold plain_type; apply _. Defined.

(** growing the buffer keeps what it holds *)
Definition same_sizes (r r' : request) : Prop :=
  cur_size_ r' = cur_size_ r /\ header_len_ r' = header_len_ r /\ body_len_ r' = body_len_ r /\
  max_header_len_ r' = max_header_len_ r /\ is_chunked_ r' = is_chunked_ r /\ queries_ r' = queries_ r /\ state_ r' = state_ r.

Lemma copy_method_url_headers_keeps r :
  same_sizes r (copy_method_url_headers r) /\ buf_ (copy_method_url_headers r) = buf_ r.
Proof. unfold copy_method_url_headers. by repeat case_match. Qed.

Lemma grow_to_keeps total r : same_sizes r (grow_to total r).
Proof. unfold grow_to, resize. repeat case_match; try done; apply (copy_method_url_headers_keeps r). Qed.

Lemma expand_size_keeps r : same_sizes r (expand_size r).
Proof. apply grow_to_keeps. Qed.

Lemma resize_buf size r got slack :
  buf_ r = got ++ slack -> buf_size r <= size -> exists slack',
  buf_ (Request.resize size r) = got ++ slack' /\ buf_size (Request.resize size r) = size.
Proof.
  intros Hb Hs. unfold buf_size, Request.resize in *. cbn [put_buf buf_].
  rewrite (proj2 (copy_method_url_headers_keeps r)), take_ge, Hb by lia. rewrite Hb in Hs.
  eexists. rewrite <-app_assoc. split; [done|]. rewrite !length_app, length_replicate. rewrite length_app in Hs. lia.
Qed.

Lemma expand_size_buf r got slack :
  buf_ r = got ++ slack -> buf_size r < MaxSize -> total_len r < MaxSize -> exists slack',
  buf_ (expand_size r) = got ++ slack' /\ buf_size (expand_size r) = Z.max (buf_size r) (total_len r).
Proof.
  intros Hb H1 H2. unfold expand_size, grow_to. rewrite (proj2 (Z.eqb_neq _ _)), (proj2 (Z.ltb_lt _ MaxSize)) by lia.
  destruct (buf_size r <? total_len r) eqn:E; zbool.
  - rewrite Z.max_r by lia. apply resize_buf with slack; [done|lia].
  - rewrite Z.max_l by lia. eauto.
Qed.

Definition msg_size (x : message) : Z := default 0 (msg_length x).
Definition whole (x : message) : Prop := msg_size x = Z.of_nat (length (msg_content x)).

(** ** The connection while a message arrives *)

(** a request whose method and path have been read *)
Definition at_route {A} (x : message) (c : connection A) : Prop :=
  get_method (req_ c) = msg_method x /\ Request.get_url (req_ c) = msg_path x.

(** no check fails, the route is found, and the handler returns *)
Definition serves {A} (env : environment A) (h : connection A -> connection A) (x : message) : Prop :=
  (forall r, check_headers_ env r = true) /\ (forall c, at_route x c -> http_handler_check_ env c = Some (c, true)) /\
  (forall c, at_route x c -> http_handler_ env c = Some (h c)).

(** looking for a route changes nothing if it is found *)
Definition looks {A} (env : environment A) : Prop :=
  forall c, exists c' found, http_handler_check_ env c = Some (c', found) /\ app_ c' = app_ c /\ (found = true -> c' = c).

Section serving.
Context {A : Type} (env : environment A) (h : connection A -> connection A) (x : message) (app : A).
Hypothesis Hcheck : forall r, check_headers_ env r = true.
Hypothesis Hpeek : forall c, at_route x c -> http_handler_check_ env c = Some (c, true).
Hypothesis Hhandler : forall c, at_route x c -> http_handler_ env c = Some (h c).
Hypothesis Hok : message_ok x.

(** [got] has arrived *)
Record ready (size : Z) (got : bytes) (c : connection A) : Prop := {
  ready_buf : exists slack, buf_ (req_ c) = got ++ slack;
  ready_size : buf_size (req_ c) = size;
  ready_cur : cur_size_ (req_ c) = Z.of_nat (length got);
  ready_max : max_header_len_ (req_ c) = 1024 * 1024;
  ready_cap : at_capacity (req_ c) = false;
  ready_chunked : is_chunked_ (req_ c) = false;
  ready_queries : from_option list_to_map (queries_ (req_ c)) (msg_query x) =
                  from_option list_to_map ∅ (msg_query x);
  ready_work : continue_work_ c = None;
  ready_upgrade : is_upgrade_ c = false;
  ready_app : app_ c = app;
  ready_state : state_ (req_ c) = data_begin
}.

(** the next bytes are stored behind them *)
Lemma take_in_ready size got data c :
  ready size got c -> Z.of_nat (length (got ++ data)) < size <= MaxSize ->
  exists c', take_in data c = (c', false) /\ ready size (got ++ data) c'.
Proof.
  intros [(slack & Hb) Hs Hcur Hm Hcap Hch Hq Hw Hu Ha] Hlt. rewrite length_app in Hlt.
  unfold take_in, update_size. eexists. split.
  - cbn [modify_req put_req req_ fill put_buf cur_size_ put_cur_size]. rewrite Hcur, wrap64_small by (unfold MaxSize in *; lia).
    rewrite (proj2 (Z.ltb_ge _ _)) by lia. reflexivity.
  - assert (buf_ (fill data (req_ c)) = (got ++ data) ++ drop (length data) slack) as Hfill.
    { unfold fill. cbn [put_buf buf_]. rewrite Hcur, Nat2Z.id, Hb, take_app_length.
      rewrite <-drop_drop, drop_app_length. by rewrite <-app_assoc. }
    constructor; try done.
    + eexists. exact Hfill.
    + unfold buf_size in *. cbn [req_ put_req put_cur_size buf_ modify_req]. rewrite Hfill, !length_app, length_drop.
      rewrite Hb, length_app in Hs. lia.
    + cbn [req_ put_req put_cur_size cur_size_ modify_req]. rewrite length_app. cbn. lia.
Qed.

Lemma left_size_ready size got c :
  ready size got c -> Z.of_nat (length got) <= size <= MaxSize ->
  left_size (req_ c) = size - Z.of_nat (length got).
Proof.
  intros H Hlt. unfold left_size. rewrite (ready_size _ _ _ H), (ready_cur _ _ _ H).
  apply wrap64_small. unfold MaxSize in *. lia.
Qed.

Lemma check_keep_alive_plain (c : connection A) :
  Request.get_header_value (req_ c) (bs "upgrade") = [] -> is_upgrade_ c = false ->
  exists k res ws, check_keep_alive c = put_ws ws (put_res res (put_keep_alive k c)).
Proof.
  destruct c as [req res ws up ka sh lw ch mp mr mf lt cw cl fs dk wi ap]. cbn [req_ is_upgrade_]. intros Hu ->.
  assert (is_upgrade ws (get_method req) (Request.get_header_value req) = (ws, false)) as Hws.
  { unfold is_upgrade. rewrite Hu. destruct (negb _); [done|]. by destruct (bool_decide _). }
  unfold check_keep_alive. set (keep := if is_http11 _ then _ else _). clearbody keep. destruct keep.
  - exists true, (Response.set_keep_alive res true), ws.
    unfold modify_res. cbn [put_keep_alive put_res req_ res_ ws_]. by rewrite Hws.
  - by exists false, (Response.set_keep_alive res false), ws.
Qed.

(** the parser's view of what has arrived *)
Lemma ready_received size got c s :
  ready size got c -> got = msg_head x ++ s -> Z.of_nat (length got) <= 1024 * 1024 ->
  Forall is_byte got -> received (with_content x s) (req_ c).
Proof.
  intros [(slack & Hb) _ Hcur Hm _ _ _ _ _ _] -> Hlen Hby.
  split_and!; [| |lia|rewrite Hm; lia|done].
  - exists slack. by rewrite app_assoc.
  - done.
Qed.

(** what the handler sees of the message *)
Definition delivered (c : connection A) : Prop :=
  get_method (req_ c) = msg_method x /\ Request.get_url (req_ c) = msg_path x /\
  (forall key, Request.get_header_value (req_ c) key = lookup_header (msg_fields x) key) /\
  queries_ (req_ c) = from_option list_to_map ∅ (msg_query x) /\
  body (req_ c) = Some (msg_content x) /\ app_ c = app /\ state_ (req_ c) = data_begin.

Lemma get_content_type_plain (c : connection A) :
  is_chunked_ (req_ c) = false ->
  let ct := Request.get_header_value (req_ c) (bs "content-type") in
  contains ct (bs "application/x-www-form-urlencoded") = false ->
  contains ct (bs "multipart/form-data") = false ->
  contains ct (bs "application/octet-stream") = false ->
  exists t, get_content_type env c = (c, t) /\ (t = cty_unknown \/ t = cty_json \/ t = cty_string).
Proof.
  intros Hch ct H1 H2 H3. unfold get_content_type. rewrite Hch. fold ct. rewrite H1, H2, H3.
  destruct (bool_decide _); [|destruct (contains ct (bs "application/json"))]; eexists; (split; [reflexivity|auto]).
Qed.

(** a plain message whose head has arrived and parsed *)
Lemma handle_request_plain (c : connection A) bt r0 s n :
  plain_type x -> header_outcome (with_content x s) r0 (req_ c) ->
  is_chunked_ (req_ c) = false -> is_upgrade_ c = false -> app_ c = app -> state_ (req_ c) = data_begin ->
  msg_size x = Z.of_nat n -> (length s <= n)%nat ->
  total_len (req_ c) < MaxSize ->
  total_len (req_ c) = Z.of_nat (length (msg_head x)) + msg_size x ->
  queries_ (req_ c) = from_option list_to_map ∅ (msg_query x) ->
  current_size (req_ c) = Z.of_nat (length (msg_head x ++ s)) -> current_size (req_ c) < 2 ^ 31 ->
  (n = length s /\ exists c1, handle_request env bt c = Some (h c1, need_write) /\
     (s = msg_content x -> delivered c1)) \/
  ((length s < n)%nat /\ exists t k, handle_request env bt c =
     Some (put_req (put_left_body_len k (expand_size (put_http_type t (req_ c)))) c, need_read)).
Proof.
  intros (H1 & H2 & H3 & Htr & Hup) Ho Hch Hu Happ Hst Hn Hs Hsize Htot Hq Hcur Hlt31.
  rewrite Hcur in Hlt31.
  destruct Ho as (Hm & Hurl & _ & Hhd & _ & Hbl & _ & Hall & Hbody & Hhl & _).
  change (default 0 (msg_length (with_content x s))) with (msg_size x) in *.
  change (msg_content (with_content x s)) with s in *.
  assert (forall c1, get_method (req_ c1) = get_method (req_ c) -> Request.get_url (req_ c1) = Request.get_url (req_ c) ->
    (forall key, Request.get_header_value (req_ c1) key = Request.get_header_value (req_ c) key) ->
    queries_ (req_ c1) = queries_ (req_ c) -> body (req_ c1) = body (req_ c) -> app_ c1 = app_ c ->
    state_ (req_ c1) = state_ (req_ c) -> n = length s -> s = msg_content x -> delivered c1) as Hdel.
  { intros c1 E1 E2 E3 E4 E5 E6 E7 En Es. unfold delivered. rewrite E1, E2, E4, E5, E6, E7. split_and!; try done.
    - intros key. rewrite E3. apply Hhd.
    - rewrite Hbody by lia. rewrite <-Es, take_ge by lia. done. }
  unfold handle_request, has_body. rewrite Hbl, Hch.
  destruct (msg_size x =? 0) eqn:E0; zbool; cbn [negb orb].
  - left. destruct s; [|cbn in *; lia]. split; [cbn; lia|]. unfold handle_header_request, is_ws_socket.
    rewrite Hu. unfold route_then_write, call_back. rewrite Hhandler by done. cbn [mbind option_bind].
    exists c. split; [done|]. intros Es. apply Hdel; done || (cbn; lia).
  - destruct (get_content_type_plain c Hch) as (t & -> & Ht); [by rewrite Hhd..|].
    set (c2 := modify_req (put_http_type t) c).
    assert (match t with
      | cty_string | cty_json | cty_unknown => handle_string_body env c2
      | cty_multipart => handle_multipart env c2
      | cty_octet_stream | cty_websocket => Some (c2, need_write)
      | cty_urlencoded => c ← handle_form_urlencoded env bt c2; Some (c, need_write)
      | cty_chunked => Some (handle_chunked env c2, need_write)
      end = handle_string_body env c2) as -> by (by destruct Ht as [->|[->| ->]]).
    assert (t <> cty_multipart) as Hnm by (by destruct Ht as [->|[->| ->]]).
    assert (at_capacity (req_ c2) = false) as Hcap.
    { apply Z.ltb_ge. change (wrap64 _) with (total_len (req_ c)). lia. }
    unfold handle_string_body. rewrite Hcap. change (has_recieved_all (req_ c2)) with (has_recieved_all (req_ c)).
    rewrite Hall. destruct (msg_size x <=? Z.of_nat (length s)) eqn:E1; zbool.
    + left. split; [lia|]. exists c2. split; [|by apply Hdel; try lia].
      unfold handle_body. rewrite Hcap. change (http_type_ (req_ c2)) with t.
      rewrite bool_decide_false by done. rewrite Hcheck, andb_false_r.
      unfold route_then_write, call_back. by rewrite Hhandler by done.
    + right. split; [lia|].
      pose proof (expand_size_keeps (req_ c2)) as (Hk1 & Hk2 & _).
      unfold current_size, header_len in *. cbn [req_ modify_req put_req]. rewrite Hk1, Hk2.
      change (cur_size_ (req_ c2)) with (cur_size_ (req_ c)). change (header_len_ (req_ c2)) with (header_len_ (req_ c)).
      rewrite Hhl, Hcur. change (msg_head (with_content x s)) with (msg_head x).
      rewrite length_app in *. rewrite (wrap64_small (Z.of_nat _)), (proj2 (Z.ltb_ge _ _)) by lia.
      rewrite wrap64_small, (proj2 (Z.eqb_neq _ _)) by (change (wrap64 (-1)) with (2 ^ 64 - 1); lia).
      by eexists t, _.
Qed.

Lemma msg_size_nonneg : 0 <= msg_size x < 2 ^ 62.
Proof.
  destruct Hok as (_ & _ & _ & _ & _ & _ & _ & _ & _ & H). unfold msg_size.
  destruct (msg_length x); cbn; [|lia]. destruct H; lia.
Qed.

Lemma process_plain size got c s n :
  plain_type x -> ready size got c -> got = msg_head x ++ s -> Forall is_byte got ->
  msg_size x = Z.of_nat n -> (length s <= n)%nat -> Z.of_nat (length (msg_head x) + n) <= 1024 * 1024 ->
  size <= 1024 * 1024 ->
  (n = length s /\ exists c1, process env c = Some (h c1, need_write) /\ (s = msg_content x -> delivered c1)) \/
  ((length s < n)%nat /\ exists c', process env c = Some (c', need_read) /\
     ready (Z.max size (Z.of_nat (length (msg_head x) + n))) got c').
Proof.
  intros Hplain Hr Hgot Hby Hn Hs Htotal Hsize. assert (length got = length (msg_head x) + length s)%nat as Hlen
    by (rewrite Hgot; apply length_app).
  pose proof (ready_received _ _ _ s Hr Hgot ltac:(lia) Hby) as Hrec.
  destruct (parse_header_print (sse_ env) (check_headers_ env) (with_content x s) (req_ c) Hok Hrec Hcheck)
    as (r' & Hparse & Ho).
  pose proof (parse_header_storage _ _ _ _ _ _ Hparse) as (Hbuf' & Hcur' & Hmax' & Hst' & _).
  destruct Hr as [(slack & Hb) Hsz Hcur Hmax Hcap Hch Hq Hw Hup Happ Hst].
  unfold process. rewrite Hcap, Hw. unfold handle_read. rewrite Hparse. cbn [mbind option_bind].
  rewrite (proj2 (Z.eqb_neq _ _)) by lia. unfold peek_route.
  rewrite Hpeek by (split; apply Ho). cbn [mbind option_bind negb].
  change (msg_head (with_content x s)) with (msg_head x) in *.
  pose proof Ho as (_ & _ & _ & Hhd & Hq' & Hbl & _ & _ & _ & Hhl & _ & _ & Hch' & _).
  change (default 0 (msg_length (with_content x s))) with (msg_size x) in Hbl.
  destruct (check_keep_alive_plain (put_req r' c)) as (k & res & ws & ->).
  { etransitivity; [apply (Hhd (bs "upgrade"))|apply Hplain]. }
  { done. }
  set (c2 := put_ws ws _). rewrite (proj2 (Z.eqb_neq _ (-2))) by lia.
  assert (is_chunked_ r' = false) as Hch2.
  { rewrite Hch', Hch. destruct Hplain as (_ & _ & _ & Htr & _). cbn [with_content msg_length msg_fields orb].
    destruct (bool_decide (msg_length x = None)) eqn:E; [|done]. apply bool_decide_eq_true in E.
    by rewrite bool_decide_false by (by apply Htr). }
  assert (total_len r' = Z.of_nat (length (msg_head x)) + msg_size x) as Htot.
  { unfold total_len. rewrite Hhl, Hbl. change (msg_head (with_content x s)) with (msg_head x).
    apply wrap64_small. lia. }
  assert (buf_size r' = size) as Hsz' by (unfold buf_size in *; congruence).
  assert (queries_ r' = from_option list_to_map ∅ (msg_query x)) as Hq2.
  { rewrite Hq'. exact Hq. }
  destruct (handle_request_plain c2 (last_transfer_ c) (req_ c) s n) as [(Hn' & c1 & Hc1 & Hd)|(Hn' & t & kk & Hc1)];
    try done.
  { change (req_ c2) with r'. by rewrite Hst'. }
  { change (req_ c2) with r'. rewrite Htot, Hn. unfold MaxSize. lia. }
  { unfold current_size. change (req_ c2) with r'. by rewrite Hcur', Hcur, Hgot. }
  { unfold current_size. change (req_ c2) with r'. rewrite Hcur', Hcur. lia. }
  - left. split; [done|]. by exists c1.
  - right. split; [done|]. eexists. split; [exact Hc1|]. change (req_ c2) with r'.
    destruct (expand_size_buf (put_http_type t r') got slack) as (slack' & Hb2 & Hs2); [by rewrite <-Hb, <-Hbuf'|..].
    { change (buf_size (put_http_type t r')) with (buf_size r'). rewrite Hsz'. unfold MaxSize. lia. }
    { change (total_len (put_http_type t r')) with (total_len r'). rewrite Htot, Hn. unfold MaxSize. lia. }
    change (buf_size (put_http_type t r')) with (buf_size r') in Hs2.
    change (total_len (put_http_type t r')) with (total_len r') in Hs2.
    pose proof (expand_size_keeps (put_http_type t r')) as (K1 & K2 & K3 & K4 & K5 & K6 & K7).
    set (r2 := expand_size _) in *.
    constructor; cbn [req_ put_req]; try done.
    + exists slack'. exact Hb2.
    + change (buf_size (put_left_body_len kk r2)) with (buf_size r2). rewrite Hs2, Hsz', Htot, Hn. lia.
    + change (cur_size_ (put_left_body_len kk r2)) with (cur_size_ r2). by rewrite K1, <-Hcur, <-Hcur'.
    + change (max_header_len_ (put_left_body_len kk r2)) with (max_header_len_ r2). by rewrite K4, <-Hmax, <-Hmax'.
    + unfold at_capacity. change (header_len_ (put_left_body_len kk r2)) with (header_len_ r2).
      change (body_len_ (put_left_body_len kk r2)) with (body_len_ r2). rewrite K2, K3.
      apply Z.ltb_ge. change (wrap64 _) with (total_len r'). rewrite Htot, Hn. unfold MaxSize. lia.
    + change (is_chunked_ (put_left_body_len kk r2)) with (is_chunked_ r2). by rewrite K5, <-Hch2.
    + change (queries_ (put_left_body_len kk r2)) with (queries_ r2). rewrite K6.
      change (queries_ (put_http_type t r')) with (queries_ r'). rewrite Hq2. by destruct (msg_query x).
    + change (state_ (put_left_body_len kk r2)) with (state_ r2). rewrite K7. change (state_ (put_http_type t r')) with (state_ r').
      by rewrite Hst'.
Qed.

Lemma serve_plain b rest got s c n :
  plain_type x -> whole x -> msg_size x = Z.of_nat n -> Z.of_nat (length (msg_head x) + n) < 1024 ->
  Forall is_byte (msg_head x ++ msg_content x) ->
  ready 1024 got c -> got ++ burst_text b = msg_head x ++ s -> s ++ text rest = msg_content x ->
  exists c1, delivered c1 /\ taken env (b :: rest) c (h c1).
Proof.
  intros Hplain Hwhole Hn Hsize Hby. revert b got s c.
  induction rest as [|b' rest IH]; intros b got s c Hr Hgot Hs.
  all: assert (Z.of_nat (length s) <= Z.of_nat n) as Hsn
    by (unfold whole in Hwhole; rewrite <-Hn, Hwhole, <-Hs, length_app; lia).
  all: assert (length (got ++ burst_text b) = length (msg_head x) + length s)%nat as Hlen
    by (rewrite Hgot, length_app; done).
  all: destruct (take_in_ready _ got (burst_text b) c Hr) as (c' & Htake & Hr'); [unfold MaxSize; lia|].
  all: assert (Forall is_byte (got ++ burst_text b)) as Hby'
    by (rewrite Hgot, <-Hs, app_assoc in *; by apply Forall_app in Hby as [? _]).
  all: destruct (process_plain _ _ c' s n Hplain Hr' Hgot Hby' Hn) as [(Hlast & c1 & Hp & Hd)|(Hlast & c1 & Hp & Hr1)];
    [lia|lia|lia| |].
  all: rewrite length_app in Hlen.
  all: assert (Z.of_nat (length (burst_text b)) < left_size (req_ c)) as Hroom
    by (rewrite (left_size_ready _ _ _ Hr) by (unfold MaxSize; lia); lia).
  - exists c1. split; [apply Hd; by rewrite <-Hs, app_nil_r|]. by apply taken_last with c'.
  - unfold whole in Hwhole. rewrite <-Hs, app_nil_r in Hwhole. lia.
  - unfold whole in Hwhole. rewrite <-Hs in Hwhole. change (text (b' :: rest)) with (burst_text b' ++ text rest) in Hwhole.
    rewrite !length_app in Hwhole. cbn [length burst_text] in Hwhole. lia.
  - rewrite Z.max_l in Hr1 by lia. destruct (IH b' (got ++ burst_text b) (s ++ burst_text b') c1) as (c2 & Hd2 & Hrun).
    + done.
    + by rewrite Hgot, <-app_assoc.
    + rewrite <-Hs. change (text (b' :: rest)) with (burst_text b' ++ text rest). by rewrite <-app_assoc.
    + exists c2. split; [done|]. by apply taken_more with c' c1.
Qed.

Lemma long_plain b rest size got s c fuel answers sent n :
  plain_type x -> whole x -> msg_size x = Z.of_nat n ->
  size <= Z.of_nat (length (msg_head x) + n) <= 1024 * 1024 ->
  Forall is_byte (msg_head x ++ msg_content x) -> ready size got c -> Z.of_nat (length got) < size ->
  got ++ burst_text b = msg_head x ++ s -> s ++ text rest = msg_content x ->
  (length (arrivals (b :: rest)) < fuel)%nat ->
  exists c', handle env fuel (arrivals (b :: rest)) answers sent c = (Thrown, c', sent) /\ app_ c' = app.
Proof.
  intros Hplain Hwhole Hn Htotal Hby. revert b size got s c fuel Htotal.
  induction rest as [|b' rest IH]; intros b size got s c fuel Htotal Hr Hroom Hgot Hs Hfuel.
  all: assert (Z.of_nat (length s) <= Z.of_nat n) as Hsn
    by (unfold whole in Hwhole; rewrite <-Hn, Hwhole, <-Hs, length_app; lia).
  all: assert (length (got ++ burst_text b) = length (msg_head x) + length s)%nat as Hlen
    by (rewrite Hgot, length_app; done).
  all: pose proof (left_size_ready _ _ _ Hr ltac:(unfold MaxSize; lia)) as Hleft.
  all: rewrite length_app in Hlen; destruct fuel as [|fuel]; [lia|].
  all: change (arrivals (b :: ?rest)) with (Arrive b.1 b.2 :: Again :: arrivals rest).
  all: destruct (decide (Z.of_nat (length (got ++ burst_text b)) < size)) as [Hfit|Hfull]; rewrite length_app in *;
    [|exists c; split; [apply handle_full; lia|by apply (ready_app _ _ _ Hr)]].
  { unfold whole in Hwhole. rewrite <-Hs, app_nil_r in Hwhole. lia. }
  destruct (take_in_ready _ got (burst_text b) c Hr) as (c' & Htake & Hr').
  { rewrite length_app. unfold MaxSize; lia. }
  assert (Forall is_byte (got ++ burst_text b)) as Hby'
    by (rewrite Hgot, <-Hs, app_assoc in *; by apply Forall_app in Hby as [? _]).
  destruct (process_plain _ _ c' s n Hplain Hr' Hgot Hby' Hn) as [(Hlast & _)|(_ & c1 & Hp & Hr1)]; [lia..|].
  rewrite (handle_burst _ _ _ _ _ _ _ c'), Hp by (done || lia). cbn [react]. rewrite Z.max_r in Hr1 by lia.
  apply (IH b' _ (got ++ burst_text b) (s ++ burst_text b')) with (2 := Hr1); [lia|rewrite length_app; lia|..].
  - by rewrite Hgot, <-app_assoc.
  - rewrite <-Hs. change (text (b' :: rest)) with (burst_text b' ++ text rest). by rewrite <-app_assoc.
  - change (arrivals (b :: b' :: rest)) with (Arrive b.1 b.2 :: Again :: arrivals (b' :: rest)) in Hfuel.
    cbn [length] in Hfuel. lia.
Qed.

Lemma check_keep_alive_keeps (c : connection A) :
  req_ (check_keep_alive c) = req_ c /\ continue_work_ (check_keep_alive c) = continue_work_ c /\
  app_ (check_keep_alive c) = app_ c.
Proof.
  unfold check_keep_alive. set (keep := if is_http11 _ then _ else _). clearbody keep.
  destruct keep; [|done]. destruct (is_upgrade _ _ _). done.
Qed.

(** with a part of the head the connection goes on reading, but the length of the
    head is now -2 *)
Lemma process_partial size p q (c : connection A) :
  looks env -> ready size p c -> msg_head x = p ++ q -> q <> [] -> Forall is_byte (msg_head x) ->
  Z.of_nat (length (msg_head x)) < 2 ^ 31 ->
  Z.of_nat (length p) <= 1024 * 1024 -> body_len_ (req_ c) = 0 ->
  (exists c', process env c = Some (c', need_read) /\ app_ c' = app /\ at_capacity (req_ c') = true /\
    buf_ (req_ c') = buf_ (req_ c) /\ cur_size_ (req_ c') = cur_size_ (req_ c)) \/
  (exists c', process env c = Some (c', need_write) /\ app_ c' = app /\ status_ (res_ c') = st_not_found).
Proof.
  intros Hlook [(slack & Hb) _ Hcur Hmax Hcap _ _ Hw _ Happ] Hhead Hq Hby H31 Hlen Hbody.
  unfold process. rewrite Hcap, Hw. unfold handle_read, Request.parse_header.
  cbn [put_copy_headers cur_size_ buf_]. rewrite Hcur, Hb, Nat2Z.id, take_app_length.
  destruct Hok as (Hm & Hne & Ht & _ & _ & _ & Hv & Hf & Hn & _).
  pose proof (phr_parse_prefix (sse_ env) max_headers _ _ _ _ p q Hm Hne Ht Hv Hf Hn Hhead Hq Hby H31) as Hp.
  destruct (phr_parse_request (sse_ env) p max_headers 0) as [o ret]. cbn [snd] in Hp. subst ret.
  cbn [mbind option_bind].
  assert (max_header_len_ (store_parsed o (-2) (put_copy_headers [] (req_ c))) = 1024 * 1024) as -> by exact Hmax.
  change (cur_size_ (store_parsed _ _ _)) with (cur_size_ (req_ c)).
  rewrite (proj2 (Z.ltb_ge _ _)) by lia. change (-2 <? 0) with true. cbn [mbind option_bind].
  change (-2 =? -1) with false. unfold peek_route. set (r1 := store_parsed _ _ _).
  destruct (Hlook (put_req r1 c)) as (c' & found & -> & Ha' & Hfound). cbn [mbind option_bind].
  destruct found; cbn [negb].
  - left. rewrite Hfound by done. destruct (check_keep_alive_keeps (put_req r1 c)) as (Hk & _ & Ha).
    change (-2 =? -2) with true. cbn match. eexists. split; [reflexivity|]. rewrite Hk, Ha. split_and!; try done.
    unfold at_capacity. cbn [req_ put_req]. change (header_len_ r1) with (-2).
    change (body_len_ r1) with (body_len_ (req_ c)). by rewrite Hbody.
  - right. eexists. split; [reflexivity|]. destruct (response_back_keeps env st_not_found (bs "404") c') as (E1 & _ & E3).
    split; [|done]. by rewrite E3, Ha'.
Qed.
End serving.

(** ** What is served *)

Lemma new_ready {A} x fresh_part disk res_type now (app : A) :
  ready x app 1024 [] (new_connection fresh_part disk res_type now app).
Proof. constructor; try done. by eexists. Qed.

(** the head comes with the first burst *)
Lemma head_first x b rest :
  (length (msg_head x) <= length (burst_text b))%nat -> text (b :: rest) = msg_head x ++ msg_content x ->
  exists s, burst_text b = msg_head x ++ s /\ s ++ text rest = msg_content x.
Proof.
  change (text (b :: rest)) with (burst_text b ++ text rest). intros Hhead Htext.
  apply app_eq_inv in Htext as [(k & E1 & E2)|(k & E1 & E2)]; [eauto|].
  rewrite E1, length_app in Hhead. destruct k; [|cbn in Hhead; lia]. rewrite app_nil_r in E1.
  exists []. by rewrite E1, app_nil_r.
Qed.

Lemma served_plain {A} (env : environment A) h x b rest fresh_part disk res_type now (app : A) :
  serves env h x -> message_ok x -> plain_type x -> whole x ->
  Z.of_nat (length (msg_head x ++ msg_content x)) < 1024 -> Forall is_byte (msg_head x ++ msg_content x) ->
  (length (msg_head x) <= length (burst_text b))%nat -> text (b :: rest) = msg_head x ++ msg_content x ->
  exists c, delivered x app c /\ answered env (b :: rest) (new_connection fresh_part disk res_type now app) (h c).
Proof.
  intros (H1 & H2 & H3) Hok Hplain Hwhole Hsize Hby Hhead Htext.
  destruct (head_first _ _ _ Hhead Htext) as (s & Hs & Hrest).
  destruct (serve_plain env h x app H1 H2 H3 Hok b rest [] s (new_connection fresh_part disk res_type now app) (length (msg_content x)))
    as (c & Hd & Ht); try done.
  - rewrite length_app in Hsize. lia.
  - apply new_ready.
  - exists c. split; [exact Hd|]. by apply taken_answered.
Qed.

(** C1. A request is served: when the head arrives in one piece and the whole
    message is shorter than the initial buffer, then however the body is cut into
    bursts the connection keeps reading until it is complete, calls the handler
    once, with the method, path, headers, query and exactly the body the client
    sent, and hands what the handler answers to ::send ([answered]).  In the loop
    and on the socket, whatever its events say of EPOLLOUT: if the socket takes the
    answer in one go, exactly these bytes have been sent and the coroutine has ended;
    if it takes a part, that part has been sent and the coroutine waits in its send,
    and the rest goes out in later events that say only EPOLLOUT; if ::send fails the
    coroutine has ended.  (When the event that brings the last bytes says EPOLLOUT, too,
    the callback then uses a null or freed pointer, which [handed_over] says.) *)
Theorem request_served {A} (env : environment A) h x b rest fresh_part disk res_type now (app : A) :
  serves env h x -> message_ok x -> plain_type x -> whole x ->
  Z.of_nat (length (msg_head x ++ msg_content x)) < 1024 -> Forall is_byte (msg_head x ++ msg_content x) ->
  (length (msg_head x) <= length (burst_text b))%nat -> text (b :: rest) = msg_head x ++ msg_content x ->
  exists c, delivered x app c /\ answered env (b :: rest) (new_connection fresh_part disk res_type now app) (h c).
Proof. apply served_plain. Qed.

(** C35. A message of 1024 bytes or more is never answered, although the limit is
    3 MB: the buffer is grown to exactly the length announced, and recv gives up
    on a read that fills the buffer.  The coroutine ends with that exception when
    the last byte arrives at the latest, nothing is sent, and the handler has not
    run (the application's state is the initial one whatever it does). *)
Theorem long_request_unanswered {A} (env : environment A) h x b rest fresh_part disk res_type now (app : A) fuel answers :
  serves env h x -> message_ok x -> plain_type x -> whole x ->
  1024 <= Z.of_nat (length (msg_head x ++ msg_content x)) <= 1024 * 1024 ->
  Forall is_byte (msg_head x ++ msg_content x) ->
  (length (msg_head x) <= length (burst_text b))%nat -> text (b :: rest) = msg_head x ++ msg_content x ->
  (length (arrivals (b :: rest)) < fuel)%nat ->
  exists c, handle env fuel (arrivals (b :: rest)) answers []
    (new_connection fresh_part disk res_type now app) = (Thrown, c, []) /\ app_ c = app.
Proof.
  intros (H1 & H2 & H3) Hok Hplain Hwhole Hsize Hby Hhead Htext Hfuel.
  destruct (head_first _ _ _ Hhead Htext) as (s & Hs & Hrest).
  apply (long_plain env h x app H1 H2 H3 Hok b rest 1024 [] s _ fuel answers [] (length (msg_content x))); try done.
  - rewrite length_app in Hsize. lia.
  - apply new_ready.
Qed.

(** A head cut in two is rejected: when the first burst ends anywhere inside
    the head, either no route is found for what has been read of it, which is
    answered with 404 at once; or parse_header leaves -2 in header_len_, at_capacity
    takes that for a huge length, and the next burst is answered with 400 and the
    text that the request is too long.  The handler is not run. *)
Theorem split_head_rejected {A} (env : environment A) x b1 b2 q fresh_part disk res_type now (app : A) :
  looks env -> message_ok x -> Forall is_byte (msg_head x) -> Z.of_nat (length (msg_head x)) < 2 ^ 31 ->
  msg_head x = burst_text b1 ++ q -> q <> [] ->
  Z.of_nat (length (burst_text b1 ++ burst_text b2)) < 1024 ->
  let c0 := new_connection fresh_part disk res_type now app in
  exists c, app_ c = app /\
  (status_ (res_ c) = st_not_found /\ answered env [b1] c0 c \/
   status_ (res_ c) = st_bad_request /\ content_ (res_ c) = too_long /\ answered env [b1; b2] c0 c).
Proof.
  intros Hlook Hok Hby H31 Hhead Hq Hsize c0. rewrite length_app in Hsize.
  pose proof (new_ready x fresh_part disk res_type now app) as Hr. fold c0 in Hr.
  destruct (take_in_ready x app 1024 [] (burst_text b1) c0 Hr) as (c1 & Ht1 & Hr1); [rewrite app_nil_l; unfold MaxSize; lia|].
  rewrite app_nil_l in Hr1.
  assert (body_len_ (req_ c1) = 0) as Hbody.
  { unfold take_in in Ht1. destruct (update_size _ _) as [r o] eqn:E. injection Ht1 as <- _.
    unfold update_size in E. injection E as <- _. done. }
  assert (Z.of_nat (length (burst_text b1)) < left_size (req_ c0)) as Hroom.
  { rewrite (left_size_ready _ _ _ _ _ Hr) by (cbn; unfold MaxSize; lia). cbn [length]. lia. }
  destruct (process_partial env x app Hok 1024 _ q c1 Hlook Hr1 Hhead Hq Hby H31 ltac:(lia) Hbody)
    as [(c2 & Hp1 & Ha2 & Hcap2 & Hb2 & Hc2)|(c2 & Hp1 & Ha2 & Hs2)].
  2:{ exists c2. split; [done|]. left. split; [done|]. by apply taken_answered, taken_last with c1. }
  rewrite (ready_cur _ _ _ _ _ Hr1) in Hc2.
  destruct (take_in (burst_text b2) c2) as [c3 over] eqn:Ht2.
  assert (over = false /\ app_ c3 = app /\ at_capacity (req_ c3) = true) as (-> & Ha3 & Hcap3).
  { unfold take_in, update_size in Ht2. injection Ht2 as <- <-. split; [|done].
    apply Z.ltb_ge. change (cur_size_ (put_cur_size ?k _)) with k.
    change (cur_size_ (req_ (modify_req _ c2))) with (cur_size_ (req_ c2)).
    rewrite Hc2. change (S (length b2.2)) with (length (burst_text b2)).
    rewrite wrap64_small; unfold MaxSize; lia. }
  destruct (response_back_keeps env st_bad_request too_long c3) as (E1 & E2 & E3).
  exists (response_back env st_bad_request too_long c3). split; [congruence|]. right. split; [done|]. split; [done|].
  apply taken_answered, taken_more with c1 c2; [done..|]. apply taken_last with c3; [|done|].
  - unfold left_size, buf_size. rewrite Hb2, Hc2.
    change (Z.of_nat (length (buf_ (req_ c1)))) with (buf_size (req_ c1)).
    rewrite (ready_size _ _ _ _ _ Hr1), wrap64_small; lia.
  - unfold process. by rewrite Hcap3.
Qed.

(** a handler that keeps the body and answers ok *)
Definition sample_handler (c : connection (list bytes)) : connection (list bytes) :=
  put_app (default [] (body (req_ c)) :: app_ c) (put_res (set_response (res_ c) (bs "ok")) c).
Definition sample_env : environment (list bytes) :=
  mk_env (fun c => Some (sample_handler c)) (fun c => Some (c, true)) None None (fun _ => true) None
    (fun _ c => c) [] (fun _ => true) true (fun _ => 0) 0 (fun _ => 0) [] [] [].
Definition sample_connection : connection (list bytes) := new_connection [] empty_fs ct_none 0 [].

Definition body_message (s : bytes) : message :=
  mk_message (bs "POST") (bs "/a") (Some [(bs "x", bs "1")]) 1
    [(bs "Content-Length", bs " ", dec_string (Z.of_nat (length s)))] (Some (Z.of_nat (length s))) s.
(** a text that arrives in two pieces *)
Definition cut (n : nat) (s : bytes) : list burst :=
  let b s := match s with c :: s => [(c, s)] | [] => [] end in b (take n s) ++ b (drop n s).
Definition message_text (x : message) : bytes := msg_head x ++ msg_content x.

Lemma serves_sample x : serves sample_env sample_handler x.
Proof. done. Qed.

#[export] Instance message_ok_dec x : Decision (message_ok x).
Proof. unfold message_ok. destruct (msg_length x), (msg_query x); cbn [from_option]; unfold token_ok; apply _. Defined.


(** a message that the router takes to [g] *)
Lemma routed_serves {A} offset now order (s : @http_server A) g x events can_open nano results garbage fresh :
  (forall route_it w, Router.route 2 order (http_router_ s) (msg_method x) (msg_path x) route_it w =
                      Some (true, if route_it then calls g w else w)) ->
  serves (make_env offset now order s events can_open nano results garbage fresh)
    (fun c => settle offset now (g (pass_headers c))) x.
Proof.
  intros Hroute. split; [done|]. split; intros c [Ec1 Ec2]; cbn [make_env http_handler_check_ http_handler_];
    unfold http_handler, http_handler_check.
  - by rewrite Ec1, Ec2, Hroute.
  - change (req_ (pass_headers c)) with (req_ c). rewrite Ec1, Ec2, Hroute. cbn [mbind option_bind].
    change (calls g (pass_headers c, None)) with (g (pass_headers c)). unfold settle.
    by destruct (g (pass_headers c)) as [c' [e|]].
Qed.

Lemma server_serves {A} offset now order (s0 s : @http_server A) methods name g m x events can_open nano results garbage fresh :
  set_http_handler methods name g s0 = Some s ->
  UNKNOW ∉ methods -> methods <> [] -> m <> UNKNOW -> last name <> Some 42 ->
  Forall (fun r => r.1 name = false) (Router.regex_invokers_ (http_router_ s0)) ->
  Router.method_accepted methods m = true -> msg_method x = method_name m -> msg_path x = name ->
  serves (make_env offset now order s events can_open nano results garbage fresh)
    (fun c => settle offset now (g (pass_headers c))) x.
Proof.
  intros Hset Hu Hms Hm Hstar Hre Hacc Hmx Hpx. unfold set_http_handler in Hset.
  apply bind_Some in Hset as (rt & Hreg & [= <-]).
  assert (forall route_it w, Router.route 2 order rt (method_name m) name route_it w =
    Some (true, if route_it then calls g w else w)) as Hroute.
  { intros route_it w. rewrite (Router.registered_route order _ _ _ _ _ _ route_it w 1 Hu Hms Hm Hstar Hre Hreg).
    by rewrite Hacc. }
  apply routed_serves. intros route_it w. cbn [http_router_ put_router]. by rewrite Hmx, Hpx, Hroute.
Qed.

(** C2. From registration to answer: a handler registered with the server for some
    methods under a name is called, once and with the client's method, path,
    headers, query and body, for a message with an accepted method and that path
    which the server can serve, however its body is cut into bursts; what it puts
    into the response is handed to ::send, as in C1 ([answered]), or, if it throws,
    the status 500 with what it has thrown. *)
Theorem registered_request_served {A} offset now order (s0 s : @http_server A) methods name g m x
    events can_open nano results garbage fresh b rest fresh_part disk res_type clock (app : A) :
  set_http_handler methods name g s0 = Some s ->
  UNKNOW ∉ methods -> methods <> [] -> m <> UNKNOW -> last name <> Some 42 ->
  Forall (fun r => r.1 name = false) (Router.regex_invokers_ (http_router_ s0)) ->
  Router.method_accepted methods m = true -> msg_method x = method_name m -> msg_path x = name ->
  message_ok x -> plain_type x -> whole x ->
  Z.of_nat (length (msg_head x ++ msg_content x)) < 1024 -> Forall is_byte (msg_head x ++ msg_content x) ->
  (length (msg_head x) <= length (burst_text b))%nat -> text (b :: rest) = msg_head x ++ msg_content x ->
  exists c, delivered x app c /\
  answered (make_env offset now order s events can_open nano results garbage fresh) (b :: rest)
    (new_connection fresh_part disk res_type clock app) (settle offset now (g (pass_headers c))).
Proof.
  intros Hset Hu Hms Hm Hstar Hre Hacc Hmx Hpx. intros.
  apply (served_plain (make_env offset now order s events can_open nano results garbage fresh)
    (fun c => settle offset now (g (pass_headers c)))); try done. by eapply server_serves.
Qed.

(** ** Samples *)

Definition sample_burst1 : burst := (80, drop 1 (take 45 (message_text (body_message (bs "hello"))))).
Definition sample_burst2 : burst := (108, bs "lo").
Definition long_message : message := body_message (replicate 2000 97).
Definition long_burst : burst := (80, drop 1 (take 100 (message_text long_message))).
Definition long_rest : burst := (97, drop 101 (message_text long_message)).
Definition head_burst : burst := (80, bs "OST /a").
Definition head_rest : burst := (63, bs "x=1").

Ltac check_bool := apply (bool_decide_unpack _); vm_compute; exact I.

(** a socket that is writable when the last burst comes, and takes one byte of the answer *)
Definition sample_socket : RawConn.RawConnection :=
  RawConn.mk_conn (Reading sample_connection) (Some (Z.to_nat (left_size (req_ sample_connection)))) None false false false false [] [] [].
Definition sample_events : list RawConn.io_event :=
  [RawConn.mk_event false true [] []; RawConn.mk_event true false [Arrive sample_burst1.1 sample_burst1.2] []].
Definition sample_last : RawConn.io_event := RawConn.mk_event true false [Arrive sample_burst2.1 sample_burst2.2] [Took 1].

Lemma request_served_witness : exists c,
  delivered (body_message (bs "hello")) [] c /\
  handle sample_env 9 (arrivals [sample_burst1; sample_burst2]) [Took 4096] [] sample_connection =
    (Returned, sample_handler c, [bs "ok"]) /\
  exists s1 s2 s3, on_callback sample_env (RawConn.mk_event false true [] []) sample_socket = Some s1 /\
    on_events sample_env [RawConn.mk_event true false [Arrive sample_burst1.1 sample_burst1.2] []] s1 = Some s2 /\
    on_callback sample_env sample_last s2 = Some s3 /\
    RawConn.co s3 = Writing (sample_handler c) need_write /\ RawConn.sending (bs "ok") 1 s3 /\ RawConn.wire s3 = bs "o".
Proof.
  destruct (request_served sample_env sample_handler (body_message (bs "hello")) sample_burst1 [sample_burst2]
    [] empty_fs ct_none 0 []) as (c & Hd & Ha).
  - split; [done|split; done].
  - check_bool.
  - check_bool.
  - done.
  - check_bool.
  - check_bool.
  - vm_compute. lia.
  - vm_compute. done.
  - exists c. split; [exact Hd|]. split; [exact (answered_loop _ _ _ _ Ha 9%nat [] [Took 4096] [] ltac:(cbn; lia))|].
    set (s1 := RawConn.mk_conn (Reading sample_connection) (Some (Z.to_nat (left_size (req_ sample_connection)))) None false false true
      false [] [] []).
    destruct (answered_socket _ _ _ _ Ha [RawConn.mk_event true false [Arrive sample_burst1.1 sample_burst1.2] []] sample_last s1)
      as (s2 & E2 & Hw2 & Hm2 & Hh); [by repeat constructor|by constructor|].
    assert (send_in sample_last s2 (response_str (res_ (sample_handler c))) = SendWait 1) as E.
    { unfold send_in. rewrite Hm2. by vm_compute. }
    unfold handed_over in Hh. rewrite E in Hh. destruct Hh as (s3 & _ & E3 & Hco & Hsend & Hw3).
    exists s1, s2, s3. split; [reflexivity|]. split; [exact E2|]. split; [exact E3|]. split; [exact Hco|].
    split; [exact Hsend|]. rewrite Hw3, Hw2. reflexivity.
Defined.

Lemma long_request_unanswered_witness : exists c,
  handle sample_env 9 (arrivals [long_burst; long_rest]) [Took 4096] [] sample_connection = (Thrown, c, []) /\
  app_ c = [].
Proof.
  apply (long_request_unanswered sample_env sample_handler long_message long_burst [long_rest] [] empty_fs ct_none 0 [] 9).
  - split; [done|split; done].
  - check_bool.
  - check_bool.
  - vm_compute. done.
  - check_bool.
  - check_bool.
  - vm_compute. lia.
  - vm_compute. done.
  - vm_compute. lia.
Defined.

Lemma split_head_rejected_witness : exists c, app_ c = [] /\
  (status_ (res_ c) = st_not_found /\ answered sample_env [head_burst] sample_connection c \/
   status_ (res_ c) = st_bad_request /\ content_ (res_ c) = too_long /\
   answered sample_env [head_burst; head_rest] sample_connection c).
Proof.
  apply (split_head_rejected sample_env (body_message (bs "hello")) head_burst head_rest
    (drop 7 (msg_head (body_message (bs "hello")))) [] empty_fs ct_none 0 []).
  - intros c. by exists c, true.
  - check_bool.
  - check_bool.
  - vm_compute. done.
  - vm_compute. done.
  - vm_compute. done.
  - vm_compute. done.
Defined.

(** a server with one handler *)
Definition empty_server : @http_server (list bytes) := mk_server Router.new_router ∅ None None [] [].
Definition sample_server : @http_server (list bytes) :=
  default empty_server (set_http_handler [POST] (bs "/a") (returns sample_handler) empty_server).

Lemma registered_request_served_witness : exists c,
  delivered (body_message (bs "hello")) [] c /\
  handle (make_env (fun _ => 0) 0 map_to_list sample_server (fun _ c => c) (fun _ => true) (fun _ => 0) [] [] []) 9
    (arrivals [sample_burst1; sample_burst2]) [Took 4096] [] sample_connection =
  (Returned, sample_handler (pass_headers c), [bs "ok"]).
Proof.
  destruct (registered_request_served (fun _ => 0) 0 map_to_list empty_server sample_server [POST] (bs "/a")
    (returns sample_handler) POST (body_message (bs "hello")) (fun _ c => c) (fun _ => true) (fun _ => 0) [] [] []
    sample_burst1 [sample_burst2] [] empty_fs ct_none 0 []) as (c & Hd & Ha).
  - vm_compute. reflexivity.
  - check_bool.
  - done.
  - done.
  - done.
  - constructor.
  - vm_compute. reflexivity.
  - vm_compute. reflexivity.
  - vm_compute. reflexivity.
  - check_bool.
  - check_bool.
  - vm_compute. reflexivity.
  - check_bool.
  - check_bool.
  - vm_compute. lia.
  - vm_compute. reflexivity.
  - exists c. split; [exact Hd|]. exact (answered_loop _ _ _ _ Ha 9%nat [] [Took 4096] [] ltac:(cbn; lia)).
Defined.

(** a handler that throws *)
Definition throwing_server : @http_server (list bytes) :=
  default empty_server (set_http_handler [POST] (bs "/a") (fun c => (put_app [bs "seen"] c, Some (Std_exception (bs "boom")))) empty_server).
Lemma throwing_handler_answers :
  let '(o, c, sent) := handle (make_env (fun _ => 0) 0 map_to_list throwing_server (fun _ c => c) (fun _ => true) (fun _ => 0) [] [] []) 9
    (arrivals [sample_burst1; sample_burst2]) [Took 4096] [] sample_connection in
  o = Returned /\ app_ c = [bs "seen"] /\ status_ (res_ c) = st_internal_server_error /\
  content_ (res_ c) = bs "boom exception in business function".
Proof. vm_compute. by split_and!. Qed.

(** set_upload_dir has no effect: connections get the directory of the static files *)
Lemma upload_dir_unused {A} offset now order absolute current path (s : @http_server A) events can_open nano results garbage fresh :
  make_env offset now order (set_upload_dir absolute current path s) events can_open nano results garbage fresh =
  make_env offset now order s events can_open nano results garbage fresh /\
  static_dir_ (make_env offset now order s events can_open nano results garbage fresh) = static_path_ s.
Proof. done. Qed.
