(* ===== verification/Forms.v ===== *)
(** * Multipart requests

    The hooks of the connection on a multipart body: which form fields the handler
    finds, and what happens to a body that comes in more than one burst. *)

From Stdlib Require Import ZArith Lia.
From stdpp Require Import base numbers list gmap strings.
From S2P Require Import Prelude CStd PicoHttp PicoHttpFacts Codec Utils Multipart MultipartFacts MultipartReader.
From S2P Require Import Response WebSocket Upload Request Connection Server Rounds ServerFacts.
Local Open Scope Z_scope.

(** a multipart message with the boundary [bd] *)
Definition multipart_type (x : message) (bd : bytes) : Prop :=
  lookup_header (msg_fields x) (bs "content-type") = bs "multipart/form-data; boundary=" ++ bd /\
  contains (bs "multipart/form-data; boundary=" ++ bd) (bs "application/x-www-form-urlencoded") = false /\
  (34 ∉ bd) /\ bd <> [] /\ msg_length x <> None /\
  lookup_header (msg_fields x) (bs "upgrade") = [] /\ lookup_header (msg_fields x) (bs "content-encoding") = [].
#[export] Instance multipart_type_dec x bd : Decision (multipart_type x bd).
Proof. unfold multipart_type; apply _. Defined.

Lemma unquote_plain s : (34 ∉ s) -> unquote s = s.
Proof.
  intros H. destruct s as [|c s]; [done|]. apply not_elem_of_cons in H as [H _]. unfold unquote.
  repeat (case_match; try done).
Qed.

Section forms.
Context {A : Type} (env : environment A) (x : message) (bd : bytes) (app : A).
Hypothesis Hcheck : forall r, check_headers_ env r = true.
Hypothesis Hpeek : forall c, at_route x c -> http_handler_check_ env c = Some (c, true).
Hypothesis Hupload : upload_check_ env = None.
Hypothesis Hbegin : multipart_begin_ env = None.
Hypothesis Hok : message_ok x.
Hypothesis Htype : multipart_type x bd.

Lemma get_content_type_multipart (c : connection A) :
  is_chunked_ (req_ c) = false ->
  Request.get_header_value (req_ c) (bs "content-type") = bs "multipart/form-data; boundary=" ++ bd ->
  get_content_type env c =
  (put_multipart_parser (set_boundary (CRLF ++ bs "--" ++ bd) (fresh_ env)) c, cty_multipart).
Proof.
  intros Hch Hct. unfold get_content_type. rewrite Hch, Hct. destruct Htype as (_ & Hnot & Hquote & Hne & _).
  rewrite Hnot. rewrite bool_decide_false by done.
  assert (contains (bs "multipart/form-data; boundary=" ++ bd) (bs "multipart/form-data") = true) as ->.
  { unfold contains. by destruct bd. }
  assert (find_char 61 (bs "multipart/form-data; boundary=" ++ bd) = Some 29%nat) as -> by done.
  change (drop (29 + 1) (bs "multipart/form-data; boundary=" ++ bd)) with bd.
  by rewrite unquote_plain.
Qed.

(** the request as handle_multipart sees it *)
Lemma process_multipart size got c s n :
  ready x app size got c -> got = msg_head x ++ s -> Forall is_byte got ->
  msg_size x = Z.of_nat n -> (0 < n)%nat -> Z.of_nat (length got) <= 1024 * 1024 ->
  exists c2, process env c = handle_multipart env c2 /\ at_route x c2 /\ app_ c2 = app /\
    (forall key, Request.get_header_value (req_ c2) key = lookup_header (msg_fields x) key) /\
    header_len_ (req_ c2) = Z.of_nat (length (msg_head x)) /\ body_len_ (req_ c2) = Z.of_nat n /\
    left_body_len_ (req_ c2) = Z.of_nat n /\ has_gzip_ (req_ c2) = false /\
    cur_size_ (req_ c2) = Z.of_nat (length got) /\ buf_ (req_ c2) = buf_ (req_ c) /\
    multipart_parser_ c2 = set_boundary (CRLF ++ bs "--" ++ bd) (fresh_ env) /\
    multipart_reader_ c2 = multipart_reader_ c /\ last_transfer_ c2 = last_transfer_ c /\
    same_storage (req_ c) (req_ c2) /\ files_ c2 = files_ c /\ disk_ c2 = disk_ c.
Proof.
  intros Hr Hgot Hby Hn Hpos Hlt. 
  pose proof (ready_received _ _ _ _ _ s Hr Hgot Hlt Hby) as Hrec.
  destruct (parse_header_print (sse_ env) (check_headers_ env) (with_content x s) (req_ c) Hok Hrec Hcheck)
    as (r' & Hparse & Ho).
  pose proof (parse_header_storage _ _ _ _ _ _ Hparse) as Hst.
  pose proof Ho as (Hm & Hu & _ & Hhd & _ & Hbl & Hleft & _ & _ & Hhl & Hb' & Hcur' & Hch' & Hgz).
  destruct Htype as (Hct & _ & _ & _ & Hlen & Hup & Hce).
  change (msg_length (with_content x s)) with (msg_length x) in *.
  change (msg_fields (with_content x s)) with (msg_fields x) in *.
  change (msg_head (with_content x s)) with (msg_head x) in *.
  change (default 0 (msg_length x)) with (msg_size x) in *.
  destruct Hr as [_ _ Hcur _ Hcap Hch _ Hw Hupg Happ].
  unfold process. rewrite Hcap, Hw. unfold handle_read. rewrite Hparse. cbn [mbind option_bind].
  rewrite (proj2 (Z.eqb_neq _ _)) by lia. unfold peek_route.
  rewrite Hpeek by done. cbn [mbind option_bind negb].
  destruct (check_keep_alive_plain (put_req r' c)) as (k & res & ws & ->).
  { etransitivity; [apply (Hhd (bs "upgrade"))|done]. }
  { done. }
  set (c2 := put_ws ws _). rewrite (proj2 (Z.eqb_neq _ (-2))) by lia.
  assert (is_chunked_ r' = false) as Hch2 by (rewrite Hch', Hch; by rewrite bool_decide_false).
  unfold handle_request, has_body. change (req_ c2) with r'. rewrite Hbl, Hch2, Hn, (proj2 (Z.eqb_neq _ _)) by lia.
  cbn [negb orb]. rewrite (get_content_type_multipart c2) by (done || by rewrite <-Hct; apply Hhd).
  eexists. split; [reflexivity|]. cbn [req_ put_req modify_req put_multipart_parser].
  split_and!; try done.
  - by rewrite <-Hn.
  - etransitivity; [exact Hleft|]. unfold msg_size in Hn. by destruct (msg_length x).
  - by apply Hgz.
  - etransitivity; [exact Hcur'|]. done.
Qed.

(** ** A body in several bursts *)

(** what the hooks leave alone *)
Definition kept (c c' : connection A) : Prop :=
  app_ c' = app_ c /\ last_transfer_ c' = last_transfer_ c /\ continue_work_ c' = continue_work_ c /\
  left_body_len_ (req_ c') = left_body_len_ (req_ c) /\ body_len_ (req_ c') = body_len_ (req_ c) /\
  header_len_ (req_ c') = header_len_ (req_ c) /\ cur_size_ (req_ c') = cur_size_ (req_ c).

Lemma kept_trans c1 c2 c3 : kept c1 c2 -> kept c2 c3 -> kept c1 c3.
Proof. unfold kept. intuition congruence. Qed.

Lemma open_upload_file_kept name c : kept c (open_upload_file env name c).
Proof. unfold open_upload_file. destruct (open _ _ _ _) as [[fs f] []]; done. Qed.

Lemma run_hook_kept hk c c' : run_hook env hk c = Some c' -> kept c c'.
Proof.
  destruct hk as [headers|s| |]; cbn [run_hook].
  - intros [= <-]. unfold on_part_begin_hook. rewrite Hbegin. set (c1 := put_is_multi_part_file _ _).
    assert (kept c c1) as H1 by done. destruct (_ && _); [done|].
    destruct (is_multipart_file _); [|by unfold save_multipart_key_value, modify_req; case_match].
    eapply kept_trans; [exact H1|apply open_upload_file_kept].
  - unfold on_part_data_hook, write_upload_data, update_multipart_value. intros H.
    destruct (bool_decide _); [by injection H as <-|]. destruct (is_multi_part_file_ c).
    + destruct (_ =? 0)%nat; [by injection H as <-|]. destruct (last (files_ c)); [|done].
      cbn [mbind option_bind] in H. destruct (write _ _ _) as [fs f]. by injection H as <-.
    + injection H as <-. unfold modify_req. repeat (case_match; simplify_eq); done.
  - intros [= <-]. unfold on_part_end_hook. repeat case_match; try done.
  - intros [= <-]. unfold on_end_hook. by case_match.
Qed.

Lemma run_hooks_kept hs c c' : run_hooks env hs c = Some c' -> kept c c'.
Proof.
  revert c; induction hs as [|hk hs IH]; intros c; cbn [run_hooks]; [by intros [= <-]|].
  intros (c1 & H1 & H2)%bind_Some. eapply kept_trans; [by eapply run_hook_kept|by apply IH].
Qed.

Lemma feed_rest_kept fuel data c c' : feed_rest env fuel data c = Some c' -> kept c c'.
Proof.
  revert data c; induction fuel as [|fuel IH]; intros data c; cbn [feed_rest]; [done|].
  unfold feed_hooks. destruct (feed _ _) as [[n p es|]|]; [|done..].
  destruct (reader_run _ _) as [r hs]. intros H. apply bind_Some in H as ([c1 m] & H1 & H2).
  apply bind_Some in H1 as (c2 & H1 & [= <- <-]). apply run_hooks_kept in H1.
  assert (kept c c2) as H3 by (eapply kept_trans; [|exact H1]; done).
  destruct (_ && _); [|by injection H2 as <-]. eapply kept_trans; [exact H3|by eapply IH].
Qed.

Lemma parse_multipart_kept size len c c' err :
  parse_multipart env size len c = Some (c', err) ->
  app_ c' = app_ c /\ last_transfer_ c' = last_transfer_ c /\ continue_work_ c' = continue_work_ c /\
  body_len_ (req_ c') = body_len_ (req_ c) /\ header_len_ (req_ c') = header_len_ (req_ c) /\
  cur_size_ (req_ c') = cur_size_ (req_ c) /\
  (err = false -> left_body_len_ (req_ c') = if len =? 0 then left_body_len_ (req_ c) else wrap64 (left_body_len_ (req_ c) - len)).
Proof.
  unfold parse_multipart. destruct (len =? 0); [by intros [= <- <-]|]. destruct (_ <? _); [done|].
  intros H. apply bind_Some in H as (c1 & H1 & H2). apply feed_rest_kept in H1 as (E1 & E2 & E3 & E4 & E5 & E6 & E7).
  destruct (has_error _); injection H2 as <- <-; split_and!; try done. intros _.
  cbn [req_ put_req modify_req put_left_body_len reduce_left_body_size left_body_len_]. by rewrite E4.
Qed.

(** waiting for more of the body, which is not going to be looked at *)
Definition stuck (c : connection A) : Prop :=
  app_ c = app /\ continue_work_ c = Some work_read_multipart /\ last_transfer_ c = 0 /\ left_body_len_ (req_ c) <> 0.

Lemma fit_size_left r : left_body_len_ (fit_size r) = left_body_len_ r.
Proof. unfold fit_size, grow_to, Request.resize, copy_method_url_headers. by repeat case_match. Qed.
Lemma set_current_size_left k r : left_body_len_ (set_current_size k r) = left_body_len_ r.
Proof. unfold set_current_size, copy_method_url_headers. by repeat case_match. Qed.

Lemma process_stuck c : stuck c ->
  (exists c', process env c = Some (c', need_read) /\ stuck c') \/
  (exists c', process env c = Some (c', need_write) /\ app_ c' = app).
Proof.
  intros (Ha & Hw & Ht & Hl). unfold process. rewrite Hw. destruct (at_capacity _).
  { right. by eexists. }
  left. unfold do_read_multipart. change (last_transfer_ (modify_req fit_size c)) with (last_transfer_ c).
  rewrite Ht. unfold parse_multipart. rewrite Z.eqb_refl. cbn [mbind option_bind].
  unfold body_finished. cbn [req_ modify_req put_req].
  rewrite fit_size_left, (proj2 (Z.eqb_neq _ _)) by done. eexists. split; [reflexivity|].
  split_and!; try done. cbn [req_ modify_req put_req put_continue_work]. by rewrite set_current_size_left, fit_size_left.
Qed.

Lemma handle_stuck fuel q answers sent c : stuck c -> app_ (handle env fuel q answers sent c).1.2 = app.
Proof.
  revert q answers sent c; induction fuel as [|fuel IH]; intros q answers sent c Hs; cbn [handle]; [apply Hs|].
  destruct (async_read _ q) as [data q'| |]; [|apply Hs..]. destruct data as [|b data]; [apply Hs|].
  unfold update_size. set (c1 := put_req _ (modify_req _ c)). assert (stuck c1) as Hs1 by exact Hs.
  destruct (MaxSize <? _); [apply Hs|].
  destruct (process_stuck c1 Hs1) as [(c2 & -> & Hs2)|(c2 & -> & Ha2)]; [by apply IH|].
  destruct (async_send _ _); done.
Qed.

Lemma multipart_partial b s q answers c fuel n :
  ready x app 1024 [] c -> last_transfer_ c = 0 -> burst_text b = msg_head x ++ s -> Forall is_byte (burst_text b) ->
  msg_size x = Z.of_nat n -> (length s < n)%nat -> Z.of_nat (length (burst_text b)) < 1024 ->
  app_ (handle env fuel (Arrive b.1 b.2 :: Again :: q) answers [] c).1.2 = app.
Proof.
  intros Hr Ht Hs Hby Hn Hlt Hsize. destruct fuel as [|fuel]; [apply Hr|].
  destruct (take_in_ready x app 1024 [] (burst_text b) c Hr) as (c1 & Htake & Hr1); [rewrite app_nil_l; unfold MaxSize; lia|].
  assert (last_transfer_ c1 = 0) as Ht1.
  { unfold take_in in Htake. destruct (update_size _ _). by injection Htake as <- _. }
  rewrite app_nil_l in Hr1. rewrite (handle_burst _ _ _ _ _ _ _ c1) by
    (done || (rewrite (left_size_ready _ _ _ _ _ Hr) by (cbn; unfold MaxSize; lia); cbn [length]; lia)).
  destruct (process_multipart 1024 _ c1 s n Hr1 Hs Hby Hn ltac:(lia) ltac:(lia))
    as (c2 & -> & _ & Ha2 & _ & Hh & Hb & Hl & _ & Hcur & _ & _ & _ & Ht2 & _).
  unfold handle_multipart. rewrite Hupload. cbn [negb]. unfold header_len, current_size. rewrite Hh, Hcur.
  pose proof (f_equal length Hs) as Hlen. rewrite length_app in Hlen.
  rewrite (wrap64_small (Z.of_nat (length (msg_head x)))), wrap64_small by lia.
  destruct (parse_multipart env _ _ c2) as [[c3 err]|] eqn:Hp; cbn [mbind option_bind react fst snd]; [|apply Hr1].
  apply parse_multipart_kept in Hp as (E1 & E2 & E3 & E4 & E5 & E6 & E7).
  destruct err. { cbn [react]. transitivity (app_ c3); [by destruct (async_send _ _)|congruence]. }
  unfold has_recieved_all_part. rewrite E4, E5, E6, Hb, Hh, Hcur, (proj2 (Z.eqb_neq _ _)) by
    (rewrite wrap64_small; lia).
  pose proof (msg_size_nonneg x Hok). cbn [react]. apply handle_stuck. split_and!; cbn [app_ continue_work_ last_transfer_ req_ modify_req put_req put_continue_work].
  - congruence.
  - done.
  - congruence.
  - rewrite set_current_size_left, E7, Hl by done. destruct (_ =? 0); [lia|]. rewrite wrap64_small; lia.
Qed.
End forms.

(** A multipart body that does not arrive in one burst with its head never
    reaches the handler: the next bursts are read, but do_read_multipart looks at
    last_transfer_ bytes of them, and nothing ever sets that member.  Whatever
    arrives afterwards and however long one waits, the application's state is the
    initial one, for every handler. *)
Theorem multipart_split_stuck {A} (env : environment A) x bd b s q answers fuel n fresh_part disk res_type now (app : A) :
  (forall r, check_headers_ env r = true) ->
  (forall c, at_route x c -> http_handler_check_ env c = Some (c, true)) ->
  upload_check_ env = None -> multipart_begin_ env = None -> message_ok x -> multipart_type x bd ->
  burst_text b = msg_head x ++ s -> Forall is_byte (burst_text b) -> msg_size x = Z.of_nat n ->
  (length s < n)%nat -> Z.of_nat (length (burst_text b)) < 1024 ->
  app_ (handle env fuel (Arrive b.1 b.2 :: Again :: q) answers []
    (new_connection fresh_part disk res_type now app)).1.2 = app.
Proof.
  intros H1 H2 H3 H4 Hok Htype Hs Hby Hn Hlt Hsize.
  eapply (multipart_partial env x bd); try done. apply new_ready.
Qed.

(** ** A form in one burst *)

Definition CONTENT_DISPOSITION : bytes := bs "Content-Disposition".
(** form-data; name="k" *)
Definition field_value (k : bytes) : bytes := bs "form-data; name=" ++ 34 :: k ++ [34].
Definition field_part (f : bytes * bytes) : part := mk_part [(CONTENT_DISPOSITION, field_value f.1)] f.2.

Definition form_field_ok (tok : bytes) (f : bytes * bytes) : Prop :=
  f.1 <> [] /\ (34 ∉ f.1) /\ (CR ∉ f.1) /\ find_str (bs "filename") (field_value f.1) = None /\
  ~ occurs (CRLF ++ tok) f.2.

Lemma rfind_char_snoc c s : rfind_char c (s ++ [c]) = Some (length s).
Proof. induction s as [|d s IH]; cbn; [by rewrite Z.eqb_refl|]. by rewrite IH. Qed.

Lemma field_value_name_rest r k rest :
  (34 ∉ k) -> multipart_headers_ r = (CONTENT_DISPOSITION, field_value k) :: rest ->
  get_multipart_field_name r (bs "name") = k.
Proof.
  intros Hk Hm. unfold get_multipart_field_name. rewrite Hm.
  assert (find_str (bs "name") (field_value k) = Some 11%nat) as -> by done.
  assert (find_char 34 (drop 11 (field_value k)) = Some 5%nat) as -> by done.
  assert (rfind_char 34 (field_value k) = Some (17 + length k)%nat) as ->.
  { unfold field_value. change (34 :: k ++ [34]) with ([34] ++ k ++ [34]). rewrite !app_assoc.
    rewrite rfind_char_snoc, !length_app. done. }
  change (11 + 5 + 1)%nat with 17%nat. rewrite (proj2 (Nat.ltb_ge _ _)) by lia.
  replace (17 + length k - 17)%nat with (length k) by lia.
  unfold slice. change (drop 17 (field_value k)) with (k ++ [34]). by rewrite take_app_length.
Qed.

Definition same_line (r r' : request) : Prop :=
  buf_ r' = buf_ r /\ method_ r' = method_ r /\ method_len_ r' = method_len_ r /\ url_ r' = url_ r /\
  url_len_ r' = url_len_ r /\ method_str_ r' = method_str_ r /\ url_str_ r' = url_str_ r.

Lemma same_line_route {A} x (c c' : connection A) : same_line (req_ c) (req_ c') -> at_route x c -> at_route x c'.
Proof.
  intros (E1 & E2 & E3 & E4 & E5 & E6 & E7) [R1 R2]. unfold at_route, get_method, Request.get_url in *.
  by rewrite E1, E2, E3, E4, E5, E6, E7.
Qed.

Lemma field_part_ok tok f : form_field_ok tok f -> part_ok tok (field_part f).
Proof.
  intros (_ & _ & Hcr & _ & Hocc). split; [|done]. repeat constructor; try done.
  apply Forall_app. split; [|by apply Forall_singleton]. apply Forall_forall. by intros c Hin ->.
Qed.

(** ** A body in one burst *)

(** A whole multipart body in one burst reaches the handler, on a connection that
    has what the parser's callbacks leave. *)
Lemma multipart_burst {A} (env : environment A) h x bd b fresh_part disk res_type now (app : A)
    (P : connection A -> Prop) :
  serves env h x -> upload_check_ env = None -> message_ok x -> multipart_type x bd -> whole x ->
  msg_content x <> [] -> burst_text b = msg_head x ++ msg_content x -> Forall is_byte (burst_text b) ->
  Z.of_nat (length (burst_text b)) < 1024 ->
  (forall c k, P c -> P (modify_req (reduce_left_body_size k) c)) ->
  (forall c3 : connection A,
    multipart_parser_ c3 = set_boundary (CRLF ++ bs "--" ++ bd) (fresh_ env) -> multipart_reader_ c3 = reader0 ->
    multipart_form_map_ (req_ c3) = ∅ -> multipart_headers_ (req_ c3) = [] -> form_url_map_ (req_ c3) = ∅ ->
    state_ (req_ c3) <> data_error -> files_ c3 = [] -> disk_ c3 = disk ->
    exists c4, feed_rest env (S (length (msg_content x))) (msg_content x) c3 = Some c4 /\
      has_error (multipart_parser_ c4) = false /\ kept c3 c4 /\ same_line (req_ c3) (req_ c4) /\ P c4) ->
  exists c, at_route x c /\ P c /\ app_ c = app /\
  answered env [b] (new_connection fresh_part disk res_type now app) (h c).
Proof.
  intros (H1 & H2 & H3) Hup Hok Htype Hwhole Hne Hb Hby Hsize Hreduce Hrun.
  set (c0 := new_connection fresh_part disk res_type now app).
  pose proof (new_ready x fresh_part disk res_type now app) as Hr. fold c0 in Hr.
  destruct (take_in_ready x app 1024 [] (burst_text b) c0 Hr) as (c1 & Htake & Hr1); [rewrite app_nil_l; unfold MaxSize; lia|].
  assert (last_transfer_ c1 = 0 /\ multipart_reader_ c1 = reader0 /\ multipart_form_map_ (req_ c1) = ∅ /\
    multipart_headers_ (req_ c1) = [] /\ state_ (req_ c1) = data_begin /\ form_url_map_ (req_ c1) = ∅ /\
    files_ c1 = [] /\ disk_ c1 = disk) as (T1 & T2 & T3 & T4 & T5 & T6 & T7 & T8).
  { unfold take_in, update_size in Htake. injection Htake as <- _. done. }
  rewrite app_nil_l in Hr1. pose proof (f_equal length Hb) as Hlen. rewrite length_app in Hlen.
  assert (0 < length (msg_content x))%nat as Hpos by (by destruct (msg_content x); cbn; [|lia]).
  destruct (process_multipart env x bd app H1 H2 Hok Htype 1024 _ c1 (msg_content x) (length (msg_content x)) Hr1 Hb Hby
    Hwhole Hpos ltac:(lia)) as (c2 & Hproc & Hroute & Ha2 & _ & Hh & Hbl & Hl & Hgz & Hcur & Hbuf & Hp & Hrd & _ & Hst & Hfiles & Hdisk).
  destruct Hst as (_ & _ & _ & S4 & S5 & S6 & S7).
  unfold handle_multipart in Hproc. rewrite Hup in Hproc. cbn [negb] in Hproc.
  unfold header_len, current_size in Hproc. rewrite Hh, Hcur in Hproc.
  rewrite (wrap64_small (Z.of_nat (length (msg_head x)))), wrap64_small in Hproc by lia.
  replace (Z.of_nat (length (burst_text b)) - Z.of_nat (length (msg_head x))) with (Z.of_nat (length (msg_content x))) in Hproc by lia.
  unfold parse_multipart in Hproc. rewrite (proj2 (Z.eqb_neq _ _)) in Hproc by lia.
  assert (buf_size (req_ c2) = 1024) as Hbs by (unfold buf_size; rewrite Hbuf; apply (ready_size _ _ _ _ _ Hr1)).
  rewrite Hbs, (proj2 (Z.ltb_ge _ _)) in Hproc by lia.
  destruct (ready_buf _ _ _ _ _ Hr1) as (slack & Hslack).
  assert (slice (buf_ (req_ c2)) (Z.to_nat (Z.of_nat (length (msg_head x)))) (Z.to_nat (Z.of_nat (length (msg_content x)))) =
    msg_content x) as Hslice.
  { rewrite Hbuf, Hslack, Hb, <-app_assoc, !Nat2Z.id. apply slice_app_exact. }
  rewrite Hslice in Hproc. set (c3 := modify_req (put_part_data (msg_content x)) c2) in *.
  change (has_gzip_ (req_ c3)) with (has_gzip_ (req_ c2)) in Hproc. rewrite Hgz in Hproc.
  change (part_data_ (req_ c3)) with (msg_content x) in Hproc.
  destruct (Hrun c3) as (c4 & Hfeed & Herr & Hkept & Hline & HP).
  { done. }
  { change (multipart_reader_ c3) with (multipart_reader_ c2). congruence. }
  { change (multipart_form_map_ (req_ c3)) with (multipart_form_map_ (req_ c2)). congruence. }
  { change (multipart_headers_ (req_ c3)) with (multipart_headers_ (req_ c2)). congruence. }
  { change (form_url_map_ (req_ c3)) with (form_url_map_ (req_ c2)). congruence. }
  { change (state_ (req_ c3)) with (state_ (req_ c2)). congruence. }
  { change (files_ c3) with (files_ c2). congruence. }
  { change (disk_ c3) with (disk_ c2). congruence. }
  rewrite Hfeed in Hproc. cbn [mbind option_bind] in Hproc. rewrite Herr in Hproc. cbn [mbind option_bind] in Hproc.
  destruct Hkept as (K1 & K2 & K3 & K4 & K5 & K6 & K7).
  set (c5 := modify_req _ c4) in Hproc.
  assert (has_recieved_all_part (req_ c5) = true) as Hall.
  { unfold has_recieved_all_part. apply Z.eqb_eq. change (body_len_ (req_ c5)) with (body_len_ (req_ c4)).
    change (cur_size_ (req_ c5)) with (cur_size_ (req_ c4)). change (header_len_ (req_ c5)) with (header_len_ (req_ c4)).
    rewrite K5, K6, K7. change (body_len_ (req_ c3)) with (body_len_ (req_ c2)).
    change (cur_size_ (req_ c3)) with (cur_size_ (req_ c2)). change (header_len_ (req_ c3)) with (header_len_ (req_ c2)).
    rewrite Hbl, Hcur, Hh, wrap64_small; lia. }
  rewrite Hall in Hproc.
  assert (at_route x c5) as Hroute5 by (apply (same_line_route x c2); [exact Hline|done]).
  unfold route_then_write, call_back in Hproc. rewrite H3 in Hproc by done. cbn [mbind option_bind] in Hproc.
  exists c5. split_and!; [done| | |].
  - by apply Hreduce.
  - change (app_ c4 = app). by rewrite K1.
  - apply taken_answered, taken_last with c1; [|exact Htake|exact Hproc].
    rewrite (left_size_ready _ _ _ _ _ Hr) by (cbn; unfold MaxSize; lia). cbn [length]. lia.
Qed.

(** ** Samples *)

Definition form_fields : list (bytes * bytes) := [(bs "user", bs "rain"); (bs "note", bs "a-b" ++ CRLF ++ bs "c")].
Definition form_message : message :=
  let body := print_body (bs "--XyZ") (field_part <$> form_fields) [] in
  mk_message (bs "POST") (bs "/f") None 1
    [(bs "Content-Type", bs " ", bs "multipart/form-data; boundary=XyZ");
     (bs "Content-Length", bs " ", dec_string (Z.of_nat (length body)))] (Some (Z.of_nat (length body))) body.
Definition form_burst : burst := (80, drop 1 (message_text form_message)).
(** a handler that keeps the values of two fields *)
Definition form_handler (c : connection (list bytes)) : connection (list bytes) :=
  put_app (default [] (form_url_map_ (req_ c) !! bs "user") :: default [] (form_url_map_ (req_ c) !! bs "note") :: app_ c)
    (put_res (set_response (res_ c) (bs "ok")) c).
Definition form_env : environment (list bytes) :=
  mk_env (fun c => Some (form_handler c)) (fun c => Some (c, true)) None None (fun _ => true) None
    (fun _ c => c) [] (fun _ => true) true (fun _ => 0) 0 (fun _ => 0) [] [] [].

Lemma occurs_not b s : occurs_b b s = false -> ~ occurs b s.
Proof. intros H Ho. apply occurs_b_complete in Ho. congruence. Qed.

Lemma multipart_split_stuck_witness :
  app_ (handle form_env 9 (Arrive 80 (drop 1 (take 120 (message_text form_message))) :: Again ::
    Arrive 45 (drop 121 (message_text form_message)) :: Again :: []) [Took 4096] [] sample_connection).1.2 = [].
Proof.
  apply (multipart_split_stuck form_env form_message (bs "XyZ") (80, drop 1 (take 120 (message_text form_message)))
    (drop (length (msg_head form_message)) (take 120 (message_text form_message)))
    (Arrive 45 (drop 121 (message_text form_message)) :: Again :: []) [Took 4096] 9
    (length (msg_content form_message)) [] empty_fs ct_none 0 []).
  - done.
  - done.
  - done.
  - done.
  - check_bool.
  - check_bool.
  - vm_compute. reflexivity.
  - check_bool.
  - vm_compute. reflexivity.
  - vm_compute. lia.
  - vm_compute. reflexivity.
Defined.
