(* ===== verification/Uploads.v ===== *)
(** * Uploads

    Multipart bodies with form fields and files, through the callbacks of
    connection.hpp, the files of request.hpp and the file system: what the handler
    finds in form_url_map_, in files_ and on the disk.  First the callbacks do not
    depend on how the parser cuts the data; then each part does to the connection
    what it should. *)

From Stdlib Require Import ZArith Lia.
From stdpp Require Import base numbers list gmap strings.
From S2P Require Import Prelude CStd PicoHttp PicoHttpFacts Codec Utils Multipart MultipartFacts MultipartReader.
From S2P Require Import Response WebSocket Upload Request QueryValue Connection Server Rounds ServerFacts Forms.
Local Open Scope Z_scope.

(** ** Strings *)

Lemma find_str_sep p c a b :
  (c ∉ p) -> find_str p (a ++ [c]) = None -> find_str p (a ++ c :: b) = (fun i => S (length a) + i)%nat <$> find_str p b.
Proof.
  intros Hc. induction a as [|x a IH]; cbn [app].
  - intros Ha. assert (is_prefix p (c :: b) = false) as E.
    { destruct p as [|y p]; [done|]. cbn. apply not_elem_of_cons in Hc as [Hc _].
      by rewrite (proj2 (Z.eqb_neq _ _)). }
    cbn [find_str]. rewrite E. by destruct (find_str p b).
  - intros Ha. cbn [find_str] in Ha. destruct (is_prefix p (x :: a ++ [c])) eqn:E; [done|].
    apply fmap_None in Ha. cbn [find_str]. assert (is_prefix p (x :: a ++ c :: b) = false) as ->.
    { clear -Hc E. revert p Hc E. change (x :: a ++ [c]) with ((x :: a) ++ [c]).
      change (x :: a ++ c :: b) with ((x :: a) ++ c :: b). induction (x :: a) as [|z l IH]; intros p Hc E.
      - destruct p as [|y p]; [done|]. cbn. apply not_elem_of_cons in Hc as [Hc _]. by rewrite (proj2 (Z.eqb_neq _ _)).
      - destruct p as [|y p]; [done|]. apply not_elem_of_cons in Hc as [_ Hc]. cbn in *.
        destruct (_ =? _); [|done]. by apply IH. }
    rewrite (IH Ha). by destruct (find_str p b).
Qed.

Lemma rfind_str_suffix p a : is_Some (rfind_str p (a ++ p)).
Proof.
  induction a as [|x a IH]; cbn [app].
  - assert (is_prefix p p = true) as E by (apply is_prefix_spec; exists []; by rewrite app_nil_r).
    destruct p as [|y p]; [done|]. cbn [rfind_str]. destruct (rfind_str _ p); [done|]. by rewrite E.
  - destruct IH as [i Hi]. cbn [rfind_str]. rewrite Hi. done.
Qed.

Lemma dec_string_inj m n s t :
  0 <= m -> 0 <= n -> ends_number s -> ends_number t -> dec_string m ++ s = dec_string n ++ t -> m = n.
Proof. intros Hm Hn Hs Ht E. rewrite <-(read_dec m s), <-(read_dec n t) by done. by rewrite E. Qed.

Lemma get_extension_ends name rest : ends_number rest -> ends_number (get_extension name ++ rest).
Proof.
  intros Hr. unfold get_extension. destruct (rfind_char 46 name) as [pos|] eqn:E; [|done].
  assert (head (drop pos name) = Some 46) as H; [|by destruct (drop pos name); [|injection H as ->]].
  revert pos E. induction name as [|x name IH]; intros pos; [done|]. cbn.
  destruct (rfind_char 46 name) as [i|]; [intros [= <-]; by apply IH|].
  destruct (x =? 46) eqn:Ex; [|done]. intros [= <-]. zbool. by subst.
Qed.

(** ** Data in pieces *)

(** two writes to a file are one *)
Lemma write_app a b fs f :
  let '(fs1, f1) := write a fs f in write b fs1 f1 = write (a ++ b) fs f.
Proof.
  unfold write. assert (forall s, wrap64 (wrap64 (s + Z.of_nat (length a)) + Z.of_nat (length b)) =
    wrap64 (s + Z.of_nat (length (a ++ b)))) as Hw.
  { intros s. unfold wrap64. rewrite Zplus_mod_idemp_l, length_app. f_equal. lia. }
  destruct (file_ f) as [i|]; [destruct (failed_ f)|]; cbn [file_ failed_ file_size_ file_path_]; rewrite ?Hw; try done.
  f_equal. unfold fs_append. cbn [inodes names next_inode]. rewrite lookup_insert_eq, insert_insert_eq. cbn.
  by rewrite app_assoc.
Qed.

Section hooks.
Context {A : Type} (env : environment A).

(** on_part_data on data that is there, where it does not fail *)
Definition take_data (s : bytes) (c : connection A) : connection A :=
  if is_multi_part_file_ c then
    match last (files_ c) with
    | Some f => let '(fs, f) := write s (disk_ c) f in put_files (removelast (files_ c) ++ [f]) (put_disk fs c)
    | None => c
    end
  else modify_req (update_multipart_value (get_multipart_field_name (req_ c) (bs "name")) s) c.

Definition takes_data (c : connection A) : Prop :=
  state_ (req_ c) <> data_error /\
  if is_multi_part_file_ c then files_ c <> [] else get_multipart_field_name (req_ c) (bs "name") <> [].

Lemma on_part_data_take s c : takes_data c -> s <> [] -> on_part_data_hook s c = Some (take_data s c).
Proof.
  intros [H1 H2] Hs. unfold on_part_data_hook, take_data. rewrite bool_decide_false by done.
  destruct (is_multi_part_file_ c); [|done]. unfold write_upload_data.
  destruct (length s =? 0)%nat eqn:E; [by destruct s|].
  destruct (last (files_ c)) as [f|] eqn:El; [|by apply last_None in El].
  cbn [mbind option_bind]. by destruct (write s (disk_ c) f).
Qed.

Lemma update_line key s r : get_multipart_field_name (update_multipart_value key s r) (bs "name") = get_multipart_field_name r (bs "name").
Proof. unfold update_multipart_value. by repeat case_match; simplify_eq. Qed.
Lemma update_state key s r : state_ (update_multipart_value key s r) = state_ r.
Proof. unfold update_multipart_value. by repeat case_match; simplify_eq. Qed.

Lemma take_data_takes s c : takes_data c -> takes_data (take_data s c).
Proof.
  intros [H1 H2]. unfold take_data, takes_data. destruct (is_multi_part_file_ c) eqn:E.
  - destruct (last (files_ c)) as [f|] eqn:El; [|by rewrite E].
    destruct (write s (disk_ c) f) as [fs f1]. cbn. rewrite E. split; [done|]. by destruct (removelast _).
  - unfold modify_req. cbn [req_ put_req is_multi_part_file_]. rewrite E, update_line, update_state. done.
Qed.

Lemma update_app key a b r :
  key <> [] -> update_multipart_value key b (update_multipart_value key a r) = update_multipart_value key (a ++ b) r.
Proof.
  intros Hk. unfold update_multipart_value. rewrite !bool_decide_false by done.
  change (multipart_form_map_ (put_last_multpart_key key r)) with (multipart_form_map_ r).
  destruct (multipart_form_map_ r !! key) as [v|] eqn:E; cbn [multipart_form_map_ put_multipart_form_map put_last_multpart_key].
  - rewrite lookup_insert_eq, insert_insert_eq, app_assoc. done.
  - by rewrite E.
Qed.

Lemma take_data_app a b c : takes_data c -> take_data b (take_data a c) = take_data (a ++ b) c.
Proof.
  intros [H1 H2]. unfold take_data at 2 3. destruct (is_multi_part_file_ c) eqn:E.
  - destruct (last (files_ c)) as [f|] eqn:El; [|by unfold take_data; rewrite E, El].
    pose proof (write_app a b (disk_ c) f) as Hw. destruct (write a (disk_ c) f) as [fs1 f1].
    unfold take_data. cbn [is_multi_part_file_ put_files put_disk files_ disk_]. rewrite E, last_snoc, Hw.
    destruct (write (a ++ b) (disk_ c) f) as [fs2 f2]. by rewrite removelast_last.
  - unfold take_data, modify_req. cbn [is_multi_part_file_ put_req req_]. rewrite E, update_line.
    by rewrite update_app.
Qed.

(** ** Calls in pieces *)

Definition rekey (k : bytes) (c : connection A) : connection A := modify_req (put_last_multpart_key k) c.
(** the clock does not look at last_multpart_key_ *)
Definition timed : Prop := forall k c, nano_ env (rekey k c) = nano_ env c.

(** a run of the callbacks in which data always finds its field or file *)
Fixpoint runs (cs : list reader_call) (c c' : connection A) : Prop :=
  match cs with
  | [] => c' = c
  | call :: cs => exists c1, run_hook env call c = Some c1 /\
      match call with
      | on_part_begin hs => is_multipart_file (set_multipart_headers hs (req_ c)) = true -> timed
      | on_part_data _ => takes_data c
      | _ => True
      end /\ runs cs c1 c'
  end.

Lemma runs_app cs1 cs2 c c' : runs (cs1 ++ cs2) c c' <-> exists c1, runs cs1 c c1 /\ runs cs2 c1 c'.
Proof. revert c; induction cs1 as [|call cs1 IH]; intros c; cbn; [naive_solver|]. setoid_rewrite IH. naive_solver. Qed.

Lemma runs_data s c c' :
  takes_data c -> runs ((fun x => on_part_data [x]) <$> s) c c' <-> c' = if decide (s = []) then c else take_data s c.
Proof.
  revert c; induction s as [|x s IH]; intros c Hc; [done|].
  cbn [fmap list_fmap runs run_hook]. rewrite on_part_data_take by done.
  rewrite decide_False by done. split.
  - intros (c1 & [= <-] & _ & H). apply IH in H; [|by apply take_data_takes]. subst c'.
    destruct (decide (s = [])) as [->|]; [done|]. by rewrite take_data_app.
  - intros ->. exists (take_data [x] c). split_and!; [done..|]. apply IH; [by apply take_data_takes|].
    destruct (decide (s = [])) as [->|]; [done|]. by rewrite take_data_app.
Qed.

(** data cut to nothing leaves its trace in last_multpart_key_ only *)
Lemma update_nothing key r : exists k, update_multipart_value key [] r = put_last_multpart_key k r.
Proof.
  unfold update_multipart_value. destruct (bool_decide (key = [])).
  - exists (last_multpart_key_ r). destruct (multipart_form_map_ r !! last_multpart_key_ r) eqn:E; destruct r; [|done].
    cbn in *. rewrite app_nil_r. by rewrite insert_id.
  - exists key. cbn [put_last_multpart_key multipart_form_map_].
    destruct (multipart_form_map_ r !! key) eqn:E; [|done]. destruct r; cbn in *. rewrite app_nil_r. by rewrite insert_id.
Qed.

Lemma nothing_taken c : exists k, on_part_data_hook [] c = Some (rekey k c).
Proof.
  assert (exists k, rekey k c = c) as [k Hk] by (exists (last_multpart_key_ (req_ c)); by destruct c as [[]]).
  unfold on_part_data_hook. case_match; [exists k; by rewrite Hk|]. case_match; [exists k; by rewrite Hk|].
  destruct (update_nothing (get_multipart_field_name (req_ c) (bs "name")) (req_ c)) as [k' Hk'].
  exists k'. unfold modify_req, rekey. by rewrite Hk'.
Qed.

Lemma take_data_rekey k s c : takes_data c -> exists k', take_data s (rekey k c) = rekey k' (take_data s c).
Proof.
  intros [_ H]. unfold take_data, rekey. cbn [is_multi_part_file_ modify_req put_req files_ disk_ req_].
  destruct (is_multi_part_file_ c).
  - exists k. destruct (last (files_ c)); [|done]. by destruct (write _ _ _).
  - exists (get_multipart_field_name (req_ c) (bs "name")). unfold modify_req, update_multipart_value. cbn [req_ put_req].
    change (get_multipart_field_name (put_last_multpart_key k (req_ c)) (bs "name")) with (get_multipart_field_name (req_ c) (bs "name")).
    rewrite bool_decide_false by done. cbn. by case_match.
Qed.

Lemma end_rekey k c : on_part_end_hook (rekey k c) = rekey k (on_part_end_hook c) /\ on_end_hook (rekey k c) = rekey k (on_end_hook c).
Proof.
  split; destruct c as [[]]; unfold on_part_end_hook, on_end_hook; cbn.
  - repeat case_match; simplify_eq; done.
  - by case_match.
Qed.

Hypothesis Hbegin : multipart_begin_ env = None.

Lemma begin_rekey k hs c :
  (is_multipart_file (set_multipart_headers hs (req_ c)) = true -> timed) ->
  on_part_begin_hook env hs (rekey k c) = rekey k (on_part_begin_hook env hs c).
Proof.
  intros Ht. unfold on_part_begin_hook. rewrite Hbegin. cbn [req_ modify_req put_req put_is_multi_part_file rekey].
  set (r := set_multipart_headers hs (req_ c)) in *.
  change (set_multipart_headers hs (put_last_multpart_key k (req_ c))) with (put_last_multpart_key k r).
  change (is_multipart_file (put_last_multpart_key k r)) with (is_multipart_file r).
  change (get_multipart_field_name (put_last_multpart_key k r) ?n) with (get_multipart_field_name r n).
  set (c1 := put_is_multi_part_file (is_multipart_file r) (modify_req (set_multipart_headers hs) c)).
  change (put_is_multi_part_file (is_multipart_file r) (modify_req (set_multipart_headers hs) (rekey k c))) with (rekey k c1).
  case_match; [done|]. destruct (is_multipart_file r) eqn:Ef.
  - rewrite (Ht eq_refl). unfold open_upload_file. change (disk_ (rekey k c1)) with (disk_ c1).
    by destruct (open _ _ _ _) as [[fs f] []].
  - unfold modify_req, save_multipart_key_value, rekey. change (req_ c1) with r. by case_match.
Qed.

Lemma run_hook_rekey k call c c1 :
  run_hook env call c = Some c1 ->
  match call with
  | on_part_begin hs => is_multipart_file (set_multipart_headers hs (req_ c)) = true -> timed
  | on_part_data s => takes_data c /\ s <> []
  | _ => True
  end -> exists k', run_hook env call (rekey k c) = Some (rekey k' c1).
Proof.
  destruct call as [hs|s| |]; cbn [run_hook].
  - intros [= <-] Ht. exists k. by rewrite begin_rekey.
  - intros H [Hc Hs]. rewrite on_part_data_take in H by done. injection H as <-.
    rewrite on_part_data_take by done. destruct (take_data_rekey k s c Hc) as [k' ->]. by exists k'.
  - intros [= <-] _. exists k. f_equal. apply end_rekey.
  - intros [= <-] _. exists k. f_equal. apply end_rekey.
Qed.

(** the callbacks do not depend on how the parser cuts the data *)
Lemma runs_spread cs k c c' : runs (spread cs) c c' -> exists k', run_hooks env cs (rekey k c) = Some (rekey k' c').
Proof.
  revert k c; induction cs as [|call cs IH]; intros k c; [intros ->; by exists k|].
  change (spread (call :: cs)) with (spread_call call ++ spread cs). rewrite runs_app. intros (c1 & H1 & H2).
  assert (exists k1, run_hook env call (rekey k c) = Some (rekey k1 c1)) as [k1 E].
  { destruct call as [hs|s| |]; [destruct H1 as (c2 & H1 & Hc & ->); by eapply run_hook_rekey|
      |destruct H1 as (c2 & H1 & Hc & ->); by eapply run_hook_rekey..].
    destruct s as [|x s]; [destruct (nothing_taken (rekey k c)) as [k1 E]; exists k1; rewrite H1; exact E|].
    pose proof H1 as (c2 & _ & Hc & _). apply runs_data in H1; [|done]. rewrite decide_False in H1 by done. subst c1.
    eapply (run_hook_rekey k (on_part_data (x :: s))); [by apply on_part_data_take|done]. }
  cbn [run_hooks]. rewrite E. cbn [mbind option_bind]. by apply IH.
Qed.
End hooks.

(** ** The parts *)

Definition CONTENT_TYPE : bytes := bs "Content-Type".

(** a field, or a file with its name on the client and perhaps a type *)
Inductive item :=
| Field (key value : bytes)
| File (key name : bytes) (type : option bytes) (data : bytes).

(** form-data; name="k"; filename="name" *)
Definition file_value (k name : bytes) : bytes :=
  bs "form-data; name=" ++ 34 :: k ++ 34 :: bs "; filename=" ++ 34 :: name ++ [34].

Definition type_header (type : option bytes) : list (bytes * bytes) :=
  match type with Some t => [(CONTENT_TYPE, t)] | None => [] end.
Definition item_part (i : item) : part :=
  match i with
  | Field k v => field_part (k, v)
  | File k name type data => mk_part ((CONTENT_DISPOSITION, file_value k name) :: type_header type) data
  end.

Definition item_ok (tok : bytes) (i : item) : Prop :=
  match i with
  | Field k v => form_field_ok tok (k, v)
  | File k name type data =>
      (CR ∉ k) /\ find_str (bs "filename") (field_value k) = None /\
      name <> [] /\ (CR ∉ name) /\ (47 ∉ name) /\ (CR ∉ default [] type) /\ head (default [] type) <> Some 32 /\
      Z.of_nat (length data) < 2 ^ 64 /\ ~ occurs (CRLF ++ tok) data
  end.

Fixpoint field_items (items : list item) : list (bytes * bytes) :=
  match items with
  | [] => []
  | Field k v :: items => (k, v) :: field_items items
  | File _ _ _ _ :: items => field_items items
  end.
(** the name on the client and the data *)
Fixpoint file_items (items : list item) : list (bytes * bytes) :=
  match items with
  | [] => []
  | Field _ _ :: items => file_items items
  | File _ name _ data :: items => (name, data) :: file_items items
  end.

Lemma field_items_app l1 l2 : field_items (l1 ++ l2) = field_items l1 ++ field_items l2.
Proof. induction l1 as [|[] l1 IH]; [done|..]; cbn; by rewrite IH. Qed.
Lemma file_items_app l1 l2 : file_items (l1 ++ l2) = file_items l1 ++ file_items l2.
Proof. induction l1 as [|[] l1 IH]; [done|..]; cbn; by rewrite IH. Qed.

Lemma file_value_field k name : file_value k name = field_value k ++ bs "; filename=" ++ 34 :: name ++ [34].
Proof. unfold file_value, field_value. rewrite <-app_assoc. cbn [app]. by rewrite <-app_assoc. Qed.

Lemma filename_found k name :
  find_str (bs "filename") (field_value k) = None ->
  find_str (bs "filename") (file_value k name) = Some (length (field_value k) + 2)%nat.
Proof.
  intros H. set (a := bs "form-data; name=" ++ 34 :: k).
  assert (field_value k = a ++ [34]) as E by (unfold field_value, a; by rewrite <-app_assoc).
  assert (file_value k name = a ++ 34 :: bs "; filename=" ++ 34 :: name ++ [34]) as -> by
    (unfold file_value, a; by rewrite <-app_assoc).
  rewrite E in H |- *. rewrite find_str_sep; [|check_bool|done].
  assert (find_str (bs "filename") (bs "; filename=" ++ 34 :: name ++ [34]) = Some 2%nat) as -> by done.
  rewrite length_app. change (length [34]) with 1%nat. apply (f_equal Some). lia.
Qed.

Lemma file_value_name r k name rest :
  find_str (bs "filename") (field_value k) = None ->
  multipart_headers_ r = (CONTENT_DISPOSITION, file_value k name) :: rest ->
  get_multipart_field_name r (bs "filename") = name.
Proof.
  intros Hk Hm. unfold get_multipart_field_name. rewrite Hm, filename_found by done.
  set (n := length (field_value k)).
  assert (drop (n + 2) (file_value k name) = bs "filename=" ++ 34 :: name ++ [34]) as Hd.
  { rewrite file_value_field. unfold n. rewrite <-drop_drop, drop_app_length. done. }
  rewrite Hd. assert (find_char 34 (bs "filename=" ++ 34 :: name ++ [34]) = Some 9%nat) as -> by done.
  assert (rfind_char 34 (file_value k name) = Some (n + 12 + length name)%nat) as ->.
  { rewrite file_value_field. change (34 :: name ++ [34]) with ([34] ++ name ++ [34]). rewrite !app_assoc.
    rewrite rfind_char_snoc, !length_app. f_equal. unfold n. cbn [length]. change (length (bs "; filename=")) with 11%nat. lia. }
  rewrite (proj2 (Nat.ltb_ge _ _)) by lia. unfold slice.
  replace (n + 12 + length name - (n + 2 + 9 + 1))%nat with (length name) by lia.
  replace (n + 2 + 9 + 1)%nat with (n + 2 + 10)%nat by lia. rewrite <-drop_drop, Hd.
  change (drop 10 (bs "filename=" ++ 34 :: name ++ [34])) with (name ++ [34]). by rewrite take_app_length.
Qed.

Lemma no_CR (s : bytes) : (CR ∉ s) -> Forall (fun c => c <> CR) s.
Proof. intros H. apply Forall_forall. by intros c Hc ->. Qed.

Lemma item_part_ok tok i : item_ok tok i -> part_ok tok (item_part i).
Proof.
  destruct i as [k v|k name type data]; [apply field_part_ok|].
  intros (H1 & H2 & H3 & H4 & H5 & H6 & H7 & H8 & H9). split; [|done].
  assert (forall t, (CR ∉ t) -> head t <> Some 32 -> header_ok (CONTENT_TYPE, t)) as Htype.
  { intros t Ht1 Ht2. split; [done|split; [by repeat constructor|]]. split; [by apply no_CR|done]. }
  apply Forall_cons; split; [split; [done|split; [by repeat constructor|]]|].
  - split; [|done]. cbn [snd]. unfold file_value. apply no_CR.
    repeat (rewrite elem_of_app || rewrite elem_of_cons). rewrite ?elem_of_nil.
    assert (CR ∉ bs "form-data; name=") by check_bool. assert (CR ∉ bs "; filename=") by check_bool. intuition done.
  - destruct type as [t|]; [|constructor]. apply Forall_singleton. by apply Htype.
Qed.

(** ** The headers of a part *)

(** multipart_headers_ is never cleared: a part without a type keeps the type of the
    part before it *)
Inductive headers_shape : list (bytes * bytes) -> Prop :=
| no_headers : headers_shape []
| disposition v : headers_shape [(CONTENT_DISPOSITION, v)]
| disposition_type v t : headers_shape [(CONTENT_DISPOSITION, v); (CONTENT_TYPE, t)].

Lemma set_disposition v r :
  headers_shape (multipart_headers_ r) ->
  exists rest, multipart_headers_ (set_multipart_headers [(CONTENT_DISPOSITION, v)] r) = (CONTENT_DISPOSITION, v) :: rest /\
  headers_shape ((CONTENT_DISPOSITION, v) :: rest).
Proof.
  unfold set_multipart_headers. cbn [fold_left put_multipart_headers multipart_headers_ fst snd].
  intros [| |w t]; [exists []|exists []|exists [(CONTENT_TYPE, t)]]; (split; [done|constructor]).
Qed.

Lemma set_file_headers v type r :
  headers_shape (multipart_headers_ r) ->
  exists rest, multipart_headers_ (set_multipart_headers ((CONTENT_DISPOSITION, v) :: type_header type) r) =
    (CONTENT_DISPOSITION, v) :: rest /\ headers_shape ((CONTENT_DISPOSITION, v) :: rest).
Proof.
  destruct type as [t|]; [|apply set_disposition]. intros Hr. exists [(CONTENT_TYPE, t)]. split; [|constructor].
  unfold set_multipart_headers. cbn [fold_left put_multipart_headers multipart_headers_ fst snd type_header].
  by destruct Hr as [| |w u].
Qed.

Lemma file_by_disposition r v rest :
  multipart_headers_ r = (CONTENT_DISPOSITION, v) :: rest -> is_multipart_file r = contains v (bs "filename").
Proof.
  intros Hr. unfold is_multipart_file, multipart_header. rewrite Hr.
  assert (list_find (fun h : bytes * bytes => h.1 = bs "Content-Disposition") ((CONTENT_DISPOSITION, v) :: rest) =
    Some (0%nat, (CONTENT_DISPOSITION, v))) as ->; [|done].
  cbn [list_find]. by rewrite decide_True.
Qed.

(** ** The disk *)

(** every name leads to a file *)
Definition fs_ok (fs : filesystem) : Prop :=
  forall q i, names fs !! q = Some i -> (i < next_inode fs)%nat /\ is_Some (inodes fs !! i).

(** what was appended to a new file *)
Definition filled (i : nat) (d : bytes) (fs fs' : filesystem) : Prop :=
  names fs' = names fs /\ next_inode fs' = next_inode fs /\ inodes fs' !! i = Some d /\
  forall j, j <> i -> inodes fs' !! j = inodes fs !! j.

Lemma store_fs fs fs1 fs2 tmp final i d :
  fs_ok fs -> names fs !! tmp = None -> tmp <> final -> names fs !! final = None ->
  fs_open tmp fs = (fs1, i) -> filled i d fs1 fs2 ->
  exists fs3, fs_rename tmp final fs2 = (fs3, true) /\ fs_ok fs3 /\
    (forall q, read_file fs3 q = if decide (q = final) then Some d else read_file fs q) /\
    (forall q, q <> final -> names fs3 !! q = names fs !! q).
Proof.
  intros Hok Htmp Hne Hfinal Hopen (Hn & Hx & Hi & Hj). unfold fs_open in Hopen. rewrite Htmp in Hopen.
  injection Hopen as <- <-. cbn [names inodes next_inode] in *. unfold fs_rename. rewrite Hn, lookup_insert_eq.
  eexists. split; [reflexivity|]. assert (forall q, q <> final -> <[final:=next_inode fs]> (delete tmp (<[tmp:=next_inode fs]> (names fs))) !! q = names fs !! q) as Hq.
  { intros q Hq. rewrite lookup_insert_ne by done. destruct (decide (q = tmp)) as [->|Hqt].
    - by rewrite lookup_delete_eq.
    - rewrite lookup_delete_ne, lookup_insert_ne by done. done. }
  assert (forall j, (j < next_inode fs)%nat -> inodes fs2 !! j = inodes fs !! j) as Hold.
  { intros j Hlt. rewrite Hj, lookup_insert_ne by lia. done. }
  split_and!.
  - intros q j. cbn [names inodes next_inode]. rewrite Hx. destruct (decide (q = final)) as [->|Hqf].
    + rewrite lookup_insert_eq. intros [= <-]. rewrite Hi. split; [lia|done].
    + rewrite Hq by done. intros Hs. destruct (Hok _ _ Hs) as [H1 H2]. rewrite Hold by done. split; [lia|done].
  - intros q. unfold read_file. cbn [names inodes]. case_decide as Hqf.
    + subst q. rewrite lookup_insert_eq. cbn [mbind option_bind]. done.
    + rewrite Hq by done. destruct (names fs !! q) as [j|] eqn:E; [|done]. cbn [mbind option_bind].
      apply Hold. by apply (Hok q).
  - exact Hq.
Qed.

Section store.
Context {A : Type} (env : environment A) (clock : nat -> Z) (disk : filesystem).

(** the path of the k-th file *)
Definition stamp (k : nat) (s : bytes) : bytes := static_dir_ env ++ bs "/" ++ to_string (clock k) ++ s.

(** the disk can take uploads: the clock never answers the same twice, and there is
    no file yet with a name that it makes *)
Record can_store : Prop := {
  store_disk : fs_ok disk;
  store_new : forall k s, ends_number s -> names disk !! stamp k s = None;
  store_open : forall k s, (47 ∉ s) -> can_open_ env (stamp k s) = true;
  store_clock : forall c, nano_ env c = clock (length (files_ c));
  clock_nonneg : forall k, 0 <= clock k;
  clock_inj : Inj (=) (=) clock
}.

(** path and data of the files on the disk *)
Definition stored (files : list (bytes * bytes)) : list (bytes * bytes) :=
  imap (fun k f => (stamp k (get_extension f.1), f.2)) files.
Definition upload_of (p : bytes * bytes) : upload_file := mk_file p.1 None false (Z.of_nat (length p.2)).

Lemma stored_snoc files name data :
  stored (files ++ [(name, data)]) = stored files ++ [(stamp (length files) (get_extension name), data)].
Proof. unfold stored. rewrite imap_app. cbn. by rewrite Nat.add_0_r. Qed.
Lemma stored_length files : length (stored files) = length files.
Proof. apply length_imap. Qed.

Lemma can_store_timed : can_store -> timed env.
Proof. intros H k c. by rewrite !(store_clock H). Qed.

Lemma stamp_inj : can_store -> forall j k s t, ends_number s -> ends_number t -> stamp j s = stamp k t -> j = k.
Proof.
  intros H j k s t Hs Ht E. unfold stamp in E. apply app_inv_head, app_inv_head in E.
  pose proof (clock_nonneg H j). pose proof (clock_nonneg H k).
  unfold to_string in E. rewrite !(proj2 (Z.ltb_ge _ _)) in E by lia. apply dec_string_inj in E; try done.
  by apply (clock_inj H).
Qed.

Lemma stamp_ing k s : stamp k (s ++ bs "_ing") = stamp k s ++ bs "_ing".
Proof. unfold stamp. by rewrite <-!app_assoc. Qed.

Lemma stored_paths : can_store -> forall files k s, (length files <= k)%nat -> ends_number s -> stamp k s ∉ (stored files).*1.
Proof.
  intros H files k s Hk Hs Hin. apply list_elem_of_fmap in Hin as ((q & d) & E & Hin). cbn in E. subst q.
  apply elem_of_lookup_imap in Hin as (i & [name data] & [= E _] & Hi). apply stamp_inj in E; [|done|done|].
  - apply lookup_lt_Some in Hi. lia.
  - cbn [fst]. rewrite <-(app_nil_r (get_extension name)). by apply get_extension_ends.
Qed.
End store.

(** ** What a part does *)

Section parts.
Context {A : Type} (env : environment A) (clock : nat -> Z) (disk : filesystem).
Hypothesis Hbegin : multipart_begin_ env = None.

(** the connection between two parts *)
Record between (c0 c : connection A) (items : list item) : Prop := {
  h_kept : kept c0 c;
  h_line : same_line (req_ c0) (req_ c);
  h_map : multipart_form_map_ (req_ c) = list_to_map (field_items items);
  h_urls : form_url_map_ (req_ c) = form_url_map_ (req_ c0);
  h_state : state_ (req_ c) <> data_error;
  h_parser : multipart_parser_ c = multipart_parser_ c0;
  h_heads : headers_shape (multipart_headers_ (req_ c));
  h_files : files_ c = upload_of <$> stored env clock (file_items items);
  h_disk : forall q, read_file (disk_ c) q =
    match (list_to_map (stored env clock (file_items items)) : smap) !! q with Some d => Some d | None => read_file disk q end;
  h_store : can_store env clock disk -> fs_ok (disk_ c) /\
    forall k s, (length (file_items items) <= k)%nat -> ends_number s -> names (disk_ c) !! stamp env clock k s = None
}.

Lemma field_runs c0 c items tok k v :
  between c0 c items -> form_field_ok tok (k, v) -> (k ∉ (field_items items).*1) ->
  exists c', runs env (part_calls (item_part (Field k v))) c c' /\ between c0 c' (items ++ [Field k v]).
Proof.
  intros [Hk Hl Hm Hu Hs Hp Hh Hf Hd Hw] (Hne & Hq & Hcr & Hfile & Hocc) Hnew. cbn [fst snd] in *.
  assert (forall c', kept c0 c' -> same_line (req_ c0) (req_ c') -> multipart_form_map_ (req_ c') = <[k:=v]> (multipart_form_map_ (req_ c)) ->
    form_url_map_ (req_ c') = form_url_map_ (req_ c) -> state_ (req_ c') <> data_error ->
    multipart_parser_ c' = multipart_parser_ c -> headers_shape (multipart_headers_ (req_ c')) -> files_ c' = files_ c ->
    disk_ c' = disk_ c -> between c0 c' (items ++ [Field k v])) as Hholds.
  { intros c' E1 E2 E3 E4 E5 E6 E7 E8 E9.
    constructor; rewrite ?field_items_app, ?file_items_app, ?E4, ?E6, ?E8, ?E9; cbn [field_items file_items]; rewrite ?app_nil_r; try done.
    rewrite list_to_map_snoc by done. by rewrite E3, Hm. }
  assert (multipart_form_map_ (req_ c) !! k = None) as Hnone by (rewrite Hm; by apply not_elem_of_list_to_map_1).
  clear Hm Hu Hp Hf Hd Hw.
  change (part_calls (item_part (Field k v))) with
    (on_part_begin [(CONTENT_DISPOSITION, field_value k)] :: ((fun x => on_part_data [x]) <$> v) ++ [on_part_end]).
  destruct (set_disposition (field_value k) (req_ c) Hh) as (rest & Hr & Hrest).
  set (hs := [(CONTENT_DISPOSITION, field_value k)]) in *. set (r1 := set_multipart_headers hs (req_ c)) in *.
  assert (is_multipart_file r1 = false) as Hnf.
  { rewrite (file_by_disposition _ _ _ Hr). unfold contains. by rewrite Hfile. }
  assert (get_multipart_field_name r1 (bs "name") = k) as Hname by by apply (field_value_name_rest r1 k rest).
  set (r2 := put_multipart_form_map (<[k:=[]]> (multipart_form_map_ (req_ c))) r1).
  set (c1 := put_req r2 (put_is_multi_part_file false c)).
  assert (on_part_begin_hook env hs c = c1) as E1.
  { unfold on_part_begin_hook. rewrite Hbegin. cbn [req_ modify_req put_req put_is_multi_part_file]. fold r1.
    rewrite Hnf, andb_false_r. unfold modify_req. cbn [req_ put_req put_is_multi_part_file]. fold r1.
    rewrite Hname. unfold save_multipart_key_value. rewrite bool_decide_false by done. unfold emplace.
    change (multipart_form_map_ r1) with (multipart_form_map_ (req_ c)). rewrite Hnone. done. }
  assert (takes_data c1) as Ht.
  { split; [done|]. change (get_multipart_field_name r1 (bs "name") <> []). by rewrite Hname. }
  set (c2 := if decide (v = []) then c1 else take_data v c1).
  exists c2. split.
  - exists c1. cbn [run_hook]. rewrite E1. split; [done|]. split.
    { fold r1. by rewrite Hnf. }
    apply runs_app. exists c2. split; [by apply runs_data|]. exists c2. split; [|done]. cbn [run_hook].
    assert (is_multi_part_file_ c2 = false) as Hc2 by (unfold c2; by destruct (decide (v = []))).
    unfold on_part_end_hook. rewrite Hc2. by case_match.
  - assert (headers_shape (multipart_headers_ r1)) as Hshape by (by rewrite Hr).
    subst c2. destruct (decide (v = [])) as [->|Hv]; [by apply Hholds|].
    assert (take_data v c1 = put_req (put_multipart_form_map (<[k:=v]> (multipart_form_map_ (req_ c))) (put_last_multpart_key k r1)) c1) as ->.
    { unfold take_data. change (is_multi_part_file_ c1) with false. cbn iota. change (req_ c1) with r2.
      change (get_multipart_field_name r2 (bs "name")) with (get_multipart_field_name r1 (bs "name")). rewrite Hname.
      unfold modify_req, update_multipart_value. change (req_ c1) with r2. rewrite bool_decide_false by done.
      change (multipart_form_map_ (put_last_multpart_key k r2)) with (<[k:=[]]> (multipart_form_map_ (req_ c))).
      rewrite lookup_insert_eq. cbn [app]. rewrite insert_insert_eq. done. }
    by apply Hholds.
Qed.

(** opening, filling and renaming the file of a part *)
Lemma open_part hs (c : connection A) name fs1 i :
  let c1 := put_is_multi_part_file true (modify_req (set_multipart_headers hs) c) in
  let tmp := static_dir_ env ++ bs "/" ++ to_string (nano_ env c1) ++ get_extension name ++ bs "_ing" in
  is_multipart_file (req_ c1) = true -> get_multipart_field_name (req_ c1) (bs "filename") = name -> name <> [] ->
  can_open_ env tmp = true -> fs_open tmp (disk_ c) = (fs1, i) ->
  on_part_begin_hook env hs c = put_files (files_ c ++ [mk_file tmp (Some i) false 0]) (put_disk fs1 c1).
Proof.
  intros c1 tmp H1 H2 H3 H4 H5. unfold on_part_begin_hook. rewrite Hbegin.
  change (req_ c1) with (req_ (modify_req (set_multipart_headers hs) c)) in *.
  change (req_ (put_is_multi_part_file (is_multipart_file (req_ (modify_req (set_multipart_headers hs) c)))
    (modify_req (set_multipart_headers hs) c))) with (req_ (modify_req (set_multipart_headers hs) c)).
  rewrite H1, H2, bool_decide_false by done. cbn [andb]. fold c1. fold tmp. unfold open_upload_file, open.
  cbn [file_ new_file]. rewrite H4. change (disk_ c1) with (disk_ c). rewrite H5. done.
Qed.

Lemma fill_part (c : connection A) tmp i fs1 files data :
  inodes fs1 !! i = Some [] -> Z.of_nat (length data) < 2 ^ 64 -> is_multi_part_file_ c = true -> state_ (req_ c) <> data_error ->
  let c1 := put_files (files ++ [mk_file tmp (Some i) false 0]) (put_disk fs1 c) in
  takes_data c1 /\
  exists fs2, filled i data fs1 fs2 /\ (if decide (data = []) then c1 else take_data data c1) =
    put_files (files ++ [mk_file tmp (Some i) false (Z.of_nat (length data))]) (put_disk fs2 c).
Proof.
  intros Hi Hlen Hf Hs c1. split.
  { split; [done|]. change (is_multi_part_file_ c1) with (is_multi_part_file_ c). rewrite Hf. by destruct files. }
  destruct (decide (data = [])) as [->|Hd]; [by exists fs1|].
  exists (fs_append i data fs1). split.
  - unfold filled, fs_append. cbn [names inodes next_inode]. rewrite lookup_insert_eq, Hi. split_and!; try done.
    intros j Hj. by rewrite lookup_insert_ne.
  - unfold take_data. change (is_multi_part_file_ c1) with (is_multi_part_file_ c). rewrite Hf.
    change (files_ c1) with (files ++ [mk_file tmp (Some i) false 0]). rewrite last_snoc, removelast_last.
    unfold write. cbn [file_ failed_ file_path_ file_size_]. rewrite Z.add_0_l, wrap64_small by lia. done.
Qed.

Lemma end_part (c : connection A) tmp final i fs2 fs3 files n :
  tmp = final ++ bs "_ing" -> fs_rename tmp final fs2 = (fs3, true) -> is_multi_part_file_ c = true ->
  state_ (req_ c) <> data_error ->
  on_part_end_hook (put_files (files ++ [mk_file tmp (Some i) false n]) (put_disk fs2 c)) =
  put_files (files ++ [mk_file final None false n]) (put_disk fs3 c).
Proof.
  intros -> Hren Hf Hs. unfold on_part_end_hook. cbn [req_ put_files put_disk is_multi_part_file_ files_ disk_].
  rewrite bool_decide_false, Hf by done. unfold close_files. rewrite last_snoc, removelast_last.
  change (Upload.close (mk_file (final ++ bs "_ing") (Some i) false n)) with (mk_file (final ++ bs "_ing") None false n).
  rewrite last_snoc. unfold get_file_path. cbn [file_path_].
  destruct (rfind_str_suffix (bs "_ing") final) as [pos ->].
  assert (take (length (final ++ bs "_ing") - 4) (final ++ bs "_ing") = final) as ->.
  { rewrite length_app. change (length (bs "_ing")) with 4%nat. rewrite Nat.add_sub. apply take_app_length. }
  unfold rename_file. cbn [file_path_ file_ failed_ file_size_]. rewrite Hren. by rewrite removelast_last.
Qed.

Lemma get_extension_no c name : (c ∉ name) -> (c ∉ get_extension name).
Proof.
  intros H. unfold get_extension. destruct (rfind_char 46 name) as [i|]; [|apply not_elem_of_nil].
  intros Hin. apply H. rewrite <-(take_drop i name), elem_of_app. by right.
Qed.

Lemma file_runs c0 c items tok k name type data :
  can_store env clock disk -> between c0 c items -> item_ok tok (File k name type data) ->
  exists c', runs env (part_calls (item_part (File k name type data))) c c' /\
    between c0 c' (items ++ [File k name type data]).
Proof.
  intros Hstore [Hk Hl Hm Hu Hs Hp Hh Hf Hd Hw] (H1 & H2 & H3 & H4 & H5 & H6 & H7 & H8 & H9).
  destruct (Hw Hstore) as [Hok Hnew]. clear Hw.
  set (hs := (CONTENT_DISPOSITION, file_value k name) :: type_header type).
  assert (part_calls (item_part (File k name type data)) =
    on_part_begin hs :: ((fun x => on_part_data [x]) <$> data) ++ [on_part_end]) as -> by (by destruct type).
  set (c1 := put_is_multi_part_file true (modify_req (set_multipart_headers hs) c)).
  destruct (set_file_headers (file_value k name) type (req_ c) Hh) as (rest & Hr & Hrest).
  change (multipart_headers_ (req_ c1) = (CONTENT_DISPOSITION, file_value k name) :: rest) in Hr.
  assert (is_multipart_file (req_ c1) = true) as Hfile.
  { rewrite (file_by_disposition _ _ _ Hr). unfold contains. by rewrite filename_found. }
  pose proof (file_value_name _ _ _ _ H2 Hr) as Hname.
  set (n := length (file_items items)) in *. set (ext := get_extension name).
  assert (ends_number ext) as Hext by (rewrite <-(app_nil_r ext); by apply get_extension_ends).
  assert (ends_number (ext ++ bs "_ing")) as Hing by (by apply get_extension_ends).
  set (final := stamp env clock n ext). set (tmp := final ++ bs "_ing").
  assert (static_dir_ env ++ bs "/" ++ to_string (nano_ env c1) ++ ext ++ bs "_ing" = tmp) as Htmp.
  { unfold tmp, final. rewrite <-stamp_ing. unfold stamp. rewrite (store_clock _ _ _ Hstore).
    change (files_ c1) with (files_ c). by rewrite Hf, length_fmap, stored_length. }
  assert (names (disk_ c) !! tmp = None) as Hn1 by (unfold tmp, final; rewrite <-stamp_ing; by apply Hnew).
  assert (names (disk_ c) !! final = None) as Hn2 by (by apply Hnew).
  assert (tmp <> final) as Hne.
  { intros E. apply (f_equal length) in E. unfold tmp in E. rewrite length_app in E.
    change (length (bs "_ing")) with 4%nat in E. lia. }
  destruct (fs_open tmp (disk_ c)) as [fs1 i] eqn:Eopen.
  assert (inodes fs1 !! i = Some []) as Hi.
  { unfold fs_open in Eopen. rewrite Hn1 in Eopen. injection Eopen as <- <-. apply lookup_insert_eq. }
  pose proof (open_part hs c name fs1 i Hfile Hname H3) as Hhook. fold c1 in Hhook. cbv zeta in Hhook. fold ext in Hhook.
  rewrite Htmp in Hhook. specialize (Hhook ltac:(unfold tmp, final; rewrite <-stamp_ing; apply (store_open _ _ _ Hstore);
    rewrite not_elem_of_app; split; [by apply get_extension_no|check_bool]) Eopen).
  destruct (fill_part c1 tmp i fs1 (files_ c) data Hi H8 eq_refl Hs) as (Ht & fs2 & Hfill & Hdata).
  destruct (store_fs _ _ _ _ _ _ _ Hok Hn1 Hne Hn2 Eopen Hfill) as (fs3 & Hren & Hok3 & Hread & Hnames).
  set (c3 := put_files (files_ c ++ [mk_file final None false (Z.of_nat (length data))]) (put_disk fs3 c1)).
  exists c3. split.
  - cbn [runs run_hook]. eexists. split; [by rewrite Hhook|]. split; [by intros _; eapply can_store_timed|].
    apply runs_app. eexists. split; [apply runs_data; [exact Ht|reflexivity]|]. rewrite Hdata.
    eexists. split; [reflexivity|]. split; [done|]. cbn [runs]. symmetry. apply end_part; done.
  - constructor; rewrite ?field_items_app, ?file_items_app; cbn [field_items file_items]; rewrite ?app_nil_r; try done.
    + change (multipart_headers_ (req_ c3)) with (multipart_headers_ (req_ c1)). by rewrite Hr.
    + change (files_ c3) with (files_ c ++ [mk_file final None false (Z.of_nat (length data))]).
      by rewrite stored_snoc, fmap_app, Hf.
    + intros q. change (disk_ c3) with fs3. rewrite stored_snoc, list_to_map_snoc by (eapply stored_paths; done).
      change (stamp env clock (length (file_items items)) (get_extension name)) with final.
      rewrite Hread. destruct (decide (q = final)) as [Hq|Hq].
      * rewrite Hq. pose proof (lookup_insert_eq (M:=gmap bytes) (list_to_map (stored env clock (file_items items))) final data) as E.
        match goal with |- _ = match ?X with _ => _ end => replace X with (Some data) by (symmetry; exact E) end. done.
      * rewrite lookup_insert_ne by done. apply Hd.
    + intros _. change (disk_ c3) with fs3. split; [done|]. intros j s Hj He. rewrite length_app in Hj. cbn [length] in Hj.
      rewrite Hnames; [apply Hnew; [lia|done]|]. unfold final. intros E. apply (stamp_inj env clock disk Hstore) in E; [|done..].
      fold n in Hj. lia.
Qed.

Lemma items_run c0 c done items tok :
  (file_items items <> [] -> can_store env clock disk) -> Forall (item_ok tok) items ->
  NoDup (field_items (done ++ items)).*1 -> between c0 c done ->
  exists c', runs env (mjoin (part_calls <$> (item_part <$> items))) c c' /\ between c0 c' (done ++ items).
Proof.
  revert c done; induction items as [|i items IH]; intros c done Hstore Hok Hnd Hh.
  { exists c. by rewrite app_nil_r. }
  apply Forall_cons in Hok as [Hi Hok].
  assert (exists c1, runs env (part_calls (item_part i)) c c1 /\ between c0 c1 (done ++ [i])) as (c1 & H1 & H2).
  { destruct i as [k v|k name type data].
    - eapply field_runs; [done..|]. rewrite field_items_app, fmap_app in Hnd. cbn [field_items] in Hnd.
      apply NoDup_app in Hnd as (_ & Hnd & _). intros Hin. apply (Hnd k Hin). by left.
    - eapply file_runs; [by apply Hstore|done..]. }
  destruct (IH c1 (done ++ [i])) as (c2 & H3 & H4); [|done|by rewrite <-app_assoc|done|].
  { intros Hne. apply Hstore. by destruct i. }
  exists c2. split; [|by rewrite <-app_assoc in H4].
  change (mjoin (part_calls <$> (item_part <$> i :: items))) with
    (part_calls (item_part i) ++ mjoin (part_calls <$> (item_part <$> items))). apply runs_app. by exists c1.
Qed.

(** what the handler finds *)
Definition delivered_items (items : list item) (c : connection A) : Prop :=
  form_url_map_ (req_ c) = list_to_map (field_items items) /\
  files_ c = upload_of <$> stored env clock (file_items items) /\
  forall q, read_file (disk_ c) q =
    match (list_to_map (stored env clock (file_items items)) : smap) !! q with Some d => Some d | None => read_file disk q end.

(** a body that the parser takes in one call *)
Lemma feed_items tok items epilogue body fresh (c0 : connection A) :
  (CR ∉ tok) -> tok <> [] -> Forall is_byte tok -> Z.of_nat (length tok) < 2 ^ 61 ->
  items <> [] -> NoDup (field_items items).*1 -> Forall (item_ok tok) items ->
  (file_items items <> [] -> can_store env clock disk) ->
  buffer_ok body -> body = print_body tok (item_part <$> items) epilogue ->
  multipart_parser_ c0 = set_boundary (CRLF ++ tok) fresh -> multipart_reader_ c0 = reader0 ->
  multipart_form_map_ (req_ c0) = ∅ -> multipart_headers_ (req_ c0) = [] -> form_url_map_ (req_ c0) = ∅ ->
  state_ (req_ c0) <> data_error -> files_ c0 = [] -> disk_ c0 = disk ->
  exists c, feed_rest env (S (length body)) body c0 = Some c /\ has_error (multipart_parser_ c) = false /\
    kept c0 c /\ same_line (req_ c0) (req_ c) /\ delivered_items items c.
Proof.
  intros H1 H2 H3 H4 Hne Hnd Hok Hstore Hbuf Hbody Hp Hr Hm Hh Hu Hs Hf Hd.
  destruct (printed_body_read tok (item_part <$> items) epilogue fresh [body]) as (p & es & Hfeed & Hsucc & Hspread);
    try done.
  { by destruct items. }
  { apply Forall_fmap. eapply Forall_impl; [exact Hok|]. apply item_part_ok. }
  { by apply Forall_singleton. }
  { rewrite <-Hbody. cbn. apply app_nil_r. }
  cbn [feed_all] in Hfeed. rewrite <-Hp in Hfeed.
  destruct (feed (multipart_parser_ c0) body) as [[n p1 es1|]|] eqn:Ef; [|done..].
  rewrite app_nil_r in Hfeed. injection Hfeed as -> ->.
  cbn [feed_rest]. unfold feed_hooks. rewrite Ef, Hr. destruct (reader_run reader0 es) as [rd hs] eqn:Er. cbn [snd] in Hspread.
  set (c1 := put_multipart_reader rd (put_multipart_parser p c0)).
  assert (between c1 c1 []) as Hin.
  { constructor; try done.
    - change (multipart_headers_ (req_ c1)) with (multipart_headers_ (req_ c0)). rewrite Hh. constructor.
    - intros q. change (disk_ c1) with (disk_ c0). by rewrite Hd.
    - intros Hcan. change (disk_ c1) with (disk_ c0). rewrite Hd. split; [apply Hcan|].
      intros k s _ Hk. by apply (store_new _ _ _ Hcan). }
  destruct (items_run c1 c1 [] items tok Hstore Hok Hnd Hin) as (c2 & Hruns & H).
  assert (exists k, run_hooks env hs (rekey (last_multpart_key_ (req_ c1)) c1) = Some (rekey k (on_end_hook c2))) as (k & Hk).
  { apply runs_spread; [done|]. rewrite Hspread. apply runs_app. exists c2. split; [done|]. by exists (on_end_hook c2). }
  assert (rekey (last_multpart_key_ (req_ c1)) c1 = c1) as Ek by (unfold rekey, modify_req; by destruct c0 as [[]]).
  rewrite Ek in Hk. rewrite Hk. cbn [mbind option_bind].
  assert (on_end_hook c2 = modify_req handle_multipart_key_value c2) as Eend.
  { unfold on_end_hook. by rewrite bool_decide_false by apply H. }
  rewrite Eend. set (c3 := rekey k (modify_req handle_multipart_key_value c2)).
  destruct H as [K1 K2 K3 K4 K5 K6 K7 K8 K9 _].
  assert (multipart_parser_ c3 = p) as Ep by exact K6. rewrite Ep.
  assert (stopped p = true) as -> by (unfold stopped; rewrite Hsucc; apply orb_true_r).
  rewrite andb_false_r. exists c3. split; [done|]. rewrite Ep. split_and!; try done.
  - unfold has_error, succeeded in *. apply bool_decide_eq_true in Hsucc. rewrite Hsucc. by apply bool_decide_eq_false.
  - split; [|split; [exact K8|exact K9]].
    change (form_url_map_ (req_ c3)) with (form_url_map_ (req_ c2) ∪ multipart_form_map_ (req_ c2)).
    rewrite K3, K4. change (form_url_map_ (req_ c1)) with (form_url_map_ (req_ c0)). rewrite Hu. apply map_empty_union.
Qed.
End parts.

Lemma items_served {A} (env : environment A) clock h x bd items epilogue b fresh_part disk res_type now (app : A) :
  serves env h x -> upload_check_ env = None -> multipart_begin_ env = None ->
  message_ok x -> multipart_type x bd -> whole x ->
  (CR ∉ bd) -> Forall is_byte bd -> items <> [] -> NoDup (field_items items).*1 ->
  Forall (item_ok (bs "--" ++ bd)) items -> (file_items items <> [] -> can_store env clock disk) ->
  msg_content x = print_body (bs "--" ++ bd) (item_part <$> items) epilogue ->
  burst_text b = msg_head x ++ msg_content x -> Forall is_byte (burst_text b) ->
  Z.of_nat (length (burst_text b)) < 1024 ->
  exists c, at_route x c /\ delivered_items env clock disk items c /\ app_ c = app /\
  answered env [b] (new_connection fresh_part disk res_type now app) (h c).
Proof.
  intros Hserves Hup Hbegin Hok Htype Hwhole Hcr Hbd Hne Hnd Hitems Hstore Hbody Hb Hby Hsize.
  assert (length (bs "--" ++ bd) <= length (msg_content x))%nat as Hlen.
  { rewrite Hbody. unfold print_body. rewrite (length_app (bs "--" ++ bd)). lia. }
  pose proof (f_equal length Hb) as Hl. rewrite length_app in Hl.
  apply (multipart_burst env h x bd b fresh_part disk res_type now app); try done.
  - intros E. rewrite E, length_app in Hlen. cbn in Hlen. lia.
  - intros c3 E1 E2 E3 E4 E5 E6 E7 E8. apply (feed_items env clock disk Hbegin (bs "--" ++ bd) items epilogue _ (fresh_ env));
      try done.
    + intros [Hin|Hin]%elem_of_app; [|done]. revert Hin. check_bool.
    + apply Forall_app. split; [apply bs_bytes|done].
    + lia.
    + split; [rewrite Hb in Hby; by apply Forall_app in Hby as [_ ?]|lia].
Qed.

(** C3. Multipart uploads are served: a body of form fields and files, printed as parts
    and sent in one burst of less than 1024 bytes with its head, reaches the handler
    with form_url_map_ holding exactly the fields, names and bytes; with a file of
    files_ for every file, closed and in order; with the data of each on the disk under
    its final name, every other path of the disk reading as before; and what the
    handler answers is handed to ::send ([answered]: sent whole if the socket takes it
    in one go).  The disk has to be able to store files only if the body has some. *)
Theorem multipart_served {A} (env : environment A) clock h x bd items epilogue b fresh_part disk res_type now (app : A) :
  serves env h x -> upload_check_ env = None -> multipart_begin_ env = None ->
  message_ok x -> multipart_type x bd -> whole x ->
  (CR ∉ bd) -> Forall is_byte bd -> items <> [] -> NoDup (field_items items).*1 ->
  Forall (item_ok (bs "--" ++ bd)) items -> (file_items items <> [] -> can_store env clock disk) ->
  msg_content x = print_body (bs "--" ++ bd) (item_part <$> items) epilogue ->
  burst_text b = msg_head x ++ msg_content x -> Forall is_byte (burst_text b) ->
  Z.of_nat (length (burst_text b)) < 1024 ->
  exists c, at_route x c /\ app_ c = app /\
  form_url_map_ (req_ c) = list_to_map (field_items items) /\
  files_ c = upload_of <$> stored env clock (file_items items) /\
  (forall q, read_file (disk_ c) q =
    match (list_to_map (stored env clock (file_items items)) : smap) !! q with Some d => Some d | None => read_file disk q end) /\
  answered env [b] (new_connection fresh_part disk res_type now app) (h c).
Proof.
  intros. destruct (items_served env clock h x bd items epilogue b fresh_part disk res_type now app)
    as (c & R1 & (R2 & R3 & R4) & R5 & R6); try done. by exists c.
Qed.

(** a form without files needs no disk *)
Corollary form_served {A} (env : environment A) h x bd fields epilogue b fresh_part disk res_type now (app : A) :
  serves env h x -> upload_check_ env = None -> multipart_begin_ env = None ->
  message_ok x -> multipart_type x bd -> whole x ->
  (CR ∉ bd) -> Forall is_byte bd -> fields <> [] -> NoDup fields.*1 ->
  Forall (form_field_ok (bs "--" ++ bd)) fields ->
  msg_content x = print_body (bs "--" ++ bd) (field_part <$> fields) epilogue ->
  burst_text b = msg_head x ++ msg_content x -> Forall is_byte (burst_text b) ->
  Z.of_nat (length (burst_text b)) < 1024 ->
  exists c, at_route x c /\ form_url_map_ (req_ c) = list_to_map fields /\ files_ c = [] /\ app_ c = app /\
  answered env [b] (new_connection fresh_part disk res_type now app) (h c).
Proof.
  intros Hserves Hup Hbegin Hok Htype Hwhole Hcr Hbd Hne Hnd Hfields Hbody Hb Hby Hsize.
  set (items := (fun f => Field f.1 f.2) <$> fields).
  assert (field_items items = fields) as Ef by
    (unfold items; clear; induction fields as [|[k v] l IH]; [done|]; cbn; by f_equal).
  assert (file_items items = []) as Ei by (unfold items; clear; by induction fields as [|[k v] l IH]).
  destruct (items_served env (fun _ => 0) h x bd items epilogue b fresh_part disk res_type now app)
    as (c & H1 & (H2 & H3 & _) & H5 & H6); try done.
  - by destruct fields.
  - by rewrite Ef.
  - unfold items. apply Forall_fmap. eapply Forall_impl; [exact Hfields|]. by intros [k v].
  - rewrite Hbody. f_equal. unfold items. rewrite <-list_fmap_compose. apply list_fmap_ext. by intros i [k v] _.
  - exists c. rewrite Ef in H2. rewrite Ei in H3. split_and!; done.
Qed.

(** ** Samples *)

Definition upload_items : list item :=
  [Field (bs "user") (bs "rain");
   File (bs "doc") (bs "a.b.txt") (Some (bs "text/plain")) (bs "first" ++ CRLF ++ bs "second");
   Field (bs "note") (bs "x");
   File (bs "pic") (bs "raw") None (bs "0")].
Definition items_message (items : list item) : message :=
  let body := print_body (bs "--XyZ") (item_part <$> items) [] in
  mk_message (bs "POST") (bs "/f") None 1
    [(bs "Content-Type", bs " ", bs "multipart/form-data; boundary=XyZ");
     (bs "Content-Length", bs " ", dec_string (Z.of_nat (length body)))] (Some (Z.of_nat (length body))) body.
Definition items_burst (items : list item) : burst := (80, drop 1 (message_text (items_message items))).
Definition upload_message : message := items_message upload_items.
Definition upload_burst : burst := items_burst upload_items.
Definition upload_disk : filesystem := mk_fs {[ bs "readme" := 0%nat ]} {[ 0%nat := bs "old" ]} 1.
(** the clock moves on with every file *)
Definition upload_clock (k : nat) : Z := 1700000000 + Z.of_nat k.
Definition upload_env (can_open : bytes -> bool) : environment (list bytes) :=
  mk_env (fun c => Some (form_handler c)) (fun c => Some (c, true)) None None (fun _ => true) None
    (fun _ c => c) (bs "up") can_open true (fun _ => 0) 0 (fun c => upload_clock (length (files_ c))) [] [] [].

Lemma upload_can_store : can_store (upload_env (fun _ => true)) upload_clock upload_disk.
Proof.
  constructor; try done.
  - intros q i H. cbn in H. apply lookup_singleton_Some in H as [_ <-]. cbn. split; [lia|by eexists].
  - intros k s _. cbn [names upload_disk]. by rewrite lookup_singleton_ne.
  - intros k. unfold upload_clock. lia.
  - intros j k. unfold upload_clock. intros E. apply Z.add_cancel_l in E. lia.
Qed.

Lemma multipart_served_witness : exists c,
  at_route upload_message c /\ form_url_map_ (req_ c) = list_to_map [(bs "user", bs "rain"); (bs "note", bs "x")] /\
  read_file (disk_ c) (bs "up/1700000000.txt") = Some (bs "first" ++ CRLF ++ bs "second") /\
  read_file (disk_ c) (bs "up/1700000001") = Some (bs "0") /\ read_file (disk_ c) (bs "readme") = Some (bs "old") /\
  handle (upload_env (fun _ => true)) 9 (arrivals [upload_burst]) [Took 4096] []
    (new_connection [] upload_disk ct_none 0 []) = (Returned, form_handler c, [bs "ok"]).
Proof.
  destruct (multipart_served (upload_env (fun _ => true)) upload_clock form_handler upload_message (bs "XyZ") upload_items []
    upload_burst [] upload_disk ct_none 0 []) as (c & Hr & _ & Hf & _ & Hd & Ha).
  - split; [done|split; done].
  - done.
  - done.
  - check_bool.
  - check_bool.
  - vm_compute. reflexivity.
  - check_bool.
  - check_bool.
  - done.
  - check_bool.
  - repeat (apply Forall_cons; split); [| | | |by apply Forall_nil];
      cbn [item_ok]; repeat (split; [first [done | check_bool | vm_compute; reflexivity]|]);
      apply occurs_not; vm_compute; reflexivity.
  - intros _. exact upload_can_store.
  - vm_compute. reflexivity.
  - vm_compute. reflexivity.
  - check_bool.
  - check_bool.
  - exists c. split; [done|]. split; [done|]. rewrite !Hd.
    split; [vm_compute; reflexivity|]. split; [vm_compute; reflexivity|]. split; [vm_compute; reflexivity|].
    exact (answered_loop _ _ _ _ Ha 9%nat [] [Took 4096] [] ltac:(cbn; lia)).
Defined.

(** ** Flaws *)

(** A part in error stays in error, and on_end then leaves the fields where they are:
    the handler, which is still called, does not find them. *)
Lemma part_error_hides_fields {A} (env : environment A) hs c c' :
  multipart_begin_ env = None -> state_ (req_ c) = data_error -> run_hooks env hs c = Some c' ->
  state_ (req_ c') = data_error /\ form_url_map_ (req_ c') = form_url_map_ (req_ c).
Proof.
  intros Hbegin. revert c; induction hs as [|call hs IH]; intros c Hs; cbn [run_hooks]; [by intros [= <-]|].
  intros (c1 & H1 & H2)%bind_Some.
  assert (state_ (req_ c1) = data_error /\ form_url_map_ (req_ c1) = form_url_map_ (req_ c)) as [E1 E2].
  { destruct call as [l|s| |]; cbn [run_hook] in H1; unfold on_part_data_hook, on_part_end_hook, on_end_hook in H1;
      rewrite ?Hs in H1; rewrite ?bool_decide_true in H1 by done; injection H1 as <-; try done.
    unfold on_part_begin_hook. rewrite Hbegin. set (c2 := put_is_multi_part_file _ _).
    assert (state_ (req_ c2) = data_error /\ form_url_map_ (req_ c2) = form_url_map_ (req_ c)) as [D1 D2] by done.
    clearbody c2. case_match; [done|]. case_match.
    - unfold open_upload_file. by destruct (open _ _ _ _) as [[fs f] []].
    - unfold modify_req, save_multipart_key_value. by case_match. }
  rewrite <-E2. by apply IH.
Qed.

(** What a browser sends for a form with a file input that was left empty: the handler
    is called without any of the fields, and its answer is sent. *)
Lemma empty_file_hides_fields :
  let '(o, c, sent) := handle (upload_env (fun _ => true)) 9
    (arrivals [items_burst [Field (bs "user") (bs "rain"); File (bs "doc") [] (Some (bs "application/octet-stream")) []]])
    [Took 4096] [] (new_connection [] upload_disk ct_none 0 []) in
  o = Returned /\ app_ c = [[]; []] /\ sent = [bs "ok"] /\ multipart_form_map_ (req_ c) = {[ bs "user" := bs "rain" ]}.
Proof. vm_compute. by split_and!. Qed.

(** The extension of the name on the client becomes part of the path: a slash behind
    the last dot names a directory that does not exist, the file is not opened, and
    its data meets the assertion of write_upload_data. *)
Lemma slash_in_extension_aborts :
  (handle (upload_env (fun q => bool_decide (rfind_char 47 q = Some 2%nat))) 9
    (arrivals [items_burst [File (bs "doc") (bs "a./b") None (bs "x")]])
    [Took 4096] [] (new_connection [] upload_disk ct_none 0 [])).1.1 = Undefined.
Proof. vm_compute. reflexivity. Qed.
