(* ===== verification/WsServed.v ===== *)
(** * WebSocket sessions

    connection.hpp, websocket.hpp and http_server.hpp together: an upgrade request, the
    handshake, and the frames of a client that arrive in any pieces, up to what the
    application is told and what the socket is given.  [ws_session] is the reference: an
    application that hears one message after the other. *)

From Stdlib Require Import ZArith Lia.
From stdpp Require Import base numbers list gmap strings.
From S2P Require Import Prelude CStd PicoHttp Codec Utils Sha1 WebSocket Itoa Response Upload Request Connection Server Rounds ServerFacts.
From S2P Require RawConn.
Local Open Scope Z_scope.

(** ** The reference *)

(** what the application makes of an opening and of a message, and what it answers *)
Record ws_application (A : Type) := mk_app {
  begun : A -> A;
  heard : bytes -> A -> A;
  said : bytes -> A -> option bytes
}.
Arguments mk_app {A}. Arguments begun {A}. Arguments heard {A}. Arguments said {A}.

(** a frame of the client *)
Record ws_message := mk_client { code_of : opcode; key_of_frame : bytes; payload_of : bytes }.

Definition frame_of (m : ws_message) : bytes := client_frame true (code_of m) (key_of_frame m) (payload_of m).

Definition message_sent (m : ws_message) : Prop :=
  (code_of m = WebSocket.text \/ code_of m = binary \/ code_of m = ping \/ code_of m = pong) /\
  Forall is_byte (key_of_frame m) /\ length (key_of_frame m) = 4%nat /\ key_of_frame m <> [0; 0; 0; 0] /\
  Z.of_nat (length (frame_of m)) < 1024.
#[export] Instance opcode_eq_dec : EqDecision opcode.
Proof. solve_decision. Defined.
#[export] Instance message_sent_dec m : Decision (message_sent m).
Proof. unfold message_sent; apply _. Defined.

(** the state of the application and the text of the response, which is sent after
    every frame: what was said last is said again *)
Definition session_step {A} (w : ws_application A) (s : A * bytes) (m : ws_message) : A * bytes :=
  match code_of m with
  | WebSocket.text | binary => (heard w (payload_of m) s.1, default s.2 (said w (payload_of m) s.1))
  | ping => (s.1, frame_head true pong false (Z.of_nat (length (payload_of m))) ++ payload_of m)
  | _ => s
  end.

Fixpoint ws_session {A} (w : ws_application A) (s : A * bytes) (ms : list ws_message) : A * bytes * list bytes :=
  match ms with
  | [] => (s, [])
  | m :: ms => let s := session_step w s m in let '(s', out) := ws_session w s ms in (s', s.2 :: out)
  end.

(** ** The handshake as RFC 6455 wants it *)

Definition upgrade_request (x : message) : Prop :=
  msg_method x = bs "GET" /\ msg_version x = 1 /\ msg_content x = [] /\ msg_length x = None /\
  lookup_header (msg_fields x) (bs "transfer-encoding") <> bs "chunked" /\
  find_strIC (lookup_header (msg_fields x) (bs "connection")) UPGRADE = true /\
  lookup_header (msg_fields x) (bs "connection") <> [] /\
  iequal (lookup_header (msg_fields x) (bs "connection")) (bs "close") = false /\
  iequal (lookup_header (msg_fields x) (bs "upgrade")) WEBSOCKET = true /\
  lookup_header (msg_fields x) (bs "upgrade") <> [] /\
  length (lookup_header (msg_fields x) (bs "sec-websocket-key")) = 24%nat /\
  Forall is_byte (lookup_header (msg_fields x) (bs "sec-websocket-key")).
#[export] Instance upgrade_request_dec x : Decision (upgrade_request x).
Proof. unfold upgrade_request; apply _. Defined.

Definition accept_of (x : message) : bytes :=
  base64_encode (sha1 (lookup_header (msg_fields x) (bs "sec-websocket-key") ++ ws_guid)) false.

Definition handshake_headers (x : message) : list (bytes * bytes) :=
  let protocol := lookup_header (msg_fields x) (bs "sec-websocket-protocol") in
  [(bs "Upgrade", bs "WebSocket"); (bs "Connection", bs "Upgrade"); (bs "Sec-WebSocket-Accept", accept_of x)] ++
  (if bool_decide (protocol = []) then [] else [(bs "Sec-WebSocket-Protocol", protocol)]).

Definition handshake_text (x : message) (res_type : req_content_type) : bytes :=
  rep_switching_protocols ++ mjoin (header_line <$> handshake_headers x) ++ bs "Content-Length: 0" ++ CRLF ++
  Response.get_content_type res_type ++ rep_server ++ CRLF.

(** ** The application behind the connection *)

(** a call of the application changes its own state and the text of the response *)
Definition still {A} (c c' : connection A) (a : A) (s : bytes) : Prop :=
  req_ c' = req_ c /\ ws_ c' = ws_ c /\ last_ws_str_ c' = last_ws_str_ c /\ continue_work_ c' = continue_work_ c /\
  wire_ c' = wire_ c /\ app_ c' = a /\ response_str (res_ c') = s.

Record hosts {A} (env : environment A) (w : ws_application A) (x : message) : Prop := {
  hosts_headers : forall r, check_headers_ env r = true;
  hosts_route : forall c, at_route x c -> http_handler_check_ env c = Some (c, true);
  hosts_check : forall req res, from_option (fun check => check req res = (req, res, true)) True (ws_connection_check_ env);
  hosts_handler : forall c, at_route x c -> exists c',
    http_handler_ env c = Some c' /\ still c c' (begun w (app_ c)) (response_str (res_ c));
  hosts_open : forall c, still c (event_call_backs_ env data_begin c) (app_ c) (response_str (res_ c));
  hosts_message : forall c, let m := part_data_ (req_ c) in
    still c (event_call_backs_ env data_continue c) (heard w m (app_ c)) (default (response_str (res_ c)) (said w m (app_ c)))
}.

(** ** One frame *)

Section session.
Context {A : Type} (env : environment A) (w : ws_application A) (x : message) (H : hosts env w x) (wire : list bytes).

(** [got] of the next frame has arrived *)
Record talking (got : bytes) (s : A * bytes) (c : connection A) : Prop := {
  talk_buf : exists slack, buf_ (req_ c) = got ++ slack;
  talk_size : buf_size (req_ c) = 1024;
  talk_cur : cur_size_ (req_ c) = Z.of_nat (length got);
  talk_cap : at_capacity (req_ c) = false;
  talk_work : continue_work_ c = Some work_ws_data;
  talk_last : last_ws_str_ c = [];
  talk_app : app_ c = s.1;
  talk_text : response_str (res_ c) = s.2;
  talk_wire : wire_ c = wire
}.

Lemma take_in_talking got data s c :
  talking got s c -> (length (got ++ data) < 1024)%nat ->
  exists c', take_in data c = (c', false) /\ talking (got ++ data) s c'.
Proof.
  intros [(slack & Hb) Hs Hcur Hcap Hw Hl Ha Ht Hi] Hlt. rewrite length_app in Hlt.
  unfold take_in, update_size. eexists. split.
  - cbn [modify_req put_req req_ fill put_buf cur_size_ put_cur_size]. rewrite Hcur, wrap64_small by lia.
    rewrite (proj2 (Z.ltb_ge _ _)) by (unfold MaxSize; lia). reflexivity.
  - assert (buf_ (fill data (req_ c)) = (got ++ data) ++ drop (length data) slack) as Hfill.
    { unfold fill. cbn [put_buf buf_]. rewrite Hcur, Nat2Z.id, Hb, take_app_length.
      rewrite <-drop_drop, drop_app_length. by rewrite <-app_assoc. }
    constructor; try done.
    + eexists. exact Hfill.
    + unfold buf_size in *. cbn [req_ put_req put_cur_size buf_ modify_req]. rewrite Hfill, !length_app, length_drop.
      rewrite Hb, length_app in Hs. lia.
    + cbn [req_ put_req put_cur_size cur_size_ modify_req]. rewrite length_app. cbn. lia.
Qed.

Lemma left_size_talking got s c : talking got s c -> (length got < 1024)%nat -> left_size (req_ c) = 1024 - Z.of_nat (length got).
Proof. intros T Hl. unfold left_size. rewrite (talk_size _ _ _ T), (talk_cur _ _ _ T). apply wrap64_small. lia. Qed.

Lemma process_talking c s got : talking got s c -> process env c = handle_ws_data env c.
Proof. intros T. unfold process. by rewrite (talk_cap _ _ _ T), (talk_work _ _ _ T). Qed.

(** a part of a frame is kept until more arrives *)
Lemma process_part m got s c :
  message_sent m -> talking got s c -> got `prefix_of` frame_of m -> got <> frame_of m ->
  exists c', process env c = Some (c', need_read) /\ talking got s c'.
Proof.
  intros (_ & Hkey & Hk & _ & Hlen) T Hpre Hne. rewrite (process_talking _ _ _ T). unfold handle_ws_data.
  assert (length got < length (frame_of m))%nat as Hlt.
  { destruct Hpre as [k Hf]. rewrite Hf in *. rewrite length_app. destruct k; [by rewrite app_nil_r in Hne|cbn; lia]. }
  destruct T as [(slack & Hb) Hs Hcur Hcap Hw Hl Ha Ht Hi]. rewrite Hcur, Hb, Nat2Z.id. cbn [ws_frames]. rewrite drop_0, Nat.sub_0_r.
  assert (got = take (length got) (frame_of m)) as Hgot by (destruct Hpre as [k Hf]; by rewrite Hf, take_app_length).
  assert (Z.of_nat (length (payload_of m)) < 2 ^ 64) as Hp.
  { unfold frame_of, client_frame in Hlen. rewrite !length_app, mask_data_length in Hlen. lia. }
  pose proof (client_frame_incomplete (ws_ c) true (code_of m) (key_of_frame m) (payload_of m) slack (length got) [] Hkey Hk Hp Hlt) as P.
  fold (frame_of m) in P. rewrite <-Hgot in P. cbv zeta in P.
  specialize (P ltac:(unfold buf_size in Hs; rewrite Hb in Hs; unfold LONG_HEADER; lia)).
  assert (forall ws, talking got s (put_ws ws c)) as Hput by (intros ws; constructor; try done; by exists slack).
  destruct (_ <? _)%nat.
  - destruct P as (ws' & ->). cbn [mbind option_bind]. change (0 <=? -2) with false. change (-2 =? -2) with true. cbn iota. eauto.
  - destruct P as (ws' & -> & E2). cbn [mbind option_bind]. set (hl := head_len _) in *.
    rewrite (proj2 (Z.leb_le 0 _)), Nat2Z.id by lia. rewrite Nat.add_0_l. cbv zeta. cbn [ws_ put_ws].
    rewrite E2. eauto.
Qed.

Lemma set_current_size_0 r :
  buf_ (set_current_size 0 r) = buf_ r /\ cur_size_ (set_current_size 0 r) = 0 /\
  at_capacity (set_current_size 0 r) = at_capacity r.
Proof.
  unfold set_current_size. change (0 =? 0) with true. cbn iota.
  destruct (copy_method_url_headers_keeps (put_cur_size 0 r)) as ((K1 & K2 & K3 & _) & Kb).
  split_and!; [by rewrite Kb|by rewrite K1|]. unfold at_capacity. by rewrite K2, K3.
Qed.

(** what remains of a frame that has been handled *)
Lemma talking_again got s s' c c' :
  talking got s c -> req_ c' = req_ c \/ req_ c' = put_part_data (part_data_ (req_ c')) (req_ c) ->
  last_ws_str_ c' = [] -> continue_work_ c' = continue_work_ c -> wire_ c' = wire_ c ->
  app_ c' = s'.1 -> response_str (res_ c') = s'.2 ->
  talking [] s' (modify_req (set_current_size 0) c').
Proof.
  intros [(slack & Hb) Hs Hcur Hcap Hw Hl Ha Ht Hi] Hr El Ew Ei Ea Et.
  assert (buf_ (req_ c') = buf_ (req_ c) /\ at_capacity (req_ c') = at_capacity (req_ c)) as [Kb Kc]
    by (destruct Hr as [->| ->]; done).
  destruct (set_current_size_0 (req_ c')) as (E1 & E2 & E3).
  constructor; cbn [modify_req put_req req_ continue_work_ last_ws_str_ app_ res_ wire_]; try congruence.
  - exists (got ++ slack). by rewrite E1, Kb.
  - unfold buf_size in *. by rewrite E1, Kb.
  - by rewrite E2.
Qed.

(** a whole frame *)
Lemma process_whole m s c :
  message_sent m -> talking (frame_of m) s c ->
  exists c', process env c = Some (c', need_write_then_read) /\ talking [] (session_step w s m) c'.
Proof.
  intros (Hcode & Hkey & Hk & Hnz & Hlen) T. rewrite (process_talking _ _ _ T). unfold handle_ws_data.
  pose proof T as [(slack & Hb) Hs Hcur Hcap Hw Hl Ha Ht Hi].
  rewrite Hcur, Hb, Nat2Z.id. cbn [ws_frames]. rewrite drop_0, Nat.sub_0_r.
  set (n := Z.of_nat (length (payload_of m))).
  assert (frame_of m ++ slack = frame_head true (code_of m) true n ++ key_of_frame m ++ mask_data (key_of_frame m) (payload_of m) ++ slack) as ->
    by (unfold frame_of, client_frame; by rewrite <-!app_assoc).
  pose proof (client_head_length true (code_of m) (key_of_frame m) n Hk) as Hhead.
  assert (length (frame_of m) = (head_len n + length (payload_of m))%nat) as Hflen.
  { unfold frame_of, client_frame. fold n. by rewrite app_assoc, length_app, Hhead, mask_data_length. }
  rewrite parse_header_masked, (proj2 (Nat.ltb_ge _ _)) by (done || lia). cbn [mbind option_bind]. cbv zeta.
  rewrite (proj2 (Z.leb_le 0 _)), Nat2Z.id, Nat.add_0_l by lia. cbn [ws_ put_ws].
  assert (slice (frame_head true (code_of m) true n ++ key_of_frame m ++ mask_data (key_of_frame m) (payload_of m) ++ slack)
    (head_len n) (length (frame_of m) - head_len n) = mask_data (key_of_frame m) (payload_of m) ++ []) as ->.
  { unfold slice. rewrite app_assoc, drop_app_length' by done. rewrite app_nil_r.
    apply take_app_length'. rewrite mask_data_length. lia. }
  unfold n. rewrite parse_payload_masked by done. fold n.
  set (ws' := ws_after _ _ _ _ _ _). assert (is_fin ws' = true) as Hfin by done. clearbody ws'.
  assert (forall c2 s', req_ c2 = req_ c \/ req_ c2 = put_part_data (part_data_ (req_ c2)) (req_ c) ->
    ws_ c2 = ws' -> last_ws_str_ c2 = [] -> continue_work_ c2 = continue_work_ c -> wire_ c2 = wire_ c ->
    app_ c2 = s'.1 -> response_str (res_ c2) = s'.2 ->
    is_fin (ws_ c2) = true /\ talking [] s' (modify_req (set_current_size 0) c2)) as Hend.
  { intros c2 s' H1 H2 H3 H4 H5 H6 H7. split; [by rewrite H2|]. by eapply talking_again. }
  assert (forall code, code = WS_TEXT_FRAME \/ code = WS_BINARY_FRAME -> forall s',
    s' = (heard w (payload_of m) s.1, default s.2 (said w (payload_of m) s.1)) ->
    exists c2, handle_ws_frame env code (payload_of m) (put_ws ws' c) = Some (c2, true) /\
      is_fin (ws_ c2) = true /\ talking [] s' (modify_req (set_current_size 0) c2)) as Hmsg.
  { intros code Hc s' ->. set (c1 := modify_req (put_part_data (payload_of m)) (put_last_ws_str [] (put_ws ws' c))).
    exists (event_call_backs_ env data_continue c1). split.
    { destruct Hc as [-> | ->]; cbn [handle_ws_frame]; cbn [put_ws last_ws_str_]; by rewrite Hl. }
    destruct (hosts_message _ _ _ H c1) as (H1 & H2 & H3 & H4 & H5 & H6 & H7). apply Hend.
    - right. by rewrite H1.
    - by rewrite H2.
    - by rewrite H3.
    - by rewrite H4.
    - by rewrite H5.
    - rewrite H6. cbn [c1 modify_req put_req req_ part_data_ put_part_data app_ put_last_ws_str put_ws fst]. by rewrite Ha.
    - rewrite H7. cbn [c1 modify_req put_req req_ part_data_ put_part_data app_ res_ put_last_ws_str put_ws snd]. by rewrite Ha, Ht. }
  assert (forall code, code = WebSocket.text \/ code = binary \/ code = ping \/ code = pong -> code_of m = code ->
    exists c2, handle_ws_frame env (frame_type (opcode_value code) 1) (payload_of m) (put_ws ws' c) = Some (c2, true) /\
      is_fin (ws_ c2) = true /\ talking [] (session_step w s m) (modify_req (set_current_size 0) c2)) as Hall.
  { intros code [-> | [-> | [-> | ->]]] E; unfold session_step; rewrite E.
    - apply Hmsg; auto.
    - apply Hmsg; auto.
    - eexists. split; [reflexivity|]. apply Hend; try done; [by left|]. cbn [snd]. unfold modify_res, set_response, response_str.
      cbn [put_res res_ put_rep_str rep_str_ put_ws]. f_equal.
      unfold format_header. rewrite encode_header_rfc by lia. done.
    - eexists. split; [reflexivity|]. apply Hend; try done; by left. }
  destruct (Hall (code_of m) Hcode eq_refl) as (c2 & E & Hf & HT).
  exists (modify_req (set_current_size 0) c2). split; [|done].
  destruct Hcode as [Ec | [Ec | [Ec | Ec]]]; rewrite Ec in E |- *; cbn [frame_type opcode_value Z.eqb Pos.eqb negb] in E |- *;
    rewrite E; cbn [mbind option_bind]; by rewrite Hf.
Qed.

(** ** Frames in pieces *)

Lemma hear_frame m bursts got s c :
  message_sent m -> talking got s c -> bursts <> [] -> got ++ text bursts = frame_of m ->
  exists c', talking [] (session_step w s m) c' /\ spoken env bursts c [(session_step w s m).2] c'.
Proof.
  intros Hm. revert got c. induction bursts as [|b bursts IH]; intros got c T Hne Htext; [done|]. clear Hne.
  change (text (b :: bursts)) with (burst_text b ++ text bursts) in Htext. rewrite app_assoc in Htext.
  assert (length (frame_of m) < 1024)%nat as Hlen by (destruct Hm as (_ & _ & _ & _ & Hl); lia).
  assert (length (got ++ burst_text b) <= length (frame_of m))%nat as Hle by (rewrite <-Htext, (length_app (got ++ _)); lia).
  destruct (take_in_talking got (burst_text b) s c T ltac:(lia)) as (c1 & Htake & T1).
  assert (Z.of_nat (length (burst_text b)) < left_size (req_ c)) as Hroom.
  { rewrite length_app in Hle. rewrite (left_size_talking _ _ _ T); lia. }
  destruct bursts as [|b' bursts].
  - change (text []) with (@nil Z) in Htext. rewrite app_nil_r in Htext. rewrite Htext in T1.
    destruct (process_whole m s c1 Hm T1) as (c2 & Hp & T2). exists c2. split; [done|].
    rewrite <-(talk_text _ _ _ T2). by eapply spoken_say; [..|constructor].
  - destruct (process_part m (got ++ burst_text b) s c1 Hm T1) as (c2 & Hp & T2).
    + exists (text (b' :: bursts)). by rewrite Htext.
    + intros E. rewrite <-Htext in E. apply (f_equal length) in E. rewrite (length_app (got ++ _)) in E.
      change (text (b' :: bursts)) with (burst_text b' ++ text bursts) in E. rewrite length_app in E.
      assert (0 < length (burst_text b'))%nat by (cbn; lia). rewrite !length_app in E. lia.
    + destruct (IH (got ++ burst_text b) c2 T2) as (c3 & T3 & Hsp); [done..|]. exists c3. split; [done|].
      by eapply spoken_read.
Qed.

Lemma hear_frames ms cuts s c :
  Forall message_sent ms -> Forall2 (fun bursts m => text bursts = frame_of m) cuts ms -> talking [] s c ->
  exists c', talking [] (ws_session w s ms).1 c' /\ spoken env (mjoin cuts) c (ws_session w s ms).2 c'.
Proof.
  intros Hms Hcuts. revert s c Hms. induction Hcuts as [|bursts m cuts ms Hb Hcuts IH]; intros s c Hms T.
  - exists c. split; [done|]. constructor.
  - apply Forall_cons in Hms as [Hm Hms]. change (mjoin (bursts :: cuts)) with (bursts ++ mjoin cuts).
    assert (bursts <> []) as Hne.
    { intros ->. destruct Hm as (_ & _ & Hk & _). unfold frame_of, client_frame in Hb. apply (f_equal length) in Hb.
      rewrite !length_app, Hk in Hb. change (length (text [])) with 0%nat in Hb. lia. }
    destruct (hear_frame m bursts [] s c Hm T Hne Hb) as (c1 & T1 & H1).
    destruct (IH (session_step w s m) c1 Hms T1) as (c2 & T2 & H2).
    cbn [ws_session]. destruct (ws_session w (session_step w s m) ms) as [s' out]. cbn [fst snd] in *.
    exists c2. split; [done|]. exact (spoken_app _ _ _ _ _ _ _ _ H1 H2).
Qed.
End session.

(** ** The handshake *)

Lemma handshake_response offset now now0 res_type x :
  response_str (build_response_str offset now (fold_left (fun r h => add_header r h.1 h.2) (handshake_headers x)
    (set_status (Response.set_keep_alive (new_response res_type now0) true) st_switching_protocols))) = handshake_text x res_type.
Proof.
  assert (forall hs r, fold_left (fun r h => add_header r h.1 h.2) hs r = Response.put_headers r (Response.headers_ r ++ hs)) as Hfold.
  { induction hs as [|h hs IH]; intros r; cbn [fold_left]; [rewrite app_nil_r; by destruct r|].
    rewrite IH. unfold add_header. cbn [Response.headers_ Response.put_headers]. rewrite <-app_assoc. by destruct h. }
  rewrite Hfold. unfold build_response_str, append_str, response_str, handshake_text.
  cbn [set_status Response.set_keep_alive new_response Response.put_headers Response.headers_ put_rep_str rep_str_ put_status put_keep_alive
       Response.status_ res_type_ need_response_time_ cookie_sh_ptr content_ to_rep_string app].
  rewrite app_nil_r. rewrite <-!app_assoc. f_equal. f_equal. f_equal. f_equal. f_equal.
  destruct res_type; reflexivity.
Qed.

Lemma take_in_keeps {A} data (c c' : connection A) b : take_in data c = (c', b) -> exists r, c' = put_req r c.
Proof.
  unfold take_in. destruct (update_size _ _) as [r o]. intros [= <- <-]. by exists r.
Qed.

Lemma check_keep_alive_upgrade {A} x (c : connection A) :
  upgrade_request x -> (forall key, Request.get_header_value (req_ c) key = lookup_header (msg_fields x) key) ->
  minor_version_ (req_ c) = msg_version x -> get_method (req_ c) = msg_method x ->
  exists ws, sec_ws_key_ ws = lookup_header (msg_fields x) (bs "sec-websocket-key") /\
    check_keep_alive c = put_is_upgrade true (put_ws ws (put_res (Response.set_keep_alive (res_ c) true) (put_keep_alive true c))).
Proof.
  intros (Hm & Hv & _ & _ & _ & Hup & Hcn & Hcl & Hws & Hun & Hkl & _) Hh Hmv Hg.
  unfold check_keep_alive, is_http11. rewrite Hmv, Hv, Hh. change (1 =? 1) with true. cbn iota. rewrite Hcl, orb_true_r.
  cbn iota. cbn [modify_res put_res put_keep_alive req_ ws_ res_].
  unfold is_upgrade. rewrite Hg, Hm, !Hh. unfold beq. rewrite (bool_decide_true (bs "GET" = bs "GET")) by done. cbn [negb]. rewrite !bool_decide_false by done. rewrite Hup, Hws. cbn [negb].
  rewrite Hkl, bool_decide_false by (intros E; by rewrite E in Hkl). cbn [negb orb Nat.eqb].
  eexists. split; [|reflexivity]. done.
Qed.

Lemma bind_some {B C} (y : B) (f : B -> option C) : Some y ≫= f = f y.
Proof. done. Qed.

Lemma modify_res_keeps {A} f (c : connection A) :
  let c' := modify_res f c in
  res_ c' = f (res_ c) /\ req_ c' = req_ c /\ last_ws_str_ c' = last_ws_str_ c /\ wire_ c' = wire_ c /\ app_ c' = app_ c.
Proof. done. Qed.

Section handshake.
Context {A : Type} (env : environment A) (w : ws_application A) (x : message) (app : A) (H : hosts env w x).
Hypothesis Hok : message_ok x.
Hypothesis Hup : upgrade_request x.
Hypothesis Hgarbage : length (sha_garbage_ env) = 64%nat.

Lemma upgrade_headers ws r :
  (forall key, Request.get_header_value r key = lookup_header (msg_fields x) key) ->
  sec_ws_key_ ws = lookup_header (msg_fields x) (bs "sec-websocket-key") ->
  upgrade_to_websocket (sha_garbage_ env) ws (Request.get_header_value r) = Some (handshake_headers x).
Proof.
  intros Hh Hk. destruct Hup as (_ & _ & _ & _ & _ & _ & _ & _ & _ & _ & Hkl & Hkb).
  unfold upgrade_to_websocket. destruct (accept_key_rfc (sha_garbage_ env) ws Hgarbage) as [E _]; [by rewrite Hk..|].
  rewrite E. cbn [mbind option_bind]. rewrite Hh, Hk. done.
Qed.

Lemma response_handshake_sent (c : connection A) text0 :
  at_route x c -> response_str (build_response_str (offset_ env) (now_ env) (res_ c)) = text0 -> text0 <> [] ->
  exists c', response_handshake env c = Some c' /\
    req_ c' = set_current_size 0 (put_state data_begin (req_ c)) /\
    last_ws_str_ c' = last_ws_str_ c /\ continue_work_ c' = Some work_ws_data /\
    wire_ c' = wire_ c ++ [Writen (send_results_ env) text0] /\
    app_ c' = begun w (app_ c) /\ response_str (res_ c') = text0.
Proof.
  intros Hr Ht Hne. unfold response_handshake.
  destruct (modify_res_keeps (build_response_str (offset_ env) (now_ env)) c) as (M1 & F1 & F2 & F3 & F4).
  set (c0 := modify_res (build_response_str (offset_ env) (now_ env)) c) in *. clearbody c0. rewrite <-M1 in Ht. clear M1.
  rewrite Ht, bool_decide_false by done.
  set (c1 := modify_req (put_state data_begin) _).
  assert (req_ c1 = put_state data_begin (req_ c) /\ last_ws_str_ c1 = last_ws_str_ c /\
    wire_ c1 = wire_ c ++ [Writen (send_results_ env) text0] /\ app_ c1 = app_ c /\ res_ c1 = res_ c0) as (G1 & G2 & G3 & G4 & G5).
  { unfold c1, direct_write, modify_req. cbn [put_req put_wire req_ last_ws_str_ wire_ app_ res_]. by rewrite F1, F2, F3, F4. }
  clearbody c1. destruct (hosts_handler _ _ _ H c1) as (c2 & E2 & (S1 & S2 & S3 & S4 & S5 & S6 & S7)).
  { split; rewrite G1; apply Hr. }
  unfold call_back. rewrite E2. cbn [mbind option_bind]. unfold call_event.
  replace (state_ (req_ c2)) with data_begin by (by rewrite S1, G1).
  destruct (hosts_open _ _ _ H c2) as (T1 & T2 & T3 & T4 & T5 & T6 & T7).
  set (c3 := event_call_backs_ env data_begin c2) in *. clearbody c3.
  exists (put_continue_work (Some work_ws_data) (modify_req (set_current_size 0) c3)). split; [reflexivity|].
  unfold modify_req. cbn [put_continue_work put_req req_ res_ last_ws_str_ continue_work_ wire_ app_].
  split_and!; [by rewrite T1, S1, G1|by rewrite T3, S3|done|by rewrite T5, S5|by rewrite T6, S6, G4|by rewrite T7, S7, G5].
Qed.

Lemma handle_upgrade (c : connection A) rt now0 :
  at_route x c -> (forall key, Request.get_header_value (req_ c) key = lookup_header (msg_fields x) key) ->
  sec_ws_key_ (ws_ c) = lookup_header (msg_fields x) (bs "sec-websocket-key") ->
  is_upgrade_ c = true -> res_ c = Response.set_keep_alive (new_response rt now0) true ->
  exists c', handle_header_request env c = Some (c', need_read) /\
    req_ c' = set_current_size 0 (put_state data_begin (put_http_type cty_websocket (req_ c))) /\
    last_ws_str_ c' = last_ws_str_ c /\ continue_work_ c' = Some work_ws_data /\
    wire_ c' = wire_ c ++ [Writen (send_results_ env) (handshake_text x rt)] /\
    app_ c' = begun w (app_ c) /\ response_str (res_ c') = handshake_text x rt.
Proof.
  intros Hr Hh Hk Hu Hres. unfold handle_header_request, is_ws_socket. rewrite Hu.
  assert ((match ws_connection_check_ env with
    | Some check => let '(req, res, r) := check (req_ c) (res_ c) in (put_res res (put_req req c), r)
    | None => (c, true) end) = (c, true)) as ->.
  { pose proof (hosts_check _ _ _ H (req_ c) (res_ c)) as E. destruct (ws_connection_check_ env) as [check|]; [|done].
    cbn in E. rewrite E. by destruct c. }
  cbn [negb]. cbv zeta. set (c1 := modify_req (put_http_type cty_websocket) c).
  assert (forall key, Request.get_header_value (req_ c1) key = lookup_header (msg_fields x) key) as Hh1 by done.
  rewrite (upgrade_headers (ws_ c1) (req_ c1)), bind_some by done. cbv beta.
  set (c2 := modify_res _ (modify_res _ _)).
  assert (res_ c2 = fold_left (fun r h => add_header r h.1 h.2) (handshake_headers x)
    (set_status (Response.set_keep_alive (new_response rt now0) true) st_switching_protocols)) as Hr0 by (rewrite <-Hres; reflexivity).
  assert (req_ c2 = put_http_type cty_websocket (req_ c) /\ last_ws_str_ c2 = last_ws_str_ c /\ wire_ c2 = wire_ c /\
    app_ c2 = app_ c) as (F1 & F2 & F3 & F4) by (split_and!; reflexivity).
  clearbody c2. destruct (response_handshake_sent c2 (handshake_text x rt)) as (c' & -> & E1 & E2 & E3 & E4 & E5 & E6).
  - split; rewrite F1; apply Hr.
  - rewrite Hr0. apply handshake_response.
  - unfold handshake_text. intros E. apply app_nil in E as [E _]. discriminate E.
  - exists c'. by rewrite <-F1, <-F2, <-F3, <-F4.
Qed.

Lemma process_upgrade c rt now0 :
  ready x app 1024 (msg_head x) c -> Forall is_byte (msg_head x) -> Z.of_nat (length (msg_head x)) < 1024 ->
  res_ c = new_response rt now0 -> last_ws_str_ c = [] -> wire_ c = [] ->
  exists c', process env c = Some (c', need_read) /\
    talking [Writen (send_results_ env) (handshake_text x rt)] [] (begun w app, handshake_text x rt) c'.
Proof.
  intros Hr Hby Hlen Hres Hl Hw. pose proof Hup as (_ & _ & Hmc & Hml & Htr & _).
  pose proof (ready_received _ _ _ _ _ [] Hr) as Hrec. rewrite app_nil_r in Hrec.
  specialize (Hrec eq_refl ltac:(lia) Hby).
  assert (with_content x [] = x) as Ex by (destruct x; cbn in *; by subst). rewrite Ex in Hrec.
  destruct (parse_header_print (sse_ env) (check_headers_ env) x (req_ c) Hok Hrec (hosts_headers _ _ _ H)) as (r' & Hparse & Ho).
  pose proof (parse_header_storage _ _ _ _ _ _ Hparse) as (Hbuf' & Hcur' & _).
  destruct Hr as [(slack & Hb) Hsz Hcur Hmax Hcap Hch Hq Hwk Hup' Happ Hst].
  unfold process. rewrite Hcap, Hwk. unfold handle_read. rewrite Hparse. cbn [mbind option_bind].
  rewrite (proj2 (Z.eqb_neq _ _)) by lia. unfold peek_route.
  pose proof Ho as (Hgm & Hgu & _ & Hhd & _ & Hbl & _ & _ & _ & Hhl & _ & _ & Hch' & _ & Hmv).
  rewrite (hosts_route _ _ _ H) by done. cbn [mbind option_bind negb].
  destruct (check_keep_alive_upgrade x (put_req r' c) Hup) as (ws & Hk & ->); [done..|].
  rewrite (proj2 (Z.eqb_neq _ (-2))) by lia. unfold handle_request.
  set (c1 := put_is_upgrade true _). 
  assert (has_body (req_ c1) = false) as ->.
  { unfold has_body. change (req_ c1) with r'. rewrite Hbl, Hch', Hch, Hml. cbn [default orb].
    rewrite bool_decide_true, bool_decide_false by done. done. }
  destruct (handle_upgrade c1 rt now0) as (c' & -> & E1 & E2 & E3 & E4 & E5 & E6); try done.
  { change (res_ c1) with (Response.set_keep_alive (res_ c) true). by rewrite Hres. }
  exists c'. split; [done|]. change (req_ c1) with r' in E1.
  destruct (set_current_size_0 (put_state data_begin (put_http_type cty_websocket r'))) as (K1 & K2 & K3).
  constructor; rewrite ?E1; try done.
  - exists (msg_head x ++ slack). rewrite K1. cbn [put_state put_http_type buf_]. by rewrite Hbuf'.
  - unfold buf_size in *. rewrite K1. cbn [put_state put_http_type buf_]. by rewrite Hbuf'.
  - rewrite K3. unfold at_capacity. cbn [put_state put_http_type header_len_ body_len_]. rewrite Hhl, Hbl, Hml. cbn [default].
    apply Z.ltb_ge. unfold wrap64, MaxSize. rewrite Z.mod_small; lia.
  - rewrite E2. exact Hl.
  - cbn [fst]. rewrite E5. by rewrite <-Happ.
  - rewrite E4. change (wire_ c1) with (wire_ c). by rewrite Hw.
Qed.
End handshake.

(** ** Sessions *)

(** C4. A WebSocket session: an upgrade request that arrives in one piece is answered,
    straight on the socket, with the handshake of RFC 6455; then the text, binary,
    ping and pong frames of the client, each cut into pieces in any way, each below
    the 1024 bytes of the buffer and none sent together with the next one, reach the
    application one after the other with their unmasked payloads, and the answer to
    each is what the reference session says ([conversed]): as long as the socket takes
    each answer in one go, in the loop and in every event of the socket, EPOLLOUT or
    not, these are sent in order and once, the callback is defined, and the
    connection stays open and waits in its read.  (An answer taken in part is not in
    the statement: see partial_answer_undefined in RawConn.v.) *)
Theorem websocket_session {A} (env : environment A) w x b ms cuts fresh_part disk rt now0 (app : A) :
  hosts env w x -> message_ok x -> upgrade_request x -> length (sha_garbage_ env) = 64%nat ->
  Forall is_byte (msg_head x) -> Z.of_nat (length (msg_head x)) < 1024 -> burst_text b = msg_head x ->
  Forall message_sent ms -> Forall2 (fun bursts m => text bursts = frame_of m) cuts ms ->
  let run := ws_session w (begun w app, handshake_text x rt) ms in
  exists c, conversed env (b :: mjoin cuts) (new_connection fresh_part disk rt now0 app) run.2 c /\
    app_ c = run.1.1 /\ wire_ c = [Writen (send_results_ env) (handshake_text x rt)].
Proof.
  intros H Hok Hup Hg Hby Hlen Hb Hms Hcuts run.
  pose proof (new_ready x fresh_part disk rt now0 app) as Hr.
  destruct (take_in_ready _ _ _ [] (burst_text b) _ Hr) as (c1 & Htake & Hr1); [rewrite app_nil_l, Hb; unfold MaxSize; lia|].
  rewrite app_nil_l, Hb in Hr1. destruct (take_in_keeps _ _ _ _ Htake) as (r & ->).
  destruct (process_upgrade env w x app H Hok Hup Hg _ rt now0 Hr1 Hby Hlen) as (c2 & Hp & T); [done..|].
  destruct (hear_frames env w x H _ ms cuts _ c2 Hms Hcuts T) as (c3 & T3 & Hrun).
  exists c3. split; [|split; [apply (talk_app _ _ _ _ T3)|apply (talk_wire _ _ _ _ T3)]].
  apply spoken_conversed. eapply spoken_read; [|exact Htake|exact Hp|exact Hrun].
  rewrite (left_size_ready _ _ _ _ _ Hr) by (cbn; unfold MaxSize; lia). rewrite Hb. cbn [length]. lia.
Qed.

(** an application that keeps what it hears and answers short messages *)
Definition echo : ws_application (list bytes) :=
  mk_app (fun l => bs "open" :: l) cons (fun m _ => if (length m <=? 5)%nat then Some (format_message m WebSocket.text) else None).

Definition echo_env : environment (list bytes) :=
  mk_env (fun c => Some (put_app (begun echo (app_ c)) c)) (fun c => Some (c, true)) None None (fun _ => true) None
    (fun s c => match s with
                | data_continue =>
                    let m := part_data_ (req_ c) in
                    put_app (heard echo m (app_ c)) (modify_res (fun r => set_response r (default (response_str r) (said echo m (app_ c)))) c)
                | _ => c
                end)
    [] (fun _ => true) true (fun _ => 0) 0 (fun _ => 0) [4096] (replicate 64 0) [].

Lemma echo_hosts x : hosts echo_env echo x.
Proof.
  constructor; try done.
  intros c Hc. eexists. split; [reflexivity|]. done.
Qed.

Definition upgrade_message : message :=
  mk_message (bs "GET") (bs "/ws") None 1
    [(bs "Host", bs " ", bs "h"); (bs "Connection", bs " ", bs "keep-alive, Upgrade"); (bs "Upgrade", bs " ", bs "websocket");
     (bs "Sec-WebSocket-Key", bs " ", bs "dGhlIHNhbXBsZSBub25jZQ==")] None [].

Definition said_things : list ws_message :=
  [mk_client WebSocket.text [1; 2; 3; 4] (bs "hello"); mk_client ping [9; 8; 7; 6] (bs "there"); mk_client binary [5; 5; 5; 5] (bs "a longer message")].

(** every byte of the first frame on its own, the others in two parts *)
Definition said_cuts : list (list burst) :=
  [(fun c => (c, [])) <$> frame_of (mk_client WebSocket.text [1; 2; 3; 4] (bs "hello"));
   cut 3 (frame_of (mk_client ping [9; 8; 7; 6] (bs "there")));
   cut 7 (frame_of (mk_client binary [5; 5; 5; 5] (bs "a longer message")))].

Definition upgrade_burst : burst := (71, drop 1 (msg_head upgrade_message)).

(** the socket under it: every event says EPOLLIN and EPOLLOUT *)
Definition both (b : burst) : RawConn.io_event := RawConn.mk_event true true [Arrive b.1 b.2] [Took 4096].
Definition fresh_socket : @RawConn.RawConnection (co_state (A := list bytes)) :=
  RawConn.mk_conn (Reading (new_connection [] empty_fs ct_none 0 [])) (Some 1024%nat) None false false false false [] [] [].
Definition said_answers : list bytes :=
  [format_message (bs "hello") WebSocket.text; format_message (bs "there") pong; format_message (bs "there") pong].

Lemma websocket_session_witness : exists c,
  handle echo_env 20 (arrivals (upgrade_burst :: mjoin said_cuts)) (replicate 3 (Took 4096)) []
    (new_connection [] empty_fs ct_none 0 []) = (Suspended, c, said_answers) /\
  (exists s, on_events echo_env (both <$> upgrade_burst :: mjoin said_cuts) fresh_socket = Some s /\
     at_read c s /\ RawConn.wire s = mjoin said_answers) /\
  app_ c = [bs "a longer message"; bs "hello"; bs "open"] /\
  wire_ c = [handshake_text upgrade_message ct_none].
Proof.
  destruct (websocket_session echo_env echo upgrade_message upgrade_burst said_things said_cuts [] empty_fs ct_none 0 [])
    as (c & Hc & H2 & H3).
  - apply echo_hosts.
  - check_bool.
  - check_bool.
  - reflexivity.
  - check_bool.
  - vm_compute. reflexivity.
  - vm_compute. reflexivity.
  - check_bool.
  - repeat constructor; vm_compute; reflexivity.
  - assert ((ws_session echo (begun echo [], handshake_text upgrade_message ct_none) said_things).2 = said_answers) as E
      by (vm_compute; reflexivity).
    rewrite E in Hc. exists c. split_and!.
    + apply (conversed_loop _ _ _ _ _ Hc 20%nat _ [] []); [vm_compute; reflexivity|vm_compute; lia].
    + apply (conversed_socket _ _ _ _ _ Hc).
      * apply Forall2_fmap_l, Forall_Forall2_diag, Forall_forall. done.
      * by constructor.
      * apply Forall_fmap, Forall_forall. intros b _. split; [done|].
        repeat (apply Forall_cons; split; [eexists; vm_compute; reflexivity|]). apply Forall_nil_2.
    + rewrite H2. vm_compute. reflexivity.
    + rewrite H3. vm_compute. reflexivity.
Defined.

(** ** Flaws *)

(** as long as the application answers nothing the handshake is sent again after every
    message *)
Lemma handshake_again {A} (w : ws_application A) a s ms :
  (forall m a, said w m a = None) -> Forall (fun m => code_of m = WebSocket.text \/ code_of m = binary \/ code_of m = pong) ms ->
  (ws_session w (a, s) ms).2 = replicate (length ms) s.
Proof.
  intros Hw Hms. revert a. induction Hms as [|m ms Hm Hms IH]; intros a; [done|]. cbn [ws_session length replicate].
  assert (exists a', session_step w (a, s) m = (a', s)) as (a' & ->).
  { unfold session_step. destruct Hm as [-> | [-> | ->]]; cbn [fst snd]; rewrite ?Hw; by eexists. }
  specialize (IH a'). destruct (ws_session w (a', s) ms). cbn [snd] in *. by rewrite IH.
Qed.
