(* ===== verification/Mime.v ===== *)
(** * The table of media types

    include/netcore/mime_types.hpp: mime_map, a std::map whose keys are compared
    without regard to case (ci_less of include/netcore/utils.hpp), and
    get_mime_type.  The table is that of the source, in its order; the map is the
    list of its entries sorted by ci_less, and of two keys that differ in case
    only the first one stays. *)

From Stdlib Require Import ZArith Lia.
From stdpp Require Import base numbers list strings.
From S2P Require Import Prelude.
Local Open Scope Z_scope.

(** ** ci_less *)

(** lexicographical_compare with nocase_compare *)
Fixpoint ci_less (s1 s2 : bytes) : bool :=
  match s1, s2 with
  | _, [] => false
  | [], _ :: _ => true
  | c1 :: s1, c2 :: s2 =>
      if tolower c1 <? tolower c2 then true
      else if tolower c2 <? tolower c1 then false
      else ci_less s1 s2
  end.

(** ** std::map with this order *)

Section ordered_map.
Context {V : Type}.
Notation entries := (list (bytes * V)).

(** insert leaves an equivalent key alone *)
Fixpoint map_insert (k : bytes) (v : V) (m : entries) : entries :=
  match m with
  | [] => [(k, v)]
  | (k', v') :: m' =>
      if ci_less k k' then (k, v) :: m
      else if ci_less k' k then (k', v') :: map_insert k v m'
      else m
  end.

Fixpoint map_find (k : bytes) (m : entries) : option V :=
  match m with
  | [] => None
  | (k', v') :: m' =>
      if ci_less k k' then None
      else if ci_less k' k then map_find k m'
      else Some v'
  end.

(** the constructor from an initializer list *)
Definition map_of (l : entries) : entries := foldl (fun m e => map_insert e.1 e.2 m) [] l.

(** ** The map is the table *)

Definition ci_key (k : bytes) : bytes := tolower <$> k.

(** the first entry of a table with a key, up to case *)
Fixpoint first_entry (k : bytes) (l : entries) : option V :=
  match l with
  | [] => None
  | (k', v) :: l => if bool_decide (ci_key k' = ci_key k) then Some v else first_entry k l
  end.

Lemma ci_less_irrefl_key a b : ci_key a = ci_key b -> ci_less a b = false.
Proof.
  revert b; induction a as [|x a IH]; intros [|y b] E; simpl in E |- *; try done.
  injection E as E1 E2. rewrite E1, Z.ltb_irrefl. auto.
Qed.

Lemma ci_less_connex a b : ci_less a b = false -> ci_less b a = false -> ci_key a = ci_key b.
Proof.
  revert b; induction a as [|x a IH]; intros [|y b]; simpl; try done.
  destruct (Z.ltb_spec (tolower x) (tolower y)); [done|].
  destruct (Z.ltb_spec (tolower y) (tolower x)); [done|].
  intros H1 H2. f_equal; [lia|]. by apply IH.
Qed.

Lemma ci_less_trans a b c : ci_less a b = true -> ci_less b c = true -> ci_less a c = true.
Proof.
  revert b c; induction a as [|x a IH]; intros [|y b] [|z c]; simpl; try done.
  destruct (Z.ltb_spec (tolower x) (tolower y)).
  - intros _. destruct (Z.ltb_spec (tolower y) (tolower z)).
    + rewrite (proj2 (Z.ltb_lt (tolower x) (tolower z))) by lia. done.
    + destruct (Z.ltb_spec (tolower z) (tolower y)); [done|].
      rewrite (proj2 (Z.ltb_lt (tolower x) (tolower z))) by lia. done.
  - destruct (Z.ltb_spec (tolower y) (tolower x)); [done|]. intros Hab.
    destruct (Z.ltb_spec (tolower y) (tolower z)).
    + rewrite (proj2 (Z.ltb_lt (tolower x) (tolower z))) by lia. done.
    + destruct (Z.ltb_spec (tolower z) (tolower y)); [done|]. intros Hbc.
      rewrite (proj2 (Z.ltb_ge (tolower x) (tolower z))), (proj2 (Z.ltb_ge (tolower z) (tolower x))) by lia.
      by eapply IH.
Qed.

(** ci_less asks for the keys' folded form only *)
Lemma ci_less_key a a' b b' : ci_key a = ci_key a' -> ci_key b = ci_key b' -> ci_less a b = ci_less a' b'.
Proof.
  revert a' b b'; induction a as [|x a IH]; intros [|x' a'] [|y b] [|y' b'] Ea Eb; simpl in *; try done.
  injection Ea as Ex Ea. injection Eb as Ey Eb. rewrite Ex, Ey, (IH a' b b') by done. done.
Qed.

Fixpoint sorted (m : entries) : Prop :=
  match m with
  | [] => True
  | (k, _) :: m => Forall (fun e => ci_less k e.1 = true) m /\ sorted m
  end.

Lemma map_insert_forall k0 k v m :
  ci_less k0 k = true -> Forall (fun e => ci_less k0 e.1 = true) m -> Forall (fun e => ci_less k0 e.1 = true) (map_insert k v m).
Proof.
  intros Hk. induction m as [|[k' v'] m IH]; intros F; simpl; [by repeat constructor|].
  apply Forall_cons in F as [F1 F2].
  destruct (ci_less k k'); [by repeat constructor|]. destruct (ci_less k' k); constructor; auto.
Qed.

Lemma map_insert_sorted k v m : sorted m -> sorted (map_insert k v m).
Proof.
  induction m as [|[k' v'] m IH]; intros S; simpl; [done|]. destruct S as [F S].
  destruct (ci_less k k') eqn:E1.
  - split; [|by split]. constructor; [done|]. eapply Forall_impl; [exact F|]. intros e He. by eapply ci_less_trans.
  - destruct (ci_less k' k) eqn:E2; [|done]. split; [by apply map_insert_forall|auto].
Qed.

Lemma map_find_insert k v m x :
  map_find x (map_insert k v m) =
    if bool_decide (ci_key k = ci_key x) then (match map_find x m with Some w => Some w | None => Some v end)
    else map_find x m.
Proof.
  induction m as [|[k' v'] m IH]; simpl.
  - case_bool_decide as E.
    + rewrite (ci_less_irrefl_key x k), (ci_less_irrefl_key k x) by done. done.
    + destruct (ci_less x k) eqn:E1; [done|]. destruct (ci_less k x) eqn:E2; [done|].
      by destruct E; rewrite (ci_less_connex k x).
  - destruct (ci_less k k') eqn:E1; [|destruct (ci_less k' k) eqn:E2].
    + simpl. case_bool_decide as E.
      * rewrite (ci_less_irrefl_key x k), (ci_less_irrefl_key k x) by done.
        rewrite (ci_less_key x k k' k') by done. by rewrite E1.
      * destruct (ci_less x k) eqn:E3.
        -- by rewrite (ci_less_trans x k k').
        -- destruct (ci_less k x) eqn:E4; [done|]. by destruct E; rewrite (ci_less_connex k x).
    + simpl. rewrite IH. case_bool_decide as E; [|done].
      rewrite (ci_less_key x k k' k'), (ci_less_key k' k' x k) by done. by rewrite E1, E2.
    + simpl. case_bool_decide as E; [|done].
      rewrite (ci_less_key x k k' k'), (ci_less_key k' k' x k) by done. by rewrite E1, E2.
Qed.

Lemma map_find_foldl l m x :
  map_find x (foldl (fun m e => map_insert e.1 e.2 m) m l) =
    match map_find x m with Some w => Some w | None => first_entry x l end.
Proof.
  revert m; induction l as [|[k v] l IH]; intros m; simpl; [by destruct (map_find x m)|].
  rewrite IH, map_find_insert. case_bool_decide; destruct (map_find x m); done.
Qed.

Lemma map_of_sorted l : sorted (map_of l).
Proof.
  unfold map_of. assert (H : forall m, sorted m -> sorted (foldl (fun m e => map_insert e.1 e.2 m) m l)); [|by apply H].
  induction l as [|e l IH]; intros m S; simpl; [done|]. by apply IH, map_insert_sorted.
Qed.
End ordered_map.

(** ** The table *)

Definition mime_map_1 : list (bytes * bytes) := [
  (bs ".323", bs "text/h323");
  (bs ".3gp", bs "video/3gpp");
  (bs ".aab", bs "application/x-authoware-bin");
  (bs ".aam", bs "application/x-authoware-map");
  (bs ".aas", bs "application/x-authoware-seg");
  (bs ".acx", bs "application/internet-property-stream");
  (bs ".ai", bs "application/postscript");
  (bs ".aif", bs "audio/x-aiff");
  (bs ".aifc", bs "audio/x-aiff");
  (bs ".aiff", bs "audio/x-aiff");
  (bs ".als", bs "audio/X-Alpha5");
  (bs ".amc", bs "application/x-mpeg");
  (bs ".ani", bs "application/octet-stream");
  (bs ".apk", bs "application/vnd.android.package-archive");
  (bs ".asc", bs "text/plain");
  (bs ".asd", bs "application/astound");
  (bs ".asf", bs "video/x-ms-asf");
  (bs ".asn", bs "application/astound");
  (bs ".asp", bs "application/x-asap");
  (bs ".asr", bs "video/x-ms-asf");
  (bs ".asx", bs "video/x-ms-asf");
  (bs ".au", bs "audio/basic");
  (bs ".avb", bs "application/octet-stream");
  (bs ".avi", bs "video/x-msvideo");
  (bs ".awb", bs "audio/amr-wb");
  (bs ".axs", bs "application/olescript");
  (bs ".bas", bs "text/plain");
  (bs ".bcpio", bs "application/x-bcpio");
  (bs ".bin ", bs "application/octet-stream");
  (bs ".bld", bs "application/bld");
  (bs ".bld2", bs "application/bld2");
  (bs ".bmp", bs "image/bmp");
  (bs ".bpk", bs "application/octet-stream");
  (bs ".bz2", bs "application/x-bzip2");
  (bs ".c", bs "text/plain");
  (bs ".cal", bs "image/x-cals");
  (bs ".cat", bs "application/vnd.ms-pkiseccat");
  (bs ".ccn", bs "application/x-cnc");
  (bs ".cco", bs "application/x-cocoa");
  (bs ".cdf", bs "application/x-cdf");
  (bs ".cer", bs "application/x-x509-ca-cert");
  (bs ".cgi", bs "magnus-internal/cgi");
  (bs ".chat", bs "application/x-chat");
  (bs ".class", bs "application/octet-stream");
  (bs ".clp", bs "application/x-msclip");
  (bs ".cmx", bs "image/x-cmx");
  (bs ".co", bs "application/x-cult3d-object");
  (bs ".cod", bs "image/cis-cod");
  (bs ".conf", bs "text/plain");
  (bs ".cpio", bs "application/x-cpio");
  (bs ".cpp", bs "text/plain");
  (bs ".cpt", bs "application/mac-compactpro");
  (bs ".crd", bs "application/x-mscardfile");
  (bs ".crl", bs "application/pkix-crl");
  (bs ".crt", bs "application/x-x509-ca-cert");
  (bs ".csh", bs "application/x-csh");
  (bs ".csm", bs "chemical/x-csml");
  (bs ".csml", bs "chemical/x-csml");
  (bs ".css", bs "text/css");
  (bs ".cur", bs "application/octet-stream");
  (bs ".dcm", bs "x-lml/x-evm");
  (bs ".dcr", bs "application/x-director");
  (bs ".dcx", bs "image/x-dcx");
  (bs ".der", bs "application/x-x509-ca-cert");
  (bs ".dhtml", bs "text/html");
  (bs ".dir", bs "application/x-director");
  (bs ".dll", bs "application/x-msdownload");
  (bs ".dmg", bs "application/octet-stream");
  (bs ".dms", bs "application/octet-stream");
  (bs ".doc", bs "application/msword");
  (bs ".docx", bs "application/vnd.openxmlformats-officedocument.wordprocessingml.document");
  (bs ".dot", bs "application/msword");
  (bs ".dvi", bs "application/x-dvi");
  (bs ".dwf", bs "drawing/x-dwf");
  (bs ".dwg", bs "application/x-autocad");
  (bs ".dxf", bs "application/x-autocad");
  (bs ".dxr", bs "application/x-director");
  (bs ".ebk", bs "application/x-expandedbook");
  (bs ".emb", bs "chemical/x-embl-dl-nucleotide");
  (bs ".embl", bs "chemical/x-embl-dl-nucleotide");
  (bs ".eps", bs "application/postscript");
  (bs ".epub", bs "application/epub+zip");
  (bs ".eri", bs "image/x-eri");
  (bs ".es", bs "audio/echospeech");
  (bs ".esl", bs "audio/echospeech");
  (bs ".etc", bs "application/x-earthtime");
  (bs ".etx", bs "text/x-setext");
  (bs ".evm", bs "x-lml/x-evm");
  (bs ".evy", bs "application/envoy");
  (bs ".exe", bs "application/octet-stream");
  (bs ".fh4", bs "image/x-freehand");
  (bs ".fh5", bs "image/x-freehand");
  (bs ".fhc", bs "image/x-freehand");
  (bs ".fif", bs "application/fractals");
  (bs ".flr", bs "x-world/x-vrml");
  (bs ".flv", bs "flv-application/octet-stream");
  (bs ".fm", bs "application/x-maker");
  (bs ".fpx", bs "image/x-fpx");
  (bs ".fvi", bs "video/isivideo");
  (bs ".gau", bs "chemical/x-gaussian-input");
  (bs ".gca", bs "application/x-gca-compressed");
  (bs ".gdb", bs "x-lml/x-gdb");
  (bs ".gif", bs "image/gif");
  (bs ".gps", bs "application/x-gps");
  (bs ".gtar", bs "application/x-gtar");
  (bs ".gz", bs "application/x-gzip");
  (bs ".h", bs "text/plain");
  (bs ".hdf", bs "application/x-hdf");
  (bs ".hdm", bs "text/x-hdml");
  (bs ".hdml", bs "text/x-hdml");
  (bs ".hlp", bs "application/winhlp");
  (bs ".hqx", bs "application/mac-binhex40");
  (bs ".hta", bs "application/hta");
  (bs ".htc", bs "text/x-component");
  (bs ".htm", bs "text/html");
  (bs ".html", bs "text/html");
  (bs ".hts", bs "text/html");
  (bs ".htt", bs "text/webviewhtml");
  (bs ".ice", bs "x-conference/x-cooltalk");
  (bs ".ico", bs "image/x-icon");
  (bs ".ief", bs "image/ief");
  (bs ".ifm", bs "image/gif");
  (bs ".ifs", bs "image/ifs");
  (bs ".iii", bs "application/x-iphone");
  (bs ".imy", bs "audio/melody")
].

Definition mime_map_2 : list (bytes * bytes) := [
  (bs ".ins", bs "application/x-internet-signup");
  (bs ".ips", bs "application/x-ipscript");
  (bs ".ipx", bs "application/x-ipix");
  (bs ".isp", bs "application/x-internet-signup");
  (bs ".it", bs "audio/x-mod");
  (bs ".itz", bs "audio/x-mod");
  (bs ".ivr", bs "i-world/i-vrml");
  (bs ".j2k", bs "image/j2k");
  (bs ".jad", bs "text/vnd.sun.j2me.app-descriptor");
  (bs ".jam", bs "application/x-jam");
  (bs ".jar", bs "application/java-archive");
  (bs ".java", bs "text/plain");
  (bs ".jfif", bs "image/pipeg");
  (bs ".jnlp", bs "application/x-java-jnlp-file");
  (bs ".jpe", bs "image/jpeg");
  (bs ".jpeg", bs "image/jpeg");
  (bs ".jpg", bs "image/jpeg");
  (bs ".jpz", bs "image/jpeg");
  (bs ".js", bs "application/x-javascript");
  (bs ".jwc", bs "application/jwc");
  (bs ".kjx", bs "application/x-kjx");
  (bs ".lak", bs "x-lml/x-lak");
  (bs ".latex", bs "application/x-latex");
  (bs ".lcc", bs "application/fastman");
  (bs ".lcl", bs "application/x-digitalloca");
  (bs ".lcr", bs "application/x-digitalloca");
  (bs ".lgh", bs "application/lgh");
  (bs ".lha", bs "application/octet-stream");
  (bs ".lml", bs "x-lml/x-lml");
  (bs ".lmlpack", bs "x-lml/x-lmlpack");
  (bs ".log", bs "text/plain");
  (bs ".lsf", bs "video/x-la-asf");
  (bs ".lsx", bs "video/x-la-asf");
  (bs ".lzh", bs "application/octet-stream");
  (bs ".m13", bs "application/x-msmediaview");
  (bs ".m14", bs "application/x-msmediaview");
  (bs ".m15", bs "audio/x-mod");
  (bs ".m3u", bs "audio/x-mpegurl");
  (bs ".m3url", bs "audio/x-mpegurl");
  (bs ".m4a", bs "audio/mp4a-latm");
  (bs ".m4b", bs "audio/mp4a-latm");
  (bs ".m4p", bs "audio/mp4a-latm");
  (bs ".m4u", bs "video/vnd.mpegurl");
  (bs ".m4v", bs "video/x-m4v");
  (bs ".ma1", bs "audio/ma1");
  (bs ".ma2", bs "audio/ma2");
  (bs ".ma3", bs "audio/ma3");
  (bs ".ma5", bs "audio/ma5");
  (bs ".man", bs "application/x-troff-man");
  (bs ".map", bs "magnus-internal/imagemap");
  (bs ".mbd", bs "application/mbedlet");
  (bs ".mct", bs "application/x-mascot");
  (bs ".mdb", bs "application/x-msaccess");
  (bs ".mdz", bs "audio/x-mod");
  (bs ".me", bs "application/x-troff-me");
  (bs ".mel", bs "text/x-vmel");
  (bs ".mht", bs "message/rfc822");
  (bs ".mhtml", bs "message/rfc822");
  (bs ".mi", bs "application/x-mif");
  (bs ".mid", bs "audio/mid");
  (bs ".midi", bs "audio/midi");
  (bs ".mif", bs "application/x-mif");
  (bs ".mil", bs "image/x-cals");
  (bs ".mio", bs "audio/x-mio");
  (bs ".mmf", bs "application/x-skt-lbs");
  (bs ".mng", bs "video/x-mng");
  (bs ".mny", bs "application/x-msmoney");
  (bs ".moc", bs "application/x-mocha");
  (bs ".mocha", bs "application/x-mocha");
  (bs ".mod", bs "audio/x-mod");
  (bs ".mof", bs "application/x-yumekara");
  (bs ".mol", bs "chemical/x-mdl-molfile");
  (bs ".mop", bs "chemical/x-mopac-input");
  (bs ".mov", bs "video/quicktime");
  (bs ".movie", bs "video/x-sgi-movie");
  (bs ".mp2", bs "video/mpeg");
  (bs ".mp3", bs "audio/mpeg");
  (bs ".mp4", bs "video/mp4");
  (bs ".mpa", bs "video/mpeg");
  (bs ".mpc", bs "application/vnd.mpohun.certificate");
  (bs ".mpe", bs "video/mpeg");
  (bs ".mpeg", bs "video/mpeg");
  (bs ".mpg", bs "video/mpeg");
  (bs ".mpg4", bs "video/mp4");
  (bs ".mpga", bs "audio/mpeg");
  (bs ".mpn", bs "application/vnd.mophun.application");
  (bs ".mpp", bs "application/vnd.ms-project");
  (bs ".mps", bs "application/x-mapserver");
  (bs ".mpv2", bs "video/mpeg");
  (bs ".mrl", bs "text/x-mrml");
  (bs ".mrm", bs "application/x-mrm");
  (bs ".ms", bs "application/x-troff-ms");
  (bs ".msg", bs "application/vnd.ms-outlook");
  (bs ".mts", bs "application/metastream");
  (bs ".mtx", bs "application/metastream");
  (bs ".mtz", bs "application/metastream");
  (bs ".mvb", bs "application/x-msmediaview");
  (bs ".mzv", bs "application/metastream");
  (bs ".nar", bs "application/zip");
  (bs ".nbmp", bs "image/nbmp");
  (bs ".nc", bs "application/x-netcdf");
  (bs ".ndb", bs "x-lml/x-ndb");
  (bs ".ndwn", bs "application/ndwn");
  (bs ".nif", bs "application/x-nif");
  (bs ".nmz", bs "application/x-scream");
  (bs ".nokia-op-logo", bs "image/vnd.nok-oplogo-color");
  (bs ".npx", bs "application/x-netfpx");
  (bs ".nsnd", bs "audio/nsnd");
  (bs ".nva", bs "application/x-neva1");
  (bs ".nws", bs "message/rfc822");
  (bs ".oda", bs "application/oda");
  (bs ".ogg", bs "audio/ogg");
  (bs ".oom", bs "application/x-AtlasMate-Plugin");
  (bs ".p10", bs "application/pkcs10");
  (bs ".p12", bs "application/x-pkcs12");
  (bs ".p7b", bs "application/x-pkcs7-certificates");
  (bs ".p7c", bs "application/x-pkcs7-mime");
  (bs ".p7m", bs "application/x-pkcs7-mime");
  (bs ".p7r", bs "application/x-pkcs7-certreqresp");
  (bs ".p7s", bs "application/x-pkcs7-signature");
  (bs ".pac", bs "audio/x-pac");
  (bs ".pae", bs "audio/x-epac");
  (bs ".pan", bs "application/x-pan");
  (bs ".pbm", bs "image/x-portable-bitmap");
  (bs ".pcx", bs "image/x-pcx")
].

Definition mime_map_3 : list (bytes * bytes) := [
  (bs ".pda", bs "image/x-pda");
  (bs ".pdb", bs "chemical/x-pdb");
  (bs ".pdf", bs "application/pdf");
  (bs ".pfr", bs "application/font-tdpfr");
  (bs ".pfx", bs "application/x-pkcs12");
  (bs ".pgm", bs "image/x-portable-graymap");
  (bs ".pict", bs "image/x-pict");
  (bs ".pko", bs "application/ynd.ms-pkipko");
  (bs ".pm", bs "application/x-perl");
  (bs ".pma", bs "application/x-perfmon");
  (bs ".pmc", bs "application/x-perfmon");
  (bs ".pmd", bs "application/x-pmd");
  (bs ".pml", bs "application/x-perfmon");
  (bs ".pmr", bs "application/x-perfmon");
  (bs ".pmw", bs "application/x-perfmon");
  (bs ".png", bs "image/png");
  (bs ".pnm", bs "image/x-portable-anymap");
  (bs ".pnz", bs "image/png");
  (bs ".pot,", bs "application/vnd.ms-powerpoint");
  (bs ".ppm", bs "image/x-portable-pixmap");
  (bs ".pps", bs "application/vnd.ms-powerpoint");
  (bs ".ppt", bs "application/vnd.ms-powerpoint");
  (bs ".pptx", bs "application/vnd.openxmlformats-officedocument.presentationml.presentation");
  (bs ".pqf", bs "application/x-cprplayer");
  (bs ".pqi", bs "application/cprplayer");
  (bs ".prc", bs "application/x-prc");
  (bs ".prf", bs "application/pics-rules");
  (bs ".prop", bs "text/plain");
  (bs ".proxy", bs "application/x-ns-proxy-autoconfig");
  (bs ".ps", bs "application/postscript");
  (bs ".ptlk", bs "application/listenup");
  (bs ".pub", bs "application/x-mspublisher");
  (bs ".pvx", bs "video/x-pv-pvx");
  (bs ".qcp", bs "audio/vnd.qcelp");
  (bs ".qt", bs "video/quicktime");
  (bs ".qti", bs "image/x-quicktime");
  (bs ".qtif", bs "image/x-quicktime");
  (bs ".r3t", bs "text/vnd.rn-realtext3d");
  (bs ".ra", bs "audio/x-pn-realaudio");
  (bs ".ram", bs "audio/x-pn-realaudio");
  (bs ".rar", bs "application/octet-stream");
  (bs ".ras", bs "image/x-cmu-raster");
  (bs ".rc", bs "text/plain");
  (bs ".rdf", bs "application/rdf+xml");
  (bs ".rf", bs "image/vnd.rn-realflash");
  (bs ".rgb", bs "image/x-rgb");
  (bs ".rlf", bs "application/x-richlink");
  (bs ".rm", bs "audio/x-pn-realaudio");
  (bs ".rmf", bs "audio/x-rmf");
  (bs ".rmi", bs "audio/mid");
  (bs ".rmm", bs "audio/x-pn-realaudio");
  (bs ".rmvb", bs "audio/x-pn-realaudio");
  (bs ".rnx", bs "application/vnd.rn-realplayer");
  (bs ".roff", bs "application/x-troff");
  (bs ".rp", bs "image/vnd.rn-realpix");
  (bs ".rpm", bs "audio/x-pn-realaudio-plugin");
  (bs ".rt", bs "text/vnd.rn-realtext");
  (bs ".rte", bs "x-lml/x-gps");
  (bs ".rtf", bs "application/rtf");
  (bs ".rtg", bs "application/metastream");
  (bs ".rtx", bs "text/richtext");
  (bs ".rv", bs "video/vnd.rn-realvideo");
  (bs ".rwc", bs "application/x-rogerwilco");
  (bs ".s3m", bs "audio/x-mod");
  (bs ".s3z", bs "audio/x-mod");
  (bs ".sca", bs "application/x-supercard");
  (bs ".scd", bs "application/x-msschedule");
  (bs ".sct", bs "text/scriptlet");
  (bs ".sdf", bs "application/e-score");
  (bs ".sea", bs "application/x-stuffit");
  (bs ".setpay", bs "application/set-payment-initiation");
  (bs ".setreg", bs "application/set-registration-initiation");
  (bs ".sgm", bs "text/x-sgml");
  (bs ".sgml", bs "text/x-sgml");
  (bs ".sh", bs "application/x-sh");
  (bs ".shar", bs "application/x-shar");
  (bs ".shtml", bs "magnus-internal/parsed-html");
  (bs ".shw", bs "application/presentations");
  (bs ".si6", bs "image/si6");
  (bs ".si7", bs "image/vnd.stiwap.sis");
  (bs ".si9", bs "image/vnd.lgtwap.sis");
  (bs ".sis", bs "application/vnd.symbian.install");
  (bs ".sit", bs "application/x-stuffit");
  (bs ".skd", bs "application/x-Koan");
  (bs ".skm", bs "application/x-Koan");
  (bs ".skp", bs "application/x-Koan");
  (bs ".skt", bs "application/x-Koan");
  (bs ".slc", bs "application/x-salsa");
  (bs ".smd", bs "audio/x-smd");
  (bs ".smi", bs "application/smil");
  (bs ".smil", bs "application/smil");
  (bs ".smp", bs "application/studiom");
  (bs ".smz", bs "audio/x-smd");
  (bs ".snd", bs "audio/basic");
  (bs ".spc", bs "application/x-pkcs7-certificates");
  (bs ".spl", bs "application/futuresplash");
  (bs ".spr", bs "application/x-sprite");
  (bs ".sprite", bs "application/x-sprite");
  (bs ".sdp", bs "application/sdp");
  (bs ".spt", bs "application/x-spt");
  (bs ".src", bs "application/x-wais-source");
  (bs ".sst", bs "application/vnd.ms-pkicertstore");
  (bs ".stk", bs "application/hyperstudio");
  (bs ".stl", bs "application/vnd.ms-pkistl");
  (bs ".stm", bs "text/html");
  (bs ".svg", bs "image/svg+xml");
  (bs ".sv4cpio", bs "application/x-sv4cpio");
  (bs ".sv4crc", bs "application/x-sv4crc");
  (bs ".svf", bs "image/vnd");
  (bs ".eot", bs "application/vnd.ms-fontobject");
  (bs ".woff", bs "application/font-woff");
  (bs ".svh", bs "image/svh");
  (bs ".svr", bs "x-world/x-svr");
  (bs ".swf", bs "application/x-shockwave-flash");
  (bs ".swfl", bs "application/x-shockwave-flash");
  (bs ".t", bs "application/x-troff");
  (bs ".tad", bs "application/octet-stream");
  (bs ".talk", bs "text/x-speech");
  (bs ".tar", bs "application/x-tar");
  (bs ".taz", bs "application/x-tar");
  (bs ".tbp", bs "application/x-timbuktu");
  (bs ".tbt", bs "application/x-timbuktu");
  (bs ".tcl", bs "application/x-tcl");
  (bs ".tex", bs "application/x-tex");
  (bs ".texi", bs "application/x-texinfo")
].

Definition mime_map_4 : list (bytes * bytes) := [
  (bs ".texinfo", bs "application/x-texinfo");
  (bs ".tgz", bs "application/x-compressed");
  (bs ".thm", bs "application/vnd.eri.thm");
  (bs ".tif", bs "image/tiff");
  (bs ".tiff", bs "image/tiff");
  (bs ".tki", bs "application/x-tkined");
  (bs ".tkined", bs "application/x-tkined");
  (bs ".toc", bs "application/toc");
  (bs ".toy", bs "image/toy");
  (bs ".tr", bs "application/x-troff");
  (bs ".trk", bs "x-lml/x-gps");
  (bs ".trm", bs "application/x-msterminal");
  (bs ".tsi", bs "audio/tsplayer");
  (bs ".tsp", bs "application/dsptype");
  (bs ".tsv", bs "text/tab-separated-values");
  (bs ".ttf", bs "application/octet-stream");
  (bs ".ttz", bs "application/t-time");
  (bs ".txt", bs "text/plain");
  (bs ".uls", bs "text/iuls");
  (bs ".ult", bs "audio/x-mod");
  (bs ".ustar", bs "application/x-ustar");
  (bs ".uu", bs "application/x-uuencode");
  (bs ".uue", bs "application/x-uuencode");
  (bs ".vcd", bs "application/x-cdlink");
  (bs ".vcf", bs "text/x-vcard");
  (bs ".vdo", bs "video/vdo");
  (bs ".vib", bs "audio/vib");
  (bs ".viv", bs "video/vivo");
  (bs ".vivo", bs "video/vivo");
  (bs ".vmd", bs "application/vocaltec-media-desc");
  (bs ".vmf", bs "application/vocaltec-media-file");
  (bs ".vmi", bs "application/x-dreamcast-vms-info");
  (bs ".vms", bs "application/x-dreamcast-vms");
  (bs ".vox", bs "audio/voxware");
  (bs ".vqe", bs "audio/x-twinvq-plugin");
  (bs ".vqf", bs "audio/x-twinvq");
  (bs ".vql", bs "audio/x-twinvq");
  (bs ".vre", bs "x-world/x-vream");
  (bs ".vrml", bs "x-world/x-vrml");
  (bs ".vrt", bs "x-world/x-vrt");
  (bs ".vrw", bs "x-world/x-vream");
  (bs ".vts", bs "workbook/formulaone");
  (bs ".wav", bs "audio/x-wav");
  (bs ".wax", bs "audio/x-ms-wax");
  (bs ".wbmp", bs "image/vnd.wap.wbmp");
  (bs ".wcm", bs "application/vnd.ms-works");
  (bs ".wdb", bs "application/vnd.ms-works");
  (bs ".web", bs "application/vnd.xara");
  (bs ".wi", bs "image/wavelet");
  (bs ".wis", bs "application/x-InstallShield");
  (bs ".wks", bs "application/vnd.ms-works");
  (bs ".wm", bs "video/x-ms-wm");
  (bs ".wma", bs "audio/x-ms-wma");
  (bs ".wmd", bs "application/x-ms-wmd");
  (bs ".wmf", bs "application/x-msmetafile");
  (bs ".wml", bs "text/vnd.wap.wml");
  (bs ".wmlc", bs "application/vnd.wap.wmlc");
  (bs ".wmls", bs "text/vnd.wap.wmlscript");
  (bs ".wmlsc", bs "application/vnd.wap.wmlscriptc");
  (bs ".wmlscript", bs "text/vnd.wap.wmlscript");
  (bs ".wmv", bs "audio/x-ms-wmv");
  (bs ".wmx", bs "video/x-ms-wmx");
  (bs ".wmz", bs "application/x-ms-wmz");
  (bs ".wpng", bs "image/x-up-wpng");
  (bs ".wps", bs "application/vnd.ms-works");
  (bs ".wpt", bs "x-lml/x-gps");
  (bs ".wri", bs "application/x-mswrite");
  (bs ".wrl", bs "x-world/x-vrml");
  (bs ".wrz", bs "x-world/x-vrml");
  (bs ".ws", bs "text/vnd.wap.wmlscript");
  (bs ".wsc", bs "application/vnd.wap.wmlscriptc");
  (bs ".wv", bs "video/wavelet");
  (bs ".wvx", bs "video/x-ms-wvx");
  (bs ".wxl", bs "application/x-wxl");
  (bs ".x-gzip", bs "application/x-gzip");
  (bs ".xaf", bs "x-world/x-vrml");
  (bs ".xar", bs "application/vnd.xara");
  (bs ".xbm", bs "image/x-xbitmap");
  (bs ".xdm", bs "application/x-xdma");
  (bs ".xdma", bs "application/x-xdma");
  (bs ".xdw", bs "application/vnd.fujixerox.docuworks");
  (bs ".xht", bs "application/xhtml+xml");
  (bs ".xhtm", bs "application/xhtml+xml");
  (bs ".xhtml", bs "application/xhtml+xml");
  (bs ".xla", bs "application/vnd.ms-excel");
  (bs ".xlc", bs "application/vnd.ms-excel");
  (bs ".xll", bs "application/x-excel");
  (bs ".xlm", bs "application/vnd.ms-excel");
  (bs ".xls", bs "application/vnd.ms-excel");
  (bs ".xlsx", bs "application/vnd.openxmlformats-officedocument.spreadsheetml.sheet");
  (bs ".xlt", bs "application/vnd.ms-excel");
  (bs ".xlw", bs "application/vnd.ms-excel");
  (bs ".xm", bs "audio/x-mod");
  (bs ".xml", bs "text/plain");
  (bs ".xml", bs "application/xml");
  (bs ".xmz", bs "audio/x-mod");
  (bs ".xof", bs "x-world/x-vrml");
  (bs ".xpi", bs "application/x-xpinstall");
  (bs ".xpm", bs "image/x-xpixmap");
  (bs ".xsit", bs "text/xml");
  (bs ".xsl", bs "text/xml");
  (bs ".xul", bs "text/xul");
  (bs ".xwd", bs "image/x-xwindowdump");
  (bs ".xyz", bs "chemical/x-pdb");
  (bs ".yz1", bs "application/x-yz1");
  (bs ".z", bs "application/x-compress");
  (bs ".zac", bs "application/x-zaurus-zac");
  (bs ".zip", bs "application/zip");
  (bs ".json", bs "application/json");
  (bs ".7z", bs "application/x-7z-compressed")
].

Definition mime_table : list (bytes * bytes) := mime_map_1 ++ mime_map_2 ++ mime_map_3 ++ mime_map_4.
Definition mime_map : list (bytes * bytes) := map_of mime_table.

Definition get_mime_type (extension : bytes) : bytes :=
  match map_find extension mime_map with
  | Some mime => mime
  | None => bs "application/octet-stream"
  end.

(** get_mime_type answers with the type of the first line of the table whose
    extension is the given one up to case, and application/octet-stream where
    there is none: the map, sorted by ci_less, loses no line but those whose
    extension an earlier line has. *)
Theorem get_mime_type_first extension :
  sorted mime_map /\ get_mime_type extension = default (bs "application/octet-stream") (first_entry extension mime_table).
Proof.
  split; [apply map_of_sorted|]. unfold get_mime_type, mime_map, map_of. rewrite map_find_foldl. simpl map_find.
  by destruct (first_entry extension mime_table).
Qed.

(** every line of the table answers for its extension, the second one of .xml apart *)
Lemma table_lines_found :
  Forall (fun e => get_mime_type e.1 = e.2 \/ e = (bs ".xml", bs "application/xml")) mime_table.
Proof. apply (bool_decide_unpack _). vm_compute. exact I. Qed.
Lemma xml_is_text : get_mime_type (bs ".XML") = bs "text/plain".
Proof. vm_compute. reflexivity. Qed.
