(* ===== verification/StaticFile.v ===== *)
(** * Static files

    include/netcore/hs_utils.hpp and http_server::set_static_res_handler: the handler
    that the router calls for every path with a dot in it and no handler of its
    own.  A file is opened by what the operating system finds under a path
    ([open_]); the connection's file tag, an ifstream, is the contents and a
    position.  Small files (up to 5 MB) are sent as one response; for larger ones
    a header is sent and the connection asks the handler for more.  [undefined_]
    notes that a null file tag was used. *)

From Stdlib Require Import ZArith Lia.
From stdpp Require Import base numbers list gmap strings.
From S2P Require Import Prelude CStd Utils Response Request Connection Server Rounds ServerFacts Mime.
From S2P Require Router Codec.
Local Open Scope Z_scope.

Record ifstream := mk_stream { contents : bytes; position : Z }.

Record file_state := mk_files { m_file_tag : option ifstream; undefined_ : bool }.
Definition no_file : file_state := mk_files None false.

Notation conn := (connection file_state).

(** transfer_type of __default_config.hpp *)
Inductive transfer_type := CHUNKED | ACCEPT_RANGES.
Definition transfer_type_ : transfer_type := ACCEPT_RANGES.
Definition www : bytes := bs "www".
Definition MB : Z := 1024 * 1024.

Section hs_utils.
Variable offset : Z -> Z.
Variable now : Z.
Variable open_ : bytes -> option bytes.

Definition set_file_tag (f : ifstream) (c : conn) : conn := put_app (mk_files (Some f) (undefined_ (app_ c))) c.

(** the next len bytes of the file *)
Definition get_send_data (len : Z) (c : conn) : bytes * conn :=
  match m_file_tag (app_ c) with
  | None => ([], put_app (mk_files None true) c)
  | Some f =>
      let str := take (Z.to_nat len) (drop (Z.to_nat (position f)) (contents f)) in
      (str, set_file_tag (mk_stream (contents f) (position f + Z.of_nat (length str))) c)
  end.

Definition is_small_file (f : ifstream) (c : conn) : bool * conn :=
  let file_size := Z.of_nat (length (contents f)) in
  (file_size <=? 5 * 1024 * 1024, modify_req (put_static_resource_file_size file_size) c).

(** the rest of the file, as one response *)
Definition send_small_file (f : ifstream) (mime : bytes) (c : conn) : conn :=
  let c := modify_res (fun r => add_header r (bs "Access-Control-Allow-origin") (bs "*")) c in
  let c := modify_res (fun r => add_header r (bs "Content-type") (mime ++ bs "; charset=utf8")) c in
  modify_res (fun r => set_status_and_content offset now r st_ok (drop (Z.to_nat (position f)) (contents f)) ct_none enc_none) c.

(** [after] is what lies in memory behind the value of the range header *)
Definition hs_write_chunked_header (after : bytes) (f : ifstream) (mime : bytes) (c : conn) : conn :=
  let range_header := Request.get_header_value (req_ c) (bs "range") in
  let c := modify_req (set_range_flag (negb (bool_decide (range_header = [])))) c in
  let c := modify_req (set_range_start_pos range_header after) c in
  let header := mime ++ bs "; charset=utf8" ++ CRLF ++ bs "Access-Control-Allow-origin: *" ++ CRLF ++ bs "Accept-Ranges: bytes" in
  if is_range_resource_ (req_ c) then
    let file_pos := get_range_start_pos (req_ c) in
    let size := static_resource_file_size_ (req_ c) in
    let c := set_file_tag (mk_stream (contents f) file_pos) c in
    Connection.write_chunked_header
      (header ++ CRLF ++ bs "Content-Range: bytes " ++ to_string file_pos ++ bs "-" ++ to_string (size - 1) ++ bs "/" ++ to_string size)
      true c
  else Connection.write_chunked_header header false c.

Definition write_chunked_body (c : conn) : conn :=
  let len := 3 * 1024 * 1024 in
  let '(str, c) := get_send_data len c in
  let read_len := Z.of_nat (length str) in
  Connection.write_chunked_data str ((read_len =? 0) || negb (read_len =? len)) c.

Definition ranges_header (mime filename file_size : bytes) : bytes :=
  bs "HTTP/1.1 200 OK" ++ CRLF ++ bs "Access-Control-Allow-origin: *" ++ CRLF ++ bs "Accept-Ranges: bytes" ++ CRLF ++
  bs "Content-Disposition: attachment;filename=" ++ filename ++ CRLF ++ bs "Connection: keep-alive" ++ CRLF ++
  bs "Content-Type: " ++ mime ++ CRLF ++ bs "Content-Length: " ++ file_size ++ CRLF ++ CRLF.
Definition hs_write_ranges_header (mime filename file_size : bytes) (c : conn) : conn :=
  Connection.write_ranges_header (ranges_header mime filename file_size) c.

Definition hs_write_ranges_data (c : conn) : conn :=
  let len := 3 * 1024 * 1024 in
  let '(str, c) := get_send_data len c in
  let read_len := Z.of_nat (length str) in
  Connection.write_ranges_data str ((read_len =? 0) || negb (read_len =? len)) c.

(** request::get_mime goes through the C string *)
Definition get_mime (filename : bytes) : bytes := get_mime_type (get_extension (c_str filename)).

(** std::filesystem::path::filename *)
Definition path_filename (p : bytes) : bytes := match rfind_char 47 p with Some i => drop (S i) p | None => p end.

(** where the file is read from: the header asks for a position in it *)
Definition start_position (start : bytes) (file_size : Z) : Z :=
  if bool_decide (start = []) then 0
  else let start := atoll start in if (0 <? start) && (start <=? file_size) then start else 0.

Definition process_download (after : bytes) (file_path : bytes) (c : conn) : conn :=
  match state_ (req_ c) with
  | data_begin =>
      let mime := get_mime file_path in
      match open_ (c_str file_path) with
      | None => modify_res (fun r => set_status_and_content offset now r st_not_found [] ct_none enc_none) c
      | Some file =>
          let size := Z.of_nat (length file) in
          let f := mk_stream file (start_position (Request.get_header_value (req_ c) (bs "cinatra_start_pos")) size) in
          let c := set_file_tag f c in
          let '(small, c) := is_small_file f c in
          if small then set_file_tag (mk_stream file size) (send_small_file f mime c)
          else
            match transfer_type_ with
            | CHUNKED => hs_write_chunked_header after f mime c
            | ACCEPT_RANGES => hs_write_ranges_header mime (path_filename file_path) (to_string size) c
            end
      end
  | data_continue => match transfer_type_ with CHUNKED => write_chunked_body c | ACCEPT_RANGES => hs_write_ranges_data c end
  | data_end => put_continue_work None c
  | data_error =>
      let c := put_continue_work None (modify_req (put_state data_error) c) in
      modify_res (fun r => set_status_and_content offset now r st_bad_request (bs "data proce data error") ct_none enc_none) c
  | _ => c
  end.

(** ** The handler *)

Variable download_check_ : option (request -> response -> request * response * bool).
Variable after : bytes.

(** the path is the directory's name and the URL, decoded, as it is *)
Definition full_path (r : request) : bytes := www ++ get_relative_filename r.

Definition static_res_handler (c : conn) : conn :=
  match download_check_ with
  | Some check =>
      let '(req, res, r) := check (req_ c) (res_ c) in
      let c := put_res res (put_req req c) in
      if (r : bool) then process_download after (full_path (req_ c)) c
      else modify_res (fun res => set_status_and_content0 offset now res st_bad_request) c
  | None => process_download after (full_path (req_ c)) c
  end.

Definition set_static_res_handler (s : @http_server file_state) : option http_server :=
  set_http_handler [POST; GET] Router.STATIC_RESOURCE (returns static_res_handler) s.
End hs_utils.

(** ** The route to it *)

Lemma static_route {W} order (rt rt' : Router.http_router W) g m url route_it w :
  m = POST \/ m = GET ->
  Forall (fun r => r.1 url = false /\ r.1 Router.STATIC_RESOURCE = false) (Router.regex_invokers_ rt) ->
  Router.map_invokers_ rt !! url = None -> is_Some (rfind_char 46 url) ->
  Router.register_handler rt [POST; GET] Router.STATIC_RESOURCE g = Some rt' ->
  Router.route 2 order rt' (method_name m) url route_it w = Some (true, if route_it then g w else w).
Proof.
  intros Hm Hre Hurl [i Hdot] Hreg.
  assert (Hr : Router.regex_invokers_ rt' = Router.regex_invokers_ rt /\ Router.map_invokers_ rt' !! url = None).
  { unfold Router.register_handler, Router.register_func in Hreg. cbn in Hreg. injection Hreg as <-. cbn.
    split; [done|]. rewrite lookup_insert_ne; [done|]. intros <-. by vm_compute in Hdot. }
  destruct Hr as [Hr Hu].
  assert (Hsub : Router.route 1 order rt' (method_name m) Router.STATIC_RESOURCE route_it w = Some (true, if route_it then g w else w)).
  { rewrite (Router.registered_route order rt rt' [POST; GET] Router.STATIC_RESOURCE g m route_it w 0).
    - by destruct Hm as [->| ->].
    - set_solver.
    - done.
    - by destruct Hm as [->| ->].
    - by vm_compute.
    - eapply Forall_impl; [exact Hre|]. by intros r [_ ?].
    - done. }
  change (Router.route 2 order rt' (method_name m) url route_it w) with
    (match list_find (fun r => r.1 url = true) (Router.regex_invokers_ rt') with
     | Some (_, r) => Router.try_invoker r.2 (method_name m) route_it w
     | None => match Router.map_invokers_ rt' !! url with
               | Some p => Router.try_invoker p (method_name m) route_it w
               | None => match rfind_char Router.DOT url with
                         | Some _ => Router.route 1 order rt' (method_name m) Router.STATIC_RESOURCE route_it w
                         | None => Some (Router.get_wildcard_function (order (Router.wildcard_invokers_ rt')) url route_it w)
                         end
               end
     end).
  rewrite Hr. assert (list_find (fun r : (bytes -> bool) * Router.invoker_function W => r.1 url = true) (Router.regex_invokers_ rt) = None) as ->.
  { apply list_find_None. eapply Forall_impl; [exact Hre|]. intros r [H1 _]. cbn. congruence. }
  rewrite Hu. change (rfind_char Router.DOT url) with (rfind_char 46 url). by rewrite Hdot.
Qed.

(** ** What a client gets *)

(** the name a file is looked for under *)
Definition file_name (x : message) : bytes :=
  www ++ (if is_form_url_encode (msg_path x) then Codec.get_string_by_urldecode (msg_path x) else msg_path x).

Lemma delivered_path x (c : conn) : delivered x no_file c -> full_path (req_ c) = file_name x.
Proof. intros (_ & Hu & _). unfold full_path, get_relative_filename, file_name. by rewrite Hu. Qed.

(** the handler, on a request just delivered, sends a small file as it is *)
Lemma small_file_sent offset now open_ after x file (c : conn) :
  delivered x no_file c -> lookup_header (msg_fields x) (bs "cinatra_start_pos") = [] ->
  open_ (c_str (file_name x)) = Some file -> Z.of_nat (length file) <= 5 * MB ->
  exists r0, status_ r0 = st_ok /\ content_ r0 = file /\
    Response.headers_ r0 = Response.headers_ (res_ c) ++ [(bs "Access-Control-Allow-origin", bs "*");
                                        (bs "Content-type", get_mime (file_name x) ++ bs "; charset=utf8")] /\
    response_str (res_ (static_res_handler offset now open_ None after (pass_headers c))) =
      rep_str_ (build_response_str offset now r0).
Proof.
  intros Hd Hstart Hopen Hsize.
  pose proof (delivered_path x c Hd) as Hp. destruct Hd as (_ & _ & Hh & _ & _ & _ & Hst).
  unfold static_res_handler. change (req_ (pass_headers c)) with (req_ c). rewrite Hp.
  unfold process_download. change (req_ (pass_headers c)) with (req_ c). rewrite Hst, Hopen, Hh, Hstart.
  unfold start_position. rewrite bool_decide_true by done.
  unfold is_small_file. cbn [contents]. rewrite (proj2 (Z.leb_le _ (5 * 1024 * 1024))) by (unfold MB in Hsize; lia).
  unfold send_small_file, set_status_and_content.
  unfold modify_res, modify_req, set_file_tag.
  cbn [res_ put_res put_app put_req app_ position contents].
  eexists. split; [|split; [|split; [|reflexivity]]]; [reflexivity|reflexivity|].
  cbn. by rewrite <- app_assoc.
Qed.

(** a large one is answered with a header *)
Lemma large_file_header offset now open_ after x file (c : conn) :
  delivered x no_file c -> open_ (c_str (file_name x)) = Some file -> 5 * MB < Z.of_nat (length file) ->
  response_str (res_ (static_res_handler offset now open_ None after (pass_headers c))) =
    ranges_header (get_mime (file_name x)) (path_filename (file_name x)) (to_string (Z.of_nat (length file))).
Proof.
  intros Hd Hopen Hsize. pose proof (delivered_path x c Hd) as Hp. destruct Hd as (_ & _ & Hh & _ & _ & _ & Hst).
  unfold static_res_handler. change (req_ (pass_headers c)) with (req_ c). rewrite Hp.
  unfold process_download. change (req_ (pass_headers c)) with (req_ c). rewrite Hst, Hopen.
  unfold is_small_file. cbn [contents]. rewrite (proj2 (Z.leb_gt _ (5 * 1024 * 1024))) by (unfold MB in Hsize; lia).
  reflexivity.
Qed.

Section served_files.
Context (offset : Z -> Z) (now : Z)
  (order : gmap bytes (Router.invoker_function (@business file_state)) -> list (bytes * Router.invoker_function (@business file_state)))
  (open_ : bytes -> option bytes) (after : bytes) (s0 s : @http_server file_state) (m : http_method) (x : message)
  (events : data_proc_state -> conn -> conn) (can_open : bytes -> bool) (nano : conn -> Z) (results : list Z)
  (garbage fresh : bytes) (b : burst) (rest : list burst) (fresh_part : bytes) (disk : Upload.filesystem)
  (res_type : req_content_type) (clock : Z) (file : bytes).

(** the server has the handler for static files, and nothing else for the path *)
Hypothesis Hset : set_static_res_handler offset now open_ None after s0 = Some s.
Hypothesis Hregex : Forall (fun r => r.1 (msg_path x) = false /\ r.1 Router.STATIC_RESOURCE = false)
                           (Router.regex_invokers_ (http_router_ s0)).
Hypothesis Hmap : Router.map_invokers_ (http_router_ s0) !! msg_path x = None.
Hypothesis Hdot : is_Some (rfind_char 46 (msg_path x)).
Hypothesis Hmethod : (m = POST \/ m = GET) /\ msg_method x = method_name m.

(** the message arrives *)
Hypothesis Hok : message_ok x /\ plain_type x /\ whole x.
Hypothesis Hsize : Z.of_nat (length (msg_head x ++ msg_content x)) < 1024.
Hypothesis Hbytes : Forall is_byte (msg_head x ++ msg_content x).
Hypothesis Hhead : (length (msg_head x) <= length (burst_text b))%nat.
Hypothesis Htext : text (b :: rest) = msg_head x ++ msg_content x.

(** the file is there *)
Hypothesis Hopen : open_ (c_str (file_name x)) = Some file.

Definition static_env : environment file_state := make_env offset now order s events can_open nano results garbage fresh.
Definition accepted : conn := new_connection fresh_part disk res_type clock no_file.

Lemma static_handled :
  exists c, delivered x no_file c /\ answered static_env (b :: rest) accepted (static_res_handler offset now open_ None after (pass_headers c)).
Proof.
  destruct Hmethod as [Hm Hmx], Hok as (H1 & H2 & H3).
  pose proof Hset as Hs. unfold set_static_res_handler, set_http_handler in Hs.
  apply bind_Some in Hs as (rt & Hreg & Hs).
  assert (http_router_ s = rt) as Hrt by (by injection Hs as <-).
  apply (served_plain static_env
    (fun c => settle offset now (returns (static_res_handler offset now open_ None after) (pass_headers c)))); try done.
  apply routed_serves. intros route_it w. rewrite Hmx, Hrt. by eapply static_route.
Qed.

(** C7. A static file is served: on a server with the handler for static files (and
    no handler or regular expression of its own for the path), a GET or POST
    message for a path with a dot in it leads to one answer with 200, the media type of
    the extension and exactly the bytes of the file that is found under www and
    the decoded path, if that has at most 5 MB and no part of it is asked for; this
    answer is handed to ::send ([answered]), and all of it is out when the socket takes
    it in one go.  When it does not, which is likely for a large file, the rest is sent
    in any pieces by later events that say only EPOLLOUT (answered_pieces); if the
    event that brought the request says EPOLLOUT, too, the callback uses a null pointer
    ([handed_over]). *)
Theorem static_file_served :
  Z.of_nat (length file) <= 5 * MB -> lookup_header (msg_fields x) (bs "cinatra_start_pos") = [] ->
  exists c c', delivered x no_file c /\ answered static_env (b :: rest) accepted c' /\
    exists r0, status_ r0 = st_ok /\ content_ r0 = file /\
      Response.headers_ r0 = Response.headers_ (res_ c) ++
        [(bs "Access-Control-Allow-origin", bs "*"); (bs "Content-type", get_mime (file_name x) ++ bs "; charset=utf8")] /\
      response_str (res_ c') = rep_str_ (build_response_str offset now r0).
Proof.
  intros Hsmall Hstart. destruct static_handled as (c & Hd & Ha). eexists c, _.
  split; [exact Hd|]. split; [exact Ha|]. by apply small_file_sent.
Qed.

(** Of a larger file only the head of the response arrives: it announces the
    length of the file, the coroutine returns after it, and no byte of the file
    is sent, although the connection has asked to go on (continue_work_). *)
Theorem large_file_not_sent fuel q answers answers' :
  5 * MB < Z.of_nat (length file) -> (length (b :: rest) <= fuel)%nat ->
  let head := ranges_header (get_mime (file_name x)) (path_filename (file_name x)) (to_string (Z.of_nat (length file))) in
  async_send answers head = Sent answers' ->
  exists c, handle static_env fuel (arrivals (b :: rest) ++ q) answers [] accepted = (Returned, c, [head]).
Proof.
  intros Hlarge Hfuel head Hsend. destruct static_handled as (c & Hd & Ha).
  pose proof (large_file_header offset now open_ after x file c Hd Hopen Hlarge) as Hr. fold head in Hr.
  pose proof (answered_loop _ _ _ _ Ha fuel q answers [] Hfuel) as E. rewrite Hr in E. eexists. by rewrite E, Hsend.
Qed.
End served_files.

(** ** Samples *)

Module Samples.
Definition get_file : message :=
  mk_message (bs "GET") (bs "/a%20b.html") None 1 [(bs "Host", bs " ", bs "x")] None [].
Definition disk (file : bytes) (name : bytes) : option bytes :=
  if bool_decide (name = bs "www/a b.html") then Some file else None.
Definition base : @http_server file_state := mk_server Router.new_router ∅ None None [] [].
Definition server (file : bytes) : @http_server file_state :=
  default base (set_static_res_handler (fun _ => 0) 0 (disk file) None [] base).
Definition no_order (m : gmap bytes (Router.invoker_function (@business file_state))) : list (bytes * Router.invoker_function (@business file_state)) := [].
Definition get_burst : burst := (71, tail (msg_head get_file)).
Definition env (file : bytes) : environment file_state :=
  static_env (fun _ => 0) 0 no_order (server file) (fun _ c => c) (fun _ => true) (fun _ => 0) [] [] [].
Definition start : conn := accepted [] Upload.empty_fs ct_none 0.
Definition large : bytes := replicate (Z.to_nat (6 * MB)) 0.
End Samples.

Lemma static_file_served_witness :
  exists c c', delivered Samples.get_file no_file c /\
    answered (Samples.env (bs "<p>hello</p>")) [Samples.get_burst] Samples.start c' /\
    exists r0, status_ r0 = st_ok /\ content_ r0 = bs "<p>hello</p>" /\
      Response.headers_ r0 = Response.headers_ (res_ c) ++
        [(bs "Access-Control-Allow-origin", bs "*");
         (bs "Content-type", get_mime (file_name Samples.get_file) ++ bs "; charset=utf8")] /\
      response_str (res_ c') = rep_str_ (build_response_str (fun _ => 0) 0 r0).
Proof.
  apply (static_file_served (fun _ => 0) 0 Samples.no_order (Samples.disk (bs "<p>hello</p>")) [] Samples.base
           (Samples.server (bs "<p>hello</p>")) GET Samples.get_file).
  - reflexivity.
  - constructor.
  - reflexivity.
  - exists 6%nat. reflexivity.
  - split; [by right|reflexivity].
  - split; [check_bool|split; [check_bool|reflexivity]].
  - vm_compute; reflexivity.
  - check_bool.
  - vm_compute; lia.
  - reflexivity.
  - vm_compute; reflexivity.
  - vm_compute; discriminate.
  - reflexivity.
Defined.

Lemma large_file_not_sent_witness :
  let head := ranges_header (bs "text/html") (bs "a b.html") (bs "6291456") in
  exists c, handle (Samples.env Samples.large) 1 (arrivals [Samples.get_burst]) [Took 4096] [] Samples.start = (Returned, c, [head]).
Proof.
  cbv zeta. assert (Hlen : Z.of_nat (length Samples.large) = 6 * MB).
  { unfold Samples.large. rewrite length_replicate, Z2Nat.id; [done|unfold MB; lia]. }
  revert Hlen. generalize Samples.large. intros file Hlen.
  assert (Hhead : ranges_header (get_mime (file_name Samples.get_file)) (path_filename (file_name Samples.get_file))
            (to_string (Z.of_nat (length file))) = ranges_header (bs "text/html") (bs "a b.html") (bs "6291456")).
  { rewrite Hlen. vm_compute. reflexivity. }
  rewrite <- Hhead.
  apply (large_file_not_sent (fun _ => 0) 0 Samples.no_order (Samples.disk file) [] Samples.base
           (Samples.server file) GET Samples.get_file _ _ _ [] [] [] Samples.get_burst [] [] Upload.empty_fs ct_none 0 file)
    with (q := []) (answers' := []).
  - reflexivity.
  - constructor.
  - reflexivity.
  - exists 6%nat. reflexivity.
  - split; [by right|reflexivity].
  - split; [check_bool|split; [check_bool|reflexivity]].
  - vm_compute; reflexivity.
  - check_bool.
  - vm_compute; lia.
  - reflexivity.
  - reflexivity.
  - rewrite Hlen. reflexivity.
  - done.
  - rewrite Hhead. vm_compute. reflexivity.
Defined.

(** the decoded path is used as it is: it may lead out of the directory *)
Lemma path_leads_out :
  file_name (mk_message (bs "GET") (bs "/../key.pem") None 1 [] None []) = bs "www/../key.pem".
Proof. vm_compute. reflexivity. Qed.
