(* ===== verification/ListQueue.v ===== *)
(** * The intrusive queue

    include/netcore/basic.hpp: Queue, a singly linked list through the m_next
    members of nodes that belong to its users (tasks of the event loop, waiting
    accepts).  The memory of the nodes is a finite map from addresses to m_next;
    touching a node that is not in it, or a null pointer, is undefined ([None]).
    The queue refines a list of addresses: [is_queue]. *)

From Stdlib Require Import ZArith Lia.
From stdpp Require Import base numbers list gmap.
From S2P Require Import Prelude CStd.
Local Open Scope Z_scope.

Notation addr := positive (only parsing).
Notation ptr := (option positive) (only parsing).
Notation nodes := (gmap positive (option positive)).

Record Queue := mk_queue { before_head : ptr; m_tail : ptr; queue_size : Z }.

Definition empty_queue : Queue := mk_queue None None 0.

(** ** Operations *)

(** m_tail is null in an empty queue: the node is then hung on m_before_head *)
Definition push (node : addr) (m : nodes) (q : Queue) : option (nodes * Queue) :=
  _ ← m !! node;
  let m := <[node := None]> m in
  let size := to_int32 (queue_size q + 1) in
  match m_tail q with
  | None => Some (m, mk_queue (Some node) (Some node) size)
  | Some tail => _ ← m !! tail; Some (<[tail := Some node]> m, mk_queue (before_head q) (Some node) size)
  end.

Definition pop (m : nodes) (q : Queue) : option (ptr * Queue) :=
  match before_head q with
  | None => Some (None, q)
  | Some head =>
      new_head ← m !! head;
      Some (Some head, mk_queue new_head (match new_head with None => None | _ => m_tail q end)
                                (to_int32 (queue_size q - 1)))
  end.

(** pop_nocheck reads the head without asking whether there is one, and says
    whether the queue is empty afterwards *)
Definition pop_nocheck (m : nodes) (q : Queue) : option (ptr * bool * Queue) :=
  head ← before_head q;
  new_head ← m !! head;
  Some (Some head, bool_decide (new_head = None),
        mk_queue new_head (match new_head with None => None | _ => m_tail q end) (to_int32 (queue_size q - 1))).

(** clear does not touch queue_size *)
Definition clear (q : Queue) : Queue := mk_queue None None (queue_size q).

(** count follows the pointers; the fuel is the number of nodes in memory *)
Fixpoint count_from (fuel : nat) (m : nodes) (h : ptr) : option nat :=
  match h with
  | None => Some 0%nat
  | Some x =>
      match fuel with
      | O => None
      | S fuel => next ← m !! x; n ← count_from fuel m next; Some (S n)
      end
  end.
Definition count (m : nodes) (q : Queue) : option nat := count_from (size m) m (before_head q).

(** ** The list a queue stands for *)

Fixpoint chain (m : nodes) (p : ptr) (l : list addr) : Prop :=
  match l with
  | [] => p = None
  | x :: l => p = Some x /\ exists next, m !! x = Some next /\ chain m next l
  end.

Definition is_queue (m : nodes) (q : Queue) (l : list addr) : Prop :=
  chain m (before_head q) l /\ m_tail q = last l /\ queue_size q = to_int32 (Z.of_nat (length l)).

Lemma to_int32_idem_add a b : to_int32 (to_int32 a + b) = to_int32 (a + b).
Proof.
  unfold to_int32. f_equal.
  replace ((a + 2 ^ 31) mod 2 ^ 32 - 2 ^ 31 + b + 2 ^ 31) with ((a + 2 ^ 31) mod 2 ^ 32 + b) by lia.
  rewrite Zplus_mod_idemp_l. f_equal. lia.
Qed.

(** ** Chains *)

Lemma chain_det m p l l' : chain m p l -> chain m p l' -> l = l'.
Proof.
  revert p l'; induction l as [|x l IH]; intros p [|y l']; simpl.
  - done.
  - intros -> [? _]; done.
  - intros [-> _] ?; done.
  - intros (-> & n & Hn & Hl) (Hy & n' & Hn' & Hl'); simplify_eq. f_equal; eauto.
Qed.

Lemma chain_app_inv m p l1 l2 : chain m p (l1 ++ l2) -> exists p', chain m p' l2.
Proof.
  revert p; induction l1 as [|x l1 IH]; intros p; simpl; [eauto|].
  intros (_ & n & _ & H); eauto.
Qed.

Lemma chain_nodup m p l : chain m p l -> NoDup l.
Proof.
  revert p; induction l as [|x l IH]; intros p H; [constructor|].
  constructor; [|destruct H as (_ & n & _ & H); eauto].
  intros (l1 & l2 & E)%list_elem_of_split.
  destruct H as (_ & n & Hx & Hl).
  assert (H2 : chain m (Some x) (x :: l2)).
  { rewrite E in Hl. destruct (chain_app_inv _ _ _ _ Hl) as [p' H']. destruct H' as [-> H'].
    split; [done|exact H']. }
  assert (H1 : chain m (Some x) (x :: l)) by (simpl; eauto).
  pose proof (chain_det _ _ _ _ H1 H2) as El. apply (f_equal length) in El. rewrite E in El.
  simpl in El. rewrite length_app in El. simpl in El. lia.
Qed.

Lemma chain_in m p l x : chain m p l -> x ∈ l -> is_Some (m !! x).
Proof.
  revert p; induction l as [|y l IH]; intros p H Hx; [by apply elem_of_nil in Hx|].
  destruct H as (_ & n & Hn & H). apply elem_of_cons in Hx as [->|Hx]; eauto.
Qed.

Lemma chain_frame m m' p l : (forall x, x ∈ l -> m' !! x = m !! x) -> chain m p l -> chain m' p l.
Proof.
  revert p; induction l as [|y l IH]; intros p E H; [done|].
  destruct H as (-> & n & Hn & H). split; [done|].
  exists n; split; [rewrite E; [done|apply elem_of_cons; auto]|].
  apply IH; [|done]. intros x Hx; apply E, elem_of_cons; auto.
Qed.

(** linking a node behind the last one *)
Lemma chain_snoc m p l t x :
  chain m p (l ++ [t]) -> x ∉ l ++ [t] -> m !! x = Some None ->
  chain (<[t := Some x]> m) p (l ++ [t; x]).
Proof.
  revert p; induction l as [|y l IH]; intros p H Hx Ex.
  - destruct H as (-> & n & Hn & H). assert (t <> x) by (intros ->; apply Hx; apply list_elem_of_here).
    split; [done|]. exists (Some x). rewrite lookup_insert_eq. split; [done|].
    split; [done|]. exists None. rewrite lookup_insert_ne by done. done.
  - pose proof (chain_nodup _ _ _ H) as ND. destruct H as (-> & n & Hn & H). split; [done|].
    exists n. split.
    + rewrite lookup_insert_ne; [done|]. intros ->. simpl in ND. apply NoDup_cons in ND as [ND _].
      apply ND, elem_of_app; right; apply list_elem_of_here.
    + apply IH; [done| |done]. intros Hin; apply Hx; simpl. apply elem_of_cons; auto.
Qed.

Lemma chain_length m p l : chain m p l -> (length l <= size m)%nat.
Proof.
  intros H. pose proof (chain_nodup _ _ _ H) as ND.
  rewrite <- size_dom, <- (size_list_to_set (C := gset positive) l ND).
  apply subseteq_size. intros x. rewrite elem_of_list_to_set. intros Hx.
  apply elem_of_dom. eauto using chain_in.
Qed.

(** ** Refinement *)

Lemma empty_is_queue m : is_queue m empty_queue [].
Proof. done. Qed.

Lemma is_queue_nodup m q l : is_queue m q l -> NoDup l.
Proof. intros (H & _); eauto using chain_nodup. Qed.
Lemma is_queue_in m q l x : is_queue m q l -> x ∈ l -> is_Some (m !! x).
Proof. intros (H & _); eauto using chain_in. Qed.
Lemma is_queue_frame m m' q l : (forall x, x ∈ l -> m' !! x = m !! x) -> is_queue m q l -> is_queue m' q l.
Proof. intros E (H & ? & ?); split; [eauto using chain_frame|done]. Qed.

(** push hangs a node that is not in the queue behind all others, and writes to
    no node outside the queue but that one *)
Lemma push_queue m q l x :
  is_queue m q l -> is_Some (m !! x) -> x ∉ l ->
  exists m' q', push x m q = Some (m', q') /\ is_queue m' q' (l ++ [x]) /\ dom m' = dom m /\
    forall y, y ∉ l -> y <> x -> m' !! y = m !! y.
Proof.
  intros (Hc & Ht & Hs) [v Hv] Hx. unfold push. rewrite Hv; simpl.
  destruct l as [|t l] using rev_ind.
  - simpl in Ht; rewrite Ht. do 2 eexists; split; [done|]. split; [split; [|split]|split].
    + simpl. split; [done|]. exists None. rewrite lookup_insert_eq; done.
    + done.
    + simpl. rewrite Hs, to_int32_idem_add. f_equal.
    + rewrite dom_insert_lookup_L by eauto. done.
    + intros y _ Hy. apply lookup_insert_ne; congruence.
  - clear IHl. rewrite last_snoc in Ht. rewrite Ht.
    assert (Htx : t <> x) by (intros ->; apply Hx, elem_of_app; right; apply list_elem_of_here).
    destruct (chain_in _ _ _ t Hc) as [n Hn]; [apply elem_of_app; right; apply list_elem_of_here|].
    rewrite lookup_insert_ne by congruence. rewrite Hn; simpl.
    do 2 eexists; split; [done|]. split; [split; [|split]|split].
    + simpl. rewrite <- app_assoc; simpl. apply chain_snoc; [|done|apply lookup_insert_eq].
      eapply chain_frame; [|exact Hc]. intros y Hy. apply lookup_insert_ne. intros ->; done.
    + simpl. by rewrite last_snoc.
    + simpl. rewrite Hs, to_int32_idem_add. f_equal. rewrite (length_app (l ++ [t])); simpl; lia.
    + rewrite !dom_insert_lookup_L; [done|eauto|]. rewrite lookup_insert_ne by congruence. eauto.
    + intros y Hy Hyx. rewrite lookup_insert_ne.
      * apply lookup_insert_ne; congruence.
      * intros ->. apply Hy, elem_of_app; right; apply list_elem_of_here.
Qed.

Lemma pop_queue_cons m q x l :
  is_queue m q (x :: l) -> exists q', pop m q = Some (Some x, q') /\ is_queue m q' l.
Proof.
  intros ((Hp & n & Hn & Hc) & Ht & Hs). unfold pop. rewrite Hp, Hn; simpl.
  eexists; split; [done|]. split; [done|]. split; simpl.
  - destruct l as [|y l]; simpl in Hc; [by rewrite Hc|]. destruct Hc as [-> _]. exact Ht.
  - rewrite Hs. unfold Z.sub at 1. rewrite to_int32_idem_add. f_equal. simpl; lia.
Qed.

Lemma pop_queue_nil m q : is_queue m q [] -> pop m q = Some (None, q).
Proof. intros (Hp & _). unfold pop. by rewrite Hp. Qed.

Lemma pop_nocheck_pop m q :
  pop_nocheck m q = '(p, q') ← pop m q; x ← p; Some (Some x, bool_decide (before_head q' = None), q').
Proof. unfold pop_nocheck, pop. destruct (before_head q) as [h|]; [|done]. simpl. by destruct (m !! h). Qed.

Lemma count_from_chain m p l fuel : chain m p l -> (length l <= fuel)%nat -> count_from fuel m p = Some (length l).
Proof.
  revert p fuel; induction l as [|x l IH]; intros p fuel H Hf.
  - rewrite H. by destruct fuel.
  - destruct H as (-> & n & Hn & H). destruct fuel as [|fuel]; simpl in *; [lia|].
    rewrite Hn; simpl. rewrite (IH _ _ H) by lia. done.
Qed.

Lemma count_queue m q l : is_queue m q l -> count m q = Some (length l).
Proof. intros (H & _). apply count_from_chain; [done|]. eauto using chain_length. Qed.

(** ** Any sequence of operations *)

Inductive queue_op := Push (x : addr) | Pop | Count.
Inductive queue_answer := Pushed | Popped (p : ptr) | Counted (n : nat).

Fixpoint run_queue (ops : list queue_op) (m : nodes) (q : Queue) : option (list queue_answer * nodes * Queue) :=
  match ops with
  | [] => Some ([], m, q)
  | op :: ops =>
      '(a, m, q) ← match op with
                   | Push x => '(m, q) ← push x m q; Some (Pushed, m, q)
                   | Pop => '(p, q) ← pop m q; Some (Popped p, m, q)
                   | Count => n ← count m q; Some (Counted n, m, q)
                   end;
      '(rest, m, q) ← run_queue ops m q;
      Some (a :: rest, m, q)
  end.

(** the same on a list: a node may be pushed when it is allocated and not in the queue *)
Fixpoint run_list (D : gset addr) (ops : list queue_op) (l : list addr) : option (list queue_answer * list addr) :=
  match ops with
  | [] => Some ([], l)
  | op :: ops =>
      '(a, l) ← match op with
                | Push x => if bool_decide (x ∈ D /\ x ∉ l) then Some (Pushed, l ++ [x]) else None
                | Pop => Some (Popped (head l), tail l)
                | Count => Some (Counted (length l), l)
                end;
      '(rest, l) ← run_list D ops l;
      Some (a :: rest, l)
  end.

Lemma run_queue_refines ops m q l answers l' :
  is_queue m q l -> run_list (dom m) ops l = Some (answers, l') ->
  exists m' q', run_queue ops m q = Some (answers, m', q') /\ is_queue m' q' l'.
Proof.
  revert m q l answers; induction ops as [|op ops IH]; intros m q l answers Hq Hr.
  - simpl in *; simplify_eq. eauto.
  - destruct op as [x| |]; cbn [run_list run_queue] in *.
    + case_bool_decide as Hx; [|done]. destruct Hx as [Hd Hx]. apply elem_of_dom in Hd.
      destruct (push_queue m q l x) as (m1 & q1 & E & Hq1 & Hd1 & _); [done..|].
      rewrite E. simpl in Hr |- *. rewrite <- Hd1 in Hr.
      destruct (run_list (dom m1) ops (l ++ [x])) as [[rest l1]|] eqn:Er; [|done]. simpl in Hr; simplify_eq.
      destruct (IH m1 q1 _ _ Hq1 Er) as (m' & q' & E' & Hq'). rewrite E'; simpl. eauto.
    + destruct l as [|x l].
      * rewrite (pop_queue_nil _ _ Hq). simpl in Hr |- *.
        destruct (run_list (dom m) ops []) as [[rest l1]|] eqn:Er; [|done]. simpl in Hr; simplify_eq.
        destruct (IH m q _ _ Hq Er) as (m' & q' & E' & Hq'). rewrite E'; simpl. eauto.
      * destruct (pop_queue_cons _ _ _ _ Hq) as (q1 & E & Hq1). rewrite E. simpl in Hr |- *.
        destruct (run_list (dom m) ops l) as [[rest l1]|] eqn:Er; [|done]. simpl in Hr; simplify_eq.
        destruct (IH m q1 _ _ Hq1 Er) as (m' & q' & E' & Hq'). rewrite E'; simpl. eauto.
    + rewrite (count_queue _ _ _ Hq). simpl in Hr |- *.
      destruct (run_list (dom m) ops l) as [[rest l1]|] eqn:Er; [|done]. simpl in Hr; simplify_eq.
      destruct (IH m q _ _ Hq Er) as (m' & q' & E' & Hq'). rewrite E'; simpl. eauto.
Qed.

(** Any sequence of push, pop and count on an empty queue whose nodes are
    allocated answers as a list does, provided that no node is pushed while it
    is still in the queue (run_list says which sequences these are): no null or
    dangling pointer is followed, nodes come out in the order they went in, and
    what is left is the list's rest. *)
Theorem queue_refines_list ops (m : nodes) answers l' :
  run_list (dom m) ops [] = Some (answers, l') ->
  exists m' q', run_queue ops m empty_queue = Some (answers, m', q') /\ is_queue m' q' l'.
Proof. apply run_queue_refines, empty_is_queue. Qed.

Lemma queue_refines_list_witness :
  let m : nodes := {[1%positive := Some 3%positive; 2%positive := None]} in
  let ops := [Push 2; Push 1; Count; Pop; Push 2; Pop; Pop; Pop]%positive in
  let answers := [Pushed; Pushed; Counted 2; Popped (Some 2); Pushed; Popped (Some 1); Popped (Some 2); Popped None]%positive in
  run_list (dom m) ops [] = Some (answers, []) /\
  exists m' q', run_queue ops m empty_queue = Some (answers, m', q') /\ is_queue m' q' [].
Proof.
  split; [vm_compute; reflexivity|]. apply queue_refines_list. vm_compute; reflexivity.
Defined.

(** a node that is pushed while it is in the queue cuts off what was behind it:
    of the three nodes that should be there, one is left, and 2 is lost *)
Lemma push_twice_cuts :
  let m : nodes := {[1%positive := None; 2%positive := None]} in
  option_map (fun r => r.1.1) (run_queue [Push 1; Push 2; Push 1; Count; Pop; Pop]%positive m empty_queue) =
    Some [Pushed; Pushed; Pushed; Counted 1; Popped (Some 1%positive); Popped None].
Proof. vm_compute. reflexivity. Qed.
