(* ===== verification/EventLoop.v ===== *)
(** * The event loop

    include/netcore/core.hpp: PostTask and the pass over the task queue at the
    head of IoContext::run ([task_pass]); the awaiters of reads and writes, whose
    constructor posts a task that looks for the timeout (check_deley), whose
    destructor marks that task as done.  Addresses are positive numbers, given
    out by an allocator; a freed or null pointer that is used is undefined
    ([None]).  The clock is the sequence of its readings.  What a coroutine does
    when it is resumed is known as far as it concerns the queue: it leaves
    await_resume, so that its awaiter is destroyed, and awaits whatever [script]
    says, here or there without being suspended.  What epoll_wait answers is given round
    by round: the flags of an event and its connection, whose read and send awaiters
    are looked up as ConnCallBack::on_callback does; what it does with the bytes is in
    RawConn.v. *)

From Stdlib Require Import ZArith Lia.
From stdpp Require Import base numbers list gmap fin_maps.
From S2P Require Import Prelude CStd ListQueue.
Local Open Scope Z_scope.

(** ** Tasks and awaiters *)

Inductive callback := check_deley_callback.

Record PostTask := mk_task { m_callback : option callback; m_ref_count : Z; m_awaiter_ptr : ptr }.

Definition invalid (t : PostTask) : bool :=
  match m_callback t with None => true | Some _ => m_ref_count t <=? 0 end.

(** a read or write that is awaited, with the task its constructor made *)
Record awaiter := mk_awaiter { m_conn : addr; m_writes : bool; m_end_time : Z; m_post_ptr : addr }.

(** what a resumed coroutine awaits next: a read or a write on a connection, the seconds,
    and whether await_suspend has it go on at once *)
Record await := mk_await { on_conn : addr; writes : bool; time_ : Z; at_once : bool }.

Record IoContext := mk_ctx {
  task_nodes : nodes;
  m_task_queue : Queue;
  tasks : gmap addr PostTask;
  awaiters : gmap addr awaiter;
  conn_awaiter : gmap (addr * bool) addr;  (** of a connection, m_read_awaiter (false) and m_send_awaiter (true); null if absent *)
  m_except : gset addr;          (** connections that hold an IoTimeOut *)
  readings : nat;                (** how often the clock was read *)
  resumed : list addr            (** awaiters whose coroutine was woken by a timeout *)
}.

Section IoContext.
Variable clock : nat -> Z.
Variable alloc_task alloc_awaiter : gset addr -> addr.
Variable script : IoContext -> addr -> list await.

Definition put_queue (m : nodes) (q : Queue) (w : IoContext) : IoContext :=
  mk_ctx m q (tasks w) (awaiters w) (conn_awaiter w) (m_except w) (readings w) (resumed w).

Definition post_task (p : addr) (w : IoContext) : option IoContext :=
  '(m, q) ← push p (task_nodes w) (m_task_queue w);
  Some (put_queue m q w).

(** the constructor of an awaiter, and await_suspend, which the connection learns of it by *)
Definition new_awaiter (a : await) (w : IoContext) : option IoContext :=
  let end_time := clock (readings w) + time_ a in
  let p := alloc_task (dom (tasks w)) in
  let i := alloc_awaiter (dom (awaiters w)) in
  post_task p (mk_ctx (<[p := None]> (task_nodes w)) (m_task_queue w)
                      (<[p := mk_task (Some check_deley_callback) 1 (Some i)]> (tasks w))
                      (<[i := mk_awaiter (on_conn a) (writes a) end_time p]> (awaiters w))
                      (<[(on_conn a, writes a) := i]> (conn_awaiter w))
                      (m_except w) (S (readings w)) (resumed w)).

(** await_resume and the destructor *)
Definition destroy_awaiter (i : addr) (w : IoContext) : option IoContext :=
  a ← awaiters w !! i;
  t ← tasks w !! m_post_ptr a;
  Some (mk_ctx (task_nodes w) (m_task_queue w)
               (<[m_post_ptr a := mk_task (m_callback t) 0 (m_awaiter_ptr t)]> (tasks w))
               (delete i (awaiters w)) (delete (m_conn a, m_writes a) (conn_awaiter w)) (m_except w) (readings w) (resumed w)).

Fixpoint await_all (l : list await) (w : IoContext) : option IoContext :=
  match l with
  | [] => Some w
  | a :: l =>
      let i := alloc_awaiter (dom (awaiters w)) in
      w ← new_awaiter a w;
      w ← (if at_once a then destroy_awaiter i w else Some w);
      await_all l w
  end.

(** the handle of an awaiter that has timed out is resumed *)
Definition resume (i : addr) (w : IoContext) : option IoContext :=
  let w := mk_ctx (task_nodes w) (m_task_queue w) (tasks w) (awaiters w) (conn_awaiter w) (m_except w) (readings w) (resumed w ++ [i]) in
  let next := script w i in
  w ← destroy_awaiter i w;
  await_all next w.

Definition expired (a : awaiter) (w : IoContext) : bool := m_end_time a <? clock (readings w).

Definition delete_task (p : addr) (w : IoContext) : IoContext :=
  mk_ctx (delete p (task_nodes w)) (m_task_queue w) (delete p (tasks w)) (awaiters w) (conn_awaiter w) (m_except w) (readings w) (resumed w).

(** the answer of [expired] takes a reading of the clock *)
Definition check_deley (p : addr) (w : IoContext) : option IoContext :=
  t ← tasks w !! p;
  if invalid t then Some (delete_task p w)
  else
    i ← m_awaiter_ptr t;
    a ← awaiters w !! i;
    let late := expired a w in
    let w := mk_ctx (task_nodes w) (m_task_queue w) (tasks w) (awaiters w) (conn_awaiter w)
                    (if late then {[m_conn a]} ∪ m_except w else m_except w) (S (readings w)) (resumed w) in
    if late then resume i w else post_task p w.

Definition call (p : addr) (w : IoContext) : option IoContext :=
  t ← tasks w !! p;
  match m_callback t with
  | None => Some w
  | Some check_deley_callback => check_deley p w
  end.

(** ** The pass over the tasks *)

Definition pop_task (w : IoContext) : option (ptr * IoContext) :=
  '(p, q) ← pop (task_nodes w) (m_task_queue w);
  Some (p, put_queue (task_nodes w) q w).

(** for( ; node_ptr != end ; node_ptr = pop()) call; a null node is not asked for *)
Fixpoint drain (fuel : nat) (end_ node_ptr : ptr) (w : IoContext) : option IoContext :=
  if bool_decide (node_ptr = end_) then Some w
  else
    match fuel with
    | O => None
    | S fuel =>
        p ← node_ptr;
        w ← call p w;
        '(node_ptr, w) ← pop_task w;
        drain fuel end_ node_ptr w
    end.

(** the tail of the queue is read first, and called last *)
Definition task_pass (w : IoContext) : option IoContext :=
  let end_ := m_tail (m_task_queue w) in
  '(node_ptr, w') ← pop_task w;
  w' ← drain (size (task_nodes w)) end_ node_ptr w';
  match end_ with
  | Some p => call p w'
  | None => Some w'
  end.

(** what the pass comes to: the given tasks, each popped and called once *)
Fixpoint call_each (l : list addr) (w : IoContext) : option IoContext :=
  match l with
  | [] => Some w
  | p :: l => '(_, w) ← pop_task w; w ← call p w; call_each l w
  end.

(** ** What epoll brings *)

(** the callback resumes the coroutine of an awaiter that has what it waits for; the
    task of the awaiter stays in the queue, marked as done *)
Definition complete (i : addr) (w : IoContext) : option IoContext :=
  let next := script w i in
  w ← destroy_awaiter i w;
  await_all next w.

(** an event of a connection (and whether ::send, if it is called, leaves nothing of what
    is being sent), or one of the listening socket, with what the coroutines await
    that begin with the connections accepted *)
Inductive epoll_event :=
| Connection_event (conn : addr) (epollin epollout finised : bool)
| Acceptor_event (begun : list await).

(** ConnCallBack::on_callback: both awaiters are read first; EPOLLIN goes to the read
    awaiter, null or not; EPOLLOUT to the send awaiter that was read, if there is one now.  A
    coroutine that awaits nothing more has ended, and its connection is freed *)
Definition callback_event (e : epoll_event) (w : IoContext) : option IoContext :=
  match e with
  | Connection_event conn epollin epollout finised =>
      let recv_awaiter := conn_awaiter w !! (conn, false) in
      let send_awaiter := conn_awaiter w !! (conn, true) in
      '(w, freed) ← (if (epollin : bool)
                     then i ← recv_awaiter; w' ← complete i w; Some (w', bool_decide (script w i = []))
                     else Some (w, false));
      if (epollout : bool) then
        if (freed : bool) then None
        else
          match conn_awaiter w !! (conn, true) with
          | None => Some w
          | Some _ => i ← send_awaiter; if (finised : bool) then complete i w else Some w
          end
      else Some w
  | Acceptor_event begun => await_all begun w
  end.

Definition maxevents : nat := 5.
Fixpoint callbacks (es : list epoll_event) (w : IoContext) : option IoContext :=
  match es with
  | [] => Some w
  | e :: es => w ← callback_event e w; callbacks es w
  end.

(** IoContext::run, for as many rounds as epoll_wait has answers: a pass over the tasks,
    then the events, at most maxevents of them *)
Fixpoint run (answers : list (list epoll_event)) (w : IoContext) : option IoContext :=
  match answers with
  | [] => Some w
  | es :: answers => w ← task_pass w; w ← callbacks (take maxevents es) w; run answers w
  end.


(** ** Well-formed contexts

    [cur] are tasks that have been popped and are being called, [l] those in the
    queue.  Every task in them is marked as done or belongs to an awaiter that
    exists and points back at it; the task of every awaiter is among them; and the
    awaiters that the connections point at exist. *)

Definition task_ok (w : IoContext) (p : addr) : Prop :=
  exists t, tasks w !! p = Some t /\ m_callback t = Some check_deley_callback /\
    (m_ref_count t = 0 \/
     (m_ref_count t = 1 /\ exists i a, m_awaiter_ptr t = Some i /\ awaiters w !! i = Some a /\ m_post_ptr a = p)).

Definition awaiter_ok (w : IoContext) (held : list addr) (i : addr) (a : awaiter) : Prop :=
  m_post_ptr a ∈ held /\
  exists t, tasks w !! m_post_ptr a = Some t /\ m_ref_count t = 1 /\ m_awaiter_ptr t = Some i.

Record ctx_inv (cur : list addr) (w : IoContext) (l : list addr) : Prop := mk_ctx_inv {
  inv_queue : is_queue (task_nodes w) (m_task_queue w) l;
  inv_dom : dom (task_nodes w) = dom (tasks w);
  inv_nodup : NoDup (cur ++ l);
  inv_tasks : forall p, p ∈ cur ++ l -> task_ok w p;
  inv_awaiters : forall i a, awaiters w !! i = Some a -> awaiter_ok w (cur ++ l) i a;
  inv_conns : forall k i, conn_awaiter w !! k = Some i ->
    exists a, awaiters w !! i = Some a /\ (m_conn a, m_writes a) = k
}.

(** the tasks that are neither queued nor being called: nothing frees them *)
Definition leaked (cur : list addr) (w : IoContext) (l : list addr) : Z :=
  Z.of_nat (size (tasks w)) - Z.of_nat (length cur) - Z.of_nat (length l).

(** ** One task *)

Hypothesis alloc_task_fresh : forall X, alloc_task X ∉ X.
Hypothesis alloc_awaiter_fresh : forall X, alloc_awaiter X ∉ X.

(** what calling a task does to those who wait *)
Record call_effect (p : addr) (w w' : IoContext) : Prop := mk_effect {
  eff_readings : (readings w <= readings w')%nat;
  eff_resumed : exists r, resumed w' = resumed w ++ r;
  eff_others : forall i a, awaiters w !! i = Some a -> m_post_ptr a <> p -> awaiters w' !! i = Some a;
  eff_late : forall i a, awaiters w !! i = Some a -> m_post_ptr a = p ->
    m_end_time a < clock (readings w) -> resumed w' = resumed w ++ [i];
  eff_early : forall i a, awaiters w !! i = Some a -> m_post_ptr a = p ->
    clock (readings w) <= m_end_time a -> awaiters w' !! i = Some a
}.

Lemma pop_task_inv w p l :
  ctx_inv [] w (p :: l) ->
  exists q, pop_task w = Some (Some p, put_queue (task_nodes w) q w) /\ ctx_inv [p] (put_queue (task_nodes w) q w) l.
Proof.
  intros [Hq Hd Hn Ht Ha Hc]. destruct (pop_queue_cons _ _ _ _ Hq) as (q & E & Hq').
  exists q. unfold pop_task. rewrite E. split; [done|]. by constructor.
Qed.

Lemma pop_task_nil w : ctx_inv [] w [] -> pop_task w = Some (None, w).
Proof. intros [Hq _ _ _ _ _]. unfold pop_task. rewrite (pop_queue_nil _ _ Hq). by destruct w. Qed.

(** putting a task back *)
Lemma post_task_inv w p l :
  ctx_inv [p] w l ->
  exists m q, post_task p w = Some (put_queue m q w) /\ ctx_inv [] (put_queue m q w) (l ++ [p]).
Proof.
  intros [Hq Hd Hn Ht Ha Hc]. simpl in Hn. apply NoDup_cons in Hn as [Hp Hn].
  assert (Hs : is_Some (task_nodes w !! p)).
  { apply elem_of_dom. rewrite Hd. apply elem_of_dom. destruct (Ht p) as (t & ? & _); [apply list_elem_of_here|eauto]. }
  destruct (push_queue _ _ _ _ Hq Hs Hp) as (m & q & E & Hq' & Hdm & _).
  assert (P : forall x, x ∈ [] ++ l ++ [p] <-> x ∈ [p] ++ l).
  { intros x. set_solver. }
  exists m, q. unfold post_task. rewrite E. split; [done|]. constructor; simpl.
  - done.
  - by rewrite Hdm.
  - apply NoDup_app. split; [done|]. split; [|apply NoDup_singleton].
    intros x Hx ->%list_elem_of_singleton. done.
  - intros x Hx. apply (Ht x), P, Hx.
  - intros i a Hi. destruct (Ha i a Hi) as [H1 H2]. split; [apply P, H1|done].
  - done.
Qed.

Lemma new_awaiter_inv w a l :
  ctx_inv [] w l ->
  exists w' p, new_awaiter a w = Some w' /\ ctx_inv [] w' (l ++ [p]) /\
    size (tasks w') = S (size (tasks w)) /\ readings w' = S (readings w) /\ resumed w' = resumed w /\
    (forall i b, awaiters w !! i = Some b -> awaiters w' !! i = Some b) /\
    let i := alloc_awaiter (dom (awaiters w)) in awaiters w !! i = None /\ is_Some (awaiters w' !! i).
Proof.
  intros [Hq Hd Hn Ht Ha Hc]. unfold new_awaiter.
  set (p := alloc_task (dom (tasks w))). set (i := alloc_awaiter (dom (awaiters w))).
  assert (Hp : tasks w !! p = None) by (apply not_elem_of_dom, alloc_task_fresh).
  assert (Hi : awaiters w !! i = None) by (apply not_elem_of_dom, alloc_awaiter_fresh).
  assert (Hpl : p ∉ l).
  { intros Hin. destruct (Ht p Hin) as (t & ? & _). congruence. }
  match goal with |- context [post_task p ?x] => set (w1 := x) end.
  assert (I1 : ctx_inv [p] w1 l).
  { constructor; simpl.
    - eapply is_queue_frame; [|exact Hq]. intros x Hx. apply lookup_insert_ne. intros <-; done.
    - rewrite !dom_insert_L. by rewrite Hd.
    - by constructor.
    - intros x [->|Hx]%elem_of_cons.
      + unfold task_ok; simpl. eexists. rewrite lookup_insert_eq. split; [done|]. split; [done|]. right. split; [done|].
        exists i. eexists. rewrite lookup_insert_eq. done.
      + destruct (Ht x Hx) as (t & Et & Ec & Er). unfold task_ok; simpl. exists t.
        rewrite lookup_insert_ne by congruence. split; [done|]. split; [done|].
        destruct Er as [Er|(Er & j & b & E1 & E2 & E3)]; [by left|right]. split; [done|].
        exists j, b. rewrite lookup_insert_ne by congruence. done.
    - intros j b Hj. destruct (decide (j = i)) as [->|Hji].
      + rewrite lookup_insert_eq in Hj; simplify_eq. split; simpl; [apply list_elem_of_here|].
        rewrite lookup_insert_eq. eexists; done.
      + rewrite lookup_insert_ne in Hj by congruence. destruct (Ha j b Hj) as [H1 (t & Et & H2)].
        split; [simpl; apply elem_of_cons; auto|]. exists t. simpl.
        rewrite lookup_insert_ne; [done|]. intros E. congruence.
    - intros k j Hk. destruct (decide (k = (on_conn a, writes a))) as [->|Hne].
      + rewrite lookup_insert_eq in Hk; simplify_eq. eexists. rewrite lookup_insert_eq. done.
      + rewrite lookup_insert_ne in Hk by congruence. destruct (Hc k j Hk) as (b & Hb & E).
        exists b. rewrite lookup_insert_ne by congruence. done. }
  destruct (post_task_inv _ _ _ I1) as (m & q & E & I2).
  exists (put_queue m q w1), p. split; [exact E|]. split; [exact I2|]. simpl.
  split; [rewrite map_size_insert_None by done; done|]. split; [done|]. split; [done|].
  split; [intros j b Hj; rewrite lookup_insert_ne; [done|congruence]|]. split; [done|].
  change (alloc_awaiter _) with i. rewrite lookup_insert_eq. by eexists.
Qed.

(** an awaiter goes, wherever its task is *)
Lemma destroy_awaiter_keeps w i a cur l :
  awaiters w !! i = Some a -> ctx_inv cur w l ->
  exists w', destroy_awaiter i w = Some w' /\ ctx_inv cur w' l /\ size (tasks w') = size (tasks w) /\
    readings w' = readings w /\ resumed w' = resumed w /\ awaiters w' = delete i (awaiters w).
Proof.
  intros Hi [Hq Hd Hn Ht Ha Hc]. destruct (Ha i a Hi) as [_ (t & Et & _ & Ep)].
  assert (Own : forall j b, awaiters w !! j = Some b -> j <> i -> m_post_ptr b <> m_post_ptr a).
  { intros j b Hj Hne E. destruct (Ha j b Hj) as [_ (t' & Et' & _ & Ep')]. congruence. }
  unfold destroy_awaiter. rewrite Hi; simpl. rewrite Et; simpl.
  eexists; split; [done|]. split; [|simpl; split; [by rewrite map_size_insert_Some by eauto|done]].
  constructor; simpl; try done.
  - rewrite Hd, dom_insert_lookup_L by eauto. done.
  - intros x Hx. destruct (Ht x Hx) as (t' & Et' & Ec & Er). unfold task_ok. simpl.
    destruct (decide (x = m_post_ptr a)) as [->|Hne].
    + rewrite lookup_insert_eq. eexists. split; [done|]. simplify_eq. split; [done|by left].
    + exists t'. rewrite lookup_insert_ne by done. split; [done|]. split; [done|].
      destruct Er as [Er|(Er & j & b & E1 & E2 & E3)]; [by left|right]. split; [done|].
      exists j, b. split; [done|]. split; [|done]. rewrite lookup_delete_ne; [done|]. intros <-. simplify_eq.
  - intros j b Hj. apply lookup_delete_Some in Hj as [Hne Hj].
    destruct (Ha j b Hj) as [H1 (t' & Et' & H2)]. split; [done|].
    exists t'. simpl. rewrite lookup_insert_ne; [done|]. intros E. by apply (Own j b Hj).
  - intros k j [Hne Hk]%lookup_delete_Some. destruct (Hc k j Hk) as (b & Hb & E).
    exists b. rewrite lookup_delete_ne; [done|]. intros <-. simplify_eq.
Qed.

Lemma await_all_inv l0 w l :
  ctx_inv [] w l ->
  exists w' new, await_all l0 w = Some w' /\ ctx_inv [] w' (l ++ new) /\
    leaked [] w' (l ++ new) = leaked [] w l /\ (readings w <= readings w')%nat /\ resumed w' = resumed w /\
    (forall i b, awaiters w !! i = Some b -> awaiters w' !! i = Some b).
Proof.
  revert w l; induction l0 as [|a l0 IH]; intros w l I.
  - exists w, []. rewrite app_nil_r. by split_and!.
  - destruct (new_awaiter_inv w a l I) as (w1 & p & E & I1 & Hs & Hr & Hres & Hf & Hnew & Hi).
    cbn [await_all]. cbv zeta. set (i := alloc_awaiter (dom (awaiters w))) in *. rewrite E. cbn [mbind option_bind].
    assert (exists w2, (if at_once a then destroy_awaiter i w1 else Some w1) = Some w2 /\ ctx_inv [] w2 (l ++ [p]) /\
      size (tasks w2) = size (tasks w1) /\ readings w2 = readings w1 /\ resumed w2 = resumed w1 /\
      (forall j b, awaiters w !! j = Some b -> awaiters w2 !! j = Some b)) as (w2 & E2 & I2 & Hs2 & Hr2 & Hres2 & Hf2).
    { destruct (at_once a); [|by exists w1]. destruct Hi as [b Hb].
      destruct (destroy_awaiter_keeps w1 i b [] _ Hb I1) as (w2 & E2 & I2 & S2 & R2 & Q2 & A2).
      exists w2. split_and!; try done. intros j c Hj. rewrite A2, lookup_delete_ne; [auto|congruence]. }
    rewrite E2. cbn [mbind option_bind].
    destruct (IH w2 _ I2) as (w3 & new & E3 & I3 & L3 & R3 & Q3 & F3).
    exists w3, (p :: new). rewrite <- app_assoc in I3, L3. simpl in I3, L3.
    split; [exact E3|]. split; [exact I3|]. split.
    { rewrite L3. unfold leaked. rewrite Hs2, Hs, length_app. simpl. lia. }
    split; [lia|]. split; [congruence|]. auto.
Qed.

(** a task that is being called and that nobody waits for may be forgotten *)
Lemma forget_current w p l :
  ctx_inv [p] w l -> (forall i a, awaiters w !! i = Some a -> m_post_ptr a <> p) -> ctx_inv [] w l.
Proof.
  intros [Hq Hd Hn Ht Ha Hc] Own. simpl in Hn. apply NoDup_cons in Hn as [_ Hn]. constructor; try done.
  - intros x Hx. apply Ht. by apply elem_of_cons; right.
  - intros i a Hi. destruct (Ha i a Hi) as [H1 H2]. split; [|done]. simpl in H1. apply elem_of_cons in H1 as [H1|H1]; [|done].
    by destruct (Own i a Hi).
Qed.

Lemma destroy_awaiter_inv w i a l :
  awaiters w !! i = Some a -> ctx_inv [m_post_ptr a] w l ->
  exists w', destroy_awaiter i w = Some w' /\ ctx_inv [] w' l /\ size (tasks w') = size (tasks w) /\
    readings w' = readings w /\ resumed w' = resumed w /\ awaiters w' = delete i (awaiters w).
Proof.
  intros Hi I. destruct (destroy_awaiter_keeps w i a _ l Hi I) as (w' & E & I' & E1 & E2 & E3 & E4).
  exists w'. split; [done|]. split; [|done]. apply (forget_current w' (m_post_ptr a)); [done|].
  intros j b Hj Ep. rewrite E4 in Hj. apply lookup_delete_Some in Hj as [Hne Hj].
  destruct (inv_awaiters _ _ _ I j b Hj) as [_ (t & Et & _ & Et2)].
  destruct (inv_awaiters _ _ _ I i a Hi) as [_ (t' & Et' & _ & Et2')]. rewrite Ep in Et. congruence.
Qed.

Lemma delete_task_inv w p l :
  ctx_inv [p] w l -> (forall i a, awaiters w !! i = Some a -> m_post_ptr a <> p) ->
  ctx_inv [] (delete_task p w) l /\ S (size (tasks (delete_task p w))) = size (tasks w).
Proof.
  intros [Hq Hd Hn Ht Ha Hc] Own. simpl in Hn. apply NoDup_cons in Hn as [Hp Hn].
  split.
  - constructor; simpl.
    + eapply is_queue_frame; [|exact Hq]. intros x Hx. apply lookup_delete_ne. intros ->; done.
    + rewrite !dom_delete_L. by rewrite Hd.
    + done.
    + intros x Hx. destruct (Ht x) as (t & Et & Hr); [apply elem_of_cons; auto|].
      exists t. simpl. rewrite lookup_delete_ne; [done|]. intros ->; done.
    + intros i a Hi. destruct (Ha i a Hi) as [H1 (t & Et & H2)]. pose proof (Own i a Hi).
      split; [simpl in H1; by apply elem_of_cons in H1 as [?|?]|].
      exists t. simpl. by rewrite lookup_delete_ne by congruence.
    + done.
  - destruct (Ht p) as (t & Et & _); [apply list_elem_of_here|]. simpl.
    rewrite map_size_delete_Some by eauto.
    assert (size (tasks w) <> 0%nat); [|lia]. intros E. apply map_size_empty_inv in E. rewrite E in Et. done.
Qed.

(** a reading of the clock and a note of the exception change nothing else *)
Lemma ctx_inv_same cur w l x n r :
  ctx_inv cur w l -> ctx_inv cur (mk_ctx (task_nodes w) (m_task_queue w) (tasks w) (awaiters w) (conn_awaiter w) x n r) l.
Proof. by intros [? ? ? ? ? ?]; constructor. Qed.

Definition timeouts (w w' : IoContext) : Z := Z.of_nat (length (resumed w')) - Z.of_nat (length (resumed w)).

(** a timeout: the awaiter goes, its task stays allocated outside the queue *)
Lemma resume_inv w i a l :
  awaiters w !! i = Some a -> ctx_inv [m_post_ptr a] w l ->
  exists w' new, resume i w = Some w' /\ ctx_inv [] w' (l ++ new) /\
    leaked [] w' (l ++ new) = leaked [m_post_ptr a] w l + 1 /\
    (readings w <= readings w')%nat /\ resumed w' = resumed w ++ [i] /\
    (forall j b, awaiters w !! j = Some b -> j <> i -> awaiters w' !! j = Some b).
Proof.
  intros Hi I. unfold resume.
  match goal with |- context [destroy_awaiter i ?x] => set (w1 := x) end.
  assert (I1 : ctx_inv [m_post_ptr a] w1 l) by (apply ctx_inv_same, I).
  destruct (destroy_awaiter_inv w1 i a l Hi I1) as (w2 & E2 & I2 & S2 & R2 & Q2 & A2).
  destruct (await_all_inv (script w1 i) w2 l I2) as (w3 & new & E3 & I3 & L3 & R3 & Q3 & F3).
  exists w3, new. rewrite E2; simpl. split; [exact E3|]. split; [exact I3|]. split.
  { rewrite L3. unfold leaked. rewrite S2. simpl. lia. }
  split; [rewrite R2 in R3; exact R3|]. split; [rewrite Q3, Q2; done|].
  intros j b Hj Hne. apply F3. rewrite A2, lookup_delete_ne; [exact Hj|congruence].
Qed.

Lemma call_inv w p l :
  ctx_inv [p] w l ->
  exists w' new, call p w = Some w' /\ ctx_inv [] w' (l ++ new) /\ call_effect p w w' /\
    leaked [] w' (l ++ new) = leaked [p] w l + timeouts w w'.
Proof.
  intros I. pose proof I as [Hq Hd Hn Ht Ha Hc].
  destruct (Ht p) as (t & Et & Ec & Er); [apply list_elem_of_here|].
  unfold call. rewrite Et; simpl. rewrite Ec. unfold check_deley. rewrite Et; simpl.
  unfold invalid. rewrite Ec. destruct Er as [Er|(Er & i & a & E1 & E2 & E3)]; rewrite Er; simpl.
  - assert (Own : forall i a, awaiters w !! i = Some a -> m_post_ptr a <> p).
    { intros i a Hi E. destruct (Ha i a Hi) as [_ (t' & Et' & Hr & _)]. subst p. simplify_eq. lia. }
    destruct (delete_task_inv w p l I Own) as [I' Hs].
    exists (delete_task p w), []. rewrite app_nil_r. split; [done|]. split; [exact I'|]. split.
    + constructor; simpl; [done|exists []; by rewrite app_nil_r|by eauto|..]; intros i a Hi E; by destruct (Own i a Hi).
    + unfold leaked, timeouts. rewrite <- Hs. simpl. lia.
  - rewrite E1; simpl. rewrite E2; simpl. unfold expired.
    assert (Uniq : forall j b, awaiters w !! j = Some b -> m_post_ptr b = p -> j = i).
    { intros j b Hj E. destruct (Ha j b Hj) as [_ (t' & Et' & _ & Ep)]. rewrite E in Et'. congruence. }
    destruct (m_end_time a <? clock (readings w)) eqn:El; [apply Z.ltb_lt in El|apply Z.ltb_ge in El].
    + match goal with |- context [resume i ?x] => set (w1 := x) end.
      assert (I1' : ctx_inv [m_post_ptr a] w1 l) by (rewrite E3; apply ctx_inv_same, I).
      destruct (resume_inv w1 i a l E2 I1') as (w2 & new & E & I2 & L2 & R2 & Q2 & F2).
      exists w2, new. split; [exact E|]. split; [exact I2|]. simpl in R2, Q2. split.
      * constructor.
        -- lia.
        -- eauto.
        -- intros j b Hj Hne. apply F2; [exact Hj|]. intros ->. congruence.
        -- intros j b Hj Hp _. by rewrite (Uniq j b Hj Hp).
        -- intros j b Hj Hp Hlt. pose proof (Uniq j b Hj Hp) as ->. simplify_eq. lia.
      * rewrite L2. unfold timeouts, leaked. rewrite Q2, length_app. simpl. lia.
    + match goal with |- context [post_task p ?x] => set (w1 := x) end.
      assert (I1 : ctx_inv [p] w1 l) by (apply ctx_inv_same, I).
      destruct (post_task_inv _ _ _ I1) as (m & q & E & I2).
      exists (put_queue m q w1), [p]. split; [exact E|]. split; [exact I2|]. split.
      * constructor; simpl; [lia|exists []; by rewrite app_nil_r|done|..].
        -- intros j b Hj Hp Hlt. pose proof (Uniq j b Hj Hp) as ->. simplify_eq. lia.
        -- done.
      * unfold leaked, timeouts. simpl. rewrite length_app. simpl. lia.
Qed.

(** ** The whole pass *)

Lemma call_each_inv l w rest :
  ctx_inv [] w (l ++ rest) ->
  exists w' new, call_each l w = Some w' /\ ctx_inv [] w' (rest ++ new) /\
    leaked [] w' (rest ++ new) = leaked [] w (l ++ rest) + timeouts w w' /\
    (readings w <= readings w')%nat /\ (exists r, resumed w' = resumed w ++ r) /\
    (forall i a, awaiters w !! i = Some a -> m_post_ptr a ∈ l ->
       (forall k, (readings w <= k)%nat -> m_end_time a < clock k) -> exists r1 r2, resumed w' = resumed w ++ r1 ++ i :: r2) /\
    (forall i a, awaiters w !! i = Some a ->
       (forall k, (readings w <= k)%nat -> clock k <= m_end_time a) -> awaiters w' !! i = Some a).
Proof.
  revert w rest; induction l as [|p l IH]; intros w rest I.
  - exists w, []. rewrite app_nil_r. simpl. split; [done|]. split; [done|]. split; [unfold timeouts; lia|].
    split; [lia|]. split; [exists []; by rewrite app_nil_r|]. split; [|done].
    intros i a _ H. by apply elem_of_nil in H.
  - simpl in I. destruct (pop_task_inv w p _ I) as (q & Ep & I1).
    destruct (call_inv _ _ _ I1) as (w2 & new & Ec & I2 & Eff & L2).
    rewrite <- app_assoc in I2, L2.
    destruct (IH w2 _ I2) as (w3 & new3 & E3 & I3 & L3 & R3 & (r3 & Q3) & Late & Early).
    rewrite <- app_assoc in I3, L3.
    destruct Eff as [R2 (r2 & Q2) Others Late2 Early2]. simpl in R2, Q2, Others, Late2, Early2.
    exists w3, (new ++ new3). cbn [call_each]. rewrite Ep; simpl. rewrite Ec; simpl.
    split; [exact E3|]. split; [exact I3|]. split.
    { rewrite L3, L2. unfold leaked, timeouts. simpl. rewrite Q3, Q2, !length_app. simpl. lia. }
    split; [lia|]. split; [exists (r2 ++ r3); by rewrite Q3, Q2, app_assoc|]. split.
    + intros i a Hi Hin Hlate. destruct (decide (m_post_ptr a = p)) as [Hp|Hp].
      * exists [], r3. rewrite Q3, (Late2 i a Hi Hp); [by rewrite <- app_assoc|]. apply Hlate; lia.
      * destruct (Late i a) as (s1 & s2 & E).
        -- by apply Others.
        -- apply elem_of_cons in Hin as [?|?]; done.
        -- intros k Hk; apply Hlate; lia.
        -- exists (r2 ++ s1), s2. by rewrite E, Q2, <- !app_assoc.
    + intros i a Hi Hearly. apply Early; [|intros k Hk; apply Hearly; lia].
      destruct (decide (m_post_ptr a = p)) as [Hp|Hp]; [|by apply Others].
      apply (Early2 i a Hi Hp), Hearly; lia.
Qed.

(** the loop stops at the task that was the last one when it began, however many
    are added meanwhile *)
Lemma drain_call_each l x w new fuel e :
  ctx_inv [x] w (l ++ new) -> (length l <= fuel)%nat -> last (x :: l) = Some e ->
  exists w1, drain fuel (Some e) (Some x) w = Some w1 /\ call e w1 = (w2 ← call x w; call_each l w2).
Proof.
  revert x w new fuel; induction l as [|y l IH]; intros x w new fuel I Hf He.
  - simpl in He; simplify_eq. exists w. destruct fuel; simpl; rewrite bool_decide_true by done; (split; [done|]);
      by destruct (call e w).
  - assert (Hne : x <> e).
    { intros ->. pose proof (inv_nodup _ _ _ I) as Hn. apply NoDup_cons in Hn as [Hn _]. apply Hn.
      rewrite last_cons_cons in He. apply elem_of_app; left. by apply last_Some_elem_of in He. }
    destruct fuel as [|fuel]; [simpl in Hf; lia|].
    destruct (call_inv _ _ _ I) as (w2 & new2 & E2 & I2 & _ & _). simpl in I2. rewrite <- app_assoc in I2.
    destruct (pop_task_inv _ _ _ I2) as (q & Ep & I3).
    destruct (IH y _ _ fuel I3) as (w4 & E4 & E5); [simpl in Hf; lia|by rewrite last_cons_cons in He|].
    exists w4. simpl. rewrite bool_decide_false by congruence. rewrite E2; simpl. rewrite Ep; simpl.
    split; [exact E4|exact E5].
Qed.

Lemma task_pass_calls_each w l : ctx_inv [] w l -> task_pass w = call_each l w.
Proof.
  intros I. unfold task_pass. pose proof (inv_queue _ _ _ I) as (Hc & Ht & _).
  destruct l as [|x l].
  - rewrite (pop_task_nil _ I), Ht; simpl. destruct (size (task_nodes w)); done.
  - destruct (pop_task_inv w x l I) as (q & E & I1). rewrite Ht, E; simpl (_ ≫= _).
    destruct (last (x :: l)) as [e|] eqn:He; [|by apply last_None in He].
    pose proof (chain_length _ _ _ Hc) as Hlen. simpl in Hlen.
    destruct (drain_call_each l x (put_queue (task_nodes w) q w) [] (size (task_nodes w)) e) as (w1 & E1 & E2).
    + by rewrite app_nil_r.
    + lia.
    + done.
    + rewrite E1; simpl (_ ≫= _). rewrite E2. cbn [call_each]. by rewrite E.
Qed.











(** What is asked is needed: EPOLLIN for a connection whose coroutine does not wait in a
    read uses a null pointer, and EPOLLOUT in the event in which a coroutine ends reads
    its freed connection. *)
Lemma unawaited_event_undefined conn epollout finised w :
  conn_awaiter w !! (conn, false) = None -> callback_event (Connection_event conn true epollout finised) w = None.
Proof. intros H. cbn [callback_event]. by rewrite H. Qed.
Lemma end_in_event_freed conn finised i w :
  conn_awaiter w !! (conn, false) = Some i -> script w i = [] ->
  callback_event (Connection_event conn true true finised) w = None.
Proof.
  intros H E. cbn [callback_event]. rewrite H. cbn [mbind option_bind]. destruct (complete i w); [|done].
  cbn [mbind option_bind]. by rewrite bool_decide_true.
Qed.

(** C27. A pass calls the tasks that were queued when it began, each once and in
    order, and none of those that are added meanwhile.  A read or write whose
    time is over whenever the clock is read in it is woken by the pass; one
    whose time is not over still waits. *)
Theorem task_pass_timeouts w l :
  ctx_inv [] w l ->
  task_pass w = call_each l w /\
  exists w', task_pass w = Some w' /\
    forall i a, awaiters w !! i = Some a ->
      ((forall k, (readings w <= k)%nat -> m_end_time a < clock k) ->
         exists r1 r2, resumed w' = resumed w ++ r1 ++ i :: r2) /\
      ((forall k, (readings w <= k)%nat -> clock k <= m_end_time a) -> awaiters w' !! i = Some a).
Proof.
  intros I. pose proof (task_pass_calls_each w l I) as E. split; [exact E|].
  destruct (call_each_inv l w []) as (w' & new & Ec & _ & _ & _ & _ & Late & Early); [by rewrite app_nil_r|].
  exists w'. rewrite E. split; [exact Ec|]. intros i a Hi. split; [|eauto].
  intros Hl. apply (Late i a Hi); [|exact Hl].
  destruct (inv_awaiters _ _ _ I i a Hi) as [Hin _]. exact Hin.
Qed.
End IoContext.

Definition new_context : IoContext := mk_ctx ∅ empty_queue ∅ ∅ ∅ ∅ 0 [].

Lemma new_context_inv : ctx_inv [] new_context [].
Proof.
  constructor; simpl.
  - apply empty_is_queue.
  - by rewrite !dom_empty_L.
  - constructor.
  - intros p Hp. by apply elem_of_nil in Hp.
  - intros i a Hi. by rewrite lookup_empty in Hi.
  - intros k i Hi. by rewrite lookup_empty in Hi.
Qed.

(** two connections wait, one for 10 seconds in a read and one for 1000 in a send, and the
    clock moves by 60 between two readings; who is woken sends at once, and reads for 50 *)
Module Example.
Definition clock (k : nat) : Z := 60 * Z.of_nat k.
Definition alloc (X : gset addr) : addr := fresh X.
Definition again (w : IoContext) (i : addr) : list await := [mk_await 1%positive true 20 true; mk_await 1%positive false 50 false].
(** a request, a connection that is accepted, a send that goes on, and one that ends *)
Definition answers : list (list epoll_event) :=
  [[Connection_event 1 true true false]; [Acceptor_event [mk_await 3 false 50 false]; Connection_event 2 false true false];
   [Connection_event 2 false true true]; []].
Definition begin : option IoContext :=
  await_all clock alloc alloc [mk_await 1%positive false 10 false; mk_await 2%positive true 1000 false] new_context.

Lemma alloc_fresh X : alloc X ∉ X.
Proof. apply is_fresh. Qed.

Lemma begin_inv : exists w l, begin = Some w /\ ctx_inv [] w l.
Proof.
  destruct (await_all_inv clock alloc alloc again alloc_fresh alloc_fresh
              [mk_await 1%positive false 10 false; mk_await 2%positive true 1000 false] new_context [] new_context_inv)
    as (w & l & E & I & _). eauto.
Qed.

Lemma begin_wakes :
  option_map resumed (w ← begin; run clock alloc alloc again answers w) = Some [1; 3; 3; 4; 5; 6; 7]%positive.
Proof. vm_compute. reflexivity. Qed.
End Example.


Lemma task_pass_timeouts_witness :
  exists w l, Example.begin = Some w /\ ctx_inv [] w l /\
    task_pass Example.clock Example.alloc Example.alloc Example.again w =
      call_each Example.clock Example.alloc Example.alloc Example.again l w /\
    exists w', task_pass Example.clock Example.alloc Example.alloc Example.again w = Some w' /\
      forall i a, awaiters w !! i = Some a ->
        ((forall k, (readings w <= k)%nat -> m_end_time a < Example.clock k) ->
           exists r1 r2, resumed w' = resumed w ++ r1 ++ i :: r2) /\
        ((forall k, (readings w <= k)%nat -> Example.clock k <= m_end_time a) -> awaiters w' !! i = Some a).
Proof.
  destruct Example.begin_inv as (w & l & E & I). exists w, l. split; [exact E|]. split; [exact I|].
  apply task_pass_timeouts; [apply Example.alloc_fresh|apply Example.alloc_fresh|exact I].
Defined.
