(* ===== verification/BlockQueue.v ===== *)
(** * The blocking queue

    lib/blockqueue.h: BlockDeque, a bounded deque with a mutex and two condition
    variables.  A state holds the deque and, for every thread, the operations it
    has yet to do and whether it runs, waits on the condition variable of its
    current operation, or has been woken and is about to go on.  A step is what a
    thread does between taking the mutex and giving it up (or waiting); who is
    woken by notify_one is part of the step, and a waiting thread may be woken for
    no reason.  The events tell what the operations have done. *)

From Stdlib Require Import Lia.
From stdpp Require Import base numbers list gmap fin_maps.
From S2P Require Import Prelude Transition.

Section BlockDeque.
Context {T : Type} `{EqDecision T}.

(** [Close_notify] is the second half of Close, after the mutex is released *)
Inductive op := Push_back (x : T) | Push_front (x : T) | Pop | Pop_timeout | Clear | Close | Close_notify | Flush.
Inductive condition := condConsumer | condProducer.
Inductive status := Running | Waiting | Woken.

Record thread := mk_thread { todo : list op; status_ : status }.
Notation tid := positive (only parsing).
Notation threads := (gmap positive thread).

Inductive event := EvPush_back (x : T) | EvPush_front (x : T) | EvPop (x : T) | EvPop_fails | EvClear | EvClose.

Record BlockDeque := mk_deque {
  deq_ : list T;
  capacity_ : nat;
  isClose_ : bool;
  pool : threads;
  history : list event
}.

#[export] Instance condition_eq_dec : EqDecision condition.
Proof. solve_decision. Defined.
#[export] Instance status_eq_dec : EqDecision status.
Proof. solve_decision. Defined.

(** ** Waiting and waking *)

(** the condition variable a thread's operation waits on *)
Definition waits_on (th : thread) : option condition :=
  match todo th with
  | (Push_back _ | Push_front _) :: _ => Some condProducer
  | (Pop | Pop_timeout) :: _ => Some condConsumer
  | _ => None
  end.
Definition is_in (s : status) (cv : condition) (th : thread) : Prop := status_ th = s /\ waits_on th = Some cv.
#[export] Instance is_in_dec s cv th : Decision (is_in s cv th) := _.

Definition wake (th : thread) : thread := mk_thread (todo th) Woken.
Definition wait (th : thread) : thread := mk_thread (todo th) Waiting.
Definition next_op (th : thread) : thread := mk_thread (tail (todo th)) Running.

(** notify_one: one waiting thread, if there is one *)
Definition notify_one (cv : condition) (who : option tid) (ts : threads) : option threads :=
  match who with
  | Some t => th ← ts !! t; if bool_decide (is_in Waiting cv th) then Some (<[t := wake th]> ts) else None
  | None => if bool_decide (map_Forall (fun _ th => ~ is_in Waiting cv th) ts) then Some ts else None
  end.
Definition notify_all (ts : threads) : threads :=
  (fun th => match status_ th with Waiting => wake th | _ => th end) <$> ts.

(** ** Operations *)

Definition set_thread (t : tid) (th : thread) (s : BlockDeque) : BlockDeque :=
  mk_deque (deq_ s) (capacity_ s) (isClose_ s) (<[t := th]> (pool s)) (history s).

(** an operation that is done: the deque, the event, and whom it notifies *)
Definition finish (t : tid) (th : thread) (d : list T) (closed : bool) (evs : list event)
    (cv : option condition) (who : option tid) (s : BlockDeque) : option BlockDeque :=
  let ts := <[t := next_op th]> (pool s) in
  ts ← match cv with Some cv => notify_one cv who ts | None => Some ts end;
  Some (mk_deque d (capacity_ s) closed ts (history s ++ evs)).

Definition push (t : tid) (th : thread) (d : list T) (ev : event) (who : option tid) (s : BlockDeque) : option BlockDeque :=
  if (capacity_ s <=? length (deq_ s))%nat then Some (set_thread t (wait th) s)
  else finish t th d (isClose_ s) [ev] (Some condConsumer) who s.

(** isClose_ is looked at only when the thread has waited *)
Definition pop (t : tid) (th : thread) (who : option tid) (s : BlockDeque) : option BlockDeque :=
  if bool_decide (status_ th = Woken) && isClose_ s then finish t th (deq_ s) (isClose_ s) [EvPop_fails] None who s
  else
    match deq_ s with
    | [] => Some (set_thread t (wait th) s)
    | x :: d => finish t th d (isClose_ s) [EvPop x] (Some condProducer) who s
    end.

(** what happens: a thread goes on ([who] is notified, a timed pop may find its
    time over), or is woken for no reason *)
Inductive action := Go (t : tid) (who : option tid) | Time_out (t : tid) | Spurious (t : tid).

Definition step (a : action) (s : BlockDeque) : option BlockDeque :=
  match a with
  | Go t who =>
      th ← pool s !! t;
      if bool_decide (status_ th = Waiting) then None
      else
        match todo th with
        | [] => None
        | Push_back x :: _ => push t th (deq_ s ++ [x]) (EvPush_back x) who s
        | Push_front x :: _ => push t th (x :: deq_ s) (EvPush_front x) who s
        | Pop :: _ | Pop_timeout :: _ => pop t th who s
        | Clear :: _ => finish t th [] (isClose_ s) [EvClear] None who s
        | Close :: ops =>
            Some (mk_deque [] (capacity_ s) true (<[t := mk_thread (Close_notify :: ops) Running]> (pool s))
                           (history s ++ [EvClose]))
        | Close_notify :: _ =>
            Some (mk_deque (deq_ s) (capacity_ s) (isClose_ s) (notify_all (<[t := next_op th]> (pool s))) (history s))
        | Flush :: _ => finish t th (deq_ s) (isClose_ s) [] (Some condConsumer) who s
        end
  | Time_out t =>
      th ← pool s !! t;
      match todo th, status_ th with
      | Pop_timeout :: _, (Waiting | Woken) => finish t th (deq_ s) (isClose_ s) [EvPop_fails] None None s
      | _, _ => None
      end
  | Spurious t =>
      th ← pool s !! t;
      match status_ th with
      | Waiting => Some (set_thread t (wake th) s)
      | _ => None
      end
  end.

(** BlockDeque(MaxCapacity) and the threads that will use it *)
Definition start (MaxCapacity : nat) (programs : gmap tid (list op)) : BlockDeque :=
  mk_deque [] MaxCapacity false ((fun ops => mk_thread ops Running) <$> programs) [].

(** ** The history is that of a deque *)

Definition replay1 (ev : event) (d : list T) : option (list T) :=
  match ev with
  | EvPush_back x => Some (d ++ [x])
  | EvPush_front x => Some (x :: d)
  | EvPop x => match d with y :: d => if bool_decide (x = y) then Some d else None | [] => None end
  | EvPop_fails => Some d
  | EvClear | EvClose => Some []
  end.
Fixpoint replay (evs : list event) (d : list T) : option (list T) :=
  match evs with
  | [] => Some d
  | ev :: evs => d ← replay1 ev d; replay evs d
  end.

Lemma replay_snoc evs ev d : replay (evs ++ [ev]) d = d' ← replay evs d; replay1 ev d'.
Proof.
  revert d; induction evs as [|e evs IH]; intros d; simpl; [by destruct (replay1 ev d)|].
  destruct (replay1 e d); simpl; [apply IH|done].
Qed.

(** every state keeps the bound and is what its history makes of an empty deque *)
Definition deque_ok (s : BlockDeque) : Prop :=
  (length (deq_ s) <= capacity_ s)%nat /\ replay (history s) [] = Some (deq_ s).

Lemma finish_deque_ok t th d closed evs cv who s s' :
  finish t th d closed evs cv who s = Some s' ->
  (length d <= capacity_ s)%nat -> replay (history s ++ evs) [] = Some d -> deque_ok s'.
Proof.
  unfold finish. intros H Hl Hr.
  destruct cv as [cv|]; [destruct (notify_one cv who _) as [ts|]; [|done]|]; simpl in H; simplify_eq; by split.
Qed.

Lemma step_deque_ok a s s' : step a s = Some s' -> deque_ok s -> deque_ok s'.
Proof.
  intros H [Hl Hr]. destruct a as [t who|t|t]; simpl in H; destruct (pool s !! t) as [th|]; try done; simpl in H.
  - case_bool_decide; [done|]. destruct (todo th) as [|o ops]; [done|].
    destruct o; try (unfold push in H; destruct (Nat.leb_spec (capacity_ s) (length (deq_ s))); [simplify_eq; by split|]);
      try (unfold pop in H; destruct (bool_decide _ && isClose_ s);
           [|destruct (deq_ s) as [|y d] eqn:Ed; [simplify_eq; split; simpl; rewrite Ed; done|]]).
    all: try (eapply finish_deque_ok; [exact H|..]).
    all: rewrite ?app_nil_r, ?replay_snoc, ?Hr; simpl; rewrite ?length_app, ?bool_decide_true by done; simpl in *; try lia; try done.
    + simplify_eq; simpl. split; simpl; [lia|]. rewrite replay_snoc, Hr. done.
    + simplify_eq; simpl. by split.
  - destruct (todo th) as [|[] ops]; try done. destruct (status_ th); try done.
    all: eapply finish_deque_ok; [exact H|done|]; rewrite replay_snoc, Hr; done.
  - destruct (status_ th); simplify_eq. by split.
Qed.

(** ** Who waits and who was woken *)

Definition count (P : thread -> Prop) `{!forall th, Decision (P th)} (ts : threads) : nat :=
  size (filter (fun kv => P kv.2) ts).
Definition b2n (P : Prop) `{!Decision P} : nat := if decide P then 1 else 0.

Lemma count_insert P `{!forall th, Decision (P th)} ts t th th' :
  ts !! t = Some th -> (count P (<[t := th']> ts) + b2n (P th) = count P ts + b2n (P th'))%nat.
Proof.
  intros Ht. unfold count, b2n.
  assert (E : forall x, size (filter (fun kv => P kv.2) (<[t := x]> (delete t ts))) =
                        ((if decide (P x) then 1 else 0) + size (filter (fun kv => P kv.2) (delete t ts)))%nat).
  { intros x. destruct (decide (P x)) as [Hx|Hx].
    - rewrite map_filter_insert_True by done. rewrite map_size_insert_None; [done|].
      rewrite map_lookup_filter_None, lookup_delete_eq. by left.
    - rewrite map_filter_insert_False by done. by rewrite delete_delete_eq. }
  rewrite <- (insert_delete_id ts t th Ht) at 2.
  rewrite <- (insert_delete_eq ts t th'), !E. lia.
Qed.

Lemma count_zero P `{!forall th, Decision (P th)} ts :
  count P ts = 0%nat <-> forall t th, ts !! t = Some th -> ~ P th.
Proof.
  unfold count. rewrite map_size_empty_iff. rewrite map_empty_filter. unfold map_Forall. simpl. naive_solver.
Qed.

Lemma count_pos P `{!forall th, Decision (P th)} ts :
  (0 < count P ts)%nat <-> exists t th, ts !! t = Some th /\ P th.
Proof.
  split.
  - intros Hc. destruct (decide (map_Forall (fun _ th => ~ P th) ts)) as [Hn|Hn].
    + assert (count P ts = 0%nat); [apply count_zero; exact Hn|lia].
    + apply map_not_Forall in Hn as (t & th & Ht & HP); [|apply _]. apply dec_stable in HP. eauto.
  - intros (t & th & Ht & HP). destruct (decide (count P ts = 0%nat)) as [E|]; [|lia].
    by destruct (proj1 (count_zero P ts) E t th Ht).
Qed.

Notation waiting cv ts := (count (is_in Waiting cv) ts).
Notation woken cv ts := (count (is_in Woken cv) ts).

(** which of the threads before and after an update is counted *)
Ltac count_cases :=
  unfold b2n in *;
  repeat match goal with
  | H : context [decide ?P] |- _ => destruct (decide P)
  | |- context [decide ?P] => destruct (decide P)
  end;
  try lia;
  exfalso; unfold is_in, wake, wait, next_op, waits_on in *; simpl in *;
  first [destruct_and?; congruence | tauto].

(** notify_one wakes one of those who wait, or there is none *)
Lemma notify_one_counts cv who ts ts' :
  notify_one cv who ts = Some ts' ->
  (forall cv', cv' <> cv -> waiting cv' ts' = waiting cv' ts /\ woken cv' ts' = woken cv' ts) /\
  (waiting cv ts = 0%nat /\ ts' = ts \/ waiting cv ts = S (waiting cv ts') /\ woken cv ts' = S (woken cv ts)).
Proof.
  unfold notify_one. destruct who as [t|].
  - destruct (ts !! t) as [th|] eqn:Ht; [|done]. simpl. case_bool_decide as Hw; [|done]. intros [= <-].
    destruct Hw as [Hs Hc]. assert (Hc' : waits_on (wake th) = Some cv) by exact Hc.
    split.
    + intros cv' Hne.
      pose proof (count_insert (is_in Waiting cv') ts t th (wake th) Ht) as H1.
      pose proof (count_insert (is_in Woken cv') ts t th (wake th) Ht) as H2.
      count_cases.
    + right.
      pose proof (count_insert (is_in Waiting cv) ts t th (wake th) Ht) as H1.
      pose proof (count_insert (is_in Woken cv) ts t th (wake th) Ht) as H2.
      count_cases.
  - case_bool_decide as Hw; [|done]. intros [= <-]. split; [done|]. left. split; [|done].
    apply count_zero. exact Hw.
Qed.

Lemma next_op_counts ts t th cv :
  ts !! t = Some th -> status_ th <> Waiting ->
  waiting cv (<[t := next_op th]> ts) = waiting cv ts /\
  (woken cv (<[t := next_op th]> ts) + b2n (is_in Woken cv th) = woken cv ts)%nat.
Proof.
  intros Ht Hs.
  pose proof (count_insert (is_in Waiting cv) ts t th (next_op th) Ht) as H1.
  pose proof (count_insert (is_in Woken cv) ts t th (next_op th) Ht) as H2.
  split; count_cases.
Qed.

Lemma wait_counts ts t th cv cv' :
  ts !! t = Some th -> status_ th <> Waiting -> waits_on th = Some cv -> cv' <> cv ->
  waiting cv' (<[t := wait th]> ts) = waiting cv' ts /\ woken cv' (<[t := wait th]> ts) = woken cv' ts.
Proof.
  intros Ht Hs Hc Hne.
  pose proof (count_insert (is_in Waiting cv') ts t th (wait th) Ht) as H1.
  pose proof (count_insert (is_in Woken cv') ts t th (wait th) Ht) as H2.
  split; count_cases.
Qed.

Lemma wake_counts ts t th cv :
  ts !! t = Some th -> status_ th = Waiting ->
  (waiting cv (<[t := wake th]> ts) + b2n (is_in Waiting cv th) = waiting cv ts)%nat /\
  (woken cv (<[t := wake th]> ts) = woken cv ts + b2n (is_in Waiting cv th))%nat.
Proof.
  intros Ht Hs.
  pose proof (count_insert (is_in Waiting cv) ts t th (wake th) Ht) as H1.
  pose proof (count_insert (is_in Woken cv) ts t th (wake th) Ht) as H2.
  split; count_cases.
Qed.

Lemma b2n_le P `{!Decision P} : (b2n P <= 1)%nat.
Proof. unfold b2n. case_decide; lia. Qed.

(** ** No wake-up is lost *)

(** the operations of a queue that is neither cleared nor closed, and whose
    consumers wait as long as it takes *)
Definition polite (o : op) : Prop :=
  match o with
  | Push_back _ | Push_front _ | Pop | Flush => True
  | Pop_timeout | Clear | Close | Close_notify => False
  end.
Definition programs_ok (ts : threads) : Prop := map_Forall (fun _ th => Forall polite (todo th)) ts.

Lemma programs_ok_insert ts t th :
  programs_ok ts -> Forall polite (todo th) -> programs_ok (<[t := th]> ts).
Proof. intros H1 H2. by apply map_Forall_insert_2. Qed.

Lemma programs_ok_next ts t th : ts !! t = Some th -> programs_ok ts -> programs_ok (<[t := next_op th]> ts).
Proof.
  intros Ht H. apply programs_ok_insert; [done|]. simpl. pose proof (H t th Ht) as Hp. simpl in Hp.
  destruct Hp; simpl; [constructor|done].
Qed.

Lemma notify_one_programs cv who ts ts' : notify_one cv who ts = Some ts' -> programs_ok ts -> programs_ok ts'.
Proof.
  unfold notify_one. destruct who as [t|].
  - destruct (ts !! t) as [th|] eqn:Ht; [|done]. simpl. case_bool_decide; [|done]. intros [= <-] H1.
    apply programs_ok_insert; [done|]. exact (H1 t th Ht).
  - case_bool_decide; [|done]. by intros [= <-].
Qed.

(** as long as somebody waits for an element, each element has somebody who is
    on his way to it; and likewise for free places *)
Record polite_inv (s : BlockDeque) : Prop := mk_polite {
  polite_programs : programs_ok (pool s);
  polite_open : isClose_ s = false;
  polite_consumers : waiting condConsumer (pool s) = 0%nat \/ (length (deq_ s) <= woken condConsumer (pool s))%nat;
  polite_producers : waiting condProducer (pool s) = 0%nat \/ (capacity_ s <= length (deq_ s) + woken condProducer (pool s))%nat
}.

(** an operation on [cv] that is done, after which [cv'] is notified *)
Lemma finish_counts t th d closed evs cv who s s' :
  pool s !! t = Some th -> status_ th <> Waiting ->
  finish t th d closed evs (Some cv) who s = Some s' ->
  deq_ s' = d /\ isClose_ s' = closed /\ capacity_ s' = capacity_ s /\ (programs_ok (pool s) -> programs_ok (pool s')) /\
  (forall cv', cv' <> cv ->
     waiting cv' (pool s') = waiting cv' (pool s) /\ (woken cv' (pool s') + b2n (is_in Woken cv' th) = woken cv' (pool s))%nat) /\
  (waiting cv (pool s') = 0%nat \/
   (0 < waiting cv (pool s))%nat /\ (woken cv (pool s') + b2n (is_in Woken cv th) = S (woken cv (pool s)))%nat).
Proof.
  intros Ht Hs H. unfold finish in H.
  destruct (notify_one cv who _) as [ts|] eqn:E; [|done]. simpl in H; simplify_eq. simpl.
  split; [done|]. split; [done|]. split; [done|].
  split; [intros Hp; eapply notify_one_programs; [exact E|]; by apply programs_ok_next|].
  destruct (notify_one_counts _ _ _ _ E) as [Ho Hc].
  split.
  - intros cv' Hne. destruct (Ho cv' Hne) as [-> ->]. by apply next_op_counts.
  - destruct (next_op_counts (pool s) t th cv Ht Hs) as [Hw Hk].
    destruct Hc as [[Hc ->]|[Hc1 Hc2]]; [left; exact Hc|right; lia].
Qed.

Lemma polite_go t who s s' : step (Go t who) s = Some s' -> polite_inv s -> polite_inv s'.
Proof.
  intros H [Hp Ho Hc Hr]. simpl in H. destruct (pool s !! t) as [th|] eqn:Ht; [|done]. simpl in H.
  case_bool_decide as Hw; [done|].
  pose proof (Hp t th Ht) as Hth. simpl in Hth.
  destruct (todo th) as [|o ops] eqn:Etodo; [done|]. apply Forall_cons in Hth as [Hpo Hops].
  pose proof (b2n_le (is_in Woken condConsumer th)) as B1. pose proof (b2n_le (is_in Woken condProducer th)) as B2.
  destruct o; simpl in Hpo; try done.
  1,2: unfold push in H; destruct (Nat.leb_spec (capacity_ s) (length (deq_ s))) as [Hfull|Hfree].
  1,3: simplify_eq; assert (Wo : waits_on th = Some condProducer) by (unfold waits_on; by rewrite Etodo);
       destruct (wait_counts (pool s) t th condProducer condConsumer Ht Hw Wo ltac:(done)) as [E1 E2];
       constructor; simpl; rewrite ?E1, ?E2; [|done|done|lia];
       apply programs_ok_insert; [done|]; simpl; rewrite Etodo; by constructor.
  1,2: destruct (finish_counts _ _ _ _ _ _ _ _ _ Ht Hw H) as (Ed & Ecl & Ecap & Hp' & Hoth & Hcv);
       destruct (Hoth condProducer ltac:(done)) as [E1 E2];
       assert (Nc : b2n (is_in Woken condConsumer th) = 0%nat)
         by (unfold b2n; case_decide as HW; [destruct HW as [_ HW]; unfold waits_on in HW; by rewrite Etodo in HW|done]);
       constructor; [by apply Hp'|congruence|..]; rewrite ?Ed, ?Ecap, ?length_app; simpl; [|lia];
       destruct Hcv as [Hcv|[Hpos Hcv]]; [by left|]; rewrite Nc in Hcv.
  1,2: right; lia.
  - (* Pop *)
    unfold pop in H. rewrite Ho, andb_false_r in H.
    destruct (deq_ s) as [|x d] eqn:Ed.
    + simplify_eq. assert (Wo : waits_on th = Some condConsumer) by (unfold waits_on; by rewrite Etodo).
      destruct (wait_counts (pool s) t th condConsumer condProducer Ht Hw Wo ltac:(done)) as [E1 E2].
      constructor; simpl; rewrite ?E1, ?E2, ?Ed; simpl; [|done|right; lia|exact Hr].
      apply programs_ok_insert; [done|]. simpl. rewrite Etodo. by constructor.
    + destruct (finish_counts _ _ _ _ _ _ _ _ _ Ht Hw H) as (E & Ecl & Ecap & Hp' & Hoth & Hcv).
      destruct (Hoth condConsumer ltac:(done)) as [E1 E2].
      assert (Np : b2n (is_in Woken condProducer th) = 0%nat)
        by (unfold b2n; case_decide as HW; [destruct HW as [_ HW]; unfold waits_on in HW; by rewrite Etodo in HW|done]).
      simpl in Hc, Hr.
      constructor; [by apply Hp'|congruence|..]; rewrite ?E, ?Ecap; [lia|].
      destruct Hcv as [Hcv|[Hpos Hcv]]; [by left|right; lia].
  - (* Flush *)
    destruct (finish_counts _ _ _ _ _ _ _ _ _ Ht Hw H) as (E & Ecl & Ecap & Hp' & Hoth & Hcv).
    destruct (Hoth condProducer ltac:(done)) as [E1 E2].
    assert (N : forall cv, b2n (is_in Woken cv th) = 0%nat)
      by (intros cv; unfold b2n; case_decide as HW; [destruct HW as [_ HW]; unfold waits_on in HW; by rewrite Etodo in HW|done]).
    rewrite N in *.
    constructor; [by apply Hp'|congruence|..]; rewrite ?E, ?Ecap; [|lia].
    destruct Hcv as [Hcv|[Hpos Hcv]]; [by left|right; lia].
Qed.

Lemma polite_step a s s' : step a s = Some s' -> polite_inv s -> polite_inv s'.
Proof.
  intros H I. destruct a as [t who|t|t]; [by eapply polite_go|..].
  - destruct I as [Hp _ _ _]. simpl in H. destruct (pool s !! t) as [th|] eqn:Ht; [|done]. simpl in H.
    pose proof (Hp t th Ht) as Hth. simpl in Hth. destruct (todo th) as [|[] ops]; try done.
    apply Forall_cons in Hth as [Hth _]. done.
  - destruct I as [Hp Ho Hc Hr]. simpl in H. destruct (pool s !! t) as [th|] eqn:Ht; [|done]. simpl in H.
    destruct (status_ th) eqn:Hs; try done. simplify_eq.
    destruct (wake_counts (pool s) t th condConsumer Ht Hs) as [A1 A2].
    destruct (wake_counts (pool s) t th condProducer Ht Hs) as [A3 A4].
    constructor; simpl; [|done|lia|lia]. apply programs_ok_insert; [done|]. exact (Hp t th Ht).
Qed.

Lemma start_polite cap programs :
  map_Forall (fun _ ops => Forall polite ops) programs -> polite_inv (start cap programs).
Proof.
  intros H. constructor; simpl; [|done|left|left].
  - intros t th Ht. apply lookup_fmap_Some in Ht as (ops & <- & Ht). exact (H t ops Ht).
  - apply count_zero. intros t th Ht [Hs _]. by apply lookup_fmap_Some in Ht as (ops & <- & Ht).
  - apply count_zero. intros t th Ht [Hs _]. by apply lookup_fmap_Some in Ht as (ops & <- & Ht).
Qed.

Lemma finish_capacity t th d closed evs cv who s s' :
  finish t th d closed evs cv who s = Some s' -> capacity_ s' = capacity_ s.
Proof.
  unfold finish. destruct cv as [cv|]; [destruct (notify_one cv who _)|]; simpl; [|done|]; by intros [= <-].
Qed.

Lemma step_capacity a s s' : step a s = Some s' -> capacity_ s' = capacity_ s.
Proof.
  intros H. destruct a as [t who|t|t]; simpl in H; destruct (pool s !! t) as [th|]; try done; simpl in H.
  - case_bool_decide; [done|]. destruct (todo th) as [|o ops]; [done|].
    destruct o; unfold push, pop in H; repeat case_match; simplify_eq; try done; by eapply finish_capacity.
  - destruct (todo th) as [|[] ops]; try done. destruct (status_ th); try done; by eapply finish_capacity.
  - destruct (status_ th); by simplify_eq.
Qed.

Definition some_thread (P : thread -> Prop) (s : BlockDeque) : Prop := exists t th, pool s !! t = Some th /\ P th.

(** C14. BlockDeque with any number of threads that push (at either end), pop and
    flush: in every reachable state it holds at most capacity elements; its
    contents are what the history of its operations makes of an empty deque, so
    that every pop got the front of its time; and no wake-up is lost: where a
    consumer waits although there is an element, a consumer has been woken and is
    on his way, and where a producer waits although there is room, so has a
    producer.  The threads can only all be stuck on an empty or on a full deque. *)
Theorem no_lost_wakeup cap programs s :
  map_Forall (fun _ ops => Forall polite ops) programs -> reachable step any (start cap programs) s ->
  (length (deq_ s) <= cap)%nat /\ replay (history s) [] = Some (deq_ s) /\
  (some_thread (is_in Waiting condConsumer) s -> deq_ s <> [] -> some_thread (is_in Woken condConsumer) s) /\
  (some_thread (is_in Waiting condProducer) s -> (length (deq_ s) < cap)%nat -> some_thread (is_in Woken condProducer) s).
Proof.
  intros Hp R.
  assert (Hcap : capacity_ s = cap).
  { apply (reachable_inv step any (fun s => capacity_ s = cap) (start cap programs)); [done| |done].
    intros a s1 s2 _ H <-. by eapply step_capacity. }
  assert (I1 : deque_ok s).
  { eapply reachable_inv; [|intros; by eapply step_deque_ok|exact R]. split; simpl; [lia|done]. }
  assert (I2 : polite_inv s).
  { eapply reachable_inv; [by apply start_polite|intros; by eapply polite_step|exact R]. }
  destruct I1 as [L1 L2], I2 as [_ _ Hc Hr]. rewrite Hcap in *.
  split; [exact L1|]. split; [exact L2|]. unfold some_thread. split; intros Hw Hl; apply (count_pos (is_in _ _)) in Hw; apply (count_pos (is_in _ _)).
  - destruct (deq_ s); [done|]. simpl in Hc. lia.
  - lia.
Qed.
End BlockDeque.

Arguments op : clear implicits.

(** a producer and two consumers on a deque for one element *)
Definition two_and_one : gmap positive (list (op Z)) :=
  {[ 1%positive := [Push_back 7%Z; Push_back 8%Z]; 2%positive := [Pop]; 3%positive := [Pop] ]}.

Lemma no_lost_wakeup_witness :
  map_Forall (fun _ ops => Forall polite ops) two_and_one /\
  exists s, run step [Go 2 None; Go 3 None; Go 1 (Some 3); Go 1 None]%positive (start 1 two_and_one) = Some s /\
    deq_ s = [7%Z] /\ some_thread (is_in Waiting condProducer) s /\
    (some_thread (is_in Waiting condConsumer) s -> deq_ s <> [] -> some_thread (is_in Woken condConsumer) s).
Proof.
  assert (Hp : map_Forall (fun _ ops => Forall polite ops) two_and_one).
  { unfold two_and_one. do 2 (apply map_Forall_insert_2; [repeat constructor|]). apply map_Forall_singleton. repeat constructor. }
  split; [exact Hp|].
  destruct (run step [Go 2 None; Go 3 None; Go 1 (Some 3); Go 1 None]%positive (start 1 two_and_one)) as [s|] eqn:E;
    [|vm_compute in E; discriminate].
  exists s. split; [reflexivity|].
  pose proof (run_reachable step any _ _ _ (any_all _) E) as R.
  split; [vm_compute in E; injection E as <-; reflexivity|].
  split; [vm_compute in E; injection E as <-; exists 1%positive; eexists; split; [reflexivity|split; reflexivity]|].
  apply (no_lost_wakeup 1 two_and_one s Hp R).
Defined.

(** ** Where wake-ups are lost *)

(** everybody waits and nobody was woken *)
Definition all_wait {T} (s : BlockDeque (T := T)) : Prop :=
  map_Forall (fun _ th => status_ th = Waiting \/ todo th = []) (pool s).

(** clear tells nobody that there is room now: a producer goes on waiting for
    room in the empty deque, and a consumer waits for his element *)
Lemma clear_strands_producer :
  exists s : BlockDeque, run step [Go 1 None; Go 1 None; Go 2 None; Go 2 None]%positive
             (start 1 {[ 1%positive := [Push_back 7%Z; Push_back 8%Z]; 2%positive := [Clear; Pop] ]}) = Some s /\
    deq_ s = [] /\ all_wait s /\
    some_thread (is_in Waiting condProducer) s /\ some_thread (is_in Waiting condConsumer) s.
Proof.
  eexists; split; [vm_compute; reflexivity|]. split; [reflexivity|]. split.
  { unfold all_wait. apply (bool_decide_unpack _). vm_compute. exact I. }
  split; [exists 1%positive|exists 2%positive]; eexists; (split; [reflexivity|split; reflexivity]).
Qed.

(** pop looks at isClose_ only after it has waited: on a closed deque it waits *)
Lemma pop_after_close_waits :
  exists s : BlockDeque, run step [Go 1 None; Go 1 None; Go 2 None]%positive
             (start 1 {[ 1%positive := [Close : op Z]; 2%positive := [Pop] ]}) = Some s /\
    isClose_ s = true /\ all_wait s /\ some_thread (is_in Waiting condConsumer) s.
Proof.
  eexists; split; [vm_compute; reflexivity|]. split; [reflexivity|]. split.
  { unfold all_wait. apply (bool_decide_unpack _). vm_compute. exact I. }
  exists 2%positive; eexists; (split; [reflexivity|split; reflexivity]).
Qed.

(** a timed pop that is notified when its time is over keeps the notification:
    the other consumer waits although there is an element *)
Lemma timed_pop_loses_wakeup :
  exists s : BlockDeque, run step [Go 1 None; Go 2 None; Go 3 (Some 1); Time_out 1]%positive
             (start 5 {[ 1%positive := [Pop_timeout]; 2%positive := [Pop]; 3%positive := [Push_back 7%Z] ]}) = Some s /\
    deq_ s = [7%Z] /\ all_wait s /\ some_thread (is_in Waiting condConsumer) s.
Proof.
  eexists; split; [vm_compute; reflexivity|]. split; [reflexivity|]. split.
  { unfold all_wait. apply (bool_decide_unpack _). vm_compute. exact I. }
  exists 2%positive; eexists; (split; [reflexivity|split; reflexivity]).
Qed.
