(* ===== verification/FastCache.v ===== *)
(** * The sharded cache with expiry

    include/netcore/fastCache.hpp: Fastcache with string keys and values (as Cache
    instantiates it): a vector of shards, each a map under its own mutex, chosen by
    the hash of the key; items carry the second after which they are expired.
    std::hash is a parameter, the clock's seconds are arguments.  Every operation
    takes the mutex of one shard (the sweep one after the other), so that a run is
    a sequence of operations.  The shards refine one map: [cache_refines_map]. *)

From Stdlib Require Import ZArith Lia.
From stdpp Require Import base numbers list gmap fin_maps strings.
From S2P Require Import Prelude.
Local Open Scope Z_scope.

Record CacheItem := mk_item { data : bytes; expiration : Z }.

(** the constructor's second argument is a duration *)
Definition new_item (now : Z) (d : bytes) (duration : Z) : CacheItem := mk_item d (wrap64 (now + duration)).

(** append: a comma first *)
Definition item_append (d : bytes) (new_exp : Z) (i : CacheItem) : CacheItem :=
  mk_item (data i ++ bs "," ++ d) new_exp.

(** an expiration of 0 means that none was set *)
Definition expired (now : Z) (i : CacheItem) : bool :=
  if expiration i =? 0 then false else expiration i <? now.

Notation shard := (gmap bytes CacheItem).

Section Fastcache.
Variable m_hash_tool : bytes -> nat.
Variable Shard_size : nat.

Notation Fastcache := (list shard).

Definition new_cache : Fastcache := replicate Shard_size ∅.

(** ** Operations *)

Definition calc_index (key : bytes) : nat := (m_hash_tool key mod Shard_size)%nat.

Definition shard_of (key : bytes) (c : Fastcache) : shard := default ∅ (c !! calc_index key).
Definition on_shard (f : shard -> shard) (key : bytes) (c : Fastcache) : Fastcache :=
  <[calc_index key := f (shard_of key c)]> c.

Definition total_size (c : Fastcache) : nat := foldr (fun s n => (size s + n)%nat) 0%nat c.

Definition set (now : Z) (key val : bytes) (duration : Z) (c : Fastcache) : Fastcache :=
  on_shard <[key := new_item now val duration]> key c.

(** exists does not ask whether the item is expired *)
Definition exists_ (key : bytes) (c : Fastcache) : bool := bool_decide (is_Some (shard_of key c !! key)).

Definition del (key : bytes) (c : Fastcache) : nat * Fastcache :=
  ((if exists_ key c then 1 else 0)%nat, on_shard (delete key) key c).

Definition new_expire (now : Z) (key : bytes) (duration : Z) (c : Fastcache) : Fastcache :=
  on_shard (alter (fun i => mk_item (data i) (wrap64 (now + duration))) key) key c.

(** .at throws where there is no item *)
Definition get (now : Z) (key : bytes) (c : Fastcache) : bool * bytes * Fastcache :=
  match shard_of key c !! key with
  | Some i => if expired now i then (false, [], on_shard (delete key) key c) else (true, data i, c)
  | None => (false, [], c)
  end.

Definition append (now : Z) (key val : bytes) (duration : Z) (c : Fastcache) : Fastcache :=
  on_shard (fun s =>
    match s !! key with
    | None => <[key := new_item now val duration]> s
    | Some i => <[key := item_append val (wrap64 (now + duration)) i]> s
    end) key c.

(** del_expired_keys, and the body of expired_check_func's loop *)
Definition del_expired_keys (now : Z) (s : shard) : shard := filter (fun kv => expired now kv.2 = false) s.
Definition sweep (now : Z) (c : Fastcache) : Fastcache := del_expired_keys now <$> c.

(** ** One map *)

(** every key lies in its own shard *)
Definition well_sharded (c : Fastcache) : Prop :=
  length c = Shard_size /\ forall i s k, c !! i = Some s -> is_Some (s !! k) -> calc_index k = i.

Definition represents (c : Fastcache) (M : shard) : Prop :=
  well_sharded c /\ forall k, M !! k = shard_of k c !! k.

Hypothesis some_shards : (0 < Shard_size)%nat.

Lemma calc_index_lt k : (calc_index k < Shard_size)%nat.
Proof. apply Nat.mod_upper_bound. lia. Qed.

Lemma shard_lookup c k : well_sharded c -> c !! calc_index k = Some (shard_of k c).
Proof.
  intros [Hl _]. unfold shard_of.
  destruct (lookup_lt_is_Some_2 c (calc_index k)) as [s Hs]; [rewrite Hl; apply calc_index_lt|].
  by rewrite Hs.
Qed.

Lemma new_cache_represents : represents new_cache ∅.
Proof.
  split.
  - split; [apply length_replicate|]. intros i s k Hs [x Hx]. apply lookup_replicate in Hs as [-> _]. done.
  - intros k. rewrite lookup_empty. unfold shard_of, new_cache.
    rewrite lookup_replicate_2 by apply calc_index_lt. done.
Qed.

(** an operation that touches no other key of the shard *)
Lemma on_shard_represents f g k c M :
  represents c M ->
  (forall s k', k' <> k -> f s !! k' = s !! k') ->
  (forall s, s !! k = M !! k -> f s !! k = g M !! k) ->
  (forall k', k' <> k -> g M !! k' = M !! k') ->
  represents (on_shard f k c) (g M).
Proof.
  intros [W R] Hf Hfk Hg. pose proof (shard_lookup c k W) as Hs. destruct W as [Wl Wk].
  assert (Hlt : (calc_index k < length c)%nat) by (rewrite Wl; apply calc_index_lt).
  assert (S' : forall k', shard_of k' (on_shard f k c) =
                 if decide (calc_index k' = calc_index k) then f (shard_of k c) else shard_of k' c).
  { intros k'. unfold on_shard, shard_of at 1. destruct (decide (calc_index k' = calc_index k)) as [E|E].
    - rewrite E, list_lookup_insert_eq by done. done.
    - by rewrite list_lookup_insert_ne by congruence. }
  split; [split|].
  - unfold on_shard. rewrite length_insert. exact Wl.
  - intros i s k' Hi Hk'. unfold on_shard in Hi. destruct (decide (i = calc_index k)) as [->|Hne].
    + rewrite list_lookup_insert_eq in Hi by done. simplify_eq.
      destruct (decide (k' = k)) as [->|Hk]; [done|]. rewrite Hf in Hk' by done. by eapply Wk.
    + rewrite list_lookup_insert_ne in Hi by congruence. by eapply Wk.
  - intros k'. rewrite S'. destruct (decide (k' = k)) as [->|Hk].
    + rewrite decide_True by done. rewrite (Hfk (shard_of k c)); [done|]. by rewrite R.
    + rewrite Hg by done. rewrite R. destruct (decide (calc_index k' = calc_index k)) as [E|E]; [|done].
      rewrite Hf by done. unfold shard_of. by rewrite E.
Qed.

(** the shards are disjoint, and the map is their union *)
Lemma sizes_add (l : list shard) (f : bytes -> nat) (n : nat) (M : shard) :
  (forall i s k, l !! i = Some s -> is_Some (s !! k) -> f k = n + i)%nat ->
  (forall k x, M !! k = Some x <-> exists i s, l !! i = Some s /\ s !! k = Some x) ->
  size M = total_size l.
Proof.
  revert n M; induction l as [|s l IH]; intros n M Hf HM.
  - replace M with (∅ : shard); [done|]. symmetry. apply map_empty. intros k.
    destruct (M !! k) as [x|] eqn:E; [|done]. apply HM in E as (i & s & Hi & _). done.
  - simpl. rewrite <- (IH (S n) (filter (fun kv => f kv.1 <> n) M)).
    + assert (Hs : s = filter (fun kv => f kv.1 = n) M).
      { apply map_eq; intros k. symmetry. destruct (s !! k) as [x|] eqn:E.
        - apply map_lookup_filter_Some. split; [apply HM; exists 0%nat, s; done|]. simpl.
          rewrite (Hf 0%nat s k); [lia|done|eauto].
        - apply map_lookup_filter_None. destruct (M !! k) as [x|] eqn:EM; [right|by left].
          intros y Hy; simplify_eq. simpl. apply HM in EM as (i & s' & Hi & Hx). destruct i as [|i].
          + simpl in Hi; simplify_eq.
          + rewrite (Hf (S i) s' k) by eauto. lia. }
      rewrite Hs, <- map_size_disj_union by apply map_disjoint_filter_complement.
      rewrite map_filter_union_complement. done.
    + intros i s' k Hi Hk. rewrite (Hf (S i) s' k Hi Hk). lia.
    + intros k x. rewrite map_lookup_filter_Some, HM. simpl. split.
      * intros ((i & s' & Hi & Hx) & Hn). destruct i as [|i]; [|eauto].
        simpl in Hi; simplify_eq. exfalso. apply Hn. rewrite (Hf 0%nat s' k); [lia|done|eauto].
      * intros (i & s' & Hi & Hx). split; [exists (S i), s'; done|]. rewrite (Hf (S i) s' k); [lia|done|eauto].
Qed.

Lemma total_size_represents c M : represents c M -> total_size c = size M.
Proof.
  intros [W R]. symmetry. apply (sizes_add c calc_index 0%nat).
  - intros i s k Hi Hk. destruct W as [_ Wk]. rewrite (Wk i s k Hi Hk). lia.
  - intros k x. rewrite R. split.
    + intros Hx. exists (calc_index k), (shard_of k c). split; [by apply shard_lookup|done].
    + intros (i & s & Hi & Hx). destruct W as [Wl Wk]. pose proof (Wk i s k Hi ltac:(eauto)) as <-.
      unfold shard_of. by rewrite Hi.
Qed.

Lemma sweep_represents now c M : represents c M -> represents (sweep now c) (del_expired_keys now M).
Proof.
  intros [[Wl Wk] R]. split; [split|].
  - unfold sweep. by rewrite length_fmap.
  - intros i s k Hi [x Hx]. unfold sweep in Hi. apply list_lookup_fmap_Some in Hi as (s' & -> & Hi).
    apply map_lookup_filter_Some in Hx as [Hx _]. eauto.
  - intros k. unfold shard_of, sweep. rewrite list_lookup_fmap.
    pose proof (shard_lookup c k (conj Wl Wk)) as Hs. rewrite Hs. simpl. unfold del_expired_keys.
    rewrite !map_lookup_filter. rewrite R. done.
Qed.

(** ** Any sequence of operations *)

Inductive cache_op :=
| Set_ (now : Z) (key val : bytes) (duration : Z)
| Exists_ (key : bytes)
| Del (key : bytes)
| New_expire (now : Z) (key : bytes) (duration : Z)
| Get (now : Z) (key : bytes)
| Append (now : Z) (key val : bytes) (duration : Z)
| Sweep (now : Z)
| Total_size.

Inductive cache_answer := Nothing | Found (b : bool) | Value (b : bool) (v : bytes) | Count (n : nat).

Definition do_op (o : cache_op) (c : Fastcache) : cache_answer * Fastcache :=
  match o with
  | Set_ now k v d => (Nothing, set now k v d c)
  | Exists_ k => (Found (exists_ k c), c)
  | Del k => let '(n, c) := del k c in (Count n, c)
  | New_expire now k d => (Nothing, new_expire now k d c)
  | Get now k => let '(b, v, c) := get now k c in (Value b v, c)
  | Append now k v d => (Nothing, append now k v d c)
  | Sweep now => (Nothing, sweep now c)
  | Total_size => (Count (total_size c), c)
  end.

Definition spec_op (o : cache_op) (M : shard) : cache_answer * shard :=
  match o with
  | Set_ now k v d => (Nothing, <[k := new_item now v d]> M)
  | Exists_ k => (Found (bool_decide (is_Some (M !! k))), M)
  | Del k => (Count (match M !! k with Some _ => 1 | None => 0 end), delete k M)
  | New_expire now k d => (Nothing, alter (fun i => mk_item (data i) (wrap64 (now + d))) k M)
  | Get now k =>
      match M !! k with
      | Some i => if expired now i then (Value false [], delete k M) else (Value true (data i), M)
      | None => (Value false [], M)
      end
  | Append now k v d =>
      (Nothing, <[k := match M !! k with
                       | Some i => mk_item (data i ++ bs "," ++ v) (wrap64 (now + d))
                       | None => new_item now v d
                       end]> M)
  | Sweep now => (Nothing, filter (fun kv => expired now kv.2 = false) M)
  | Total_size => (Count (size M), M)
  end.

Fixpoint run {St} (op : cache_op -> St -> cache_answer * St) (ops : list cache_op) (s : St) : list cache_answer :=
  match ops with
  | [] => []
  | o :: ops => let '(a, s) := op o s in a :: run op ops s
  end.

Lemma do_op_represents o c M :
  represents c M -> (do_op o c).1 = (spec_op o M).1 /\ represents (do_op o c).2 (spec_op o M).2.
Proof.
  intros R. pose proof R as [W L]. destruct o; simpl.
  - split; [done|]. apply (on_shard_represents _ (fun M => <[key := new_item now val duration]> M)); [done|..].
    + intros s k' Hk. by rewrite lookup_insert_ne by congruence.
    + intros s _. by rewrite !lookup_insert_eq.
    + intros k' Hk. by rewrite lookup_insert_ne by congruence.
  - unfold exists_. by rewrite L.
  - split.
    + unfold exists_. rewrite L. by destruct (shard_of key c !! key).
    + apply (on_shard_represents _ (fun M => delete key M)); [done|..].
      * intros s k' Hk. by rewrite lookup_delete_ne by congruence.
      * intros s _. by rewrite !lookup_delete_eq.
      * intros k' Hk. by rewrite lookup_delete_ne by congruence.
  - split; [done|]. apply (on_shard_represents _ (fun M => alter _ key M)); [done|..].
    + intros s k' Hk. by rewrite lookup_alter_ne by congruence.
    + intros s Hs. by rewrite !lookup_alter_eq, Hs.
    + intros k' Hk. by rewrite lookup_alter_ne by congruence.
  - unfold get. rewrite L. destruct (shard_of key c !! key) as [i|]; [|done]. destruct (expired now i); [|done].
    split; [done|]. apply (on_shard_represents _ (fun M => delete key M)); [done|..].
    + intros s k' Hk. by rewrite lookup_delete_ne by congruence.
    + intros s _. by rewrite !lookup_delete_eq.
    + intros k' Hk. by rewrite lookup_delete_ne by congruence.
  - split; [done|].
    apply (on_shard_represents _ (fun M => <[key := match M !! key with
                       | Some i => mk_item (data i ++ bs "," ++ val) (wrap64 (now + duration))
                       | None => new_item now val duration end]> M)); [done|..].
    + intros s k' Hk. destruct (s !! key); by rewrite lookup_insert_ne by congruence.
    + intros s Hs. rewrite Hs. destruct (M !! key); by rewrite !lookup_insert_eq.
    + intros k' Hk. by rewrite lookup_insert_ne by congruence.
  - split; [done|]. by apply sweep_represents.
  - split; [|done]. by rewrite (total_size_represents _ _ R).
Qed.

(** C30. Fastcache answers every sequence of set, get, exists, del, new_expire,
    append, total_size and sweeps of the checking thread as one map with expiry
    times does, whatever the hash function and the (positive) number of shards. *)
Theorem cache_refines_map ops : run do_op ops new_cache = run spec_op ops ∅.
Proof.
  assert (H : forall c M, represents c M -> run do_op ops c = run spec_op ops M); [|apply H, new_cache_represents].
  induction ops as [|o ops IH]; intros c M R; [done|]. simpl.
  destruct (do_op_represents o c M R) as [E1 E2].
  destruct (do_op o c) as [a c'], (spec_op o M) as [a' M']. simpl in *. f_equal; [done|]. by apply IH.
Qed.
End Fastcache.

Definition cache_ops : list cache_op :=
  [Set_ 100 (bs "a") (bs "1") 10; Append 105 (bs "a") (bs "2") 10; Set_ 105 (bs "b") (bs "3") 1; Get 110 (bs "b");
   Exists_ (bs "b"); Get 115 (bs "a"); Set_ 115 (bs "c") [] 1; Total_size; Sweep 117; Total_size; Get 117 (bs "a")].

Lemma cache_refines_map_witness :
  (0 < 32)%nat /\ run (do_op (fun k => length k) 32) cache_ops (new_cache 32) =
    [Nothing; Nothing; Nothing; Value false []; Found false; Value true (bs "1,2"); Nothing; Count 2; Nothing; Count 0;
     Value false []].
Proof. split; [lia|]. rewrite (cache_refines_map (fun k => length k) 32 ltac:(lia)). vm_compute. reflexivity. Defined.

(** an item that is expired but has not been swept is there for exists, and an
    append brings its old value back *)
Lemma append_revives_expired :
  run spec_op [Set_ 100 (bs "a") (bs "old") 10; Exists_ (bs "a"); Append 500 (bs "a") (bs "new") 10; Get 500 (bs "a")] ∅ =
    [Nothing; Found true; Nothing; Value true (bs "old,new")].
Proof. vm_compute. reflexivity. Qed.
