(* ===== verification/WsManager.v ===== *)
(** * The registry of websockets and its senders

    include/netcore/websocket_manager.h (and core/websocket_manager.cpp, an older
    copy of the same functions): WS_manager maps ids to sockets; a message is
    framed and committed to a thread pool, whose workers (lib/threadpool.hpp) write
    it under one of four mutexes, chosen by the socket.  A world is the registry,
    the tasks, what each worker is doing and what has been written; a step is one
    operation of the registry, one ::send or one taking or giving up of a mutex. *)

From Stdlib Require Import ZArith Lia.
From stdpp Require Import base numbers list gmap strings fin_sets.
From S2P Require Import Prelude CStd Transition WebSocket.
Local Open Scope Z_scope.

(** ** The registry *)

Record WS_manager := mk_manager { u_map : gmap bytes Z; fd_set : gset Z }.

Definition empty_manager : WS_manager := mk_manager ∅ ∅.

Definition regist (id : bytes) (fd : Z) (m : WS_manager) : bool * WS_manager :=
  match u_map m !! id with
  | Some _ => (false, m)
  | None => if bool_decide (fd ∈ fd_set m) then (false, m)
            else (true, mk_manager (<[id := fd]> (u_map m)) ({[fd]} ∪ fd_set m))
  end.

(** unregist does not ask whether the two belong together *)
Definition unregist (id : bytes) (fd : Z) (m : WS_manager) : WS_manager :=
  mk_manager (delete id (u_map m)) (fd_set m ∖ {[fd]}).

Definition get_fd (key : bytes) (m : WS_manager) : Z := default (-1) (u_map m !! key).

(** the ids and the sockets correspond one to one *)
Record registry_ok (m : WS_manager) : Prop := mk_registry {
  registry_fds : forall fd, fd ∈ fd_set m <-> exists id, u_map m !! id = Some fd;
  registry_inj : forall i j fd, u_map m !! i = Some fd -> u_map m !! j = Some fd -> i = j
}.

Lemma empty_registry_ok : registry_ok empty_manager.
Proof. split; simpl; [intros fd|intros i j fd H _]; [set_solver|by rewrite lookup_empty in H]. Qed.

Lemma regist_ok id fd m : registry_ok m -> registry_ok (regist id fd m).2.
Proof.
  intros [F I]. unfold regist. destruct (u_map m !! id) as [f|] eqn:E; [done|].
  case_bool_decide as Hf; [done|]. simpl. split; simpl.
  - intros g. rewrite elem_of_union, elem_of_singleton, F. split.
    + intros [->|[i Hi]]; [exists id; apply lookup_insert_eq|]. exists i. rewrite lookup_insert_ne; [done|congruence].
    + intros [i Hi]. apply lookup_insert_Some in Hi as [[-> ->]|[_ Hi]]; eauto.
  - intros i j g Hi Hj. apply lookup_insert_Some in Hi as [[<- <-]|[Hni Hi]];
      apply lookup_insert_Some in Hj as [[<- Ej]|[Hnj Hj]]; try done.
    + exfalso. apply Hf, F. eauto.
    + subst. exfalso. apply Hf, F. eauto.
    + eauto.
Qed.

Lemma unregist_ok id fd m : registry_ok m -> u_map m !! id = Some fd -> registry_ok (unregist id fd m).
Proof.
  intros [F I] E. split; simpl.
  - intros g. rewrite elem_of_difference, elem_of_singleton, F. split.
    + intros [[i Hi] Hne]. exists i. rewrite lookup_delete_ne; [done|]. congruence.
    + intros [i [Hne Hi]%lookup_delete_Some]. split; [eauto|]. intros ->. apply Hne. eauto.
  - intros i j g [_ Hi]%lookup_delete_Some [_ Hj]%lookup_delete_Some. eauto.
Qed.

(** a run of registrations and of removals of an id together with its own socket *)
Inductive legal_run : WS_manager -> WS_manager -> Prop :=
| legal_done m : legal_run m m
| legal_regist m id fd m' : legal_run m m' -> legal_run m (regist id fd m').2
| legal_unregist m id fd m' : legal_run m m' -> u_map m' !! id = Some fd -> legal_run m (unregist id fd m').

(** no socket has two ids, and exactly the sockets that have an id are taken *)
Lemma registry_one_to_one m : legal_run empty_manager m -> registry_ok m.
Proof.
  remember empty_manager as m0. induction 1; subst; [apply empty_registry_ok|apply regist_ok; auto|apply unregist_ok; auto].
Qed.

(** with a socket that is not the id's, a socket stays taken that nobody has *)
Lemma unregist_mismatch :
  let m := unregist (bs "judge") 5 (regist (bs "judge") 3 empty_manager).2 in
  get_fd (bs "judge") m = -1 /\ (regist (bs "other") 3 m).1 = false.
Proof. split; vm_compute; reflexivity. Qed.

(** ** Sending *)

Record task := mk_task { task_fd : Z; send_msg : bytes; close_after : bool }.

(** send_ws_msg: header and message, as one task *)
Definition send_ws_msg (fd : Z) (msg : bytes) (op : opcode) (close : bool) : task :=
  mk_task fd (format_header (Z.of_nat (length msg)) op ++ msg) close.

(** which of the four mutexes fd_mutex a task takes: fd % 4, which is negative, and no index
    of the array, for most negative fds *)
Definition fd_mutex (t : task) : Z := Z.rem (task_fd t) 4.

(** Writen's nLeft, an int, when [idx] bytes are out *)
Definition nLeft (t : task) (idx : nat) : Z := to_int32 (Z.of_nat (length (send_msg t))) - Z.of_nat idx.

(** a worker: idle, with a task but without its mutex, or writing it (Writen's
    idx, the bytes of it that are out) *)
Inductive worker := Idle | Got (t : task) | Writing (t : task) (idx : nat).

Record world := mk_world {
  manager : WS_manager;
  tasks : list task;
  workers : gmap positive worker;
  wire : Z -> bytes;
  shut : gset Z;
  committed : list task
}.

Inductive action :=
| Regist (id : bytes) (fd : Z)
| Unregist (id : bytes) (fd : Z)
| Send_msg_by_id (id msg : bytes) (close : bool)
| Close_by_key (key : bytes)
| Take (w : positive)
| Lock (w : positive)
| Send (w : positive) (n : nat)     (** ::send takes n bytes, at least one and at most nLeft *)
| Send_fails (w : positive)
| Unlock (w : positive).

Definition put_worker (w : positive) (x : worker) (s : world) : world :=
  mk_world (manager s) (tasks s) (<[w := x]> (workers s)) (wire s) (shut s) (committed s).

Definition writes (t : task) (x : worker) : bool :=
  match x with Writing t' _ => fd_mutex t' =? fd_mutex t | _ => false end.

(** the end of the task: Close, and the mutex is given up *)
Definition leave (w : positive) (t : task) (s : world) : world :=
  mk_world (manager s) (tasks s) (<[w := Idle]> (workers s)) (wire s)
           (if close_after t then {[task_fd t]} ∪ shut s else shut s) (committed s).

(** [None]: the operation cannot be done now; for Lock, too, that the mutex is outside the
    array, which is undefined *)
Definition step (a : action) (s : world) : option world :=
  match a with
  | Regist id fd => Some (mk_world (regist id fd (manager s)).2 (tasks s) (workers s) (wire s) (shut s) (committed s))
  | Unregist id fd => Some (mk_world (unregist id fd (manager s)) (tasks s) (workers s) (wire s) (shut s) (committed s))
  | Send_msg_by_id id msg cl =>
      let fd := get_fd id (manager s) in
      if fd =? -1 then Some s
      else
        let t := send_ws_msg fd msg text cl in
        Some (mk_world (manager s) (tasks s ++ [t]) (workers s) (wire s) (shut s) (committed s ++ [t]))
  | Close_by_key key =>
      let fd := get_fd key (manager s) in
      Some (mk_world (manager s) (tasks s) (workers s) (wire s) (if negb (fd =? -1) then {[fd]} ∪ shut s else shut s) (committed s))
  | Take w =>
      match workers s !! w, tasks s with
      | Some Idle, t :: ts => Some (mk_world (manager s) ts (<[w := Got t]> (workers s)) (wire s) (shut s) (committed s))
      | _, _ => None
      end
  | Lock w =>
      match workers s !! w with
      | Some (Got t) =>
          if fd_mutex t <? 0 then None
          else if bool_decide (map_Forall (fun _ x => writes t x = false) (workers s)) then Some (put_worker w (Writing t 0) s)
          else None
      | _ => None
      end
  | Send w n =>
      match workers s !! w with
      | Some (Writing t idx) =>
          if (1 <=? n)%nat && (Z.of_nat n <=? nLeft t idx) then
            Some (mk_world (manager s) (tasks s) (<[w := Writing t (idx + n)]> (workers s))
                    (fun fd => if fd =? task_fd t then wire s fd ++ take n (drop idx (send_msg t)) else wire s fd)
                    (shut s) (committed s))
          else None
      | _ => None
      end
  | Send_fails w =>
      match workers s !! w with
      | Some (Writing t idx) => if 0 <? nLeft t idx then Some (leave w t s) else None
      | _ => None
      end
  | Unlock w =>
      match workers s !! w with
      | Some (Writing t idx) => if nLeft t idx <=? 0 then Some (leave w t s) else None
      | _ => None
      end
  end.

Definition start (pool : gmap positive worker) : world := mk_world empty_manager [] ((fun _ => Idle) <$> pool) (fun _ => []) ∅ [].

(** ** Frames are not interleaved *)

Definition writing (s : world) (w : positive) (t : task) (idx : nat) : Prop := workers s !! w = Some (Writing t idx).

Definition whole_frames (s : world) (fd : Z) (frames : list bytes) : Prop :=
  Forall (fun f => exists t, t ∈ committed s /\ task_fd t = fd /\ send_msg t = f) frames.

(** an fd that indexes the array, and a length that is an int *)
Definition task_ok (t : task) : Prop := 0 <= task_fd t /\ Z.of_nat (length (send_msg t)) < 2 ^ 31.

Record world_inv (s : world) : Prop := mk_inv {
  inv_registered : forall id fd, u_map (manager s) !! id = Some fd -> 0 <= fd;
  inv_committed : forall t, t ∈ committed s -> task_ok t;
  inv_mutex : forall w1 w2 t1 t2 i1 i2, writing s w1 t1 i1 -> writing s w2 t2 i2 -> fd_mutex t1 = fd_mutex t2 -> w1 = w2;
  inv_tasks : forall t, t ∈ tasks s -> t ∈ committed s;
  inv_workers : forall w t, (workers s !! w = Some (Got t) \/ exists i, writing s w t i) -> t ∈ committed s;
  inv_wire : forall fd, exists frames, whole_frames s fd frames /\
    (forall w t i, writing s w t i -> task_fd t = fd -> wire s fd = concat frames ++ take i (send_msg t)) /\
    ((forall w t i, writing s w t i -> task_fd t <> fd) -> wire s fd = concat frames)
}.

Lemma start_inv pool : world_inv (start pool).
Proof.
  assert (N : forall w t i, ~ writing (start pool) w t i).
  { intros w t i H. unfold writing in H. simpl in H. by apply lookup_fmap_Some in H as (? & ? & _). }
  split.
  - intros id fd H. cbn in H. by rewrite lookup_empty in H.
  - intros t Ht. by apply elem_of_nil in Ht.
  - intros w1 w2 t1 t2 i1 i2 H. by apply N in H.
  - intros t Ht. by apply elem_of_nil in Ht.
  - intros w t [H|[i H]]; [|by apply N in H]. by apply lookup_fmap_Some in H as (? & ? & _).
  - intros fd. exists []. split; [constructor|]. split; [|done]. intros w t i H. by apply N in H.
Qed.

(** what happens with descriptors for sockets, messages whose frame is shorter than 2^31, and
    without a failing ::send *)
Definition orderly (a : action) : Prop :=
  match a with
  | Send_fails _ => False
  | Regist _ fd => 0 <= fd
  | Send_msg_by_id _ msg _ => Z.of_nat (length (format_header (Z.of_nat (length msg)) text ++ msg)) < 2 ^ 31
  | _ => True
  end.

Lemma whole_frames_mono s s' fd frames :
  (forall t, t ∈ committed s -> t ∈ committed s') -> whole_frames s fd frames -> whole_frames s' fd frames.
Proof. intros H F. eapply Forall_impl; [exact F|]. intros f (t & Ht & ?). eauto. Qed.

Lemma inv_manager m sh s :
  world_inv s -> (forall id fd, u_map m !! id = Some fd -> 0 <= fd) ->
  world_inv (mk_world m (tasks s) (workers s) (wire s) sh (committed s)).
Proof. by intros [? ? ? ? ? ?]; split. Qed.

Lemma inv_commit t s :
  world_inv s -> task_ok t -> world_inv (mk_world (manager s) (tasks s ++ [t]) (workers s) (wire s) (shut s) (committed s ++ [t])).
Proof.
  intros [R C M T K W] Ht. split; simpl.
  - exact R.
  - intros x [Hx|Hx]%elem_of_app; [by apply C|]. by apply list_elem_of_singleton in Hx as ->.
  - exact M.
  - intros x [Hx|Hx]%elem_of_app; apply elem_of_app; auto.
  - intros w x H. apply elem_of_app; left. eauto.
  - intros fd. destruct (W fd) as (frames & F & H). exists frames. split; [|exact H].
    eapply whole_frames_mono; [|exact F]. simpl. intros x Hx. apply elem_of_app; by left.
Qed.

(** a worker who was not writing and still is not *)
Lemma inv_not_writing w x ts sh s :
  world_inv s -> (forall t i, ~ writing s w t i) -> (forall t i, x <> Writing t i) ->
  (forall t, t ∈ ts -> t ∈ tasks s) -> (forall t, x = Got t -> t ∈ tasks s) ->
  world_inv (mk_world (manager s) ts (<[w := x]> (workers s)) (wire s) sh (committed s)).
Proof.
  intros [R C M T K W] Hw Hx Hts Hgot.
  assert (E : forall w' t i, writing (mk_world (manager s) ts (<[w := x]> (workers s)) (wire s) sh (committed s)) w' t i <-> writing s w' t i).
  { intros w' t i. unfold writing; simpl. rewrite lookup_insert_Some. split.
    - intros [[-> Ex]|[_ H]]; [by apply Hx in Ex|done].
    - intros H. right. split; [|done]. intros ->. by apply Hw in H. }
  split; [exact R|exact C|..].
  - intros w1 w2 t1 t2 i1 i2 H1%E H2%E. by apply (M w1 w2 t1 t2 i1 i2).
  - simpl. eauto.
  - intros w' t [H|[i H%E]]; [|simpl; eauto]. simpl in *. apply lookup_insert_Some in H as [[<- ->]|[_ H]]; eauto.
  - intros fd. destruct (W fd) as (frames & F & H1 & H2). exists frames. split; [exact F|]. split.
    + intros w' t i H%E. by apply (H1 w').
    + intros H. apply H2. intros w' t i Hw'. apply (H w' t i). by apply E.
Qed.

(** a worker who writes goes on from [i] to [i'], with [more] put on the wire *)
Lemma inv_writing w t i i' more s :
  world_inv s -> (writing s w t i \/ (i = 0%nat /\ workers s !! w = Some (Got t) /\
                                      forall w' t' j, writing s w' t' j -> fd_mutex t' <> fd_mutex t)) ->
  take i' (send_msg t) = take i (send_msg t) ++ more ->
  world_inv (mk_world (manager s) (tasks s) (<[w := Writing t i']> (workers s))
               (fun fd => if fd =? task_fd t then wire s fd ++ more else wire s fd) (shut s) (committed s)).
Proof.
  intros [R C M T K W] Hw Hmore.
  set (s' := mk_world _ _ _ _ _ _).
  assert (E : forall w' t' j, writing s' w' t' j <-> (w' = w /\ t' = t /\ j = i') \/ (w' <> w /\ writing s w' t' j)).
  { intros w' t' j. unfold writing; simpl. rewrite lookup_insert_Some. naive_solver. }
  assert (Other : forall w' t' j, w' <> w -> writing s w' t' j -> fd_mutex t' <> fd_mutex t).
  { intros w' t' j Hne H Heq. destruct Hw as [Hw|(_ & _ & Hn)]; [|by apply (Hn w' t' j)].
    apply Hne. by apply (M w' w t' t j i). }
  split; [exact R|exact C|..].
  - intros w1 w2 t1 t2 i1 i2 [(-> & -> & ->)|[N1 H1]]%E [(-> & -> & ->)|[N2 H2]]%E Hm; [done|..].
    + symmetry in Hm. by apply Other in H2.
    + by apply Other in H1.
    + by apply (M w1 w2 t1 t2 i1 i2).
  - exact T.
  - intros w' x [H|[j [(-> & -> & ->)|[_ H]]%E]].
    + simpl in H. apply lookup_insert_Some in H as [[_ H]|[_ H]]; [done|]. apply (K w'). by left.
    + apply (K w). destruct Hw as [Hw|(_ & Hw & _)]; [right; eauto|by left].
    + apply (K w'). right. eauto.
  - intros fd. destruct (W fd) as (frames & F & H1 & H2). exists frames. split; [exact F|].
    destruct (Z.eqb_spec fd (task_fd t)) as [->|Hfd].
    + assert (Hold : wire s (task_fd t) = concat frames ++ take i (send_msg t)).
      { destruct Hw as [Hw|(-> & _ & Hn)]; [by apply (H1 w)|]. simpl. rewrite app_nil_r. apply H2.
        intros w' t' j Hw' Heq. apply (Hn w' t' j Hw'). unfold fd_mutex. by rewrite Heq. }
      assert (Hnew : wire s' (task_fd t) = concat frames ++ take i' (send_msg t)).
      { unfold s'; simpl. rewrite Z.eqb_refl, Hold, <- app_assoc, Hmore. done. }
      split.
      * intros w' t' j [(-> & -> & ->)|[Hne H]]%E Heq; [exact Hnew|].
        exfalso. apply (Other w' t' j Hne H). unfold fd_mutex. by rewrite Heq.
      * intros H. exfalso. apply (H w t i'); [|done]. apply E. by left.
    + assert (Hw' : wire s' fd = wire s fd) by (unfold s'; simpl; by rewrite (proj2 (Z.eqb_neq _ _) Hfd)).
      rewrite Hw'. split.
      * intros w' t' j [(-> & -> & ->)|[Hne H]]%E Heq; [congruence|]. by apply (H1 w').
      * intros H. apply H2. intros w' t' j Hwr Heq. destruct (decide (w' = w)) as [->|Hne].
        -- destruct Hw as [Hw|(_ & Hw & _)]; unfold writing in *; rewrite Hw in Hwr; simplify_eq; done.
        -- apply (H w' t' j); [|done]. apply E. by right.
Qed.

(** a worker whose frame is out gives up the mutex *)
Lemma inv_unlock w t i s :
  world_inv s -> writing s w t i -> (length (send_msg t) <= i)%nat -> world_inv (leave w t s).
Proof.
  intros [R C M T K W] Hw Hi.
  assert (E : forall w' t' j, writing (leave w t s) w' t' j <-> w' <> w /\ writing s w' t' j).
  { intros w' t' j. unfold writing; simpl. rewrite lookup_insert_Some. naive_solver. }
  split; [exact R|exact C|..].
  - intros w1 w2 t1 t2 i1 i2 [_ H1]%E [_ H2]%E. by apply (M w1 w2 t1 t2 i1 i2).
  - exact T.
  - intros w' x [H|[j [_ H]%E]]; [|apply (K w'); right; eauto].
    simpl in H. apply lookup_insert_Some in H as [[_ H]|[_ H]]; [done|]. apply (K w'). by left.
  - intros fd. destruct (W fd) as (frames & F & H1 & H2). destruct (decide (fd = task_fd t)) as [->|Hfd].
    + exists (frames ++ [send_msg t]). split; [|split].
      * apply Forall_app. split; [exact F|]. apply Forall_singleton. exists t. split; [|done]. apply (K w). right. eauto.
      * intros w' t' j [Hne H]%E Heq. exfalso. apply Hne. apply (M w' w t' t j i H Hw).
        unfold fd_mutex. by rewrite Heq.
      * intros _. simpl. rewrite (H1 w _ _ Hw eq_refl), take_ge, concat_app by done. simpl. by rewrite app_nil_r.
    + exists frames. split; [exact F|]. split.
      * intros w' t' j [_ H]%E. by apply (H1 w').
      * intros H. apply H2. intros w' t' j Hwr Heq. destruct (decide (w' = w)) as [->|Hne].
        -- unfold writing in *. rewrite Hw in Hwr. by simplify_eq.
        -- apply (H w' t' j); [|done]. by apply E.
Qed.

Lemma step_inv a s s' : orderly a -> step a s = Some s' -> world_inv s -> world_inv s'.
Proof.
  intros Hok H I. destruct a as [id fd|id fd|id msg cl|key|w|w|w n|w|w]; simpl in H.
  - simplify_eq. apply inv_manager; [done|]. intros id' fd'. unfold regist. destruct (u_map (manager s) !! id); [apply I|].
    case_bool_decide; [apply I|]. cbn. intros [[_ <-]|[_ Hi]]%lookup_insert_Some; [done|]. by eapply inv_registered.
  - simplify_eq. apply inv_manager; [done|]. cbn. intros id' fd' [_ Hi]%lookup_delete_Some. by eapply inv_registered.
  - destruct (get_fd id (manager s) =? -1) eqn:E; simplify_eq; [done|]. apply inv_commit; [done|]. split; [|done].
    cbn. revert E. unfold get_fd. destruct (u_map (manager s) !! id) eqn:Ei; [|done]. intros _. by eapply inv_registered.
  - simplify_eq. apply inv_manager; [done|]. apply I.
  - destruct (workers s !! w) as [[|t|t i]|] eqn:Ew; try done. destruct (tasks s) as [|t ts] eqn:Et; simplify_eq.
    apply inv_not_writing; [done|..].
    + intros x i Hx. unfold writing in Hx. congruence.
    + done.
    + intros x Hx. rewrite Et. apply elem_of_cons; by right.
    + intros x [= ->]. rewrite Et. apply list_elem_of_here.
  - destruct (workers s !! w) as [[|t|t i]|] eqn:Ew; try done. destruct (fd_mutex t <? 0); [done|]. case_bool_decide as Hm; simplify_eq.
    assert (Hn : forall w' t' j, writing s w' t' j -> fd_mutex t' <> fd_mutex t).
    { intros w' t' j Hw'. pose proof (Hm w' _ Hw') as Hx. simpl in Hx. by apply Z.eqb_neq in Hx. }
    pose proof (inv_writing w t 0 0 [] s I (or_intror (conj eq_refl (conj Ew Hn))) eq_refl) as I'.
    destruct I' as [R C M T K W]. split; [exact R|exact C|exact M|exact T|exact K|].
    intros fd. destruct (W fd) as (frames & F & H1 & H2). exists frames. split; [exact F|]. simpl in H1, H2.
    replace (wire s fd ++ []) with (wire s fd) in * by (by rewrite app_nil_r).
    destruct (fd =? task_fd t); (split; [exact H1|exact H2]).
  - destruct (workers s !! w) as [[|t|t i]|] eqn:Ew; try done.
    match type of H with (if ?b then _ else _) = _ => destruct b end; simplify_eq.
    apply (inv_writing w t i (i + n) (take n (drop i (send_msg t)))); [done|by left|].
    symmetry. apply take_take_drop.
  - done.
  - destruct (workers s !! w) as [[|t|t i]|] eqn:Ew; try done.
    destruct (nLeft t i <=? 0) eqn:El; simplify_eq. apply (inv_unlock w t i); [done..|].
    destruct (inv_committed _ I t) as [_ Hlen]; [apply (inv_workers _ I w); right; by exists i|].
    unfold nLeft in El. rewrite to_int32_small in El by lia. zbool. lia.
Qed.

Definition writes_to (fd : Z) (x : worker) : bool :=
  match x with Writing t _ => task_fd t =? fd | _ => false end.

(** C17. The frames of the messages sent through WS_manager are never mixed up on
    the wire: in whatever order the workers go on, with sockets and ids registered
    meanwhile, as long as no ::send fails or would block, every frame is shorter than
    2^31 bytes and the registered descriptors are not negative ([orderly]), what has been
    written to a socket is a sequence of whole frames of messages for that socket,
    followed by the part of one more that the one worker writing to it has got out. *)
Theorem frames_not_interleaved pool s fd :
  reachable step orderly (start pool) s ->
  exists frames part, wire s fd = concat frames ++ part /\ whole_frames s fd frames /\
    (part = [] \/ exists w t i, writing s w t i /\ task_fd t = fd /\ t ∈ committed s /\ part = take i (send_msg t)).
Proof.
  intros R. assert (I : world_inv s).
  { eapply reachable_inv; [apply start_inv| |exact R]. eauto using step_inv. }
  destruct I as [_ _ M T K W]. destruct (W fd) as (frames & F & H1 & H2).
  destruct (decide (map_Forall (fun _ x => writes_to fd x = false) (workers s))) as [Hn|Hn].
  - exists frames, []. rewrite app_nil_r. split; [|split; [exact F|by left]].
    apply H2. intros w t i Hw. pose proof (Hn w _ Hw) as Hx. by apply Z.eqb_neq in Hx.
  - apply map_not_Forall in Hn as (w & x & Hw & Hx); [|apply _].
    destruct x as [| |t i]; [by destruct Hx..|]. apply not_false_iff_true, Z.eqb_eq in Hx.
    exists frames, (take i (send_msg t)). split; [by apply (H1 w)|]. split; [exact F|].
    right. exists w, t, i. split; [exact Hw|]. split; [exact Hx|]. split; [|done]. apply (K w). right. by exists i.
Qed.

(** two workers and two messages for one socket *)
Definition two_workers : gmap positive worker := {[ 1%positive := Idle; 2%positive := Idle ]}.
Definition two_messages : list action :=
  [Regist (bs "judge") 7; Send_msg_by_id (bs "judge") (bs "first") false; Send_msg_by_id (bs "judge") (bs "second") true;
   Take 1; Take 2; Lock 2; Send 2 3; Send 2 5; Unlock 2; Lock 1; Send 1 4].

Lemma frames_not_interleaved_witness :
  exists s, run step two_messages (start two_workers) = Some s /\
    exists frames part, wire s 7 = concat frames ++ part /\ whole_frames s 7 frames /\
      (part = [] \/ exists w t i, writing s w t i /\ task_fd t = 7 /\ t ∈ committed s /\ part = take i (send_msg t)).
Proof.
  destruct (run step two_messages (start two_workers)) as [s|] eqn:E; [|vm_compute in E; discriminate].
  exists s. split; [reflexivity|]. apply (frames_not_interleaved two_workers).
  apply (run_reachable step orderly two_messages); [|exact E].
  repeat (apply Forall_cons; split; [try done; vm_compute; done|]). apply Forall_nil_2.
Defined.

(** The conditions are needed: a worker whose ::send would block leaves a part of its frame
    on the wire, and the next frame follows it; a frame of 2^31 bytes or more is not
    written; and with most negative descriptors no task gets a mutex of the array. *)
Lemma failed_send_cuts_frame :
  option_map (fun s => wire s 7)
    (run step [Regist (bs "judge") 7; Send_msg_by_id (bs "judge") (bs "first") false; Send_msg_by_id (bs "judge") (bs "second") true;
       Take 1; Lock 1; Send 1 4; Send_fails 1; Take 2; Lock 2; Send 2 8] (start two_workers)) =
  Some ([129; 5] ++ bs "fi" ++ [129; 6] ++ bs "second").
Proof. vm_compute. reflexivity. Qed.

Lemma long_frame_not_written w t s :
  workers s !! w = Some (Writing t 0) -> 2 ^ 31 <= Z.of_nat (length (send_msg t)) < 2 ^ 32 ->
  step (Unlock w) s = Some (leave w t s).
Proof.
  intros Hw Hlen. cbn [step]. rewrite Hw. unfold nLeft.
  rewrite (proj2 (Z.leb_le _ 0)); [done|]. unfold to_int32. cbn [Z.of_nat].
  replace (Z.of_nat (length (send_msg t)) + 2 ^ 31) with (Z.of_nat (length (send_msg t)) - 2 ^ 31 + 1 * 2 ^ 32) by lia.
  rewrite Z.mod_add, Z.mod_small by lia. lia.
Qed.

Lemma negative_fd_no_mutex msg : fd_mutex (send_ws_msg (-5) msg text false) = -1.
Proof. done. Qed.

(** but the second message overtakes the first *)
Lemma messages_overtake :
  option_map (fun s => wire s 7) (run step two_messages (start two_workers)) =
    Some ([129; 6] ++ bs "second" ++ [129; 5] ++ bs "fi").
Proof. vm_compute. reflexivity. Qed.
