(* ===== verification/WsSend.v ===== *)
(** * Messages that a connection sends

    include/netcore/connection.hpp: send_ws_msg and its variants, which frame a message
    and leave it to WS_manager (WsManager.v), and the double buffer of send_msg, which
    writes straight to the socket; a write is what direct_write is given. *)

From Stdlib Require Import ZArith Lia.
From stdpp Require Import base numbers list.
From S2P Require Import Prelude WebSocket WsManager.
Local Open Scope Z_scope.

(** ** Through the manager *)

(** WS_manager::send_ws_string *)
Definition manager_send_ws_string (fd : Z) (msg : bytes) (close : bool) : task := WsManager.send_ws_msg fd msg text close.

(** send_msg(header, data) *)
Definition send_msg_framed (fd : Z) (header data : bytes) : task := manager_send_ws_string fd (header ++ data) false.

Definition send_ws_msg (fd : Z) (msg : bytes) (op : opcode) : task :=
  send_msg_framed fd (format_header (Z.of_nat (length msg)) op) msg.
Definition send_ws_string (fd : Z) (msg : bytes) : task := send_ws_msg fd msg text.
Definition send_ws_binary (fd : Z) (msg : bytes) : task := send_ws_msg fd msg binary.

(** A frame inside a frame: what the peer takes for the message begins with the header
    that send_ws_msg made, and whatever was asked for it is a text. *)
Lemma framed_twice fd msg op :
  Z.of_nat (length msg) < 2 ^ 63 ->
  let inner := frame_head true op false (Z.of_nat (length msg)) ++ msg in
  send_msg (send_ws_msg fd msg op) = frame_head true text false (Z.of_nat (length inner)) ++ inner.
Proof.
  intros Hm inner. unfold send_ws_msg, send_msg_framed, manager_send_ws_string, WsManager.send_ws_msg, format_header. cbn [send_msg].
  rewrite !encode_header_rfc; [done|lia|].
  assert (length (frame_head true op false (Z.of_nat (length msg))) <= 10)%nat.
  { unfold frame_head, len_ext. repeat case_match; rewrite ?length_app, ?be_bytes_length; cbn [length]; lia. }
  rewrite encode_header_rfc, length_app by lia. lia.
Qed.

(** ** The double buffer *)

Record double_buffer := mk_buffers {
  inactive : list bytes;      (** buffers_[active_buffer_ ^ 1] *)
  active : list bytes;        (** buffers_[active_buffer_] *)
  active_buffer_ : Z;
  buffer_seq_ : bytes
}.
Definition new_buffers : double_buffer := mk_buffers [] [] 0 [].

Definition writing (b : double_buffer) : bool := negb (bool_decide (buffer_seq_ b = [])).

(** the other buffer becomes the active one, is written and cleared *)
Definition do_write_msg (b : double_buffer) : double_buffer * list bytes :=
  (mk_buffers (active b) [] (Z.lxor (active_buffer_ b) 1) [], inactive b).

(** send_msg(data) *)
Definition send_msg_direct (data : bytes) (b : double_buffer) : double_buffer * list bytes :=
  let b := mk_buffers (inactive b ++ [data]) (active b) (active_buffer_ b) (buffer_seq_ b) in
  if writing b then (b, []) else do_write_msg b.

Fixpoint send_all (l : list bytes) (b : double_buffer) : double_buffer * list bytes :=
  match l with
  | [] => (b, [])
  | data :: l => let '(b, out) := send_msg_direct data b in let '(b, out') := send_all l b in (b, out ++ out')
  end.

(** nothing ever makes buffer_seq_ longer, so that every message is written at once, in
    its turn, and none stays behind in a buffer *)
Lemma messages_written_at_once l :
  (send_all l new_buffers).2 = l /\ inactive (send_all l new_buffers).1 = [] /\ active (send_all l new_buffers).1 = [] /\
  active_buffer_ (send_all l new_buffers).1 = Z.of_nat (length l mod 2).
Proof.
  assert (forall l k, k = 0 \/ k = 1 ->
    send_all l (mk_buffers [] [] k []) = (mk_buffers [] [] ((k + Z.of_nat (length l)) mod 2) [], l)) as Hall.
  { clear l. induction l as [|d l IH]; intros k Hk; cbn [send_all].
    - destruct Hk as [-> | ->]; done.
    - change (send_msg_direct d (mk_buffers [] [] k [])) with (mk_buffers [] [] (Z.lxor k 1) [], [d]).
      cbv beta iota. rewrite IH by (destruct Hk as [-> | ->]; auto). cbn [app length]. do 2 f_equal.
      destruct Hk as [-> | ->]; cbn [Z.lxor]; rewrite Nat2Z.inj_succ.
      + change (Z.lxor 0 1) with 1. f_equal. lia.
      + change (Z.lxor 1 1) with 0. replace (1 + Z.succ (Z.of_nat (length l))) with (0 + Z.of_nat (length l) + 1 * 2) by lia.
        by rewrite Z_mod_plus_full. }
  unfold new_buffers. rewrite Hall by auto. cbn [fst snd inactive active active_buffer_]. split_and!; try done.
  rewrite Z.add_0_l, Nat2Z.inj_mod. done.
Qed.
