(* ===== verification/ThreadPool.v ===== *)
(** * The thread pool

    lib/threadpool.hpp: workers that wait on a condition variable for tasks, commit,
    and the destructor.  Unlike the queue of BlockQueue.v the flag _run is not
    guarded by the mutex, so that a step here is one access: a read of _run, taking
    or giving up the mutex, one evaluation of the predicate under it, going to
    sleep (which gives the mutex up), pushing a task, a notification.  Whoever is
    notified is part of the step, and a sleeping worker may wake up for no reason. *)

From Stdlib Require Import Lia.
From stdpp Require Import base numbers list gmap fin_maps.
From S2P Require Import Prelude Transition.

Section threadpool.
Context {T : Type}.

(** where a worker is in its loop *)
Inductive worker :=
| At_loop                 (** while ( _run ) *)
| At_lock                 (** unique_lock lck *)
| At_pred                 (** the predicate of wait; the mutex is held *)
| Falls_asleep            (** the predicate was false; the mutex is held *)
| Asleep
| Awake                   (** woken, before it has the mutex again *)
| At_body                 (** behind wait; the mutex is held *)
| Runs (t : T)
| Gone.

(** a thread that commits tasks: before the check, before the push, before notify_one *)
Inductive submitter := Commits (ts : list T) | Pushes (t : T) (ts : list T) | Notifies (ts : list T).

(** the destructor: not begun, _run is false, everybody was notified *)
Inductive dtor := Alive | Stopping | Joining.

Notation tid := positive (only parsing).

Record threadpool := mk_pool {
  _run : bool;
  _tasks : list T;
  _lock : option tid;
  _pool : gmap tid worker;
  submitters : gmap tid submitter;
  destructor : dtor;
  committed : list T;       (** in the order of the pushes *)
  started : list T          (** in the order of the pops *)
}.

Definition holds (w : worker) : bool := match w with At_pred | Falls_asleep | At_body => true | _ => false end.

Definition put_worker (lock : option tid) (i : tid) (w : worker) (s : threadpool) : threadpool :=
  mk_pool (_run s) (_tasks s) lock (<[i := w]> (_pool s)) (submitters s) (destructor s) (committed s) (started s).
Definition put_submitter (i : tid) (x : submitter) (s : threadpool) : threadpool :=
  mk_pool (_run s) (_tasks s) (_lock s) (_pool s) (<[i := x]> (submitters s)) (destructor s) (committed s) (started s).

Definition is_asleep (w : worker) : bool := match w with Asleep => true | _ => false end.
Definition nobody_sleeps (s : threadpool) : bool := bool_decide (map_Forall (fun _ w => is_asleep w = false) (_pool s)).

(** ** Steps *)

(** the worker's loop *)
Definition worker_step (i : tid) (s : threadpool) : option threadpool :=
  w ← _pool s !! i;
  match w with
  | At_loop => Some (put_worker (_lock s) i (if _run s then At_lock else Gone) s)
  | At_lock | Awake =>
      match _lock s with None => Some (put_worker (Some i) i At_pred s) | Some _ => None end
  | At_pred =>
      Some (put_worker (_lock s) i (match _tasks s with [] => if _run s then Falls_asleep else At_body | _ => At_body end) s)
  | Falls_asleep => Some (put_worker None i Asleep s)
  | Asleep => None
  | At_body =>
      match _tasks s with
      | [] => if _run s then None                    (* front() of an empty queue *)
              else Some (put_worker None i Gone s)
      | t :: ts => Some (mk_pool (_run s) ts None (<[i := Runs t]> (_pool s)) (submitters s) (destructor s)
                                 (committed s) (started s ++ [t]))
      end
  | Runs _ => Some (put_worker (_lock s) i At_loop s)
  | Gone => None
  end.

(** commit throws when the pool was stopped *)
Definition commit_step (i : tid) (who : option tid) (s : threadpool) : option threadpool :=
  x ← submitters s !! i;
  match x with
  | Commits [] => None
  | Commits (t :: ts) => Some (put_submitter i (if _run s then Pushes t ts else Commits []) s)
  | Pushes t ts =>
      match _lock s with
      | None => Some (mk_pool (_run s) (_tasks s ++ [t]) None (_pool s) (<[i := Notifies ts]> (submitters s)) (destructor s)
                              (committed s ++ [t]) (started s))
      | Some _ => None
      end
  | Notifies ts =>
      match who with
      | None => if nobody_sleeps s then Some (put_submitter i (Commits ts) s) else None
      | Some j =>
          match _pool s !! j with
          | Some Asleep => Some (put_submitter i (Commits ts) (put_worker (_lock s) j Awake s))
          | _ => None
          end
      end
  end.

Definition stop_step (s : threadpool) : option threadpool :=
  match destructor s with
  | Alive => Some (mk_pool false (_tasks s) (_lock s) (_pool s) (submitters s) Stopping (committed s) (started s))
  | Stopping =>
      Some (mk_pool (_run s) (_tasks s) (_lock s) ((fun w => if is_asleep w then Awake else w) <$> _pool s) (submitters s) Joining
                    (committed s) (started s))
  | Joining => None
  end.

Inductive action := Work (i : tid) | Commit (i : tid) (who : option tid) | Stop | Spurious (i : tid).

Definition step (a : action) (s : threadpool) : option threadpool :=
  match a with
  | Work i => worker_step i s
  | Commit i who => commit_step i who s
  | Stop => stop_step s
  | Spurious i => match _pool s !! i with Some Asleep => Some (put_worker (_lock s) i Awake s) | _ => None end
  end.

Definition start (workers : gmap tid unit) (programs : gmap tid (list T)) : threadpool :=
  mk_pool true [] None ((fun _ => At_loop) <$> workers) (Commits <$> programs) Alive [] [].

(** ** Invariants *)

(** somebody will look at the queue, or is about to wake somebody who does *)
Definition looks (w : worker) : Prop := match w with Asleep | Gone => False | _ => True end.
Definition somebody_looks (s : threadpool) : Prop := exists i w, _pool s !! i = Some w /\ looks w.
Definition somebody_notifies (s : threadpool) : Prop := exists i ts, submitters s !! i = Some (Notifies ts).

Record pool_inv (s : threadpool) : Prop := mk_inv {
  inv_lock : forall i w, _pool s !! i = Some w -> (holds w = true <-> _lock s = Some i);
  inv_order : committed s = started s ++ _tasks s;
  inv_asleep : forall i, _pool s !! i = Some Falls_asleep -> _tasks s = [];
  inv_run : destructor s = Alive -> _run s = true /\ forall i, _pool s !! i <> Some Gone;
  inv_body : forall i, _pool s !! i = Some At_body -> destructor s = Alive -> _tasks s <> [];
  inv_wake : destructor s = Alive -> _tasks s <> [] -> (exists i w, _pool s !! i = Some w) -> somebody_looks s \/ somebody_notifies s
}.

Lemma pool_start_inv workers programs : pool_inv (start workers programs).
Proof.
  assert (W : forall i w, _pool (start workers programs) !! i = Some w -> w = At_loop).
  { intros i w H. simpl in H. by apply lookup_fmap_Some in H as (? & <- & _). }
  split.
  - intros i w H. rewrite (W i w H). done.
  - done.
  - intros i H. by apply W in H.
  - intros _. split; [done|]. intros i H. by apply W in H.
  - intros i H. by apply W in H.
  - done.
Qed.

(** a worker goes from [w] to [w'], and the mutex changes as that says *)
Lemma put_worker_inv i w w' lock s :
  pool_inv s -> _pool s !! i = Some w ->
  (_lock s = Some i \/ _lock s = None \/ holds w' = false) ->
  lock = (if holds w' then Some i else if holds w then None else _lock s) ->
  (w' = Falls_asleep -> _tasks s = []) ->
  (w' = At_body -> destructor s = Alive -> _tasks s <> []) ->
  (w' = Gone -> destructor s <> Alive) ->
  (w' = Asleep -> _tasks s = []) ->
  pool_inv (put_worker lock i w' s).
Proof.
  intros [L O F R B W] Hi Hfree -> H1 H2 H3 H4. pose proof (L i w Hi) as Lw.
  assert (Hother : forall j v, j <> i -> _pool s !! j = Some v -> holds w' = true -> holds v = false).
  { intros j v Hne Hj Hw'. destruct (holds v) eqn:Ev; [|done]. apply (L j v Hj) in Ev.
    destruct Hfree as [Hf|[Hf|Hf]]; congruence. }
  split; simpl.
  - intros j v Hj. apply lookup_insert_Some in Hj as [[<- <-]|[Hne Hj]].
    + destruct (holds w') eqn:E'; [done|]. destruct (holds w) eqn:E; [done|]. split; [done|]. intros El. apply Lw in El. congruence.
    + pose proof (L j v Hj) as Lv. destruct (holds w') eqn:E'.
      * rewrite (Hother j v) by done. split; [done|]. congruence.
      * destruct (holds w) eqn:E; [|done]. rewrite Lv. destruct Lw as [Lw _]. specialize (Lw eq_refl). rewrite Lw.
        split; [congruence|done].
  - done.
  - intros j Hj. apply lookup_insert_Some in Hj as [[<- ->]|[Hne Hj]]; [auto|]. eapply F; eauto.
  - intros Hd. destruct (R Hd) as [R1 R2]. split; [done|]. intros j Hj.
    apply lookup_insert_Some in Hj as [[<- ->]|[_ Hj]]; [by apply H3|by apply (R2 j)].
  - intros j Hj Hd. apply lookup_insert_Some in Hj as [[<- ->]|[_ Hj]]; [auto|]. eapply B; eauto.
  - intros Hd Ht _. left. exists i, w'. split; [apply lookup_insert_eq|].
    destruct w'; simpl; try done; [by apply Ht, H4|by destruct (H3 eq_refl)].
Qed.

Lemma worker_step_inv i s s' : worker_step i s = Some s' -> pool_inv s -> pool_inv s'.
Proof.
  intros H I. pose proof I as [L O F R B W]. unfold worker_step in H.
  destruct (_pool s !! i) as [w|] eqn:Hi; [|done]. simpl in H. pose proof (L i w Hi) as Lw.
  destruct w.
  - simplify_eq. destruct (_run s) eqn:Er; apply (put_worker_inv i At_loop); try done; auto.
    intros _ Hd. destruct (R Hd); congruence.
  - destruct (_lock s) eqn:El; simplify_eq. apply (put_worker_inv i At_lock); try done; auto.
  - simplify_eq. simpl in Lw. assert (Hl : _lock s = Some i) by (by apply Lw).
    destruct (_tasks s) as [|t ts] eqn:Et; [destruct (_run s) eqn:Er|]; apply (put_worker_inv i At_pred); try done; auto.
    + intros _ Hd. destruct (R Hd); congruence.
    + intros _ _. rewrite Et. done.
  - simplify_eq. apply (put_worker_inv i Falls_asleep); try done; auto. intros _. by apply (F i).
  - done.
  - destruct (_lock s) eqn:El; simplify_eq. apply (put_worker_inv i Awake); try done; auto.
  - assert (Hl : _lock s = Some i) by (by apply Lw). destruct (_tasks s) as [|t ts] eqn:Et.
    + destruct (_run s) eqn:Er; simplify_eq. apply (put_worker_inv i At_body); try done; auto.
      intros _ Hd. destruct (R Hd); congruence.
    + simplify_eq.
      assert (E : forall j v, <[i := Runs t]> (_pool s) !! j = Some v -> (j = i /\ v = Runs t) \/ (j <> i /\ _pool s !! j = Some v /\ holds v = false)).
      { intros j v Hj. apply lookup_insert_Some in Hj as [[<- <-]|[Hne Hj]]; [by left|right]. split; [done|]. split; [done|].
        destruct (holds v) eqn:Ev; [|done]. apply (L j v Hj) in Ev. congruence. }
      split; simpl.
      * intros j v [[-> ->]|(Hne & _ & Hv)]%E; [done|]. by rewrite Hv.
      * rewrite O, <- app_assoc. done.
      * intros j [[_ ?]|(_ & _ & ?)]%E; done.
      * intros Hd. destruct (R Hd) as [R1 R2]. split; [done|]. intros j [[_ ?]|(_ & Hj & _)]%E; [done|by apply (R2 j)].
      * intros j [[_ ?]|(_ & _ & ?)]%E; done.
      * intros _ _ _. left. exists i, (Runs t). split; [apply lookup_insert_eq|done].
  - simplify_eq. apply (put_worker_inv i (Runs t)); try done; auto.
  - done.
Qed.

(** an asleep worker is woken *)
Lemma wake_inv i s : pool_inv s -> _pool s !! i = Some Asleep -> pool_inv (put_worker (_lock s) i Awake s).
Proof. intros I Hi. apply (put_worker_inv i Asleep); try done; auto. Qed.

(** the submitters may change as long as nobody gives up a notification *)
Lemma put_submitter_inv i x s :
  pool_inv s -> (destructor s = Alive -> _tasks s <> [] -> (exists j w, _pool s !! j = Some w) ->
                 somebody_looks s \/ somebody_notifies (put_submitter i x s)) ->
  pool_inv (put_submitter i x s).
Proof. intros [L O F R B W] H. by split. Qed.

Lemma commit_step_inv i who s s' : commit_step i who s = Some s' -> pool_inv s -> pool_inv s'.
Proof.
  intros H I. pose proof I as [L O F R B W]. unfold commit_step in H.
  destruct (submitters s !! i) as [x|] eqn:Hi; [|done]. simpl in H.
  destruct x as [[|t ts]|t ts|ts]; [done|..].
  - simplify_eq. apply put_submitter_inv; [done|]. intros Hd Ht Hp. destruct (W Hd Ht Hp) as [?|(j & us & Hj)]; [by left|right].
    exists j, us. simpl. rewrite lookup_insert_ne; [done|congruence].
  - destruct (_lock s) eqn:El; simplify_eq.
    assert (N : forall j v, _pool s !! j = Some v -> holds v = false).
    { intros j v Hj. destruct (holds v) eqn:Ev; [|done]. apply (L j v Hj) in Ev. congruence. }
    split; simpl.
    + intros j v Hj. rewrite (N j v Hj). done.
    + rewrite O. by rewrite app_assoc.
    + intros j Hj. by apply N in Hj.
    + done.
    + intros j Hj. by apply N in Hj.
    + intros _ _ _. right. exists i, ts. apply lookup_insert_eq.
  - destruct who as [j|].
    + destruct (_pool s !! j) as [[]|] eqn:Hj; try done. simplify_eq.
      apply put_submitter_inv; [by apply wake_inv|]. intros _ _ _. left. exists j, Awake. split; [apply lookup_insert_eq|done].
    + destruct (nobody_sleeps s) eqn:En; simplify_eq. apply bool_decide_eq_true in En.
      apply put_submitter_inv; [done|]. intros Hd _ (j & w & Hj). left. exists j, w. split; [done|].
      pose proof (En j w Hj) as Hs. destruct (R Hd) as [_ R2]. destruct w; try done. by destruct (R2 j).
Qed.

Lemma pool_step_inv a s s' : step a s = Some s' -> pool_inv s -> pool_inv s'.
Proof.
  intros H I. destruct a as [i|i who| |i]; simpl in H.
  - by eapply worker_step_inv.
  - by eapply commit_step_inv.
  - destruct I as [L O F R B W]. unfold stop_step in H. destruct (destructor s); simplify_eq; [by split|].
    assert (E : forall j v, (fun w => if is_asleep w then Awake else w) <$> _pool s !! j = Some v ->
                  v = Awake \/ _pool s !! j = Some v).
    { intros j v Hj. destruct (_pool s !! j) as [w|]; [|done]. simpl in Hj. destruct w; simplify_eq; simpl; auto. }
    split; simpl; try done.
    + intros j v Hj. rewrite lookup_fmap in Hj. destruct (_pool s !! j) as [w|] eqn:Ej; [|done]. simpl in Hj.
      pose proof (L j w Ej) as Lw. destruct w; simplify_eq; done.
    + intros j Hj. rewrite lookup_fmap in Hj. apply E in Hj as [?|Hj]; [done|]. by apply (F j).
  - destruct (_pool s !! i) as [[]|] eqn:Hi; simplify_eq. by apply wake_inv.
Qed.

(** C20. The thread pool, while it is not being destroyed, with any number of workers
    and of threads that commit: the tasks are started in the order in which they
    were committed, each once, and those that are not started are in the queue; no
    worker takes from an empty queue; and as long as a task waits, a worker is on
    his way to the queue or somebody is about to wake one. *)
Theorem tasks_started_in_order workers programs s :
  reachable step any (start workers programs) s ->
  committed s = started s ++ _tasks s /\
  (destructor s = Alive ->
     (forall i, _pool s !! i = Some At_body -> _tasks s <> []) /\
     (_tasks s <> [] -> (exists i w, _pool s !! i = Some w) -> somebody_looks s \/ somebody_notifies s)).
Proof.
  intros R. assert (I : pool_inv s).
  { eapply reachable_inv; [apply pool_start_inv| |exact R]. eauto using pool_step_inv. }
  destruct I as [_ O _ _ B W]. eauto.
Qed.
End threadpool.

Definition one_worker : gmap positive unit := {[ 1%positive := tt ]}.
Definition one_task : gmap positive (list Z) := {[ 1%positive := [7%Z] ]}.

(** the worker falls asleep and is woken for the task *)
Lemma tasks_started_in_order_witness :
  exists s, run step [Work 1; Work 1; Work 1; Work 1; Commit 1 None; Commit 1 None; Commit 1 (Some 1); Work 1; Work 1; Work 1]%positive
              (start one_worker one_task) = Some s /\
    started s = [7%Z] /\ committed s = started s ++ _tasks s /\
    (destructor s = Alive ->
       (forall i, _pool s !! i = Some At_body -> _tasks s <> []) /\
       (_tasks s <> [] -> (exists i w, _pool s !! i = Some w) -> somebody_looks s \/ somebody_notifies s)).
Proof.
  match goal with |- exists s, run step ?acts ?s0 = _ /\ _ => destruct (run step acts s0) as [s|] eqn:E; [|vm_compute in E; discriminate] end.
  exists s. split; [reflexivity|]. split; [vm_compute in E; injection E as <-; reflexivity|].
  apply (tasks_started_in_order one_worker one_task). exact (run_reachable step any _ _ _ (any_all _) E).
Defined.

(** ** The destructor *)

(** a worker has found the queue empty and the pool running; before it sleeps, the
    destructor clears _run and notifies, without the mutex: the worker sleeps for
    ever and the destructor waits for it *)
Lemma destructor_misses_worker :
  exists s, run step [Work 1; Work 1; Work 1; Stop; Stop; Work 1]%positive (start one_worker one_task) = Some s /\
    _run s = false /\ destructor s = Joining /\ _pool s !! 1%positive = Some Asleep /\
    submitters s !! 1%positive = Some (Commits [7%Z]).
Proof. eexists. split; [vm_compute; reflexivity|]. repeat split. Qed.

(** a worker that comes back to its loop leaves the committed tasks behind *)
Lemma destructor_drops_tasks :
  exists s, run step [Commit 1 None; Commit 1 None; Commit 1 None; Stop; Stop; Work 1]%positive (start one_worker one_task) = Some s /\
    _tasks s = [7%Z] /\ _pool s !! 1%positive = Some Gone.
Proof. eexists. split; [vm_compute; reflexivity|]. repeat split. Qed.
