(* ===== verification/PoolCount.v ===== *)
(** * The thread pool's constructor and its counters

    lib/threadpool.hpp: addThread starts the workers one after the other while those
    that exist already run, and _idlThrNum counts who is idle: the constructor adds one
    behind every thread it starts, a worker takes one off between taking a task and
    running it, and adds it again behind it.  The steps of ThreadPool.v are refined by
    these; the pool can be used once its constructor has ended. *)

From Stdlib Require Import ZArith Lia.
From stdpp Require Import base numbers list gmap fin_maps fin_map_dom.
From S2P Require Import Prelude Transition ThreadPool.
Local Open Scope Z_scope.

Definition THREADPOOL_MAX_NUM : nat := 16.

Section counted.
Context {T : Type}.

(** where the loop of addThread is, with the threads still asked for *)
Inductive builder := Adds (size : nat) | Counts (size : nat) | Built.
(** a worker with a task: before fetch_sub, in the task, before fetch_add *)
Inductive phase := Taken | Working | Finished.
#[export] Instance phase_eq_dec : EqDecision phase.
Proof. solve_decision. Defined.

Record counted := mk_counted {
  base : @threadpool T;
  addThread : builder;
  phases : gmap positive phase;
  _idlThrNum : Z
}.

Definition thread_name (k : nat) : positive := Pos.of_succ_nat k.

(** one round of addThread, in two steps *)
Definition build_step (s : counted) : option counted :=
  match addThread s with
  | Adds n =>
      let k := size (_pool (base s)) in
      if bool_decide (k < THREADPOOL_MAX_NUM)%nat && bool_decide (0 < n)%nat then
        Some (mk_counted (put_worker (_lock (base s)) (thread_name k) At_loop (base s)) (Counts n) (phases s) (_idlThrNum s))
      else Some (mk_counted (base s) Built (phases s) (_idlThrNum s))
  | Counts n => Some (mk_counted (base s) (Adds (n - 1)) (phases s) (_idlThrNum s + 1))
  | Built => None
  end.

Definition has_task (w : @worker T) : bool := match w with Runs _ => true | _ => false end.

Definition counted_worker_step (i : positive) (s : counted) : option counted :=
  w ← _pool (base s) !! i;
  if has_task w then
    p ← phases s !! i;
    match p with
    | Taken => Some (mk_counted (base s) (addThread s) (<[i := Working]> (phases s)) (_idlThrNum s - 1))
    | Working => Some (mk_counted (base s) (addThread s) (<[i := Finished]> (phases s)) (_idlThrNum s))
    | Finished =>
        b ← worker_step i (base s);
        Some (mk_counted b (addThread s) (delete i (phases s)) (_idlThrNum s + 1))
    end
  else
    b ← worker_step i (base s);
    Some (mk_counted b (addThread s)
      (match _pool b !! i with Some (Runs _) => <[i := Taken]> (phases s) | _ => phases s end) (_idlThrNum s)).

Inductive counted_action := Build | Pool (a : action).

Definition counted_step (a : counted_action) (s : counted) : option counted :=
  match a with
  | Build => build_step s
  | Pool (Work i) => counted_worker_step i s
  | Pool (Spurious i) =>
      b ← ThreadPool.step (Spurious i) (base s);
      Some (mk_counted b (addThread s) (phases s) (_idlThrNum s))
  | Pool a =>
      match addThread s with
      | Built => b ← ThreadPool.step a (base s); Some (mk_counted b Built (phases s) (_idlThrNum s))
      | _ => None
      end
  end.

(** threadpool(size), before its first thread *)
Definition new_pool (size : nat) (programs : gmap positive (list T)) : counted :=
  mk_counted (ThreadPool.start ∅ programs) (Adds size) ∅ 0.

Definition idlCount (s : counted) : Z := wrap32 (_idlThrNum s).
Definition thrCount (s : counted) : Z := Z.of_nat (size (_pool (base s))).

(** ** The counter *)

Definition busy (p : phase) : bool := match p with Taken => false | _ => true end.
Definition busy_workers (s : counted) : gmap positive phase := filter (fun kv => busy kv.2 = true) (phases s).

(** the threads that are not counted yet *)
Definition uncounted (b : builder) : Z := match b with Counts _ => 1 | _ => 0 end.
Definition still_asked (b : builder) : nat := match b with Adds n => n | Counts n => n - 1 | Built => 0 end.

Record counted_inv (size0 : nat) (s : counted) : Prop := {
  ci_phase : forall i, is_Some (phases s !! i) -> exists t, _pool (base s) !! i = Some (Runs t);
  ci_count : _idlThrNum s = thrCount s - uncounted (addThread s) - Z.of_nat (size (busy_workers s));
  ci_names : forall i, is_Some (_pool (base s) !! i) <-> exists k, (k < size (_pool (base s)))%nat /\ i = thread_name k;
  ci_size : (size (_pool (base s)) <= THREADPOOL_MAX_NUM)%nat;
  ci_asked : match addThread s with
    | Built => size (_pool (base s)) = Nat.min THREADPOOL_MAX_NUM size0
    | b => Nat.min THREADPOOL_MAX_NUM (size (_pool (base s)) + still_asked b) = Nat.min THREADPOOL_MAX_NUM size0
    end;
  ci_counts : match addThread s with Counts n => (0 < n)%nat | _ => True end
}.

Lemma busy_insert_idle (m : gmap positive phase) (i : positive) (p : phase) :
  m !! i = None -> busy p = false ->
  filter (fun kv => busy kv.2 = true) (<[i := p]> m) = filter (fun kv => busy kv.2 = true) m.
Proof.
  intros Hm Hp. rewrite map_filter_insert_False; [by rewrite delete_id|]. cbn. by rewrite Hp.
Qed.

Lemma busy_start (m : gmap positive phase) i p :
  m !! i = Some Taken -> busy p = true ->
  size (filter (fun kv => busy kv.2 = true) (<[i := p]> m)) = S (size (filter (fun kv => busy kv.2 = true) m)).
Proof.
  intros Hm Hp. rewrite map_filter_insert_True by done. rewrite map_size_insert_None; [done|].
  rewrite map_lookup_filter_None. right. intros x Hx. rewrite Hm in Hx. injection Hx as <-. done.
Qed.

Lemma busy_go_on (m : gmap positive phase) i p q :
  m !! i = Some p -> busy p = true -> busy q = true ->
  size (filter (fun kv => busy kv.2 = true) (<[i := q]> m)) = size (filter (fun kv => busy kv.2 = true) m).
Proof.
  intros Hm Hp Hq. rewrite map_filter_insert_True by done. rewrite map_size_insert_Some; [done|].
  exists p. by apply map_lookup_filter_Some.
Qed.

Lemma busy_end (m : gmap positive phase) i p :
  m !! i = Some p -> busy p = true ->
  S (size (filter (fun kv => busy kv.2 = true) (delete i m))) = size (filter (fun kv => busy kv.2 = true) m).
Proof.
  intros Hm Hp. rewrite map_filter_delete.
  assert (filter (fun kv => busy kv.2 = true) m !! i = Some p) as Hi by (by apply map_lookup_filter_Some).
  rewrite map_size_delete_Some by (by exists p).
  assert (size (filter (fun kv => busy kv.2 = true) m) <> 0%nat); [|lia].
  intros E. apply map_size_empty_inv in E. by rewrite E in Hi.
Qed.

(** a step of a worker changes its own place only *)
Lemma worker_step_pool i (s s' : @threadpool T) : worker_step i s = Some s' ->
  exists w w', _pool s !! i = Some w /\ _pool s' = <[i := w']> (_pool s) /\
    (has_task w = true -> w' = At_loop).
Proof.
  unfold worker_step. destruct (_pool s !! i) as [w|] eqn:E; [|done]. cbn [mbind option_bind]. intros H. exists w.
  destruct w; repeat (case_match; simplify_eq); simplify_eq; try done; eexists; (split; [done|split; [reflexivity|done]]).
Qed.

(** every thread has a place of its own *)
Lemma thread_name_inj : Inj (=) (=) thread_name.
Proof. intros j k E. unfold thread_name in E. lia. Qed.

Lemma fresh_name size0 s : counted_inv size0 s -> _pool (base s) !! thread_name (size (_pool (base s))) = None.
Proof.
  intros I. apply eq_None_not_Some. intros H. apply (ci_names _ _ I) in H as (k & Hk & E).
  apply thread_name_inj in E. lia.
Qed.

Lemma build_step_inv size0 s s' : build_step s = Some s' -> counted_inv size0 s -> counted_inv size0 s'.
Proof.
  intros H I. pose proof I as [Hp Hc Hn Hs Ha Hb]. unfold build_step in H. destruct (addThread s) as [n|n|] eqn:E; [| |done].
  - set (k := size (_pool (base s))) in *.
    destruct (bool_decide (k < THREADPOOL_MAX_NUM)%nat && bool_decide (0 < n)%nat) eqn:Eb; injection H as <-.
    + apply andb_true_iff in Eb as [E1%bool_decide_eq_true E2%bool_decide_eq_true].
      pose proof (fresh_name _ _ I) as Hfresh. fold k in Hfresh.
      assert (size (<[thread_name k := At_loop]> (_pool (base s))) = S k) as Hk by (by apply map_size_insert_None).
      constructor; cbn [base addThread phases _idlThrNum put_worker _pool still_asked uncounted] in *.
      * intros i Hi. destruct (Hp i Hi) as [t Ht]. exists t. rewrite lookup_insert_ne; [done|]. intros <-. congruence.
      * unfold thrCount, busy_workers in *. cbn [base put_worker _pool phases]. rewrite Hk, Hc. fold k. lia.
      * intros i. rewrite Hk. destruct (decide (i = thread_name k)) as [->|Hne].
        -- rewrite lookup_insert_eq. split; [|done]. intros _. exists k. split; [lia|done].
        -- rewrite lookup_insert_ne by done. rewrite Hn. split; intros (j & Hj & ->); exists j; (split; [|done]); [lia|].
           destruct (decide (j = k)) as [->|]; [done|lia].
      * rewrite Hk. lia.
      * rewrite Hk. etransitivity; [|exact Ha]. f_equal. lia.
      * done.
    + constructor; cbn [base addThread phases _idlThrNum still_asked uncounted] in *; try done.
      apply andb_false_iff in Eb as [Eb%bool_decide_eq_false|Eb%bool_decide_eq_false]; lia.
  - injection H as <-. constructor; cbn [base addThread phases _idlThrNum still_asked uncounted] in *; try done.
    unfold thrCount, busy_workers in *. cbn [base phases] in *. lia.
Qed.

(** putting a worker that exists into another place *)
Lemma put_keeps_names size0 s (b : @threadpool T) i w w' :
  counted_inv size0 s -> _pool (base s) !! i = Some w -> _pool b = <[i := w']> (_pool (base s)) ->
  size (_pool b) = size (_pool (base s)) /\
  (forall j, is_Some (_pool b !! j) <-> exists k, (k < size (_pool b))%nat /\ j = thread_name k).
Proof.
  intros I Hi Hb. assert (size (_pool b) = size (_pool (base s))) as Hs.
  { rewrite Hb. apply map_size_insert_Some. by exists w. }
  split; [done|]. intros j. rewrite Hs, <-(ci_names _ _ I), Hb. destruct (decide (i = j)) as [<-|Hne].
  - rewrite lookup_insert_eq, Hi. split; intros; by eexists.
  - by rewrite lookup_insert_ne.
Qed.

Lemma counted_worker_inv size0 i s s' : counted_worker_step i s = Some s' -> counted_inv size0 s -> counted_inv size0 s'.
Proof.
  intros H I. pose proof I as [Hp Hc Hn Hs Ha Hb]. unfold counted_worker_step in H.
  apply bind_Some in H as (w & Hw & H). destruct (has_task w) eqn:Ew.
  - apply bind_Some in H as (p & Hph & H). destruct p.
    + injection H as <-. pose proof (busy_start _ _ Working Hph eq_refl) as Hz.
      constructor; cbn [base addThread phases _idlThrNum] in *; try done.
      * intros j Hj. apply Hp. destruct (decide (i = j)) as [<-|Hne]; [by rewrite Hph|by rewrite lookup_insert_ne in Hj].
      * unfold thrCount, busy_workers in *. cbn [base phases addThread]. lia.
    + injection H as <-. pose proof (busy_go_on _ _ _ Finished Hph eq_refl eq_refl) as Hz.
      constructor; cbn [base addThread phases _idlThrNum] in *; try done.
      * intros j Hj. apply Hp. destruct (decide (i = j)) as [<-|Hne]; [by rewrite Hph|by rewrite lookup_insert_ne in Hj].
      * unfold thrCount, busy_workers in *. cbn [base phases addThread]. lia.
    + apply bind_Some in H as (b & Hstep & H). injection H as <-.
      destruct (worker_step_pool _ _ _ Hstep) as (v & v' & Hv & Epool & _).
      destruct (put_keeps_names size0 s b i v v' I Hv Epool) as [Hsize Hnames].
      pose proof (busy_end _ _ _ Hph eq_refl) as Hz.
      constructor; cbn [base addThread phases _idlThrNum] in *; rewrite ?Hsize; try done.
      * intros j Hj. destruct (decide (i = j)) as [<-|Hne]; [rewrite lookup_delete_eq in Hj; by destruct Hj|].
        rewrite lookup_delete_ne in Hj by done. destruct (Hp j Hj) as [t Ht]. exists t. by rewrite Epool, lookup_insert_ne.
      * unfold thrCount, busy_workers in *. cbn [base phases addThread] in *. rewrite Hsize. lia.
      * by rewrite <-Hsize.
  - apply bind_Some in H as (b & Hstep & H). injection H as <-.
    destruct (worker_step_pool _ _ _ Hstep) as (v & v' & Hv & Epool & _).
    destruct (put_keeps_names size0 s b i v v' I Hv Epool) as [Hsize Hnames].
    assert (phases s !! i = None) as Hnone.
    { apply eq_None_not_Some. intros Hi. destruct (Hp i Hi) as [t Ht]. rewrite Ht in Hw. by injection Hw as <-. }
    assert (_pool b !! i = Some v') as Hbi by (rewrite Epool; apply lookup_insert_eq).
    constructor; cbn [base addThread phases _idlThrNum] in *; rewrite ?Hsize; try done.
    + intros j Hj. rewrite Hbi in Hj. rewrite Epool. destruct (decide (i = j)) as [<-|Hne].
      * rewrite lookup_insert_eq. destruct v'; try (rewrite Hnone in Hj; by destruct Hj). by eexists.
      * rewrite lookup_insert_ne by done. apply Hp. destruct v'; try done. by rewrite lookup_insert_ne in Hj.
    + unfold thrCount, busy_workers in *. cbn [base phases addThread] in *. rewrite Hsize, Hbi, Hc.
      destruct v'; try done. by rewrite busy_insert_idle.
    + by rewrite <-Hsize.
Qed.

(** a step of somebody else that leaves the running workers where they are *)
Definition same_runs (m m' : gmap positive (@worker T)) : Prop :=
  dom m' = dom m /\ forall i t, m !! i = Some (Runs t) -> m' !! i = Some (Runs t).

Lemma same_runs_put m i w w' : m !! i = Some w -> has_task w = false -> same_runs m (<[i := w']> m).
Proof.
  intros Hi Hw. split; [by apply dom_insert_lookup_L; eexists|]. intros j t Hj.
  rewrite lookup_insert_ne; [done|]. intros <-. rewrite Hi in Hj. by injection Hj as ->.
Qed.

Lemma base_change_inv size0 s b :
  counted_inv size0 s -> same_runs (_pool (base s)) (_pool b) ->
  counted_inv size0 (mk_counted b (addThread s) (phases s) (_idlThrNum s)).
Proof.
  intros [Hp Hc Hn Hs Ha Hb] [Hd Hr]. assert (size (_pool b) = size (_pool (base s))) as Hsize by (by rewrite <-!size_dom, Hd).
  constructor; cbn [base addThread phases _idlThrNum]; rewrite ?Hsize; try done.
  - intros i Hi. destruct (Hp i Hi) as [t Ht]. exists t. by apply Hr.
  - unfold thrCount, busy_workers in *. cbn [base phases]. by rewrite Hsize.
  - intros i. by rewrite <-Hn, <-!elem_of_dom, Hd.
Qed.

Lemma outside_step_runs a (b b' : @threadpool T) :
  ThreadPool.step a b = Some b' -> (forall i, a <> Work i) -> same_runs (_pool b) (_pool b').
Proof.
  assert (forall m, same_runs m m) as Hrefl by done. intros H Ha. destruct a as [i|i who| |i]; cbn [ThreadPool.step] in H.
  - by destruct (Ha i).
  - unfold commit_step in H. apply bind_Some in H as (x & _ & H). destruct x as [[|t ts]|t ts|ts]; simplify_eq; try done.
    + by case_match; simplify_eq.
    + destruct who as [j|]; [|by case_match; simplify_eq].
      destruct (_pool b !! j) as [[]|] eqn:Ej; simplify_eq. cbn. by eapply same_runs_put.
  - unfold stop_step in H. destruct (destructor b); simplify_eq; [done|]. cbn. split; [by rewrite dom_fmap_L|].
    intros i t Hi. by rewrite lookup_fmap, Hi.
  - destruct (_pool b !! i) as [[]|] eqn:Ei; simplify_eq. cbn. by eapply same_runs_put.
Qed.

Lemma counted_step_inv size0 a s s' : counted_step a s = Some s' -> counted_inv size0 s -> counted_inv size0 s'.
Proof.
  intros H I. destruct a as [|[i|i who| |i]]; cbn [counted_step] in H.
  - by eapply build_step_inv.
  - by eapply counted_worker_inv.
  - destruct (addThread s) eqn:E; try done. apply bind_Some in H as (b & Hb & [= <-]). rewrite <-E.
    apply base_change_inv; [done|]. by eapply outside_step_runs.
  - destruct (addThread s) eqn:E; try done. apply bind_Some in H as (b & Hb & [= <-]). rewrite <-E.
    apply base_change_inv; [done|]. by eapply outside_step_runs.
  - apply bind_Some in H as (b & Hb & [= <-]). apply base_change_inv; [done|]. by eapply outside_step_runs.
Qed.

Lemma new_pool_inv size0 programs : counted_inv size0 (new_pool size0 programs).
Proof.
  constructor; cbn [base addThread phases _idlThrNum new_pool ThreadPool.start _pool uncounted still_asked]; rewrite ?fmap_empty.
  - intros i Hi. by apply lookup_empty_is_Some in Hi.
  - reflexivity.
  - intros i. rewrite map_size_empty. split; [by intros Hi%lookup_empty_is_Some|]. intros (k & Hk & _). lia.
  - rewrite map_size_empty. unfold THREADPOOL_MAX_NUM. lia.
  - by rewrite map_size_empty.
  - done.
Qed.

(** The counters of the pool, whatever the workers, the committing threads and the
    constructor do: once the constructor has ended there are as many threads as were
    asked for, at most 16, and idlCount is their number less the number of workers that
    are running a task; so it never wraps around. *)
Theorem idle_count_correct size0 programs s :
  reachable counted_step any (new_pool size0 programs) s -> addThread s = Built ->
  thrCount s = Z.of_nat (Nat.min 16 size0) /\
  idlCount s = thrCount s - Z.of_nat (size (busy_workers s)) /\ 0 <= idlCount s <= 16.
Proof.
  intros Hr Hb. assert (counted_inv size0 s) as [Hp Hc Hn Hs Ha _].
  { eapply reachable_inv; [apply new_pool_inv| |exact Hr]. intros a s1 s2 _. apply counted_step_inv. }
  rewrite Hb in *. cbn [uncounted] in Hc. unfold THREADPOOL_MAX_NUM in *.
  assert (size (busy_workers s) <= size (_pool (base s)))%nat as Hbusy.
  { rewrite <-!size_dom. apply subseteq_size. intros i Hi. apply elem_of_dom in Hi as [p Hi].
    apply map_lookup_filter_Some in Hi as [Hi _]. destruct (Hp i) as [t Ht]; [by exists p|]. apply elem_of_dom. by eexists. }
  unfold idlCount. rewrite Hc. unfold thrCount in *. rewrite wrap32_small by lia. split; [by rewrite Ha|]. lia.
Qed.

(** ** Refinement of ThreadPool.v *)

(** the threads of a finished pool; those that do not exist yet are seen as threads that
    have not begun *)
Definition workers (n : nat) : gmap positive unit := list_to_map ((fun k => (thread_name k, tt)) <$> seq 0 n).
Definition complete (n : nat) (b : @threadpool T) : threadpool :=
  mk_pool (_run b) (_tasks b) (_lock b) (_pool b ∪ ((fun _ => At_loop) <$> workers n)) (submitters b) (destructor b)
    (committed b) (started b).

Lemma workers_lookup n i : is_Some (workers n !! i) <-> exists k, (k < n)%nat /\ i = thread_name k.
Proof.
  rewrite <-elem_of_dom. unfold workers. rewrite dom_list_to_map_L, elem_of_list_to_set, <-list_fmap_compose, list_elem_of_fmap.
  split; intros (k & H1 & H2); exists k; [rewrite elem_of_seq in H2|]; (split; [|done || (rewrite elem_of_seq; lia)]); (done || lia).
Qed.

Lemma complete_put n lock i w b : complete n (put_worker lock i w b) = put_worker lock i w (complete n b).
Proof. unfold complete, put_worker. cbn. by rewrite insert_union_l. Qed.

Lemma complete_lookup n b i w : _pool b !! i = Some w -> _pool (complete n b) !! i = Some w.
Proof. intros H. cbn. by apply lookup_union_Some_l. Qed.

Lemma complete_worker n i b b' : worker_step i b = Some b' -> worker_step i (complete n b) = Some (complete n b').
Proof.
  unfold worker_step. destruct (_pool b !! i) as [w|] eqn:E; [|done]. rewrite (complete_lookup n b i w E).
  cbn [mbind option_bind]. change (_lock (complete n b)) with (_lock b). change (_tasks (complete n b)) with (_tasks b).
  change (_run (complete n b)) with (_run b).
  destruct w; try done; try (intros [= <-]; by rewrite complete_put).
  - destruct (_lock b); [done|]. intros [= <-]. by rewrite complete_put.
  - destruct (_lock b); [done|]. intros [= <-]. by rewrite complete_put.
  - destruct (_tasks b) as [|t ts]; [destruct (_run b); [done|]; intros [= <-]; by rewrite complete_put|].
    intros [= <-]. unfold complete. cbn. by rewrite insert_union_l.
Qed.

Lemma complete_spurious n i b b' :
  ThreadPool.step (Spurious i) b = Some b' -> ThreadPool.step (Spurious i) (complete n b) = Some (complete n b').
Proof.
  cbn [ThreadPool.step]. destruct (_pool b !! i) as [w|] eqn:E; [|done]. rewrite (complete_lookup n b i w E).
  destruct w; try done. intros [= <-]. by rewrite complete_put.
Qed.

(** a finished pool is complete *)
Lemma complete_built n (b : @threadpool T) :
  (forall i, is_Some (_pool b !! i) <-> exists k, (k < n)%nat /\ i = thread_name k) -> complete n b = b.
Proof.
  intros H. assert (_pool b ∪ ((fun _ => At_loop) <$> workers n) = _pool b) as E.
  { apply map_eq. intros i. destruct (_pool b !! i) as [w|] eqn:Ei; [by apply lookup_union_Some_l|].
    rewrite lookup_union_r by done.
    destruct (((fun _ => At_loop) <$> workers n) !! i) as [w|] eqn:Ew; [|done]. exfalso.
    rewrite lookup_fmap in Ew. apply fmap_Some in Ew as (u & Ew & _).
    assert (is_Some (_pool b !! i)) as [v Hv]; [|congruence]. apply H, workers_lookup. by exists u. }
  unfold complete. rewrite E. by destruct b.
Qed.

Lemma counted_step_refines size0 a s s' :
  let n := Nat.min THREADPOOL_MAX_NUM size0 in
  counted_inv size0 s -> counted_step a s = Some s' ->
  complete n (base s') = complete n (base s) \/
  exists a', ThreadPool.step a' (complete n (base s)) = Some (complete n (base s')).
Proof.
  intros n I H. pose proof (counted_step_inv _ _ _ _ H I) as I'.
  assert (forall b (p : gmap positive phase) c, counted_inv size0 (mk_counted b Built p c) -> complete n b = b) as Hbuilt.
  { intros b p c [_ _ Hn _ Ha _]. apply complete_built. cbn [addThread base] in *. by rewrite Ha in Hn. }
  destruct a as [|[i|i who| |i]]; cbn [counted_step] in H.
  - left. unfold build_step in H. destruct (addThread s) as [m|m|] eqn:E; [|by injection H as <-|done].
    pose proof (fresh_name _ _ I) as Hfresh. pose proof (ci_names _ _ I') as Hn. pose proof (ci_asked _ _ I') as Ha.
    pose proof (ci_size _ _ I') as Hs.
    cbv zeta in H. destruct (_ && _); injection H as <-; [|done]. cbn [base put_worker _pool addThread still_asked] in *.
    set (i := thread_name (size (_pool (base s)))) in *. unfold complete, put_worker.
    cbn [_run _tasks _lock _pool submitters destructor committed started]. f_equal.
    apply map_eq. intros j. destruct (decide (j = i)) as [->|Hne].
    + assert (is_Some (<[i:=At_loop]> (_pool (base s)) !! i)) as Hi by (by rewrite lookup_insert_eq).
      apply Hn in Hi as (k & Hk & Ek). apply map_size_insert_None with (x := At_loop) in Hfresh. fold i in Hfresh.
      assert (is_Some (workers n !! i)) as [u Hu].
      { apply workers_lookup. exists k. split; [unfold n, THREADPOOL_MAX_NUM in *; lia|done]. }
      pose proof (fresh_name _ _ I) as Hf. fold i in Hf.
      rewrite !lookup_union, lookup_insert_eq, lookup_fmap, Hu, Hf. done.
    + by rewrite !lookup_union, lookup_insert_ne by done.
  - unfold counted_worker_step in H. apply bind_Some in H as (w & Hw & H). destruct (has_task w).
    + apply bind_Some in H as (p & _ & H). destruct p; [injection H as <-; by left..|].
      apply bind_Some in H as (b & Hb & [= <-]). right. exists (Work i). by apply complete_worker.
    + apply bind_Some in H as (b & Hb & [= <-]). right. exists (Work i). by apply complete_worker.
  - destruct (addThread s) eqn:E; try done. apply bind_Some in H as (b & Hb & [= <-]). right. exists (Commit i who).
    cbn [base] in *. rewrite (Hbuilt _ _ _ I'). destruct s as [bs asx ps cs]. cbn in E. subst asx. cbn [base]. by rewrite (Hbuilt _ _ _ I).
  - destruct (addThread s) eqn:E; try done. apply bind_Some in H as (b & Hb & [= <-]). right. exists Stop.
    cbn [base] in *. rewrite (Hbuilt _ _ _ I'). destruct s as [bs asx ps cs]. cbn in E. subst asx. cbn [base]. by rewrite (Hbuilt _ _ _ I).
  - apply bind_Some in H as (b & Hb & [= <-]). right. exists (Spurious i). by apply complete_spurious.
Qed.

(** What ThreadPool.v shows of a pool whose threads are all there holds of one that is
    still being constructed, counters included. *)
Theorem construction_refines size0 programs s :
  reachable counted_step any (new_pool size0 programs) s ->
  reachable ThreadPool.step any (ThreadPool.start (workers (Nat.min 16 size0)) programs) (complete (Nat.min 16 size0) (base s)).
Proof.
  intros Hr. assert (counted_inv size0 s /\
    reachable ThreadPool.step any (ThreadPool.start (workers (Nat.min 16 size0)) programs) (complete (Nat.min 16 size0) (base s))) as [_ H];
    [|exact H].
  induction Hr as [|s a s' _ [I IH] _ Hstep].
  - split; [apply new_pool_inv|]. assert (complete (Nat.min 16 size0) (base (new_pool size0 programs)) =
      ThreadPool.start (workers (Nat.min 16 size0)) programs) as ->; [|apply reach_here].
    unfold complete, new_pool, ThreadPool.start. cbn. by rewrite fmap_empty, map_empty_union.
  - split; [by eapply counted_step_inv|]. destruct (counted_step_refines size0 a s s' I Hstep) as [E|[a' Ha]].
    + unfold THREADPOOL_MAX_NUM in E. by rewrite E.
    + eapply reach_step; [exact IH|done|exact Ha].
Qed.
End counted.

(** a pool of one thread, which takes a task, is counted as busy and as idle again *)
Definition to_busy : list counted_action :=
  [Build; Build; Build; Pool (Work 1); Pool (Commit 1 None); Pool (Commit 1 None); Pool (Commit 1 None);
   Pool (Work 1); Pool (Work 1); Pool (Work 1); Pool (Work 1)]%positive.
Lemma idle_count_sample :
  (fun s => (idlCount s, thrCount s, started (base s))) <$> run counted_step to_busy (new_pool 1 one_task) = Some (0, 1, [7]) /\
  idlCount <$> run counted_step (to_busy ++ [Pool (Work 1); Pool (Work 1)]%positive) (new_pool 1 one_task) = Some 1.
Proof. split; vm_compute; reflexivity. Qed.
