(* ===== verification/CorePool.v ===== *)
(** * The thread pool of the epoll server

    core/threadpool.h: ThreadPool, AddTask and the destructor.  Everything the threads
    share is guarded by one mutex that a worker holds from the end of one task to the
    start of the next, or until it waits or leaves; a step is what a thread does with
    the mutex, a task, or a notification.  Whoever is notified is part of the step,
    and a sleeping worker may wake up for no reason. *)

From Stdlib Require Import Lia.
From stdpp Require Import base numbers list gmap fin_maps.
From S2P Require Import Prelude Transition.

Section corepool.
Context {T : Type}.

(** before it takes the mutex, in cond.wait, in task(), behind the loop *)
Inductive worker := At_lock | Asleep | Runs (t : T) | Gone.

(** before AddTask, and inside it before notify_one *)
Inductive submitter := Adds (ts : list T) | Notifies (ts : list T).

(** the destructor: not begun, isClosed is set, everybody was notified *)
Inductive dtor := Alive | Closing | Destroyed.

Record Pool := mk_pool {
  isClosed : bool;
  tasks : list T;
  threads : gmap positive worker;
  submitters : gmap positive submitter;
  destructor : dtor;
  added : list T;
  started : list T
}.

Definition put_thread (i : positive) (w : worker) (s : Pool) : Pool :=
  mk_pool (isClosed s) (tasks s) (<[i := w]> (threads s)) (submitters s) (destructor s) (added s) (started s).
Definition put_submitter (i : positive) (x : submitter) (s : Pool) : Pool :=
  mk_pool (isClosed s) (tasks s) (threads s) (<[i := x]> (submitters s)) (destructor s) (added s) (started s).

Definition wakes (w : worker) : worker := match w with Asleep => At_lock | _ => w end.
Definition sleeps (w : worker) : bool := match w with Asleep => true | _ => false end.
Definition nobody_sleeps (s : Pool) : bool := bool_decide (map_Forall (fun _ w => sleeps w = false) (threads s)).
Definition finished (x : submitter) : bool := match x with Adds [] => true | _ => false end.
Definition all_finished (s : Pool) : bool := bool_decide (map_Forall (fun _ x => finished x = true) (submitters s)).

(** the loop of a worker *)
Definition worker_step (i : positive) (s : Pool) : option Pool :=
  w ← threads s !! i;
  match w with
  | At_lock =>
      match tasks s with
      | t :: ts => Some (mk_pool (isClosed s) ts (<[i := Runs t]> (threads s)) (submitters s) (destructor s) (added s) (started s ++ [t]))
      | [] => Some (put_thread i (if isClosed s then Gone else Asleep) s)
      end
  | Runs _ => Some (put_thread i At_lock s)
  | Asleep | Gone => None
  end.

Definition AddTask (i : positive) (who : option positive) (s : Pool) : option Pool :=
  x ← submitters s !! i;
  match x with
  | Adds [] => None
  | Adds (t :: ts) =>
      Some (mk_pool (isClosed s) (tasks s ++ [t]) (threads s) (<[i := Notifies ts]> (submitters s)) (destructor s) (added s ++ [t]) (started s))
  | Notifies ts =>
      match who with
      | None => if nobody_sleeps s then Some (put_submitter i (Adds ts) s) else None
      | Some j => match threads s !! j with Some Asleep => Some (put_submitter i (Adds ts) (put_thread j At_lock s)) | _ => None end
      end
  end.

(** nobody may be inside AddTask when the pool is destroyed *)
Definition destroy (s : Pool) : option Pool :=
  match destructor s with
  | Alive => if all_finished s then Some (mk_pool true (tasks s) (threads s) (submitters s) Closing (added s) (started s)) else None
  | Closing => Some (mk_pool (isClosed s) (tasks s) (wakes <$> threads s) (submitters s) Destroyed (added s) (started s))
  | Destroyed => None
  end.

Inductive action := Work (i : positive) | Add (i : positive) (who : option positive) | Destroy | Spurious (i : positive).

Definition step (a : action) (s : Pool) : option Pool :=
  match a with
  | Work i => worker_step i s
  | Add i who => AddTask i who s
  | Destroy => destroy s
  | Spurious i => match threads s !! i with Some Asleep => Some (put_thread i At_lock s) | _ => None end
  end.

(** the constructor *)
Definition start (workers : gmap positive unit) (programs : gmap positive (list T)) : Pool :=
  mk_pool false [] ((fun _ => At_lock) <$> workers) (Adds <$> programs) Alive [] [].

(** ** Invariant *)

Definition looks (w : worker) : Prop := w = At_lock \/ exists t, w = Runs t.
Definition somebody_looks (s : Pool) : Prop := exists i w, threads s !! i = Some w /\ looks w.
Definition somebody_notifies (s : Pool) : Prop := exists i ts, submitters s !! i = Some (Notifies ts).

Record pool_inv (s : Pool) : Prop := mk_inv {
  inv_order : added s = started s ++ tasks s;
  inv_closed : isClosed s = false <-> destructor s = Alive;
  inv_finished : destructor s <> Alive -> all_finished s = true;
  inv_gone : (exists i, threads s !! i = Some Gone) -> isClosed s = true /\ tasks s = [];
  inv_asleep : destructor s = Destroyed -> forall i, threads s !! i <> Some Asleep;
  inv_wake : tasks s <> [] -> (exists i w, threads s !! i = Some w) -> somebody_looks s \/ somebody_notifies s
}.

Lemma start_pool_inv workers programs : pool_inv (start workers programs).
Proof.
  split; simpl; try done.
  intros [i Hi]. rewrite lookup_fmap in Hi. by destruct (workers !! i).
Qed.

(** a worker that is not left behind *)
Lemma put_thread_inv i w s :
  pool_inv s ->
  (w = Gone -> isClosed s = true /\ tasks s = []) ->
  (w = Asleep -> destructor s <> Destroyed /\ tasks s = []) ->
  pool_inv (put_thread i w s).
Proof.
  intros [O C F G A W] Hg Ha. split; simpl; try done.
  - intros [j Hj]. destruct (decide (i = j)) as [->|Hne].
    + rewrite lookup_insert_eq in Hj. simplify_eq. by apply Hg.
    + rewrite lookup_insert_ne in Hj by done. apply G. by exists j.
  - intros Hd j Hj. destruct (decide (i = j)) as [->|Hne].
    + rewrite lookup_insert_eq in Hj. simplify_eq. by destruct Ha.
    + rewrite lookup_insert_ne in Hj by done. by apply (A Hd j).
  - intros Ht _. left. exists i, w. split; [apply lookup_insert_eq|].
    destruct w; unfold looks; eauto.
    + by destruct Ha.
    + by destruct Hg.
Qed.

Lemma not_finished i x s : submitters s !! i = Some x -> finished x = false -> all_finished s = true -> False.
Proof. unfold all_finished. intros H1 H2 H. apply bool_decide_eq_true in H. specialize (H i x H1). simpl in H. congruence. Qed.

(** a submitter is on his way: the pool is open *)
Lemma submitter_open i x s : pool_inv s -> submitters s !! i = Some x -> finished x = false -> destructor s = Alive.
Proof.
  intros I Hx Hf. destruct (destructor s) eqn:Ed; [done| |];
    destruct (not_finished _ _ _ Hx Hf); apply (inv_finished _ I); congruence.
Qed.

Lemma thread_step_inv i s s' : worker_step i s = Some s' -> pool_inv s -> pool_inv s'.
Proof.
  unfold worker_step. destruct (threads s !! i) as [w|] eqn:Hi; [|done]. cbn [mbind option_bind]. intros H I.
  destruct w; simplify_eq.
  - destruct (tasks s) as [|t ts] eqn:Et; simplify_eq.
    + apply put_thread_inv; [done| |]; destruct (isClosed s) eqn:Ec; try done.
      intros _. split; [|done]. apply (inv_closed _ I) in Ec. by rewrite Ec.
    + destruct I as [O C F G A W]. split; simpl; try done.
      * rewrite O, Et, <-app_assoc. done.
      * intros [j Hj]. destruct (decide (i = j)) as [->|Hne]; [by rewrite lookup_insert_eq in Hj|].
        rewrite lookup_insert_ne in Hj by done. destruct G as [_ G]; [by exists j|congruence].
      * intros Hd j Hj. destruct (decide (i = j)) as [->|Hne]; [by rewrite lookup_insert_eq in Hj|].
        rewrite lookup_insert_ne in Hj by done. by apply (A Hd j).
      * intros _ _. left. exists i, (Runs t). split; [apply lookup_insert_eq|]. right. by exists t.
  - by apply put_thread_inv.
Qed.

Lemma woken_inv i s : pool_inv s -> pool_inv (put_thread i At_lock s).
Proof. intros I. by apply put_thread_inv. Qed.

(** after notify_one: somebody was woken, or nobody sleeps and nobody left *)
Lemma notified_inv i ts s :
  submitters s !! i = Some (Notifies ts) -> pool_inv s -> (somebody_looks s \/ nobody_sleeps s = true) ->
  pool_inv (put_submitter i (Adds ts) s).
Proof.
  intros Hi I Hl. pose proof (submitter_open _ _ _ I Hi eq_refl) as Ha.
  destruct I as [O C F G A W]. split; simpl; try done.
  intros _ (j & w & Hj). left. destruct Hl as [Hl|Hl]; [exact Hl|].
  exists j, w. split; [done|]. unfold nobody_sleeps in Hl. apply bool_decide_eq_true in Hl. specialize (Hl j w Hj). simpl in Hl.
  destruct w; unfold looks; eauto; try done.
  destruct G as [Hc _]; [by exists j|]. apply C in Ha. congruence.
Qed.

Lemma AddTask_inv i who s s' : AddTask i who s = Some s' -> pool_inv s -> pool_inv s'.
Proof.
  unfold AddTask. destruct (submitters s !! i) as [x|] eqn:Hi; [|done]. cbn [mbind option_bind]. intros H I.
  destruct x as [[|t ts]|ts]; simplify_eq.
  - pose proof (submitter_open _ _ _ I Hi eq_refl) as Ha. destruct I as [O C F G A W]. split; simpl; try done.
    + by rewrite O, app_assoc.
    + intros Hg. destruct (G Hg) as [Hc _]. apply C in Ha. congruence.
    + intros _ _. right. exists i, ts. apply lookup_insert_eq.
  - destruct who as [j|].
    + destruct (threads s !! j) as [[]|] eqn:Hj; simplify_eq. apply notified_inv; [done|by apply woken_inv|].
      left. exists j, At_lock. split; [apply lookup_insert_eq|by left].
    + destruct (nobody_sleeps s) eqn:En; simplify_eq. apply notified_inv; [done|done|by right].
Qed.

Lemma destroy_inv s s' : destroy s = Some s' -> pool_inv s -> pool_inv s'.
Proof.
  unfold destroy. intros H [O C F G A W]. destruct (destructor s) eqn:Ed; simplify_eq.
  - destruct (all_finished s) eqn:Ef; simplify_eq. split; simpl; try done.
    intros Hg. destruct (G Hg) as [Hc _]. rewrite (proj2 C eq_refl) in Hc. done.
  - assert (L : forall j v, (wakes <$> threads s) !! j = Some v -> exists w, threads s !! j = Some w /\ v = wakes w).
    { intros j v Hj. rewrite lookup_fmap in Hj. destruct (threads s !! j) as [w|]; [|done]. simpl in Hj. simplify_eq. eauto. }
    split; simpl; try done.
    + destruct C as [C1 C2]. split; [intros Hc; by apply C1 in Hc|done].
    + intros _. by apply F.
    + intros [j Hj]. destruct (L _ _ Hj) as ([] & Hw & E); try done. apply G. by exists j.
    + intros _ j Hj. destruct (L _ _ Hj) as ([] & Hw & E); done.
    + intros Ht (j & v & Hj). destruct (L _ _ Hj) as (w & Hw & ->). left. exists j, (wakes w). split; [done|].
      destruct w; unfold looks; simpl; eauto. destruct G as [_ G]; [by exists j|done].
Qed.

Lemma pool_steps_inv a s s' : step a s = Some s' -> pool_inv s -> pool_inv s'.
Proof.
  destruct a as [i|i who| |i]; simpl.
  - apply thread_step_inv.
  - apply AddTask_inv.
  - apply destroy_inv.
  - destruct (threads s !! i) as [[]|]; try done. intros [= <-]. apply woken_inv.
Qed.

(** ** Progress *)

Definition total {A} (f : A -> nat) (m : gmap positive A) : nat := map_fold (fun _ x n => f x + n) 0 m.

Lemma total_insert {A} (f : A -> nat) m i x y : m !! i = Some x -> total f (<[i := y]> m) + f x = total f m + f y.
Proof.
  intros Hi. unfold total. rewrite <-insert_delete_eq.
  rewrite map_fold_insert_L by (intros; lia || apply lookup_delete_eq).
  rewrite (map_fold_delete_L _ _ i x m) by (intros; lia || done). lia.
Qed.

(** what a thread has still to do *)
Definition work (w : worker) : nat := match w with At_lock => 1 | Runs _ => 2 | Asleep | Gone => 0 end.
Definition todo (x : submitter) : nat := match x with Adds ts => 5 * length ts | Notifies ts => 2 + 5 * length ts end.
Definition pending (s : Pool) : nat :=
  total work (threads s) + total todo (submitters s) + 2 * length (tasks s) +
  match destructor s with Alive => size (threads s) + 2 | Closing => size (threads s) + 1 | Destroyed => 0 end.

Lemma total_wakes m : total work (wakes <$> m) <= total work m + size m.
Proof.
  induction m as [|i w m Hi IH] using map_ind; [done|].
  rewrite fmap_insert, map_size_insert_None by done. unfold total in *.
  rewrite !map_fold_insert_L by (intros; lia || done || by rewrite lookup_fmap, Hi).
  destruct w; simpl; lia.
Qed.

Lemma size_put {A} (m : gmap positive A) i x y : m !! i = Some x -> size (<[i := y]> m) = size m.
Proof. intros Hi. by rewrite map_size_insert, Hi. Qed.

(** everything but waking up for no reason *)
Definition productive (a : action) : Prop := match a with Spurious _ => False | _ => True end.

Lemma pending_step a s s' : productive a -> step a s = Some s' -> pending s' < pending s.
Proof.
  unfold pending. destruct a as [i|i who| |i]; intros Hp H; [| | |done]; simpl in H.
  - unfold worker_step in H. destruct (threads s !! i) as [w|] eqn:Hi; [|done]. cbn [mbind option_bind] in H.
    pose proof (fun y => total_insert work (threads s) i w y Hi) as Hw. pose proof (fun y => size_put (threads s) i w y Hi) as Hs.
    destruct w; simplify_eq.
    + destruct (tasks s) as [|t ts] eqn:Et; simplify_eq; simpl; rewrite Hs.
      * specialize (Hw (if isClosed s then Gone else Asleep)). rewrite Et. destruct (isClosed s); simpl in *; lia.
      * specialize (Hw (Runs t)). simpl in Hw. lia.
    + specialize (Hw At_lock). simpl in *. rewrite Hs. lia.
  - unfold AddTask in H. destruct (submitters s !! i) as [x|] eqn:Hi; [|done]. cbn [mbind option_bind] in H.
    pose proof (fun y => total_insert todo (submitters s) i x y Hi) as Hx.
    destruct x as [[|t ts]|ts]; simplify_eq.
    + specialize (Hx (Notifies ts)). simpl in *. rewrite length_app. simpl. lia.
    + specialize (Hx (Adds ts)). destruct who as [j|].
      * destruct (threads s !! j) as [[]|] eqn:Hj; simplify_eq. simpl in *. rewrite (size_put _ _ _ _ Hj).
        pose proof (total_insert work _ _ _ At_lock Hj) as Hw. simpl in Hw. lia.
      * destruct (nobody_sleeps s); simplify_eq. simpl in *. lia.
  - unfold destroy in H. destruct (destructor s) eqn:Ed; simplify_eq.
    + destruct (all_finished s); simplify_eq. simpl. lia.
    + simpl. pose proof (total_wakes (threads s)). lia.
Qed.

Lemma pending_run acts s s' : Forall productive acts -> run step acts s = Some s' -> length acts <= pending s.
Proof.
  revert s; induction acts as [|a acts IH]; intros s F H; simpl in *; [lia|].
  apply Forall_cons in F as [Fa F]. destruct (step a s) as [s1|] eqn:E; [|done].
  specialize (IH s1 F H). pose proof (pending_step _ _ _ Fa E). lia.
Qed.

(** nobody but the destructor, or a worker for no reason, can do anything *)
Definition quiet (s : Pool) : Prop := forall i who, worker_step i s = None /\ AddTask i who s = None.

Lemma quiet_workers s i w : quiet s -> threads s !! i = Some w -> w = Asleep \/ w = Gone.
Proof.
  intros Q Hi. destruct (Q i None) as [H _]. unfold worker_step in H. rewrite Hi in H. cbn [mbind option_bind] in H.
  destruct w; eauto; [|done]. by destruct (tasks s).
Qed.

Lemma quiet_submitters s i x : quiet s -> submitters s !! i = Some x -> x = Adds [].
Proof.
  intros Q Hi. destruct (decide (nobody_sleeps s = true)) as [En|En].
  - destruct (Q i None) as [_ H]. unfold AddTask in H. rewrite Hi, En in H. destruct x as [[|t ts]|ts]; done.
  - unfold nobody_sleeps in En. rewrite bool_decide_eq_true in En.
    apply map_not_Forall in En; [|apply _]. destruct En as (j & w & Hj & Hw).
    destruct (Q i (Some j)) as [_ H]. unfold AddTask in H. rewrite Hi, Hj in H. destruct x as [[|t ts]|ts]; [done|done|].
    by destruct w.
Qed.

(** no step removes a thread *)
Lemma step_threads a s s' i w : step a s = Some s' -> threads s !! i = Some w -> exists w', threads s' !! i = Some w'.
Proof.
  assert (P : forall j v, threads s !! i = Some w -> exists w', <[j := v]> (threads s) !! i = Some w').
  { intros j v Hi. destruct (decide (j = i)) as [->|Hne]; [rewrite lookup_insert_eq; eauto|rewrite lookup_insert_ne by done; eauto]. }
  destruct a as [j|j who| |j]; simpl; intros H Hi.
  - unfold worker_step in H. destruct (threads s !! j) as [v|]; [|done]. cbn [mbind option_bind] in H.
    destruct v; [destruct (tasks s)| | |]; simplify_eq; simpl; eauto.
  - unfold AddTask in H. destruct (submitters s !! j) as [x|]; [|done]. cbn [mbind option_bind] in H.
    destruct x as [[|t ts]|ts]; simplify_eq; simpl; eauto.
    destruct who as [k|]; [destruct (threads s !! k) as [[]|]|destruct (nobody_sleeps s)]; simplify_eq; simpl; eauto.
  - unfold destroy in H. destruct (destructor s); simplify_eq; [destruct (all_finished s); simplify_eq; simpl; eauto|].
    simpl. rewrite lookup_fmap, Hi. simpl. eauto.
  - destruct (threads s !! j) as [[]|]; simplify_eq; simpl; eauto.
Qed.

Lemma workers_stay workers programs s :
  workers <> ∅ -> reachable step any (start workers programs) s -> exists i w, threads s !! i = Some w.
Proof.
  intros Hne. apply map_choose in Hne as (i & u & Hi).
  apply (reachable_inv step any (fun s => exists i w, threads s !! i = Some w)).
  - exists i, At_lock. simpl. by rewrite lookup_fmap, Hi.
  - intros a s1 s2 _ Ha (j & w & Hj). exists j. by eapply step_threads.
Qed.

Lemma reachable_pool_inv workers programs s : reachable step any (start workers programs) s -> pool_inv s.
Proof. apply reachable_inv; [apply start_pool_inv|]. intros a s1 s2 _. apply pool_steps_inv. Qed.

(** C21. Tasks are started in the order in which they were added, and a worker that has
    left leaves no task behind.  However the threads are scheduled they come to rest
    after a bounded number of steps that are not spurious wake-ups; and when they are
    at rest every task has been started, nobody waits to hand one in, and the
    workers sleep, or have all left when the pool was destroyed. *)
Theorem pool_runs_every_task workers programs s :
  workers <> ∅ -> reachable step any (start workers programs) s ->
  added s = started s ++ tasks s /\
  ((exists i, threads s !! i = Some Gone) -> tasks s = []) /\
  (forall acts s', Forall productive acts -> run step acts s = Some s' -> length acts <= pending s) /\
  (quiet s ->
     tasks s = [] /\ (forall i x, submitters s !! i = Some x -> x = Adds []) /\
     (forall i w, threads s !! i = Some w -> w = Asleep \/ w = Gone) /\
     (destructor s = Destroyed -> forall i w, threads s !! i = Some w -> w = Gone)).
Proof.
  intros Hne R. pose proof (reachable_pool_inv _ _ _ R) as I.
  assert (exists i w, threads s !! i = Some w) as Hw by (by eapply workers_stay).
  split; [apply (inv_order _ I)|]. split; [intros Hg; apply (inv_gone _ I Hg)|]. split; [intros acts s1; apply pending_run|].
  intros Q. repeat apply conj; eauto using quiet_workers, quiet_submitters.
  - destruct (tasks s) as [|t ts] eqn:Et; [done|]. exfalso.
    destruct (inv_wake _ I) as [(i & w & Hi & Hl)|(i & ts' & Hi)]; [congruence|done| |].
    + destruct (quiet_workers _ _ _ Q Hi) as [-> | ->]; destruct Hl as [?|[? ?]]; done.
    + by apply (quiet_submitters _ _ _ Q) in Hi.
  - intros Hd i w Hi. destruct (quiet_workers _ _ _ Q Hi) as [-> | ->]; [|done]. by destruct (inv_asleep _ I Hd i).
Qed.
End corepool.

(** the worker sleeps when the pool is destroyed, and two tasks have been run *)
Definition pool_run : list action :=
  [Work 1; Add 1 None; Add 1 (Some 1); Add 1 None; Work 1; Add 1 None; Work 1; Work 1; Work 1; Destroy; Work 1; Destroy]%positive.

Lemma pool_runs_every_task_witness :
  exists s, run step pool_run (start {[ 1%positive := tt ]} {[ 1%positive := [7; 8] ]}) = Some s /\
    started s = [7; 8] /\ threads s !! 1%positive = Some Gone /\
    (added s = started s ++ tasks s /\
     ((exists i, threads s !! i = Some Gone) -> tasks s = []) /\
     (forall acts s', Forall productive acts -> run step acts s = Some s' -> length acts <= pending s) /\
     (quiet s ->
        tasks s = [] /\ (forall i x, submitters s !! i = Some x -> x = Adds []) /\
        (forall i w, threads s !! i = Some w -> w = Asleep \/ w = Gone) /\
        (destructor s = Destroyed -> forall i w, threads s !! i = Some w -> w = Gone))).
Proof.
  match goal with |- exists s, run ?st ?acts ?s0 = _ /\ _ => destruct (run st acts s0) as [s|] eqn:E; [|vm_compute in E; discriminate] end.
  exists s. split; [reflexivity|]. split; [vm_compute in E; injection E as <-; reflexivity|].
  split; [vm_compute in E; injection E as <-; reflexivity|].
  apply (pool_runs_every_task {[ 1%positive := tt ]} {[ 1%positive := [7; 8] ]} s); [done|].
  exact (run_reachable step any _ _ _ (any_all _) E).
Defined.
