(* ===== verification/Coroutine.v ===== *)
(** * The frames of the coroutines

    include/netcore/core.hpp: Task, TaskPromise, SpawnTask and co_spawn, which is how
    the server runs one connection.  A coroutine is a frame; it may be resumed or
    destroyed while it is suspended, anything else is undefined behaviour ([None]).
    Of a task's body the model knows how often it awaits something before it returns
    or throws. *)

From Stdlib Require Import Lia.
From stdpp Require Import base numbers list gmap.
From S2P Require Import Prelude.

Inductive progress_of_body := At_start | Suspended | Running | At_final.
Inductive ending := Returns | Throws.

Notation coro := positive (only parsing).

Inductive frame :=
| Task (awaits : nat) (ends : ending) (m_countinue : option coro) (st : progress_of_body)   (** None: noop_coroutine *)
| SpawnTask (task : coro) (st : progress_of_body).

Notation frames := (gmap coro frame).

Definition status_of (f : frame) : progress_of_body := match f with Task _ _ _ st | SpawnTask _ st => st end.
Definition suspended (f : frame) : bool := match status_of f with Running => false | _ => true end.

(** get_return_object, initial_suspend *)
Definition new_task (awaits : nat) (ends : ending) : frame := Task awaits ends None At_start.

(** coroutine_handle::destroy *)
Definition destroy (p : coro) (fs : frames) : option frames :=
  f ← fs !! p; if suspended f then Some (delete p fs) else None.

(** how a call of resume_task comes back: the coroutine was suspended, or it threw *)
Inductive result := Back (fs : frames) | Thrown (fs : frames).

(** co_spawn behind co_await: the task is destroyed, and so is the frame of co_spawn,
    whose final_suspend does not suspend *)
Definition resume_spawn (q : coro) (fs : frames) : option frames :=
  match fs !! q with
  | Some (SpawnTask p Suspended) => fs ← destroy p (<[q := SpawnTask p Running]> fs); Some (delete q fs)
  | _ => None
  end.

(** TaskPromise::final_suspend is a function that the coroutine calls before it is
    suspended for the last time: there it resumes who awaits it *)
Definition final_suspend (p : coro) (m_countinue : option coro) (fs : frames) : option frames :=
  match m_countinue with None => Some fs | Some q => resume_spawn q fs end.

(** resume_task of a task: up to the next await, or to the end *)
Definition resume_task (p : coro) (fs : frames) : option result :=
  match fs !! p with
  | Some (Task awaits ends c (At_start | Suspended)) =>
      let fs := <[p := Task awaits ends c Running]> fs in
      match awaits, ends with
      | S n, _ => Some (Back (<[p := Task n ends c Suspended]> fs))
      | O, Returns => fs ← final_suspend p c fs; Some (Back (<[p := Task 0 ends c At_final]> fs))
      | O, Throws => Some (Thrown (<[p := Task 0 ends c At_final]> fs))
      end
  | _ => None
  end.

(** co_spawn: its frame [q] never waits at the start; Task::await_suspend makes it the
    continuation and transfers to the task *)
Definition await_suspend (p q : coro) (fs : frames) : option frames :=
  match fs !! p with
  | Some (Task awaits ends _ st) => Some (<[p := Task awaits ends (Some q) st]> (<[q := SpawnTask p Suspended]> fs))
  | _ => None
  end.

Definition co_spawn (p q : coro) (fs : frames) : option result :=
  fs ← await_suspend p q (<[q := SpawnTask p Running]> fs); resume_task p fs.

(** the event loop resumes the task [n] times *)
Fixpoint drive (n : nat) (p : coro) (r : option result) : option result :=
  match n, r with
  | O, _ => r
  | S n, Some (Back fs) => drive n p (resume_task p fs)
  | S n, Some (Thrown fs) => Some (Thrown fs)
  | S _, None => None
  end.

(** what co_spawn sets up, when [n] awaits are left *)
Definition waits (n : nat) (e : ending) (p q : coro) (st : progress_of_body) (fs : frames) : frames :=
  <[p := Task n e (Some q) st]> (<[q := SpawnTask p Suspended]> fs).

Lemma resume_waits n e p q fs : p <> q ->
  resume_task p (waits (S n) e p q Suspended fs) = Some (Back (waits n e p q Suspended fs)) /\
  resume_task p (waits (S n) e p q At_start fs) = Some (Back (waits n e p q Suspended fs)).
Proof. intros Hne. unfold resume_task, waits. rewrite !lookup_insert_eq, !insert_insert_eq. done. Qed.

Lemma resume_last p q fs st : p <> q -> st = At_start \/ st = Suspended -> resume_task p (waits 0 Returns p q st fs) = None.
Proof.
  intros Hne Hst. unfold resume_task, waits. rewrite lookup_insert_eq.
  assert (E : final_suspend p (Some q) (<[p := Task 0 Returns (Some q) Running]> (waits 0 Returns p q st fs)) = None).
  { unfold final_suspend, resume_spawn, waits. rewrite !insert_insert_eq, lookup_insert_ne, lookup_insert_eq by done.
    unfold destroy. by rewrite lookup_insert_ne, lookup_insert_eq by done. }
  unfold waits in E. destruct Hst as [-> | ->]; cbv zeta; by rewrite E.
Qed.

Lemma co_spawn_waits n e p q fs : p <> q -> fs !! p = Some (new_task n e) -> co_spawn p q fs = resume_task p (waits n e p q At_start fs).
Proof.
  intros Hne Hp. unfold co_spawn, await_suspend. rewrite lookup_insert_ne, Hp by done. cbn [new_task mbind option_bind].
  by rewrite insert_insert_eq.
Qed.

Lemma drive_awaits n e p q fs : p <> q ->
  forall k, k <= n -> drive k p (Some (Back (waits n e p q Suspended fs))) = Some (Back (waits (n - k) e p q Suspended fs)).
Proof.
  intros Hne k. revert n; induction k as [|k IH]; intros n Hk; [by rewrite Nat.sub_0_r|].
  destruct n as [|n]; [lia|]. cbn [drive]. rewrite (proj1 (resume_waits n e p q fs Hne)). by apply IH; lia.
Qed.

(** C16. A task that co_spawn runs, as the server runs every connection, goes well while it
    awaits; but when it returns it is destroyed by the code behind co_await, which its
    own final_suspend calls while it still runs: whatever it does, its end is
    undefined behaviour. *)
Theorem spawned_task_destroyed_running n p q fs :
  p <> q -> fs !! p = Some (new_task n Returns) ->
  (forall k, k < n -> exists fs', drive k p (co_spawn p q fs) = Some (Back fs') /\ fs' !! p = Some (Task (n - S k) Returns (Some q) Suspended)) /\
  drive n p (co_spawn p q fs) = None.
Proof.
  intros Hne Hp. rewrite (co_spawn_waits _ _ _ _ _ Hne Hp). split.
  - intros k Hk. destruct n as [|n]; [lia|]. rewrite (proj2 (resume_waits n Returns p q fs Hne)), drive_awaits by (lia || done).
    eexists. split; [done|]. unfold waits. by rewrite lookup_insert_eq.
  - destruct n as [|n].
    + cbn [drive]. apply resume_last; auto.
    + rewrite (proj2 (resume_waits n Returns p q fs Hne)).
      assert (forall m fs0, drive (S m) p (Some (Back fs0)) = match drive m p (Some (Back fs0)) with Some (Back fs1) => resume_task p fs1 | r => r end) as D.
      { induction m as [|m IH]; intros fs0; [cbn [drive]; by destruct (resume_task p fs0) as [[]|]|].
        change (drive (S (S m)) p (Some (Back fs0))) with (drive (S m) p (resume_task p fs0)).
        change (drive (S m) p (Some (Back fs0))) with (drive m p (resume_task p fs0)).
        destruct (resume_task p fs0) as [[fs1|fs1]|]; [apply IH|by destruct m|by destruct m]. }
      rewrite D, drive_awaits, Nat.sub_diag by done. apply resume_last; auto.
Qed.

Lemma spawned_task_destroyed_running_witness :
  (exists fs', drive 1 1 (co_spawn 1 2 {[ 1%positive := new_task 2 Returns ]}) = Some (Back fs') /\
               fs' !! 1%positive = Some (Task 0 Returns (Some 2%positive) Suspended)) /\
  drive 2 1 (co_spawn 1 2 {[ 1%positive := new_task 2 Returns ]}) = None.
Proof.
  destruct (spawned_task_destroyed_running 2 1 2 {[ 1%positive := new_task 2 Returns ]}) as [H1 H2]; [done|reflexivity|].
  split; [exact (H1 1 ltac:(lia))|exact H2].
Defined.

(** a task that throws goes back to the event loop with its exception; nobody destroys
    the two frames *)
Lemma throwing_task_leaks p q fs :
  p <> q -> fs !! p = Some (new_task 0 Throws) ->
  exists fs', co_spawn p q fs = Some (Thrown fs') /\
    fs' !! p = Some (Task 0 Throws (Some q) At_final) /\ fs' !! q = Some (SpawnTask p Suspended).
Proof.
  intros Hne Hp. rewrite (co_spawn_waits _ _ _ _ _ Hne Hp). unfold resume_task, waits. rewrite lookup_insert_eq. cbv zeta.
  rewrite !insert_insert_eq. eexists. split; [done|]. rewrite lookup_insert_eq, lookup_insert_ne, lookup_insert_eq by done. done.
Qed.
