(* ===== verification/LockFree.v ===== *)
(** * The lock-free queue

    lib/lockfree_queue.hpp: lockFreeQueue, a circular array with four atomic counters.
    A step is one access to one of them, or to a cell of the array, by one of any
    number of producers and consumers.  std::atomic_int wraps around at 32 bits; the
    counters are converted to size_t before they are reduced to a position.  [written]
    and [taken] are the history of what was stored and read.  With one producer and
    one consumer the queue is a bounded FIFO under every interleaving; with two
    producers it is not. *)

From Stdlib Require Import ZArith Lia.
From stdpp Require Import base numbers list gmap.
From S2P Require Import Prelude CStd Transition.
Local Open Scope Z_scope.

Section lockfree.
Context {T : Type} (size : nat).

(** queue(node) before: its first access, writeableCnt.fetch_add after a refusal, the
    exchange of tail, tail.fetch_add, the store, readableCnt.fetch_add *)
Inductive producer :=
| P_start (todo : list T) | P_restore (todo : list T)
| P_wrap (node : T) (todo : list T) | P_pos (node : T) (todo : list T)
| P_write (pos : Z) (node : T) (todo : list T) | P_publish (todo : list T).

(** deque(node), for a number of calls *)
Inductive consumer :=
| C_start (calls : nat) | C_restore (calls : nat) | C_wrap (calls : nat) | C_pos (calls : nat)
| C_read (pos : Z) (calls : nat) | C_release (calls : nat).

Record lockFreeQueue := mk_queue {
  q : list (option T);
  head : Z; tail : Z; readableCnt : Z; writeableCnt : Z;
  producers : gmap positive producer; consumers : gmap positive consumer;
  written : list T; taken : list (option T)
}.

Definition put_producer (i : positive) (p : producer) (s : lockFreeQueue) : lockFreeQueue :=
  mk_queue (q s) (head s) (tail s) (readableCnt s) (writeableCnt s) (<[i := p]> (producers s)) (consumers s) (written s) (taken s).
Definition put_consumer (i : positive) (c : consumer) (s : lockFreeQueue) : lockFreeQueue :=
  mk_queue (q s) (head s) (tail s) (readableCnt s) (writeableCnt s) (producers s) (<[i := c]> (consumers s)) (written s) (taken s).
Definition put_counters (h t r w : Z) (s : lockFreeQueue) : lockFreeQueue :=
  mk_queue (q s) h t r w (producers s) (consumers s) (written s) (taken s).
Definition store (pos : Z) (node : T) (s : lockFreeQueue) : lockFreeQueue :=
  mk_queue (<[Z.to_nat pos := Some node]> (q s)) (head s) (tail s) (readableCnt s) (writeableCnt s) (producers s) (consumers s)
    (written s ++ [node]) (taken s).
Definition load (pos : Z) (s : lockFreeQueue) : lockFreeQueue :=
  mk_queue (q s) (head s) (tail s) (readableCnt s) (writeableCnt s) (producers s) (consumers s)
    (written s) (taken s ++ [default None (q s !! Z.to_nat pos)]).

(** m = size; x.compare_exchange_strong(m, 0) *)
Definition wrapped (x : Z) : Z := if x =? Z.of_nat size then 0 else x.
(** x.fetch_add(1) % size *)
Definition position (x : Z) : Z := wrap64 x mod Z.of_nat size.

(** queue *)
Definition producer_step (i : positive) (s : lockFreeQueue) : option lockFreeQueue :=
  p ← producers s !! i;
  let h := head s in let t := tail s in let r := readableCnt s in let w := writeableCnt s in
  match p with
  | P_start [] => None
  | P_start (x :: todo) =>
      Some (put_producer i (if w <=? 0 then P_restore todo else P_wrap x todo) (put_counters h t r (to_int32 (w - 1)) s))
  | P_restore todo => Some (put_producer i (P_start todo) (put_counters h t r (to_int32 (w + 1)) s))
  | P_wrap x todo => Some (put_producer i (P_pos x todo) (put_counters h (wrapped t) r w s))
  | P_pos x todo => Some (put_producer i (P_write (position t) x todo) (put_counters h (to_int32 (t + 1)) r w s))
  | P_write pos x todo => Some (put_producer i (P_publish todo) (store pos x s))
  | P_publish todo => Some (put_producer i (P_start todo) (put_counters h t (to_int32 (r + 1)) w s))
  end.

(** deque *)
Definition consumer_step (i : positive) (s : lockFreeQueue) : option lockFreeQueue :=
  c ← consumers s !! i;
  let h := head s in let t := tail s in let r := readableCnt s in let w := writeableCnt s in
  match c with
  | C_start O => None
  | C_start (S n) =>
      Some (put_consumer i (if r <=? 0 then C_restore n else C_wrap n) (put_counters h t (to_int32 (r - 1)) w s))
  | C_restore n => Some (put_consumer i (C_start n) (put_counters h t (to_int32 (r + 1)) w s))
  | C_wrap n => Some (put_consumer i (C_pos n) (put_counters (wrapped h) t r w s))
  | C_pos n => Some (put_consumer i (C_read (position h) n) (put_counters (to_int32 (h + 1)) t r w s))
  | C_read pos n => Some (put_consumer i (C_release n) (load pos s))
  | C_release n => Some (put_consumer i (C_start n) (put_counters h t r (to_int32 (w + 1)) s))
  end.

Inductive action := Produce (i : positive) | Consume (i : positive).
Definition step (a : action) (s : lockFreeQueue) : option lockFreeQueue :=
  match a with Produce i => producer_step i s | Consume i => consumer_step i s end.

Definition start (programs : gmap positive (list T)) (calls : gmap positive nat) : lockFreeQueue :=
  mk_queue (replicate size None) 0 0 0 (Z.of_nat size) (P_start <$> programs) (C_start <$> calls) [] [].

(** ** One producer and one consumer *)

Hypothesis Hsize : (0 < size)%nat.
Hypothesis Hbound : Z.of_nat size < 2 ^ 31 - 1.

(** places taken from the array for items that are not written yet, and what has been
    written without being announced *)
Definition reserved (p : producer) : Z := match p with P_wrap _ _ | P_pos _ _ | P_write _ _ _ => 1 | _ => 0 end.
Definition unannounced (p : producer) : Z := match p with P_publish _ => 1 | _ => 0 end.
Definition claimed (c : consumer) : Z := match c with C_wrap _ | C_pos _ | C_read _ _ => 1 | _ => 0 end.
Definition unreleased (c : consumer) : Z := match c with C_release _ => 1 | _ => 0 end.
Definition refusing_p (p : producer) : Z := match p with P_restore _ => 1 | _ => 0 end.
Definition refusing_c (c : consumer) : Z := match c with C_restore _ => 1 | _ => 0 end.

(** a counter of n tickets, reduced when it reaches size *)
Definition counts (n x : Z) : Prop := 0 <= x <= Z.of_nat size /\ x mod Z.of_nat size = n mod Z.of_nat size.
Definition ticket_p (p : producer) : Z := match p with P_write _ _ _ => 1 | _ => 0 end.
Definition ticket_c (c : consumer) : Z := match c with C_read _ _ => 1 | _ => 0 end.

Record fifo (p : producer) (c : consumer) (s : lockFreeQueue) : Prop := mk_fifo {
  fifo_cells : length (q s) = size;
  fifo_live : forall k, (length (taken s) <= k < length (written s))%nat ->
    q s !! Z.to_nat (Z.of_nat k mod Z.of_nat size) = Some (written s !! k);
  fifo_taken : exists l, written s = l ++ drop (length (taken s)) (written s) /\ taken s = Some <$> l;
  fifo_readable : readableCnt s = Z.of_nat (length (written s)) - Z.of_nat (length (taken s)) - unannounced p - claimed c - refusing_c c;
  fifo_writeable : writeableCnt s = Z.of_nat size - (Z.of_nat (length (written s)) - Z.of_nat (length (taken s))) - reserved p - unreleased c - refusing_p p;
  fifo_tail : counts (Z.of_nat (length (written s)) + ticket_p p) (tail s);
  fifo_head : counts (Z.of_nat (length (taken s)) + ticket_c c) (head s);
  fifo_room : Z.of_nat (length (written s)) - Z.of_nat (length (taken s)) + reserved p + unreleased c <= Z.of_nat size;
  fifo_items : 0 <= Z.of_nat (length (written s)) - Z.of_nat (length (taken s)) - unannounced p - claimed c;
  fifo_ppos : match p with P_write pos _ _ => pos = Z.of_nat (length (written s)) mod Z.of_nat size | P_pos _ _ => tail s < Z.of_nat size | _ => True end;
  fifo_cpos : match c with C_read pos _ => pos = Z.of_nat (length (taken s)) mod Z.of_nat size | C_pos _ => head s < Z.of_nat size | _ => True end
}.

Lemma to_int32_id z : - 2 ^ 31 <= z < 2 ^ 31 -> to_int32 z = z.
Proof. intros H. unfold to_int32. rewrite Z.mod_small; lia. Qed.

Lemma counts_wrapped n x : counts n x -> counts n (wrapped x) /\ wrapped x < Z.of_nat size.
Proof.
  intros [H1 H2]. unfold wrapped. destruct (x =? Z.of_nat size) eqn:E; zbool; [|split; [done|lia]].
  subst x. split; [|lia]. split; [lia|]. rewrite <-H2. rewrite Z.mod_0_l, Z.mod_same by lia. done.
Qed.

Lemma counts_next n x : counts n x -> x < Z.of_nat size -> counts (n + 1) (to_int32 (x + 1)).
Proof.
  intros [H1 H2] H3. rewrite to_int32_id by lia. split; [lia|].
  rewrite Z.add_mod, H2, <-Z.add_mod by lia. done.
Qed.

Lemma counts_position n x : counts n x -> x < Z.of_nat size -> position x = n mod Z.of_nat size.
Proof. intros [H1 H2] H3. unfold position. rewrite wrap64_small by lia. done. Qed.

Lemma same_cell a b : a mod Z.of_nat size = b mod Z.of_nat size -> 0 <= a - b < Z.of_nat size -> a = b.
Proof.
  intros H1 H2. assert ((a - b) mod Z.of_nat size = 0) as E by (rewrite Zminus_mod, H1, Z.sub_diag; apply Z.mod_0_l; lia).
  rewrite Z.mod_small in E; lia.
Qed.

(** the invariant, for the threads there are *)
Definition spsc (i j : positive) (s : lockFreeQueue) : Prop :=
  exists p c, producers s = {[i := p]} /\ consumers s = {[j := c]} /\ fifo p c s.

#[local] Ltac counters := cbn -[Z.mul to_int32 wrapped position length]; rewrite ?Z.add_0_r, ?to_int32_id by lia; try done; try lia.

Lemma producer_step_spsc i j k s s' : producer_step k s = Some s' -> spsc i j s -> spsc i j s'.
Proof.
  intros H (p & c & Hp & Hc & [F1 F2 F3 F4 F5 F6 F7 F8 F9 F10 F11]). unfold producer_step in H. rewrite Hp in H.
  destruct (decide (k = i)) as [->|Hne]; [|by rewrite lookup_singleton_ne in H].
  rewrite lookup_singleton_eq in H. cbn [mbind option_bind] in H.
  assert (R : forall p' s1, producers s1 = producers s -> consumers s1 = consumers s -> fifo p' c s1 -> spsc i j (put_producer i p' s1)).
  { intros p' s1 E1 E2 F. exists p', c. split; [|split; [by rewrite <-Hc|]].
    - cbn. rewrite E1, Hp. apply insert_singleton_eq.
    - destruct F. by split. }
  assert (Hun : 0 <= claimed c <= 1 /\ 0 <= refusing_c c <= 1 /\ 0 <= unreleased c <= 1) by (destruct c; cbn; lia).
  destruct p as [[|x todo]|todo|x todo|x todo|pos x todo|todo]; simplify_eq; apply R; try done; cbn in F4, F5, F6, F8, F9; try cbn in F10; rewrite ?Z.add_0_r in F6.
  - destruct (writeableCnt s <=? 0) eqn:E; zbool; split; counters; done.
  - split; counters; done.
  - destruct (counts_wrapped _ _ F6) as [G1 G2]. split; counters; done.
  - split; counters; try done; [by apply counts_next|].
    by rewrite (counts_position _ _ F6).
  - split; cbn -[length]; rewrite ?length_insert, ?length_app; cbn [length]; try done; try lia.
    + intros n Hn. destruct (decide (n = length (written s))) as [->|Hnw].
      * rewrite list_lookup_insert_eq by (rewrite F1; pose proof (Z.mod_pos_bound (Z.of_nat (length (written s))) (Z.of_nat size)); lia).
        by rewrite lookup_app_r, Nat.sub_diag.
      * rewrite list_lookup_insert_ne; [rewrite lookup_app_l by lia; apply F2; lia|].
        intros E. apply Z2Nat.inj in E; [|apply Z.mod_pos_bound; lia..]. apply same_cell in E; lia.
    + destruct F3 as (l & El & Et). exists l. split; [|done]. rewrite drop_app_le; [by rewrite app_assoc, <-El|].
      apply (f_equal length) in El. rewrite length_app in El. rewrite Et, length_fmap. lia.
    + replace (Z.of_nat (length (written s) + 1) + 0) with (Z.of_nat (length (written s)) + 1) by lia. done.
  - split; counters; done.
Qed.

Lemma consumer_step_spsc i j k s s' : consumer_step k s = Some s' -> spsc i j s -> spsc i j s'.
Proof.
  intros H (p & c & Hp & Hc & [F1 F2 F3 F4 F5 F6 F7 F8 F9 F10 F11]). unfold consumer_step in H. rewrite Hc in H.
  destruct (decide (k = j)) as [->|Hne]; [|by rewrite lookup_singleton_ne in H].
  rewrite lookup_singleton_eq in H. cbn [mbind option_bind] in H.
  assert (R : forall c' s1, producers s1 = producers s -> consumers s1 = consumers s -> fifo p c' s1 -> spsc i j (put_consumer j c' s1)).
  { intros c' s1 E1 E2 F. exists p, c'. split; [by rewrite <-Hp|]. split.
    - cbn. rewrite E2, Hc. apply insert_singleton_eq.
    - destruct F. by split. }
  assert (Hun : 0 <= reserved p <= 1 /\ 0 <= unannounced p <= 1 /\ 0 <= refusing_p p <= 1) by (destruct p; cbn; lia).
  destruct c as [[|n]|n|n|n|pos n|n]; simplify_eq; apply R; try done; cbn in F4, F5, F7, F8, F9; try cbn in F11; rewrite ?Z.add_0_r in F7.
  - destruct (readableCnt s <=? 0) eqn:E; zbool; split; counters; done.
  - split; counters; done.
  - destruct (counts_wrapped _ _ F7) as [G1 G2]. split; counters; done.
  - split; counters; try done; [by apply counts_next|].
    by rewrite (counts_position _ _ F7).
  - assert (length (taken s) < length (written s))%nat as Hlt by lia.
    assert (exists x, written s !! length (taken s) = Some x) as [x Hx] by (by apply lookup_lt_is_Some).
    split; cbn -[length]; rewrite ?length_app; cbn [length]; try done; try lia.
    + intros m Hm. apply F2. lia.
    + destruct F3 as (l & El & Et). exists (l ++ [x]). rewrite (F2 (length (taken s))), Hx by lia. split.
      * rewrite El at 1. rewrite <-app_assoc. f_equal. cbn. rewrite Nat.add_1_r. by apply drop_S.
      * cbn [default]. by rewrite fmap_app, <-Et.
    + replace (Z.of_nat (length (taken s) + 1) + 0) with (Z.of_nat (length (taken s)) + 1) by lia. done.
  - split; counters; done.
Qed.

(** what a producer has still to store *)
Definition left_over (p : producer) : list T :=
  match p with
  | P_start todo | P_restore todo | P_publish todo => todo
  | P_wrap x todo | P_pos x todo | P_write _ x todo => x :: todo
  end.

Lemma producer_step_order i s s' program :
  producer_step i s = Some s' ->
  (forall p, producers s !! i = Some p -> written s ++ left_over p `sublist_of` program) ->
  forall p, producers s' !! i = Some p -> written s' ++ left_over p `sublist_of` program.
Proof.
  unfold producer_step. destruct (producers s !! i) as [p|] eqn:Ep; [|done]. intros H Hs p' Hp'. specialize (Hs p eq_refl).
  cbn [mbind option_bind] in H.
  destruct p as [[|x todo]|todo|x todo|x todo|pos x todo|todo]; simplify_eq; cbn in Hp'; rewrite lookup_insert_eq in Hp'; simplify_eq; try done.
  - destruct (writeableCnt s <=? 0); [|done]. etrans; [|exact Hs]. cbn. apply sublist_app; [done|]. by apply sublist_cons.
  - cbn. by rewrite <-app_assoc.
Qed.

Definition in_order (i : positive) (program : list T) (s : lockFreeQueue) : Prop :=
  forall p, producers s !! i = Some p -> written s ++ left_over p `sublist_of` program.

Lemma step_in_order i j program a s s' : spsc i j s -> step a s = Some s' -> in_order i program s -> in_order i program s'.
Proof.
  intros (p0 & c0 & Ep & _) H I. destruct a as [k|k]; cbn in H.
  - destruct (decide (k = i)) as [->|Hne]; [exact (producer_step_order _ _ _ _ H I)|].
    unfold producer_step in H. by rewrite Ep, lookup_singleton_ne in H.
  - assert (producers s' = producers s /\ written s' = written s) as [E1 E2].
    { unfold consumer_step in H. destruct (consumers s !! k) as [c|]; [|done]. cbn [mbind option_bind] in H.
      destruct c as [[|n]|n|n|n|pos n|n]; simplify_eq; done. }
    intros p Hp. rewrite E2. apply I. by rewrite <-E1.
Qed.

(** nobody is between two accesses of one call *)
Definition idle (s : lockFreeQueue) : Prop :=
  (forall i p, producers s !! i = Some p -> exists todo, p = P_start todo) /\
  (forall j c, consumers s !! j = Some c -> exists calls, c = C_start calls).

Lemma start_spsc i j program calls : spsc i j (start {[ i := program ]} {[ j := calls ]}).
Proof.
  exists (P_start program), (C_start calls). unfold start. cbn -[replicate]. rewrite !map_fmap_singleton. split; [done|]. split; [done|].
  split; cbn -[replicate]; rewrite ?length_replicate; try done; try lia; try (intros; lia).
  - by exists [].
  - split; [lia|]. done.
  - split; [lia|]. done.
Qed.

Lemma spsc_reachable i j program calls s :
  reachable step any (start {[ i := program ]} {[ j := calls ]}) s -> spsc i j s /\ in_order i program s.
Proof.
  apply (reachable_inv step any (fun s => spsc i j s /\ in_order i program s)).
  - split; [apply start_spsc|]. intros p. unfold start. cbn. rewrite map_fmap_singleton, lookup_singleton_eq. by intros [= <-].
  - intros a s1 s2 _ Ha [I O]. split; [|by eapply step_in_order].
    destruct a; [by eapply producer_step_spsc|by eapply consumer_step_spsc].
Qed.

(** C31. One producer and one consumer, in every interleaving of their accesses: what the
    consumer has taken are, in their order, the first of the values that were stored,
    and never a cell that was not written; these are values of the producer in his
    order, each at most once; at most size of them are in the queue; no counter ever
    leaves its range, although they are only reset by a compare-exchange; when no call is
    under way the two counts are exact; and a call of queue is refused only if the queue
    is full, or holds size - 1 items while the consumer has read one and not given its
    place back yet; one of deque only if it is empty, or holds one item that the
    producer has stored and not announced yet. *)
Theorem lockfree_spsc_fifo i j program calls s :
  reachable step any (start {[ i := program ]} {[ j := calls ]}) s ->
  (exists got held, written s = got ++ held /\ taken s = Some <$> got /\ (length held <= size)%nat /\
     written s `sublist_of` program /\
     (idle s -> readableCnt s = Z.of_nat (length held) /\ writeableCnt s = Z.of_nat (size - length held)) /\
     (forall x todo, producers s !! i = Some (P_start (x :: todo)) -> writeableCnt s <= 0 ->
        length held = size \/ S (length held) = size /\ exists n, consumers s !! j = Some (C_release n)) /\
     (forall n, consumers s !! j = Some (C_start (S n)) -> readableCnt s <= 0 ->
        held = [] \/ length held = 1%nat /\ exists todo, producers s !! i = Some (P_publish todo))) /\
  0 <= head s <= Z.of_nat size /\ 0 <= tail s <= Z.of_nat size /\
  -1 <= readableCnt s <= Z.of_nat size /\ -1 <= writeableCnt s <= Z.of_nat size.
Proof.
  intros R. destruct (spsc_reachable _ _ _ _ _ R) as [(p & c & Hp & Hc & [F1 F2 F3 F4 F5 [F6 _] [F7 _] F8 F9 _ _]) O].
  assert (B : 0 <= reserved p <= 1 /\ 0 <= unannounced p <= 1 /\ 0 <= refusing_p p <= 1 /\
    0 <= claimed c <= 1 /\ 0 <= refusing_c c <= 1 /\ 0 <= unreleased c <= 1 /\
    claimed c + refusing_c c <= 1 /\ reserved p + refusing_p p <= 1) by (destruct p, c; cbn; lia).
  destruct F3 as (got & Eg & Et). assert (length (taken s) = length got) as El by (by rewrite Et, length_fmap).
  assert (length (written s) = length got + length (drop (length (taken s)) (written s)))%nat as Ew by (rewrite Eg at 1; apply length_app).
  split; [exists got, (drop (length (taken s)) (written s))|lia].
  split; [done|]. split; [done|]. split; [lia|]. split_and!.
  - etrans; [|apply (O p); by rewrite Hp, lookup_singleton_eq]. by apply sublist_inserts_r.
  - intros [I1 I2]. destruct (I1 i p) as [todo ->]; [by rewrite Hp, lookup_singleton_eq|].
    destruct (I2 j c) as [n ->]; [by rewrite Hc, lookup_singleton_eq|]. cbn in *. lia.
  - intros x todo. rewrite Hp, Hc, !lookup_singleton_eq. intros [= ->] Hw. cbn [reserved refusing_p] in F5.
    destruct c; cbn [unreleased] in F5; try (left; lia).
    destruct (decide (length (drop (length (taken s)) (written s)) = size)); [by left|]. right. split; [lia|by eexists].
  - intros n. rewrite Hp, Hc, !lookup_singleton_eq. intros [= ->] Hw. cbn [claimed refusing_c] in F4, F9.
    destruct (drop (length (taken s)) (written s)) as [|y l] eqn:Ed; [by left|]. right. cbn [length] in Ew |- *.
    destruct p; cbn [unannounced] in F4; try lia. split; [lia|by eexists].
Qed.
End lockfree.

(** two items through a queue of one place; the second is refused at first *)
Definition spsc_run : list action :=
  [Produce 1; Produce 1; Produce 1; Produce 1; Produce 1; Produce 1; Produce 1;
   Consume 1; Consume 1; Consume 1; Consume 1; Consume 1;
   Produce 1; Produce 1; Produce 1; Consume 1; Consume 1]%positive.

Lemma lockfree_spsc_fifo_witness :
  exists s, run (step 1) spsc_run (start 1 {[ 1%positive := [7; 8; 9] ]} {[ 1%positive := 2%nat ]}) = Some s /\
    taken s = [Some 7] /\ tail s = 1 /\
    ((exists got held, written s = got ++ held /\ taken s = Some <$> got /\ (length held <= 1)%nat /\
        written s `sublist_of` [7; 8; 9] /\
        (idle s -> readableCnt s = Z.of_nat (length held) /\ writeableCnt s = Z.of_nat (1 - length held)) /\
        (forall x todo, producers s !! 1%positive = Some (P_start (x :: todo)) -> writeableCnt s <= 0 ->
           length held = 1%nat \/ S (length held) = 1%nat /\ exists n, consumers s !! 1%positive = Some (C_release n)) /\
        (forall n, consumers s !! 1%positive = Some (C_start (S n)) -> readableCnt s <= 0 ->
           held = [] \/ length held = 1%nat /\ exists todo, producers s !! 1%positive = Some (P_publish todo))) /\
     0 <= head s <= 1 /\ 0 <= tail s <= 1 /\ -1 <= readableCnt s <= 1 /\ -1 <= writeableCnt s <= 1).
Proof.
  match goal with |- exists s, run ?st ?acts ?s0 = _ /\ _ => destruct (run st acts s0) as [s|] eqn:E; [|vm_compute in E; discriminate] end.
  exists s. split; [reflexivity|]. split; [vm_compute in E; injection E as <-; reflexivity|].
  split; [vm_compute in E; injection E as <-; reflexivity|].
  refine (lockfree_spsc_fifo 1 _ _ 1%positive 1%positive _ 2%nat s _); [lia|lia|].
  exact (run_reachable (step 1) any _ _ _ (any_all _) E).
Defined.

(** ** Two producers *)

(** the first has taken a place and not written it; the second announces an item, and
    the consumer reads the place of the first *)
Lemma unwritten_cell_read :
  exists s, run (step 2) [Produce 1; Produce 1; Produce 1; Produce 2; Produce 2; Produce 2; Produce 2; Produce 2;
                          Consume 1; Consume 1; Consume 1; Consume 1]%positive
              (start 2 {[ 1%positive := [7]; 2%positive := [8] ]} {[ 1%positive := 1%nat ]}) = Some s /\
    written s = [8] /\ taken s = [None].
Proof. eexists. split; [vm_compute; reflexivity|]. split; reflexivity. Qed.

(** both have seen that tail needs no reset: it passes size *)
Lemma tail_passes_size :
  exists s, run (step 2) [Produce 1; Produce 1; Produce 1; Produce 1; Produce 1;
                          Consume 1; Consume 1; Consume 1; Consume 1; Consume 1;
                          Produce 1; Produce 1; Produce 2; Produce 2; Produce 1; Produce 2]%positive
              (start 2 {[ 1%positive := [7; 8]; 2%positive := [9] ]} {[ 1%positive := 1%nat ]}) = Some s /\
    tail s = 3.
Proof. eexists. split; [vm_compute; reflexivity|]. reflexivity. Qed.

(** and is never reset again, until the counter overflows; then the places are not
    taken in turn any more *)
Lemma never_reset size n : Z.of_nat size < n -> wrapped size n = n.
Proof. unfold wrapped. destruct (n =? Z.of_nat size) eqn:E; zbool; lia. Qed.

Lemma position_jumps :
  position (Z.to_nat 100000) (2 ^ 31 - 1) = 83647 /\ position (Z.to_nat 100000) (to_int32 (2 ^ 31)) = 67968.
Proof. unfold position. rewrite !Z2Nat.id by lia. split; reflexivity. Qed.
