(* ===== verification/Accept.v ===== *)
(** * Accepting connections

    include/netcore/core.hpp: Address, Endpoint, open_socket, bind_socket, Acceptor,
    its callback and AcceptorAwaiter; include/netcore/http_server.hpp: Server::listen
    and Serve, several of which share one listening socket.  The answers of the
    kernel are arguments; its open descriptors and its backlog are state. *)

From Stdlib Require Import ZArith Lia.
From stdpp Require Import base numbers list strings gmap sets fin_maps.
From S2P Require Import Prelude CStd Transition.
From S2P Require WebSocket.
Local Open Scope Z_scope.

(** ** Addresses *)

Definition htonl (v : Z) : Z := WebSocket.swap_bytes 4 v 0.

Inductive AddressType := IpV4 | IpV6.

(** the union is the memory of m_int4 and m_addr4 *)
Record Address := mk_address { m_addr : bytes; m_address_type : AddressType }.

(** Address(uint32_t) and Address() *)
Definition address_of (v32 : Z) : Address := mk_address (WebSocket.le_store 4 (htonl v32)) IpV4.
Definition INADDR_ANY : Z := 0.
Definition Any : Address :=
  mk_address (WebSocket.le_store 4 (if negb (INADDR_ANY =? 0) then htonl INADDR_ANY else 0)) IpV4.

(** inet_ntop for AF_INET *)
Definition inet_ntop4 (mem : bytes) : bytes :=
  match mem with
  | [a; b; c; d] => dec_string a ++ bs "." ++ dec_string b ++ bs "." ++ dec_string c ++ bs "." ++ dec_string d
  | _ => []
  end.

Definition to_string (inet_ntop6 : bytes -> bytes) (a : Address) : bytes :=
  match m_address_type a with IpV4 => inet_ntop4 (m_addr a) | IpV6 => inet_ntop6 (m_addr a) end.

Record Endpoint := mk_endpoint { m_address : Address; m_port : Z }.

(** what is passed to bind: sin_family, sin_port and sin_addr in memory *)
Record sockaddr := mk_sockaddr { family : AddressType; sin_port : bytes; sin_addr : bytes }.

Definition sockaddr_of (e : Endpoint) : sockaddr :=
  mk_sockaddr (m_address_type (m_address e)) (WebSocket.le_store 2 (WebSocket.htons (m_port e))) (m_addr (m_address e)).

(** ** The listening socket *)

(** how the kernel answers socket, fcntl, the two setsockopt, bind, listen and epoll_ctl *)
Record kernel := mk_kernel {
  k_socket : option Z; k_fcntl : bool; k_linger : bool; k_reuse : bool;
  k_bind : sockaddr -> bool; k_listen : bool; k_del : bool
}.

Definition NULL_SOCKET : Z := 0.

(** a coroutine that waits in async_accept *)
Notation coroutine := positive (only parsing).

Record Acceptor := mk_acceptor {
  m_ctx : bool; m_endpoint : Endpoint; m_socket : Z; m_added_to_event_pool : bool;
  m_awaiter_que : list coroutine
}.

Definition no_endpoint : Endpoint := mk_endpoint Any 0.
(** Acceptor() and Acceptor(IoContext &) *)
Definition new_acceptor (ctx : bool) : Acceptor := mk_acceptor ctx no_endpoint NULL_SOCKET false [].

Definition put_socket (fd : Z) (a : Acceptor) : Acceptor :=
  mk_acceptor (m_ctx a) (m_endpoint a) fd (m_added_to_event_pool a) (m_awaiter_que a).
Definition put_endpoint (e : Endpoint) (a : Acceptor) : Acceptor :=
  mk_acceptor (m_ctx a) e (m_socket a) (m_added_to_event_pool a) (m_awaiter_que a).
Definition put_added (b : bool) (a : Acceptor) : Acceptor :=
  mk_acceptor (m_ctx a) (m_endpoint a) (m_socket a) b (m_awaiter_que a).
Definition put_queue (q : list coroutine) (a : Acceptor) : Acceptor :=
  mk_acceptor (m_ctx a) (m_endpoint a) (m_socket a) (m_added_to_event_pool a) q.

Notation fds := (gset Z) (only parsing).

(** the socket, or an exception *)
Definition open_socket (k : kernel) (blocking : bool) (open : fds) : fds * option Z :=
  match k_socket k with
  | None => (open, None)
  | Some fd => ({[ fd ]} ∪ open, if blocking || k_fcntl k then Some fd else None)
  end.

Definition bind_socket (k : kernel) (e : Endpoint) : bool := k_bind k (sockaddr_of e).

(** close fails on a descriptor that is not open *)
Definition close_socket (fd : Z) (open : fds) : option fds :=
  if decide (fd ∈ open) then Some (open ∖ {[ fd ]}) else None.

Inductive outcome := Returns | Throws | Exits.

Definition reset (k : kernel) (open : fds) (a : Acceptor) : fds * Acceptor * outcome :=
  if m_socket a =? 0 then (open, a, Returns)
  else if m_ctx a && m_added_to_event_pool a && negb (k_del k) then (open, a, Throws)
  else
    let a := if m_ctx a && m_added_to_event_pool a then put_added false a else a in
    match close_socket (m_socket a) open with
    | Some open => (open, put_socket NULL_SOCKET a, Returns)
    | None => (open, a, Exits)
    end.

(** what the try block of init does behind open_socket *)
Definition set_up (k : kernel) (e : Endpoint) (a : Acceptor) : Acceptor * bool :=
  if negb (k_linger k) || negb (k_reuse k) then (a, false)
  else if negb (bind_socket k e) then (a, false)
  else (put_endpoint e a, k_listen k).

(** init, which throws after reset *)
Definition init (k : kernel) (e : Endpoint) (open : fds) (a : Acceptor) : fds * Acceptor * outcome :=
  let fail open a := match reset k open a with (open, a, Returns) => (open, a, Throws) | r => r end in
  let (open, s) := open_socket k true open in
  match s with
  | None => fail open a
  | Some fd => let (a, ok) := set_up k e (put_socket fd a) in if ok then (open, a, Returns) else fail open a
  end.

(** ~Acceptor *)
Definition destroy (open : fds) (a : Acceptor) : fds :=
  if negb (m_socket a =? -1) then default open (close_socket (m_socket a) open) else open.

(** Acceptor(protocol, endpoint) delegates to Acceptor(): when its body throws, the
    destructor is run *)
Definition construct (k : kernel) (e : Endpoint) (open : fds) : fds * option Acceptor * outcome :=
  match init k e open (new_acceptor false) with
  | (open, a, Returns) => (open, Some a, Returns)
  | (open, a, Throws) => (destroy open a, None, Throws)
  | (open, _, Exits) => (open, None, Exits)
  end.

Definition reset_io_context (r a : Acceptor) : Acceptor :=
  mk_acceptor true (m_endpoint r) (m_socket r) false (m_awaiter_que a).

(** ** The callback and its awaiters *)

Definition EAGAIN : Z := 11.

(** accept returns a socket and the address of the peer, or errno *)
Inductive accept_answer := Conn (fd s_addr : Z) | Fails (errno : Z).

(** async_accept: the node is queued, the socket is given to epoll once *)
Definition await_suspend (k_add : bool) (h : coroutine) (a : Acceptor) : Acceptor * bool :=
  let a := put_queue (m_awaiter_que a ++ [h]) a in
  if m_added_to_event_pool a then (a, true)
  else if k_add then (put_added true a, true) else (a, false).

(** on_callback up to the call of accept *)
Definition take_awaiter (a : Acceptor) : option (coroutine * Acceptor) :=
  match m_awaiter_que a with [] => None | h :: q => Some (h, put_queue q a) end.

(** and behind it: m_conn_socket and m_u32_clien_addr of the awaiter that is resumed;
    [garbage] is the address that accept has not filled in *)
Definition accepted_as (ans : accept_answer) (garbage : Z) : option (Z * Z) :=
  match ans with
  | Conn fd s_addr => Some (fd, s_addr)
  | Fails e => if e =? EAGAIN then None else Some (-1, garbage)
  end.

(** __AcceptorCallback::on_callback: who is resumed, with what *)
Definition on_callback (ans : accept_answer) (garbage : Z) (a : Acceptor) : Acceptor * option (coroutine * Z * Z) :=
  match take_awaiter a with
  | None => (a, None)
  | Some (h, a) => (a, '(fd, s) ← accepted_as ans garbage; Some (h, fd, s))
  end.

(** RawConnection's m_socket and m_client_addr *)
Record raw_conn := mk_raw { conn_socket : Z; m_client_addr : Address }.
Definition client_addr (c : raw_conn) : bytes := to_string (fun _ => []) (m_client_addr c).

(** AcceptorAwaiter::await_resume; None is an exception *)
Definition await_resume (k_fcntl : bool) (fd s_addr : Z) : option raw_conn :=
  if fd =? -1 then None else if k_fcntl then Some (mk_raw fd (address_of s_addr)) else None.

(** ** The threads of the server *)

Notation tid := positive (only parsing).

(** in epoll_wait or another callback, in the call of accept, behind m_ctx.run() *)
Inductive thread := Waits | Accepts | Ended.

Record Server := mk_server { m_acceptor : Acceptor; m_thread : thread; handled : list raw_conn }.

Definition put_thread (t : thread) (s : Server) : Server := mk_server (m_acceptor s) t (handled s).

(** the frame of listen() *)
Definition listener : coroutine := 1%positive.

(** listen: up to the next async_accept *)
Definition listen (k_add : bool) (s : Server) : Server :=
  let (a, ok) := await_suspend k_add listener (m_acceptor s) in
  mk_server a (if ok then Waits else Ended) (handled s).

(** what listen does when its awaiter is resumed *)
Definition listen_resumed (k_fcntl : bool) (fd s_addr : Z) (s : Server) : Server :=
  match await_resume k_fcntl fd s_addr with
  | None => put_thread Ended s
  | Some c => listen true (mk_server (m_acceptor s) (m_thread s) (handled s ++ [c]))
  end.

(** Server(hsp, id, acc) and Serve *)
Definition Serve (k_add : bool) (acc : Acceptor) : Server :=
  listen k_add (mk_server (reset_io_context acc (new_acceptor false)) Waits []).

Record http_server := mk_http_server {
  m_servers : gmap tid Server;
  backlog : list (Z * Z);              (** connections to be accepted *)
  arrived : list (Z * Z);
  accepted : list (tid * (Z * Z))      (** by whom *)
}.

Definition put_server (i : tid) (x : Server) (s : http_server) : http_server :=
  mk_http_server (<[i := x]> (m_servers s)) (backlog s) (arrived s) (accepted s).

Inductive action :=
| Arrive (c : Z * Z)
| Event (i : tid)                       (** epoll reports the listening socket *)
| Accept (i : tid) (k_fcntl : bool)     (** accept returns *)
| Refuse (i : tid) (errno garbage : Z). (** accept fails *)

(** the socket is level-triggered: it is reported as long as somebody waits *)
Definition step (act : action) (s : http_server) : option http_server :=
  match act with
  | Arrive c => Some (mk_http_server (m_servers s) (backlog s ++ [c]) (arrived s ++ [c]) (accepted s))
  | Event i =>
      x ← m_servers s !! i;
      match m_thread x, backlog s with
      | Waits, _ :: _ =>
          match take_awaiter (m_acceptor x) with
          | None => Some s
          | Some (_, a) => Some (put_server i (mk_server a Accepts (handled x)) s)
          end
      | _, _ => None
      end
  | Accept i k_fcntl =>
      x ← m_servers s !! i;
      match m_thread x, backlog s with
      | Accepts, (fd, s_addr) :: b =>
          Some (mk_http_server (<[i := listen_resumed k_fcntl fd s_addr x]> (m_servers s)) b (arrived s)
                  (accepted s ++ [(i, (fd, s_addr))]))
      | _, _ => None
      end
  | Refuse i errno garbage =>
      x ← m_servers s !! i;
      match m_thread x with
      | Accepts =>
          Some (put_server i (match accepted_as (Fails errno) garbage with
                              | None => put_thread Waits x
                              | Some (fd, s_addr) => listen_resumed true fd s_addr x
                              end) s)
      | _ => None
      end
  end.

(** http_server::run *)
Definition run_servers (ids : gmap tid unit) (acc : Acceptor) : http_server :=
  mk_http_server ((fun _ => Serve true acc) <$> ids) [] [] [].

(** ** Addresses, printed *)

Lemma le_store_htonl l : Forall is_byte l -> length l = 4%nat -> WebSocket.le_store 4 (htonl (WebSocket.BE l)) = l.
Proof.
  intros Hl Hn. unfold htonl.
  assert (rev (rev l) = l) as E by apply rev_involutive.
  pose proof (WebSocket.swap_bytes_BE (rev l) (Forall_rev Hl) 0 ltac:(lia)) as S.
  rewrite E, length_rev, Hn in S. rewrite S.
  change (fold_left (fun a b => a * 256 + b) (rev l) 0) with (WebSocket.BE (rev l)).
  pose proof (WebSocket.le_store_BE (rev l) (Forall_rev Hl)) as L. rewrite length_rev, Hn, E in L. exact L.
Qed.

(** Address(uint32_t) takes an address in host byte order *)
Lemma address_prints f a b c d :
  Forall is_byte [a; b; c; d] -> to_string f (address_of (WebSocket.BE [a; b; c; d])) = inet_ntop4 [a; b; c; d].
Proof. intros H. unfold to_string, address_of. cbn [m_address_type m_addr]. by rewrite le_store_htonl. Qed.

(** but the awaiter passes on s_addr, which is in network byte order already: the
    number whose bytes in memory are the address *)
Lemma client_addr_reversed fd a b c d s_addr :
  Forall is_byte [a; b; c; d] -> WebSocket.le_load 4 [a; b; c; d] = Some s_addr ->
  client_addr (mk_raw fd (address_of s_addr)) = inet_ntop4 [d; c; b; a].
Proof.
  intros H Hs. pose proof (WebSocket.le_load_BE [a; b; c; d] [] H) as E. rewrite app_nil_r in E.
  change (length [a; b; c; d]) with 4%nat in E. rewrite E in Hs. injection Hs as <-.
  unfold client_addr. cbn [m_client_addr rev app]. apply address_prints. inversion_clear H. decompose_Forall_hyps. eauto 6.
Qed.

Lemma localhost_reversed : client_addr (mk_raw 5 (address_of (127 + 1 * 2 ^ 24))) = bs "1.0.0.127".
Proof. reflexivity. Qed.

(** ** The constructor *)

Definition all_granted (k : kernel) (e : Endpoint) : bool :=
  bool_decide (is_Some (k_socket k)) && k_linger k && k_reuse k && k_bind k (sockaddr_of e) && k_listen k.

Lemma reset_fresh k open fd : fd <> 0 -> fd ∉ open ->
  forall a, m_socket a = fd -> m_ctx a = false -> reset k ({[ fd ]} ∪ open) a = (open, put_socket NULL_SOCKET a, Returns).
Proof.
  intros H0 Hn a <- Hc. unfold reset, close_socket. rewrite Hc. destruct (m_socket a =? 0) eqn:E; zbool; [done|]. cbn [andb].
  rewrite decide_True by set_solver. do 2 f_equal. set_solver.
Qed.

(** The constructor that the server uses: a socket that is bound and listens; or, when
    any call fails, an exception, after which the socket is closed again and so is
    descriptor 0. *)
Lemma acceptor_constructed k e open :
  (forall fd, k_socket k = Some fd -> fd <> 0 /\ fd ∉ open) ->
  construct k e open =
    match k_socket k with
    | Some fd => if all_granted k e then ({[ fd ]} ∪ open, Some (put_endpoint e (put_socket fd (new_acceptor false))), Returns)
                 else (open ∖ {[ 0 ]}, None, Throws)
    | None => (open ∖ {[ 0 ]}, None, Throws)
    end.
Proof.
  intros Hk.
  assert (D : forall (a : Acceptor), m_socket a = 0 -> destroy open a = open ∖ {[ 0 ]}).
  { intros a Ha. unfold destroy, close_socket. rewrite Ha. cbn. destruct (decide (0 ∈ open)); [done|]. cbn. set_solver. }
  unfold construct, init, open_socket, all_granted. destruct (k_socket k) as [fd|] eqn:Ek.
  - destruct (Hk fd eq_refl) as [H0 Hn]. cbn [orb]. rewrite bool_decide_true by done. cbn [andb].
    unfold set_up, bind_socket.
    assert (R : forall a, m_socket a = fd -> m_ctx a = false -> reset k ({[ fd ]} ∪ open) a = (open, put_socket NULL_SOCKET a, Returns))
      by (by apply reset_fresh).
    destruct (k_linger k), (k_reuse k); cbn [negb orb andb]; try (rewrite R by done; cbn beta iota; by rewrite D).
    destruct (k_bind k (sockaddr_of e)); cbn [negb andb]; [|rewrite R by done; cbn beta iota; by rewrite D].
    destruct (k_listen k); [done|]. rewrite R by done; cbn beta iota; by rewrite D.
  - cbn -[destroy]. by rewrite D.
Qed.

(** ** Failures of accept *)

(** when the socket has nothing to accept, the awaiter is dropped, and with it every
    later event *)
Lemma eagain_deafens garbage a h :
  m_awaiter_que a = [h] ->
  exists a', on_callback (Fails EAGAIN) garbage a = (a', None) /\
    forall ans garbage', on_callback ans garbage' a' = (a', None).
Proof. intros E. exists (put_queue [] a). unfold on_callback, take_awaiter. by rewrite E. Qed.

(** any other failure is an exception that ends the thread, and with it the service
    of all its connections *)
Lemma accept_error_ends_thread i s x errno garbage :
  m_servers s !! i = Some x -> m_thread x = Accepts -> errno <> EAGAIN ->
  exists s' x', step (Refuse i errno garbage) s = Some s' /\ m_servers s' !! i = Some x' /\ m_thread x' = Ended /\
    step (Event i) s' = None /\ step (Accept i true) s' = None.
Proof.
  intros Hi Ht He. cbn [step]. rewrite Hi. cbn [mbind option_bind]. rewrite Ht. cbn [accepted_as].
  rewrite (proj2 (Z.eqb_neq _ _) He). eexists _, _. split; [done|]. unfold put_server. cbn [m_servers]. rewrite !lookup_insert_eq.
  done.
Qed.

(** ** Every connection is handled once *)

Definition conn_of (c : Z * Z) : raw_conn := mk_raw c.1 (address_of c.2).
Definition accepted_by (i : tid) (l : list (tid * (Z * Z))) : list (Z * Z) := (filter (fun p => p.1 = i) l).*2.

Lemma accepted_by_snoc i j c l : accepted_by i (l ++ [(j, c)]) = accepted_by i l ++ (if decide (j = i) then [c] else []).
Proof.
  unfold accepted_by. rewrite filter_app, fmap_app. f_equal. destruct (decide (j = i)) as [->|Hne].
  - by rewrite filter_cons_True.
  - by rewrite filter_cons_False.
Qed.

(** a thread that is in epoll_wait is ready for the next connection *)
Record server_ok (i : tid) (l : list (tid * (Z * Z))) (x : Server) : Prop := mk_server_ok {
  ok_added : m_added_to_event_pool (m_acceptor x) = true;
  ok_queue : match m_thread x with Waits => m_awaiter_que (m_acceptor x) = [listener] | Accepts => m_awaiter_que (m_acceptor x) = [] | Ended => False end;
  ok_handled : handled x = conn_of <$> accepted_by i l
}.

Definition accept_inv (s : http_server) : Prop :=
  (arrived s = (accepted s).*2 ++ backlog s /\ Forall (fun c => c.1 <> -1) (backlog s)) /\
  forall i x, m_servers s !! i = Some x -> server_ok i (accepted s) x.

(** the kernel does not fail: accept returns sockets, and they become non-blocking *)
Definition smooth (act : action) : Prop :=
  match act with Arrive c => c.1 <> -1 | Event _ => True | Accept _ k_fcntl => k_fcntl = true | Refuse _ _ _ => False end.

Lemma run_servers_inv ids acc : accept_inv (run_servers ids acc).
Proof.
  split; [done|]. intros i x Hi. unfold run_servers in Hi. cbn [m_servers] in Hi. rewrite lookup_fmap in Hi.
  destruct (ids !! i); [|done]. injection Hi as <-. done.
Qed.

Lemma step_accept_inv act s s' : smooth act -> step act s = Some s' -> accept_inv s -> accept_inv s'.
Proof.
  intros Ho H [[A F] I]. destruct act as [c|i|i k_fcntl|i errno garbage]; [| | |done]; cbn [step smooth] in *.
  - simplify_eq. split; [|done]. cbn [arrived accepted backlog]. rewrite A, app_assoc. split; [done|].
    apply Forall_app. by split; [|apply Forall_singleton].
  - destruct (m_servers s !! i) as [x|] eqn:Hi; [|done]. cbn [mbind option_bind] in H. pose proof (I i x Hi) as [O1 O2 O3].
    destruct (m_thread x) eqn:Et; [|done|done]. destruct (backlog s) as [|c b] eqn:Eb; [done|].
    unfold take_awaiter in H. rewrite O2 in H. simplify_eq. split; [unfold put_server; cbn [arrived accepted backlog]; by rewrite Eb|].
    intros j y Hj. unfold put_server in Hj. cbn [m_servers] in Hj. destruct (decide (i = j)) as [->|Hne].
    + rewrite lookup_insert_eq in Hj. simplify_eq. by split.
    + rewrite lookup_insert_ne in Hj by done. by apply I.
  - subst k_fcntl. destruct (m_servers s !! i) as [x|] eqn:Hi; [|done]. cbn [mbind option_bind] in H. pose proof (I i x Hi) as [O1 O2 O3].
    destruct (m_thread x) eqn:Et; [done| |done]. destruct (backlog s) as [|[fd ad] b] eqn:Eb; [done|].
    apply Forall_cons in F as [Hfd F]. cbn [fst] in Hfd.
    assert (listen_resumed true fd ad x = mk_server (put_queue [listener] (m_acceptor x)) Waits (handled x ++ [conn_of (fd, ad)])) as E.
    { unfold listen_resumed, await_resume. rewrite (proj2 (Z.eqb_neq _ _) Hfd). unfold listen, await_suspend. cbn. by rewrite O1, O2. }
    rewrite E in H. simplify_eq. split; [cbn; split; [|done]|].
    { by rewrite A, fmap_app, <-app_assoc. }
    intros j y Hj. cbn [m_servers accepted] in *. destruct (decide (i = j)) as [->|Hne].
    + rewrite lookup_insert_eq in Hj. simplify_eq. split; [done|done|]. cbn [handled].
      by rewrite O3, accepted_by_snoc, decide_True, fmap_app.
    + rewrite lookup_insert_ne in Hj by done. destruct (I j y Hj) as [P1 P2 P3]. split; [done|done|].
      by rewrite P3, accepted_by_snoc, decide_False, app_nil_r.
Qed.

(** C19. However many threads accept from the listening socket, and however their events
    interleave, while the kernel does not fail: the connections are accepted in the
    order of their arrival; each is handled by the one thread that accepted it, in that
    order; no event finds a thread without an awaiter; and while a connection waits
    every thread is able to accept it. *)
Theorem connections_accepted_once ids acc s :
  reachable step smooth (run_servers ids acc) s ->
  arrived s = (accepted s).*2 ++ backlog s /\
  forall i x, m_servers s !! i = Some x ->
    handled x = conn_of <$> accepted_by i (accepted s) /\
    (m_thread x = Waits -> take_awaiter (m_acceptor x) <> None) /\
    (forall c b, backlog s = c :: b ->
       exists s', (step (Event i) s = Some s' \/ s' = s) /\
         exists s'', step (Accept i true) s' = Some s'' /\ accepted s'' = accepted s ++ [(i, c)] /\ backlog s'' = b).
Proof.
  intros R. assert (accept_inv s) as [[A F] I].
  { eapply reachable_inv; [apply run_servers_inv| |exact R]. eauto using step_accept_inv. }
  split; [done|]. intros i x Hi. pose proof (I i x Hi) as [O1 O2 O3]. split; [done|]. split.
  - intros Ht. rewrite Ht in O2. unfold take_awaiter. by rewrite O2.
  - intros [fd ad] b Eb. destruct (m_thread x) eqn:Et; [| |done].
    + cbn [step]. rewrite Hi. cbn [mbind option_bind]. rewrite Et, Eb. unfold take_awaiter. rewrite O2.
      eexists. split; [by left|]. unfold put_server. cbn [m_servers backlog]. rewrite lookup_insert_eq. cbn [mbind option_bind m_thread].
      rewrite Eb. eexists. split; [done|]. done.
    + exists s. split; [by right|]. cbn [step]. rewrite Hi. cbn [mbind option_bind]. rewrite Et, Eb. eexists. by split.
Qed.

Definition two_threads : gmap tid unit := {[ 1%positive := tt; 2%positive := tt ]}.
Definition listening : Acceptor := put_endpoint (mk_endpoint Any 8080) (put_socket 3 (new_acceptor false)).

Lemma connections_accepted_once_witness :
  exists s, run step [Arrive (5, 7); Event 2; Arrive (6, 8); Event 1; Accept 1 true; Accept 2 true] (run_servers two_threads listening) = Some s /\
    accepted s = [(1%positive, (5, 7)); (2%positive, (6, 8))] /\
    arrived s = (accepted s).*2 ++ backlog s /\
    forall i x, m_servers s !! i = Some x ->
      handled x = conn_of <$> accepted_by i (accepted s) /\
      (m_thread x = Waits -> take_awaiter (m_acceptor x) <> None) /\
      (forall c b, backlog s = c :: b ->
         exists s', (step (Event i) s = Some s' \/ s' = s) /\
           exists s'', step (Accept i true) s' = Some s'' /\ accepted s'' = accepted s ++ [(i, c)] /\ backlog s'' = b).
Proof.
  match goal with |- exists s, run ?st ?acts ?s0 = _ /\ _ => destruct (run st acts s0) as [s|] eqn:E; [|vm_compute in E; discriminate] end.
  exists s. split; [reflexivity|]. split; [vm_compute in E; injection E as <-; reflexivity|].
  apply (connections_accepted_once two_threads listening s).
  refine (run_reachable step smooth _ _ _ _ E). by repeat constructor.
Defined.

(** two threads are told of one connection: the listening socket is blocking, so the
    second stays in accept, and none of its own connections is served until another
    client comes *)
Lemma accept_blocks_thread :
  exists s x, run step [Arrive (5, 7); Event 1; Event 2; Accept 1 true] (run_servers two_threads listening) = Some s /\
    m_servers s !! 2%positive = Some x /\ m_thread x = Accepts /\ step (Accept 2 true) s = None /\ step (Event 2) s = None.
Proof. eexists _, _. split; [vm_compute; reflexivity|]. split; [reflexivity|]. done. Qed.
