(* ===== verification/Reactor.v ===== *)
(** * The epoll server

    core/epoll_server.hpp and core/http_server.hpp: the reactor that hands the events
    of its connections to a pool of workers (CorePool.v), with core/epoller.cpp.  The
    connection class it is a template of is an interface, [HttpConn]: the file that
    core/http_server.hpp includes for it is not part of the repository.  A step is what
    the loop does with one event, one call of a worker that the others can notice, or
    a timer that fires.  users_ never forgets a descriptor and init gives a connection
    its descriptor, so that a pointer to a client is the descriptor. *)

From Stdlib Require Import ZArith Lia.
From stdpp Require Import base numbers list gmap sets.
From S2P Require Import Prelude Transition.
Local Open Scope Z_scope.

(** ** Events *)

Definition EPOLLIN : Z := 1.
Definition EPOLLOUT : Z := 4.
Definition EPOLLERR : Z := 8.
Definition EPOLLHUP : Z := 16.
Definition EPOLLRDHUP : Z := 2 ^ 13.
Definition EPOLLONESHOT : Z := 2 ^ 30.
Definition EPOLLET : Z := 2 ^ 31.
Definition EAGAIN : Z := 11.

Infix ".|" := Z.lor (at level 50, left associativity) : Z_scope.
Definition has (ev flags : Z) : bool := negb (Z.land ev flags =? 0).

(** listenEvent_ and connEvent_ *)
Definition InitEventMode_ (trigMode : Z) : Z * Z :=
  let listen := EPOLLRDHUP in
  let conn := EPOLLONESHOT .| EPOLLRDHUP in
  if trigMode =? 0 then (listen, conn)
  else if trigMode =? 1 then (listen, conn .| EPOLLET)
  else if trigMode =? 2 then (listen .| EPOLLET, conn)
  else if trigMode =? 3 then (listen .| EPOLLET, conn .| EPOLLET)
  else (listen .| EPOLLET, conn .| EPOLLET).

(** how the kernel answers socket, setsockopt twice, bind, listen, and epoll_ctl *)
Record kernel := mk_kernel {
  k_socket : Z; k_linger : bool; k_reuse : bool; k_bind : Z -> bool; k_listen : bool; k_add : bool
}.

(** InitSocket_: what it leaves open, and listenFd_ when it succeeds *)
Definition InitSocket_ (port : Z) (k : kernel) (opened : gset Z) : gset Z * option Z :=
  if (65535 <? port) || (port <? 1024) then (opened, None)
  else if k_socket k <? 0 then (opened, None)
  else
    let fd := k_socket k in
    let opened := {[ fd ]} ∪ opened in
    let fail := (opened ∖ {[ fd ]}, None) in
    if negb (k_linger k) then fail
    else if negb (k_reuse k) then fail
    else if negb (k_bind k port) then fail
    else if negb (k_listen k) then fail
    else if negb (k_add k) then fail
    else (opened, Some fd).

(** a failure leaves nothing open *)
Lemma InitSocket_closes port k opened :
  k_socket k ∉ opened -> forall o r, InitSocket_ port k opened = (o, r) ->
  match r with
  | Some fd => fd = k_socket k /\ 0 <= fd /\ 1024 <= port <= 65535 /\ k_bind k port = true /\ k_listen k = true /\ o = {[ fd ]} ∪ opened
  | None => o = opened
  end.
Proof.
  intros Hn o r. unfold InitSocket_. destruct ((65535 <? port) || (port <? 1024)) eqn:Ep; [by intros [= <- <-]|].
  apply orb_false_iff in Ep as [E1 E2]. destruct (k_socket k <? 0) eqn:E0; [by intros [= <- <-]|]. zbool.
  assert (({[ k_socket k ]} ∪ opened) ∖ {[ k_socket k ]} = opened) as E by set_solver. rewrite E.
  destruct (k_linger k), (k_reuse k), (k_bind k port), (k_listen k), (k_add k); intros [= <- <-]; done.
Qed.

(** ** The connection *)

Class HttpConn (C : Type) := mk_http_conn {
  conn_new : C;
  conn_init : Z -> C -> C;
  Close : C -> C;
  conn_read : C -> C * (Z * Z);     (** the result and errno *)
  conn_write : C -> C * (Z * Z);
  process : C -> C * bool;
  ToWriteBytes : C -> Z;
  has_continue_workd : C -> bool;
  IsKeepAlive : C -> bool;
  is_ws_socket : C -> bool
}.

Section reactor.
Context {C : Type} `{HttpConn C}.

(** ** The state *)

Notation fd := Z (only parsing).

Inductive job := Read (c : fd) | Write (c : fd).

(** where a worker is, and with which client *)
Inductive worker :=
| W_idle
| W_read (c : fd) | W_process (c : fd) | W_write (c : fd)
| W_mod (c : fd) (events : Z)
| W_del (c : fd) | W_close (c : fd).

Record epoll_server := mk_server {
  timeoutMS_ : Z; listenFd_ : fd; listenEvent_ : Z; connEvent_ : Z;
  epoll : gmap fd (Z * bool);            (** the interest list; false: reported and not armed again *)
  open : gset fd;                        (** the sockets of clients *)
  users_ : gmap fd C;
  timer_ : gset fd;
  batch : list (fd * Z);                 (** what epoll_wait reported, still to be handled *)
  tasks : list job;
  workers : list worker
}.

Definition put_epoll (m : gmap fd (Z * bool)) (s : epoll_server) : epoll_server :=
  mk_server (timeoutMS_ s) (listenFd_ s) (listenEvent_ s) (connEvent_ s) m (open s) (users_ s) (timer_ s) (batch s) (tasks s) (workers s).
Definition put_open (o : gset fd) (s : epoll_server) : epoll_server :=
  mk_server (timeoutMS_ s) (listenFd_ s) (listenEvent_ s) (connEvent_ s) (epoll s) o (users_ s) (timer_ s) (batch s) (tasks s) (workers s).
Definition put_user (c : fd) (x : C) (s : epoll_server) : epoll_server :=
  mk_server (timeoutMS_ s) (listenFd_ s) (listenEvent_ s) (connEvent_ s) (epoll s) (open s) (<[c := x]> (users_ s)) (timer_ s) (batch s) (tasks s) (workers s).
Definition put_timer (t : gset fd) (s : epoll_server) : epoll_server :=
  mk_server (timeoutMS_ s) (listenFd_ s) (listenEvent_ s) (connEvent_ s) (epoll s) (open s) (users_ s) t (batch s) (tasks s) (workers s).
Definition put_batch (b : list (fd * Z)) (s : epoll_server) : epoll_server :=
  mk_server (timeoutMS_ s) (listenFd_ s) (listenEvent_ s) (connEvent_ s) (epoll s) (open s) (users_ s) (timer_ s) b (tasks s) (workers s).
Definition put_tasks (t : list job) (s : epoll_server) : epoll_server :=
  mk_server (timeoutMS_ s) (listenFd_ s) (listenEvent_ s) (connEvent_ s) (epoll s) (open s) (users_ s) (timer_ s) (batch s) t (workers s).
Definition put_worker (i : nat) (w : worker) (s : epoll_server) : epoll_server :=
  mk_server (timeoutMS_ s) (listenFd_ s) (listenEvent_ s) (connEvent_ s) (epoll s) (open s) (users_ s) (timer_ s) (batch s) (tasks s) (<[i := w]> (workers s)).

(** ** Epoller *)

(** epoll_ctl refuses to add what is there, and to change or remove what is not *)
Definition AddFd (c : fd) (events : Z) (s : epoll_server) : epoll_server :=
  if c <? 0 then s
  else match epoll s !! c with Some _ => s | None => put_epoll (<[c := (events, true)]> (epoll s)) s end.
Definition ModFd (c : fd) (events : Z) (s : epoll_server) : epoll_server :=
  if c <? 0 then s
  else match epoll s !! c with Some _ => put_epoll (<[c := (events, true)]> (epoll s)) s | None => s end.
Definition DelFd (c : fd) (s : epoll_server) : epoll_server :=
  if c <? 0 then s else put_epoll (delete c (epoll s)) s.

(** what epoll_wait may report of a descriptor *)
Definition reports (events r : Z) : bool :=
  negb (r =? 0) && (Z.land r (Z.land events (EPOLLIN .| EPOLLOUT .| EPOLLRDHUP) .| (EPOLLERR .| EPOLLHUP)) =? r).

(** Wait: a descriptor with EPOLLONESHOT is not reported again *)
Fixpoint Wait (evs : list (fd * Z)) (m : gmap fd (Z * bool)) : option (gmap fd (Z * bool)) :=
  match evs with
  | [] => Some m
  | (c, r) :: evs =>
      match m !! c with
      | Some (events, true) =>
          if reports events r then m ← Wait evs m;
            if has events EPOLLONESHOT then Some (<[c := (events, false)]> m) else Some m
          else None
      | _ => None
      end
  end.

(** ** The operations *)

(** users_[fd], and the object that a worker has; a descriptor that is new gets a new
    connection (AddClient_) *)
Definition get_user (c : fd) (s : epoll_server) : C := default conn_new (users_ s !! c).

(** Close closes the descriptor, which takes it out of epoll *)
Definition close_client (c : fd) (s : epoll_server) : epoll_server :=
  put_epoll (delete c (epoll s)) (put_open (open s ∖ {[ c ]}) (put_user c (Close (get_user c s)) s)).

Definition CloseConn_ (c : fd) (s : epoll_server) : epoll_server := close_client c (DelFd c s).

Definition ExtentTime_ (c : fd) (s : epoll_server) : epoll_server :=
  if 0 <? timeoutMS_ s then put_timer ({[ c ]} ∪ timer_ s) s else s.

Definition AddTask (t : job) (s : epoll_server) : epoll_server := put_tasks (tasks s ++ [t]) s.
Definition DealRead_ (c : fd) (s : epoll_server) : epoll_server := AddTask (Read c) (ExtentTime_ c s).
Definition DealWrite_ (c : fd) (s : epoll_server) : epoll_server := AddTask (Write c) (ExtentTime_ c s).

Definition AddClient_ (c : fd) (s : epoll_server) : epoll_server :=
  let s := put_user c (conn_init c (get_user c s)) s in
  let s := if 0 <? timeoutMS_ s then put_timer ({[ c ]} ∪ timer_ s) s else s in
  AddFd c (EPOLLIN .| connEvent_ s) s.

(** what accept returns until it fails: descriptors that are not in use, each with the
    answer to userCount >= MAX_FD *)
Fixpoint DealListen_ (answers : list (fd * bool)) (s : epoll_server) : option epoll_server :=
  match answers with
  | [] => Some s
  | (c, busy) :: answers =>
      if (c <=? 0) || (c =? listenFd_ s) || bool_decide (c ∈ open s) then None
      else if (busy : bool) then Some s                (* SendError_ closes it *)
      else
        let s := AddClient_ c (put_open ({[ c ]} ∪ open s) s) in
        if has (listenEvent_ s) EPOLLET then DealListen_ answers s
        else match answers with [] => Some s | _ => None end
  end.

(** assert(users_.count(fd) > 0) *)
Definition known (c : fd) (s : epoll_server) : bool := bool_decide (is_Some (users_ s !! c)).
Definition asserted (b : bool) (s : epoll_server) : option epoll_server := if b then Some s else None.

(** the body of the loop of Start, for one event; [None] for an assertion that fails *)
Definition handle_event (c : fd) (events : Z) (answers : list (fd * bool)) (s : epoll_server) : option epoll_server :=
  if c =? listenFd_ s then DealListen_ answers s
  else if has events (EPOLLRDHUP .| EPOLLHUP .| EPOLLERR) then asserted (known c s) (CloseConn_ c s)
  else if has events EPOLLIN then asserted (known c s) (DealRead_ c s)
  else if has events EPOLLOUT then asserted (known c s) (DealWrite_ c s)
  else Some s.

(** OnRead_, OnProcess, OnWrite_, CloseConn_, up to the next thing others can notice *)
Definition worker_step (i : nat) (s : epoll_server) : option epoll_server :=
  w ← workers s !! i;
  match w with
  | W_idle =>
      match tasks s with
      | [] => None
      | Read c :: ts => Some (put_worker i (W_read c) (put_tasks ts s))
      | Write c :: ts => Some (put_worker i (W_write c) (put_tasks ts s))
      end
  | W_read c =>
      let '(x, (ret, errno)) := conn_read (get_user c s) in
      Some (put_worker i (if (ret <=? 0) && negb (errno =? EAGAIN) then W_del c else W_process c) (put_user c x s))
  | W_process c =>
      let '(x, written) := process (get_user c s) in
      Some (put_worker i (W_mod c (if (written : bool)
                                   then if is_ws_socket x then connEvent_ s else connEvent_ s .| EPOLLOUT
                                   else connEvent_ s .| EPOLLIN)) (put_user c x s))
  | W_write c =>
      let '(x, (ret, errno)) := conn_write (get_user c s) in
      Some (put_worker i (if ToWriteBytes x =? 0
                          then if has_continue_workd x then W_process c else if IsKeepAlive x then W_process c else W_del c
                          else if (ret <? 0) && (errno =? EAGAIN) then W_mod c (connEvent_ s .| EPOLLOUT)
                          else W_del c) (put_user c x s))
  | W_mod c events => Some (put_worker i W_idle (ModFd c events s))
  | W_del c => Some (put_worker i (W_close c) (DelFd c s))
  | W_close c => Some (put_worker i W_idle (close_client c s))
  end.

Inductive action :=
| Poll (evs : list (fd * Z))            (** epoll_wait returns *)
| Handle (answers : list (fd * bool))   (** the next event; what accept returns, if it is called *)
| Work (i : nat)
| Tick (c : fd).                        (** its timer fires, in GetNextTick *)

Definition step (a : action) (s : epoll_server) : option epoll_server :=
  match a with
  | Poll evs =>
      match batch s with
      | [] => if bool_decide (NoDup evs.*1) then m ← Wait evs (epoll s); Some (put_batch evs (put_epoll m s)) else None
      | _ => None
      end
  | Handle answers =>
      match batch s with
      | [] => None
      | (c, events) :: b => handle_event c events answers (put_batch b s)
      end
  | Work i => worker_step i s
  | Tick c =>
      match batch s with
      | [] => if bool_decide (c ∈ timer_ s) then Some (CloseConn_ c (put_timer (timer_ s ∖ {[ c ]}) s)) else None
      | _ => None
      end
  end.

(** __init__, with InitSocket_ *)
Definition init_server (timeoutMS trigMode : Z) (listenFd : fd) (threadNum : nat) : epoll_server :=
  let '(listen, conn) := InitEventMode_ trigMode in
  mk_server timeoutMS listenFd listen conn {[ listenFd := (listen .| EPOLLIN, true) ]} ∅ ∅ ∅ [] [] (replicate threadNum W_idle).

(** ** Who has a client in his hands *)

Definition job_client (t : job) : fd := match t with Read c | Write c => c end.
Definition worker_client (w : worker) : option fd :=
  match w with
  | W_idle => None
  | W_read c | W_process c | W_write c | W_mod c _ | W_del c | W_close c => Some c
  end.

(** an event that is still to be handled, a task or a worker *)
Definition in_hands (l : fd) (b : list (fd * Z)) (t : list job) (ws : list worker) : list fd :=
  filter (fun c => c <> l) b.*1 ++ (job_client <$> t) ++ omap worker_client ws.
Definition in_use (s : epoll_server) : list fd := in_hands (listenFd_ s) (batch s) (tasks s) (workers s).

Definition watched (s : epoll_server) (c : fd) : Prop := exists events, epoll s !! c = Some (events, true).

(** An open connection is watched by epoll, or in somebody's hands and then not watched;
    a closed one is neither. *)
Record client_ok (s : epoll_server) (c : fd) : Prop := mk_client_ok {
  ok_state :
    if decide (c ∈ open s)
    then if decide (c ∈ in_use s) then (~ watched s c) /\ (W_close c ∈ workers s \/ is_Some (epoll s !! c))
         else watched s c
    else (c ∉ in_use s) /\ epoll s !! c = None;
  ok_events : forall events b, epoll s !! c = Some (events, b) -> has events EPOLLONESHOT = true;
  ok_positive : c ∈ open s -> 0 < c
}.

Definition hup : Z := (EPOLLRDHUP .| EPOLLHUP .| EPOLLERR)%Z.
Definition flags_ok (l : fd) (e : fd * Z) : Prop := e.1 <> l -> (has e.2 hup || has e.2 EPOLLIN || has e.2 EPOLLOUT) = true.
Definition mod_ok (w : worker) : Prop := match w with W_mod _ events => has events EPOLLONESHOT = true | _ => True end.

Record listen_ok (s : epoll_server) : Prop := mk_listen_ok {
  l_open : listenFd_ s ∉ open s;
  l_epoll : exists events, epoll s !! listenFd_ s = Some (events, true) /\ has events EPOLLONESHOT = false;
  l_timer : listenFd_ s ∉ timer_ s;
  l_hands : listenFd_ s ∉ in_use s
}.

Record server_inv (s : epoll_server) : Prop := mk_inv {
  inv_nodup : NoDup (in_use s);
  inv_clients : forall c, c <> listenFd_ s -> client_ok s c;
  inv_listen : listen_ok s;
  inv_conn : has (connEvent_ s) EPOLLONESHOT = true;
  inv_batch : Forall (flags_ok (listenFd_ s)) (batch s);
  inv_mod : Forall mod_ok (workers s)
}.

(** nothing has changed for [c] *)
Record same_client (s s' : epoll_server) (c : fd) : Prop := mk_same {
  same_open : c ∈ open s <-> c ∈ open s';
  same_use : c ∈ in_use s <-> c ∈ in_use s';
  same_close : W_close c ∈ workers s <-> W_close c ∈ workers s';
  same_epoll : epoll s !! c = epoll s' !! c
}.

Lemma client_ok_same s s' c : same_client s s' c -> client_ok s c -> client_ok s' c.
Proof.
  intros [E1 E2 E3 E4] [O1 O2 O3]. split; [|by rewrite <-E4|by rewrite <-E1].
  unfold watched in *. rewrite <-E4.
  destruct (decide (c ∈ open s)) as [H1|H1]; destruct (decide (c ∈ open s')) as [H2|H2]; try tauto;
    destruct (decide (c ∈ in_use s)) as [H3|H3]; destruct (decide (c ∈ in_use s')) as [H4|H4]; tauto.
Qed.

(** a step that concerns one client *)
Lemma inv_step c s s' :
  server_inv s -> listenFd_ s' = listenFd_ s -> connEvent_ s' = connEvent_ s -> c <> listenFd_ s ->
  (forall d, d <> c -> same_client s s' d) -> client_ok s' c -> NoDup (in_use s') ->
  listenFd_ s ∉ timer_ s' -> Forall (flags_ok (listenFd_ s)) (batch s') -> Forall mod_ok (workers s') ->
  server_inv s'.
Proof.
  intros [I1 I2 [L1 L2 L3 L4] I4 I5 I6] El Ec Hc Hd Ho Hn Ht Hb Hm.
  pose proof (Hd (listenFd_ s) (not_eq_sym Hc)) as [E1 E2 _ E4].
  split; rewrite ?El, ?Ec; try done.
  - intros d Hl. destruct (decide (d = c)) as [->|Hne]; [done|]. by apply (client_ok_same s), I2; [apply Hd|].
  - split; rewrite El; [tauto|by rewrite <-E4|done|tauto].
Qed.

Lemma delete_insert_same {A} (i : nat) (x : A) (l : list A) : delete i (<[i := x]> l) = delete i l.
Proof. revert i; induction l as [|y l IH]; intros [|i]; cbn; try done. by rewrite IH. Qed.

Lemma elem_of_insert_other {A} (v w w' : A) (i : nat) (l : list A) : l !! i = Some w -> v <> w -> v <> w' -> v ∈ l <-> v ∈ <[i := w']> l.
Proof.
  intros Hi H1 H2. rewrite (delete_Permutation l i w Hi) at 1.
  rewrite (delete_Permutation (<[i := w']> l) i w') by (apply list_lookup_insert_eq; by eapply lookup_lt_Some).
  rewrite delete_insert_same, !elem_of_cons. tauto.
Qed.

Lemma in_hands_worker l b t ws i w : ws !! i = Some w ->
  in_hands l b t ws ≡ₚ option_list (worker_client w) ++ in_hands l b t (delete i ws).
Proof.
  intros Hv. unfold in_hands.
  assert (omap worker_client ws ≡ₚ option_list (worker_client w) ++ omap worker_client (delete i ws)) as ->.
  { rewrite (delete_Permutation ws i w Hv) at 1. cbn. by destruct (worker_client w). }
  rewrite (Permutation_app_swap_app (job_client <$> t)). apply Permutation_app_swap_app.
Qed.

Lemma in_hands_put l b t ws i w w' : ws !! i = Some w ->
  in_hands l b t (<[i := w']> ws) ≡ₚ option_list (worker_client w') ++ in_hands l b t (delete i ws).
Proof.
  intros Hi. rewrite (in_hands_worker _ _ _ (<[i := w']> ws) i w') by (apply list_lookup_insert_eq; by eapply lookup_lt_Some).
  by rewrite delete_insert_same.
Qed.

(** a worker and its client *)
Lemma worker_client_facts i w c s :
  server_inv s -> workers s !! i = Some w -> worker_client w = Some c ->
  c <> listenFd_ s /\ c ∈ open s /\ 0 < c /\ ~ watched s c /\
  (forall events b, epoll s !! c = Some (events, b) -> has events EPOLLONESHOT = true) /\
  (c ∉ in_hands (listenFd_ s) (batch s) (tasks s) (delete i (workers s))) /\
  NoDup (in_hands (listenFd_ s) (batch s) (tasks s) (delete i (workers s))) /\
  ((forall d, w <> W_close d) -> is_Some (epoll s !! c)).
Proof.
  intros [I1 I2 [L1 L2 L3 L4] I4 I5 I6] Hi Hc.
  pose proof (in_hands_worker (listenFd_ s) (batch s) (tasks s) _ _ _ Hi) as P. rewrite Hc in P. cbn [option_list from_option app] in P.
  fold (in_use s) in P. rewrite P in I1, L4. apply NoDup_cons in I1 as [N1 N2].
  assert (c ∈ in_use s) as Hu by (rewrite P; apply list_elem_of_here).
  assert (c <> listenFd_ s) as Hl by (intros ->; apply L4, list_elem_of_here).
  destruct (I2 c Hl) as [O1 O2 O3]. destruct (decide (c ∈ open s)) as [Ho|Ho]; [|tauto].
  rewrite decide_True in O1 by done. destruct O1 as [O1 O4]. repeat apply conj; eauto.
  intros Hw. destruct O4 as [O4|O4]; [|done]. exfalso.
  rewrite (delete_Permutation _ _ _ Hi) in O4. apply elem_of_cons in O4 as [O4|O4]; [by apply (Hw c)|].
  apply N1. unfold in_hands. rewrite !elem_of_app. right; right. apply list_elem_of_omap. by exists (W_close c).
Qed.

(** what only concerns the descriptor [c]: nothing else of the kernel, no queue *)
Record touches (c : fd) (s s1 : epoll_server) : Prop := mk_touches {
  t_listen : listenFd_ s1 = listenFd_ s; t_conn : connEvent_ s1 = connEvent_ s;
  t_batch : batch s1 = batch s; t_tasks : tasks s1 = tasks s; t_workers : workers s1 = workers s;
  t_timer : timer_ s1 = timer_ s;
  t_other : forall d, d <> c -> (d ∈ open s <-> d ∈ open s1) /\ epoll s !! d = epoll s1 !! d
}.

(** a worker goes on with its client, or gives it up *)
Lemma worker_inv i w w' c s s1 :
  server_inv s -> workers s !! i = Some w -> worker_client w = Some c -> touches c s s1 ->
  mod_ok w' -> worker_client w' = Some c \/ worker_client w' = None ->
  client_ok (put_worker i w' s1) c -> server_inv (put_worker i w' s1).
Proof.
  intros I Hi Hc [E1 E2 E3 E4 E5 E6 E7] Hm Hw Hok.
  destruct (worker_client_facts _ _ _ _ I Hi Hc) as (Hl & Ho & H0 & Hnw & Hev & Hni & Hnd & He).
  assert (P : in_use s ≡ₚ c :: in_hands (listenFd_ s) (batch s) (tasks s) (delete i (workers s))).
  { unfold in_use. rewrite (in_hands_worker _ _ _ _ _ _ Hi), Hc. done. }
  assert (P' : in_use (put_worker i w' s1) ≡ₚ option_list (worker_client w') ++ in_hands (listenFd_ s) (batch s) (tasks s) (delete i (workers s))).
  { unfold in_use. cbn [put_worker listenFd_ batch tasks workers]. rewrite E1, E3, E4, E5. by eapply in_hands_put. }
  apply (inv_step c s); try done; cbn [put_worker listenFd_ batch tasks workers connEvent_ timer_ open epoll].
  - intros d Hd. destruct (E7 d Hd) as [E8 E9]. split; cbn [put_worker workers open epoll]; try done.
    + rewrite P, P'. destruct Hw as [-> | ->]; unfold option_list; cbn [option_rect app]; rewrite !elem_of_cons; tauto.
    + rewrite E5. apply (elem_of_insert_other _ w); [done| |]; intros <-; cbn [worker_client] in *; naive_solver.
  - rewrite P'. destruct Hw as [-> | ->]; unfold option_list; cbn [option_rect app]; [|done]. by apply NoDup_cons.
  - rewrite E6. apply (inv_listen _ I).
  - rewrite E3. apply (inv_batch _ I).
  - rewrite E5. apply Forall_insert; [apply (inv_mod _ I)|done].
Qed.

Lemma touches_user c x s : touches c s (put_user c x s).
Proof. by split. Qed.

(** the new state of the client while the worker has it *)
Lemma client_ok_worker i w w' c s s1 :
  server_inv s -> workers s !! i = Some w -> worker_client w = Some c -> touches c s s1 -> worker_client w' = Some c ->
  c ∈ open s1 -> ~ watched s1 c -> (w' = W_close c \/ is_Some (epoll s1 !! c)) ->
  (forall events b, epoll s1 !! c = Some (events, b) -> has events EPOLLONESHOT = true) ->
  client_ok (put_worker i w' s1) c.
Proof.
  intros I Hi Hc [E1 E2 E3 E4 E5 E6 E7] Hw Ho Hn Hx Hev.
  destruct (worker_client_facts _ _ _ _ I Hi Hc) as (_ & _ & H0 & _).
  split; cbn [put_worker open epoll]; try done. rewrite decide_True by done. rewrite decide_True.
  - split; [done|]. cbn [put_worker workers epoll]. destruct Hx as [-> |Hx]; [left|by right].
    apply list_elem_of_lookup. exists i. rewrite E5. apply list_lookup_insert_eq. by eapply lookup_lt_Some.
  - unfold in_use. cbn [put_worker listenFd_ batch tasks workers]. rewrite E1, E3, E4, E5, (in_hands_put _ _ _ _ _ _ _ Hi), Hw. by left.
Qed.

(** and when the worker has given it up *)
Lemma client_ok_released i w c s s1 :
  server_inv s -> workers s !! i = Some w -> worker_client w = Some c -> touches c s s1 ->
  (c ∈ open s1 /\ (exists events, epoll s1 !! c = Some (events, true) /\ has events EPOLLONESHOT = true) \/
   (c ∉ open s1) /\ epoll s1 !! c = None) ->
  client_ok (put_worker i W_idle s1) c.
Proof.
  intros I Hi Hc [E1 E2 E3 E4 E5 E6 E7] Hx.
  destruct (worker_client_facts _ _ _ _ I Hi Hc) as (_ & _ & H0 & _ & _ & Hni & _).
  assert (c ∉ in_use (put_worker i W_idle s1)) as Hu.
  { unfold in_use. cbn [put_worker listenFd_ batch tasks workers]. by rewrite E1, E3, E4, E5, (in_hands_put _ _ _ _ _ _ _ Hi). }
  destruct Hx as [[Ho (ev & He & Hev)]|[Ho He]]; split; cbn [put_worker open epoll]; try done.
  - rewrite decide_True, decide_False by done. by exists ev.
  - intros ev' b. rewrite He. by intros [= <- <-].
  - by rewrite decide_False by done.
  - intros ev' b. by rewrite He.
Qed.

Lemma has_lor a b flags : has a flags = true -> has (a .| b)%Z flags = true.
Proof.
  unfold has. rewrite !negb_true_iff, !Z.eqb_neq, Z.land_lor_distr_l. intros H1 H2. apply H1.
  by apply Z.lor_eq_0_iff in H2 as [? _].
Qed.

Lemma in_use_take i s ts c w' t :
  workers s !! i = Some W_idle -> tasks s = t :: ts -> job_client t = c -> worker_client w' = Some c ->
  in_use (put_worker i w' (put_tasks ts s)) ≡ₚ in_use s.
Proof.
  intros Hi Ht Hj Hw. unfold in_use. cbn [put_worker put_tasks listenFd_ batch tasks workers].
  rewrite (in_hands_put _ _ _ _ _ _ _ Hi), (in_hands_worker _ _ _ _ _ _ Hi), Hw, Ht. unfold in_hands, option_list. cbn [option_rect app worker_client fmap list_fmap].
  rewrite Hj. cbn [app]. by rewrite <-Permutation_middle.
Qed.

(** a worker takes the next task *)
Lemma take_inv i s ts c w' t :
  server_inv s -> workers s !! i = Some W_idle -> tasks s = t :: ts -> job_client t = c -> worker_client w' = Some c -> mod_ok w' ->
  (forall d, w' <> W_close d) -> server_inv (put_worker i w' (put_tasks ts s)).
Proof.
  intros I Hi Ht Hj Hw Hm Hn. pose proof (in_use_take _ _ _ _ _ _ Hi Ht Hj Hw) as P.
  destruct I as [I1 I2 [L1 L2 L3 L4] I4 I5 I6].
  split; cbn [put_worker put_tasks listenFd_ connEvent_ batch workers]; try done.
  - by rewrite P.
  - intros d Hd. apply (client_ok_same s); [|by apply I2]. split; cbn [put_worker put_tasks open workers epoll]; try done.
    + by rewrite P.
    + apply (elem_of_insert_other _ W_idle); [done|done|]. by intros E; destruct (Hn d).
  - split; cbn [put_worker put_tasks listenFd_ open epoll timer_]; try done. by rewrite P.
  - apply Forall_insert; done.
Qed.

Lemma reactor_worker_inv i s s' : worker_step i s = Some s' -> server_inv s -> server_inv s'.
Proof.
  unfold worker_step. destruct (workers s !! i) as [w|] eqn:Hi; [|done]. cbn [mbind option_bind]. intros Hs I.
  assert (K : forall c w' x, worker_client w = Some c -> worker_client w' = Some c -> (forall d, w <> W_close d) -> (forall d, w' <> W_close d) ->
    mod_ok w' -> server_inv (put_worker i w' (put_user c x s))).
  { intros c w' x Hc Hc' Hn Hn' Hm. destruct (worker_client_facts _ _ _ _ I Hi Hc) as (Hl & Ho & H0 & Hnw & Hev & Hni & Hnd & He).
    eapply worker_inv; eauto using touches_user. eapply client_ok_worker; eauto using touches_user. }
  destruct w as [|c|c|c|c events|c|c]; cbn [worker_client] in *.
  - destruct (tasks s) as [|[c|c] ts] eqn:Et; [done| |]; simplify_eq; by eapply take_inv.
  - destruct (conn_read (get_user c s)) as [x [ret errno]]. simplify_eq. destruct ((ret <=? 0) && negb (errno =? EAGAIN)); by apply K.
  - destruct (process (get_user c s)) as [x written]. simplify_eq. apply K; try done. cbn [mod_ok].
    pose proof (inv_conn _ I) as Hc. destruct written; [destruct (is_ws_socket x)|]; [done|by apply has_lor|by apply has_lor].
  - destruct (conn_write (get_user c s)) as [x [ret errno]]. simplify_eq.
    pose proof (inv_conn _ I) as Hc.
    destruct (ToWriteBytes x =? 0); [destruct (has_continue_workd x), (IsKeepAlive x)|destruct ((ret <? 0) && (errno =? EAGAIN))]; apply K; try done.
    by apply has_lor.
  - injection Hs as <-. destruct (worker_client_facts _ _ _ _ I Hi eq_refl) as (Hl & Ho & H0 & Hnw & Hev & Hni & Hnd & He).
    destruct He as [[ev b] He]; [done|]. unfold ModFd. rewrite (proj2 (Z.ltb_ge _ _)) by lia. rewrite He.
    assert (touches c s (put_epoll (<[c:=(events, true)]> (epoll s)) s)) as T.
    { split; try done. intros d Hd. cbn. by rewrite lookup_insert_ne. }
    eapply worker_inv; eauto; [done|]. eapply client_ok_released; eauto. left. split; [done|]. exists events. cbn [put_epoll epoll].
    rewrite lookup_insert_eq. split; [done|]. pose proof (inv_mod _ I) as Hm. rewrite Forall_lookup in Hm. exact (Hm _ _ Hi).
  - injection Hs as <-. destruct (worker_client_facts _ _ _ _ I Hi eq_refl) as (Hl & Ho & H0 & Hnw & Hev & Hni & Hnd & He).
    unfold DelFd. rewrite (proj2 (Z.ltb_ge _ _)) by lia.
    assert (touches c s (put_epoll (delete c (epoll s)) s)) as T.
    { split; try done. intros d Hd. cbn. by rewrite lookup_delete_ne. }
    eapply worker_inv; eauto; [done|]. eapply client_ok_worker; eauto; cbn [put_epoll epoll open]; try done.
    + intros [ev Hw]. cbn in Hw. by rewrite lookup_delete_eq in Hw.
    + intros ev b Hw. by rewrite lookup_delete_eq in Hw.
  - injection Hs as <-. destruct (worker_client_facts _ _ _ _ I Hi eq_refl) as (Hl & Ho & H0 & Hnw & Hev & Hni & Hnd & He).
    assert (touches c s (close_client c s)) as T.
    { split; try done. intros d Hd. cbn. rewrite lookup_delete_ne by done. set_solver. }
    eapply worker_inv; eauto; [done|]. eapply client_ok_released; eauto. right. cbn. rewrite lookup_delete_eq. set_solver.
Qed.

(** ** The loop *)

Lemma pop_batch s c r b : batch s = (c, r) :: b ->
  in_use s = if decide (c = listenFd_ s) then in_use (put_batch b s) else c :: in_use (put_batch b s).
Proof.
  intros E. unfold in_use, in_hands. cbn [put_batch listenFd_ batch tasks workers]. rewrite E. cbn [fmap list_fmap fst].
  destruct (decide (c = listenFd_ s)).
  - by rewrite filter_cons_False by tauto.
  - by rewrite filter_cons_True.
Qed.

(** CloseConn_, by the loop: of a client that nobody else has in his hands *)
Lemma close_inv c s s0 :
  server_inv s -> c <> listenFd_ s ->
  listenFd_ s0 = listenFd_ s -> connEvent_ s0 = connEvent_ s -> open s0 = open s -> epoll s0 = epoll s -> workers s0 = workers s ->
  (forall d, d <> c -> d ∈ in_use s <-> d ∈ in_use s0) -> NoDup (in_use s0) -> c ∉ in_use s0 ->
  Forall (flags_ok (listenFd_ s)) (batch s0) -> listenFd_ s ∉ timer_ s0 ->
  server_inv (CloseConn_ c s0).
Proof.
  intros I Hl El Ec Eo Ee Ew Hu Hn Hc Hb Ht.
  assert (epoll (CloseConn_ c s0) = delete c (epoll s)) as E.
  { unfold CloseConn_, DelFd, close_client. destruct (c <? 0); cbn; rewrite Ee; [done|]. by rewrite delete_delete_eq. }
  assert (forall A (p : epoll_server -> A), (forall x y, p (put_epoll x y) = p y) -> (forall x y, p (put_open x y) = p y) ->
    (forall x y z, p (put_user x y z) = p z) -> p (CloseConn_ c s0) = p s0) as K.
  { intros A p K1 K2 K3. unfold CloseConn_, DelFd, close_client. rewrite K1, K2, K3. destruct (c <? 0); [done|]. by rewrite K1. }
  assert (open (CloseConn_ c s0) = open s ∖ {[ c ]}) as E'.
  { unfold CloseConn_, DelFd, close_client. cbn. destruct (c <? 0); cbn; by rewrite Eo. }
  assert (in_use (CloseConn_ c s0) = in_use s0) as Eu by (by apply (K _ in_use)).
  apply (inv_step c s); rewrite ?Eu; try done.
  - rewrite <-El. by apply (K _ listenFd_).
  - rewrite <-Ec. by apply (K _ connEvent_).
  - intros d Hd. split; [rewrite E'; set_solver|rewrite Eu; by apply Hu| |rewrite E; by rewrite lookup_delete_ne].
    by rewrite (K _ workers), Ew.
  - split.
    + rewrite E', decide_False by set_solver. rewrite Eu, E, lookup_delete_eq. done.
    + intros ev b0. rewrite E, lookup_delete_eq. done.
    + rewrite E'. set_solver.
  - by rewrite (K _ timer_).
  - by rewrite (K _ batch).
  - rewrite (K _ workers), Ew by done. apply (inv_mod _ I).
Qed.

(** an event becomes a task *)
Lemma deal_inv c r b s t s' :
  server_inv s -> batch s = (c, r) :: b -> c <> listenFd_ s -> job_client t = c ->
  s' = AddTask t (ExtentTime_ c (put_batch b s)) -> server_inv s'.
Proof.
  intros I Hb Hl Ht ->.
  assert (exists tm, AddTask t (ExtentTime_ c (put_batch b s)) = put_tasks (tasks s ++ [t]) (put_timer tm (put_batch b s)) /\ listenFd_ s ∉ tm) as (tm & -> & Htm).
  { pose proof (l_timer _ (inv_listen _ I)). unfold AddTask, ExtentTime_. cbn [put_batch timeoutMS_ timer_].
    destruct (0 <? timeoutMS_ s); [exists ({[c]} ∪ timer_ s)|exists (timer_ s)]; (split; [done|set_solver]). }
  assert (P : in_use (put_tasks (tasks s ++ [t]) (put_timer tm (put_batch b s))) ≡ₚ in_use s).
  { rewrite (pop_batch _ _ _ _ Hb), decide_False by done. unfold in_use, in_hands. cbn [put_tasks put_timer put_batch listenFd_ batch tasks workers].
    rewrite fmap_app. cbn [fmap list_fmap]. rewrite Ht, <-app_assoc. cbn [app]. rewrite <-Permutation_middle. apply Permutation_sym, Permutation_cons_app.
    by rewrite app_assoc. }
  destruct I as [I1 I2 [L1 L2 L3 L4] I4 I5 I6]. rewrite Hb in I5. apply Forall_cons in I5 as [_ I5].
  split; cbn [put_tasks put_timer put_batch listenFd_ connEvent_ batch workers]; try done.
  - by rewrite P.
  - intros d Hd. apply (client_ok_same s); [|by apply I2]. split; cbn; try done. by rewrite P.
  - split; cbn [put_tasks put_timer put_batch listenFd_ open epoll timer_]; try done. by rewrite P.
Qed.

(** a new client *)
Lemma add_client_inv c s :
  server_inv s -> 0 < c -> c <> listenFd_ s -> c ∉ open s -> server_inv (AddClient_ c (put_open ({[ c ]} ∪ open s) s)).
Proof.
  intros I H0 Hl Ho. destruct (inv_clients _ I c Hl) as [O1 _ _]. rewrite decide_False in O1 by done. destruct O1 as [Hu He].
  assert (exists u tm, AddClient_ c (put_open ({[ c ]} ∪ open s) s) =
    put_epoll (<[c := (EPOLLIN .| connEvent_ s, true)]> (epoll s)) (put_timer tm (put_user c u (put_open ({[ c ]} ∪ open s) s))) /\
    listenFd_ s ∉ tm) as (u & tm & -> & Htm).
  { pose proof (l_timer _ (inv_listen _ I)). unfold AddClient_, AddFd. rewrite (proj2 (Z.ltb_ge _ _)) by lia.
    exists (conn_init c (get_user c (put_open ({[ c ]} ∪ open s) s))). cbn [put_user put_open timeoutMS_].
    destruct (0 <? timeoutMS_ s); cbn; rewrite He; [exists ({[ c ]} ∪ timer_ s)|exists (timer_ s)]; (split; [reflexivity|set_solver]). }
  apply (inv_step c s); try done.
  - intros d Hd. split; cbn; [set_solver|done|done|by rewrite lookup_insert_ne].
  - split; cbn.
    + rewrite decide_True by set_solver. rewrite decide_False by done. eexists. apply lookup_insert_eq.
    + intros ev b. rewrite lookup_insert_eq. intros [= <- <-]. rewrite Z.lor_comm. apply has_lor, (inv_conn _ I).
    + done.
  - apply (inv_nodup _ I).
  - apply (inv_batch _ I).
  - apply (inv_mod _ I).
Qed.

Lemma deal_listen_inv answers s s' : DealListen_ answers s = Some s' -> server_inv s -> server_inv s'.
Proof.
  revert s; induction answers as [|[c busy] answers IH]; intros s E I; cbn [DealListen_] in E; [by simplify_eq|].
  destruct ((c <=? 0) || (c =? listenFd_ s) || bool_decide (c ∈ open s)) eqn:Ec; [done|].
  apply orb_false_iff in Ec as [Ec Ho]. apply orb_false_iff in Ec as [Hc Hl]. zbool. apply bool_decide_eq_false in Ho.
  destruct busy; [by simplify_eq|]. pose proof (add_client_inv c s I Hc Hl Ho) as I'.
  destruct (has _ EPOLLET) in E; [by apply (IH _ E)|]. destruct answers; by simplify_eq.
Qed.

Lemma pop_listen_inv r b s : server_inv s -> batch s = (listenFd_ s, r) :: b -> server_inv (put_batch b s).
Proof.
  intros [I1 I2 [L1 L2 L3 L4] I4 I5 I6] Hb. pose proof (pop_batch _ _ _ _ Hb) as E. rewrite decide_True in E by done.
  rewrite Hb in I5. apply Forall_cons in I5 as [_ I5].
  split; try done; [by rewrite <-E| |split; try done; by rewrite <-E].
  intros d Hd. apply (client_ok_same s); [|by apply I2]. split; try done. by rewrite E.
Qed.

Lemma handle_event_inv c r b answers s s' :
  server_inv s -> batch s = (c, r) :: b -> handle_event c r answers (put_batch b s) = Some s' -> server_inv s'.
Proof.
  intros I Hb E. unfold handle_event in E. cbn [put_batch listenFd_] in E.
  destruct (c =? listenFd_ s) eqn:Hl; zbool.
  { subst c. eapply deal_listen_inv; [exact E|]. by eapply pop_listen_inv. }
  pose proof (pop_batch _ _ _ _ Hb) as P. rewrite decide_False in P by done.
  pose proof (inv_nodup _ I) as N. rewrite P in N. apply NoDup_cons in N as [N1 N2].
  pose proof (inv_batch _ I) as F. rewrite Hb in F. apply Forall_cons in F as [Fc F]. specialize (Fc Hl). cbn [snd] in Fc.
  fold hup in E. unfold asserted in E. destruct (known c _); [|by repeat case_match; simplify_eq; destruct Fc as [|[|]]]. destruct (has r hup); [|destruct (has r EPOLLIN); [|destruct (has r EPOLLOUT); [|done]]]; simplify_eq.
  - apply (close_inv c s); try done; [|by apply (inv_listen _ I)]. intros d Hd. rewrite P, elem_of_cons. tauto.
  - by eapply (deal_inv c r b s (Read c)).
  - by eapply (deal_inv c r b s (Write c)).
Qed.

Lemma Wait_reported evs : NoDup evs.*1 -> forall m m', Wait evs m = Some m' ->
  forall c, (c ∉ evs.*1 -> m' !! c = m !! c) /\
    forall r, (c, r) ∈ evs -> exists events, m !! c = Some (events, true) /\ reports events r = true /\
      m' !! c = Some (events, negb (has events EPOLLONESHOT)).
Proof.
  induction evs as [|[d q] evs IH]; intros N m m' E c; cbn [Wait fmap list_fmap fst] in *.
  { simplify_eq. split; [done|]. intros r Hr. by apply elem_of_nil in Hr. }
  apply NoDup_cons in N as [N1 N2]. destruct (m !! d) as [[ev []]|] eqn:Ed; try done.
  destruct (reports ev q) eqn:Er; [|done]. destruct (Wait evs m) as [m1|] eqn:Ew; [|done]. cbn [mbind option_bind] in E.
  destruct (IH N2 _ _ Ew d) as [K1 _]. specialize (K1 N1). destruct (IH N2 _ _ Ew c) as [K2 K3].
  assert (forall x, c <> d -> m' !! c = x <-> m1 !! c = x) as K4.
  { intros x Hne. destruct (has ev EPOLLONESHOT); simplify_eq; [by rewrite lookup_insert_ne|done]. }
  split.
  - rewrite not_elem_of_cons. intros [H1 H2]. apply K4; [done|]. by apply K2.
  - intros r Hr. apply elem_of_cons in Hr as [[= -> ->]|Hr].
    + exists ev. split; [done|]. split; [done|]. destruct (has ev EPOLLONESHOT) eqn:Eo; simplify_eq.
      * apply lookup_insert_eq.
      * by rewrite K1.
    + destruct (K3 r Hr) as (ev' & H1 & H2 & H3). exists ev'. split; [done|]. split; [done|]. apply K4; [|done].
      intros ->. apply N1. apply list_elem_of_fmap. by exists (d, r).
Qed.

(** one of the branches of the loop takes every event that epoll reports *)
Lemma reports_flags l events r c : reports events r = true -> flags_ok l (c, r).
Proof.
  unfold reports, flags_ok, has, hup. cbn [snd]. intros Hr _. apply andb_true_iff in Hr as [H0 Hr].
  apply negb_true_iff, Z.eqb_neq in H0. apply Z.eqb_eq in Hr.
  destruct (Z.land r (EPOLLRDHUP .| EPOLLHUP .| EPOLLERR) =? 0)%Z eqn:E1; [|done].
  destruct (Z.land r EPOLLIN =? 0) eqn:E2; [|done]. destruct (Z.land r EPOLLOUT =? 0) eqn:E3; [|done].
  zbool. exfalso. apply H0. rewrite <-Hr. rewrite !Z.land_lor_distr_r in E1.
  apply Z.lor_eq_0_iff in E1 as [[E4 E5]%Z.lor_eq_0_iff E6].
  rewrite Z.land_lor_distr_r. rewrite (Z.land_comm events), (Z.land_assoc r). rewrite !Z.land_lor_distr_r, E2, E3, E4, E5, E6. done.
Qed.

Lemma poll_inv evs m s :
  server_inv s -> batch s = [] -> NoDup evs.*1 -> Wait evs (epoll s) = Some m -> server_inv (put_batch evs (put_epoll m s)).
Proof.
  intros I Hb N E. pose proof (Wait_reported evs N _ _ E) as W.
  assert (U : in_use (put_batch evs (put_epoll m s)) = filter (fun c => c <> listenFd_ s) evs.*1 ++ in_use s).
  { unfold in_use, in_hands. cbn [put_batch put_epoll listenFd_ batch tasks workers]. by rewrite Hb. }
  destruct I as [I1 I2 [L1 (lev & L2 & L2') L3 L4] I4 I5 I6].
  assert (R : forall c, c ∈ evs.*1 -> exists r events, epoll s !! c = Some (events, true) /\ reports events r = true /\ (c, r) ∈ evs /\
    m !! c = Some (events, negb (has events EPOLLONESHOT))).
  { intros c Hc. apply list_elem_of_fmap in Hc as ([d r] & -> & Hc). destruct (proj2 (W d) r Hc) as (ev & ? & ? & ?). exists r, ev. done. }
  assert (D : forall c, c ∈ evs.*1 -> c <> listenFd_ s -> c ∈ open s /\ c ∉ in_use s).
  { intros c Hc Hl. destruct (R c Hc) as (r & ev & He & _). destruct (I2 c Hl) as [O1 _ _].
    destruct (decide (c ∈ open s)); [|destruct O1; congruence]. split; [done|]. intros Hu. rewrite decide_True in O1 by done.
    apply O1. by exists ev. }
  split; rewrite ?U; cbn [put_batch put_epoll listenFd_ connEvent_ batch workers]; try done.
  - apply NoDup_app. split; [by apply NoDup_filter|]. split; [|done]. intros c Hc. apply list_elem_of_filter in Hc as [Hl Hc].
    by apply D.
  - intros c Hl. destruct (decide (c ∈ evs.*1)) as [Hc|Hc].
    + destruct (R c Hc) as (r & ev & He & _ & _ & Hm). destruct (D c Hc Hl) as [Ho Hu]. destruct (I2 c Hl) as [_ O2 O3].
      rewrite (O2 _ _ He) in Hm. cbn [negb] in Hm. split; cbn [put_batch put_epoll open epoll workers].
      * rewrite decide_True by done. rewrite decide_True.
        -- split; [|right; by rewrite Hm]. intros [ev' Hw]. change (m !! c = Some (ev', true)) in Hw. congruence.
        -- rewrite U. apply elem_of_app. left. by apply list_elem_of_filter.
      * intros ev' b. rewrite Hm. intros [= <- <-]. by eapply O2.
      * done.
    + apply (client_ok_same s); [|by apply I2]. split; cbn [put_batch put_epoll open epoll workers]; try done.
      * rewrite U, elem_of_app, list_elem_of_filter. tauto.
      * symmetry. by apply W.
  - split; cbn [put_batch put_epoll listenFd_ open epoll timer_]; try done.
    + exists lev. split; [|done]. destruct (decide (listenFd_ s ∈ evs.*1)) as [Hc|Hc].
      * destruct (R _ Hc) as (r & ev & He & _ & _ & Hm). rewrite L2 in He. injection He as <-. by rewrite Hm, L2'.
      * rewrite (proj1 (W _)); done.
    + rewrite U, elem_of_app, list_elem_of_filter. tauto.
  - apply Forall_forall. intros [c r] Hc. destruct (proj2 (W c) r Hc) as (ev & _ & Hr & _). by eapply reports_flags.
Qed.

(** a timer only fires for a client that nobody is busy with *)
Definition polite_step (a : action) (s : epoll_server) : option epoll_server :=
  match a with
  | Tick c => if bool_decide (c ∈ in_use s) then None else step a s
  | _ => step a s
  end.

Lemma polite_step_inv a s s' : polite_step a s = Some s' -> server_inv s -> server_inv s'.
Proof.
  intros E I. destruct a as [evs|answers|i|c]; cbn [polite_step step] in E.
  - destruct (batch s) eqn:Eb; [|done]. destruct (bool_decide (NoDup evs.*1)) eqn:En; [|done]. apply bool_decide_eq_true in En.
    destruct (Wait evs (epoll s)) as [m|] eqn:Ew; [|done]. cbn [mbind option_bind] in E. simplify_eq. by apply poll_inv.
  - destruct (batch s) as [|[c r] b] eqn:Eb; [done|]. by eapply handle_event_inv.
  - by eapply reactor_worker_inv.
  - destruct (bool_decide (c ∈ in_use s)) eqn:Eu; [done|]. apply bool_decide_eq_false in Eu.
    destruct (batch s) eqn:Eb; [|done]. destruct (bool_decide (c ∈ timer_ s)) eqn:Et; [|done]. apply bool_decide_eq_true in Et.
    simplify_eq. pose proof (l_timer _ (inv_listen _ I)) as Ht.
    apply (close_inv c s); cbn [put_timer listenFd_ connEvent_ open epoll workers batch timer_]; try done.
    + by intros ->.
    + apply (inv_nodup _ I).
    + by rewrite Eb.
    + set_solver.
Qed.

(** the assertions of the loop: users_ knows every client *)
Definition users_known (s : epoll_server) : Prop := forall c, c ∈ open s -> is_Some (users_ s !! c).

Lemma known_mono s s' :
  users_known s -> (forall c, c ∈ open s' -> c ∈ open s) ->
  (forall c, is_Some (users_ s !! c) -> is_Some (users_ s' !! c)) -> users_known s'.
Proof. intros K Ho Hu c Hc. by apply Hu, K, Ho. Qed.

Lemma insert_some (m : gmap Z C) c d x : is_Some (m !! d) -> is_Some (<[c := x]> m !! d).
Proof. intros Hd. destruct (decide (c = d)) as [->|]; [by rewrite lookup_insert_eq|by rewrite lookup_insert_ne]. Qed.

Lemma close_known c s : users_known s -> users_known (CloseConn_ c s).
Proof.
  intros K. apply (known_mono s); [done| |]; unfold CloseConn_, DelFd, close_client; destruct (c <? 0); cbn; set_solver || (intros; by apply insert_some).
Qed.

Lemma add_known c s : users_known s -> users_known (AddClient_ c (put_open ({[ c ]} ∪ open s) s)).
Proof.
  intros K d. unfold AddClient_, AddFd.
  assert (forall u, d ∈ {[ c ]} ∪ open s -> is_Some (<[c := u]> (users_ s) !! d)) as G.
  { intros u Hd. destruct (decide (c = d)) as [->|Hne]; [by rewrite lookup_insert_eq|]. apply insert_some, K. set_solver. }
  destruct (c <? 0), (0 <? timeoutMS_ _); cbn; repeat case_match; cbn; apply G.
Qed.

Lemma listen_known answers s s' : DealListen_ answers s = Some s' -> users_known s -> users_known s'.
Proof.
  revert s; induction answers as [|[c busy] answers IH]; intros s E K; cbn [DealListen_] in E; [by simplify_eq|].
  destruct (_ || _ || _); [done|]. destruct busy; [by simplify_eq|]. pose proof (add_known c s K) as K'.
  destruct (has _ EPOLLET) in E; [by apply (IH _ E)|]. destruct answers; by simplify_eq.
Qed.

Lemma worker_known i s s' : worker_step i s = Some s' -> users_known s -> users_known s'.
Proof.
  unfold worker_step. intros (w & _ & E)%bind_Some K. apply (known_mono s); [done| |].
  all: destruct w as [|c|c|c|c events|c|c];
    [destruct (tasks s) as [|[] ts]; simplify_eq|destruct (conn_read _) as [x [ret errno]]; simplify_eq|destruct (process _) as [x written]; simplify_eq
    |destruct (conn_write _) as [x [ret errno]]; simplify_eq|injection E as <-; unfold ModFd; repeat case_match
    |injection E as <-; unfold DelFd; repeat case_match|injection E as <-]; cbn; set_solver || (intros; by apply insert_some).
Qed.

Lemma step_known a s s' : step a s = Some s' -> users_known s -> users_known s'.
Proof.
  intros E K. destruct a as [evs|answers|i|c]; cbn [step] in E.
  - destruct (batch s); [|done]. destruct (bool_decide _); [|done]. apply bind_Some in E as (m & _ & [= <-]). exact K.
  - destruct (batch s) as [|[c r] b]; [done|]. unfold handle_event, asserted in E.
    destruct (c =? _); [by eapply listen_known|]. repeat case_match; simplify_eq; try done; [by apply close_known|..];
      (apply (known_mono s); [done|..]); unfold DealRead_, DealWrite_, AddTask, ExtentTime_; case_match; cbn; set_solver || done.
  - by eapply worker_known.
  - destruct (batch s); [|done]. case_match; simplify_eq. by apply close_known.
Qed.

Lemma init_server_inv timeoutMS trigMode listenFd threadNum :
  0 < listenFd -> server_inv (init_server timeoutMS trigMode listenFd threadNum).
Proof.
  intros Hl.
  assert (has (InitEventMode_ trigMode).2 EPOLLONESHOT = true /\ has ((InitEventMode_ trigMode).1 .| EPOLLIN)%Z EPOLLONESHOT = false) as [H1 H2].
  { unfold InitEventMode_. repeat case_match; done. }
  unfold init_server. destruct (InitEventMode_ trigMode) as [listen conn]. cbn [fst snd] in *.
  assert (U : in_use (mk_server timeoutMS listenFd listen conn {[ listenFd := (listen .| EPOLLIN, true) ]} ∅ ∅ ∅ [] [] (replicate threadNum W_idle)) = []).
  { unfold in_use, in_hands. cbn. by induction threadNum. }
  split; rewrite ?U; cbn [listenFd_ connEvent_ batch workers]; try done.
  - by apply NoDup_nil.
  - intros c Hc. split; cbn [open epoll]; [|intros ev b; by rewrite lookup_singleton_ne|set_solver].
    rewrite decide_False by set_solver. rewrite U, lookup_singleton_ne by done. split; [by apply not_elem_of_nil|done].
  - split; rewrite ?U; cbn [listenFd_ open epoll timer_]; [set_solver| |set_solver|by apply not_elem_of_nil].
    eexists. rewrite lookup_singleton_eq. by split.
  - by apply Forall_replicate.
Qed.

Lemma polite_step_known a s s' : polite_step a s = Some s' -> users_known s -> users_known s'.
Proof. intros E. apply (step_known a). destruct a; cbn [polite_step] in E; try done. by case_match. Qed.

(** so that no event meets an assertion that fails *)
Lemma assertions_hold timeoutMS trigMode listenFd threadNum s c r b :
  0 < listenFd -> reachable polite_step any (init_server timeoutMS trigMode listenFd threadNum) s ->
  batch s = (c, r) :: b -> c <> listenFd_ s -> known c (put_batch b s) = true.
Proof.
  intros Hl R Hb Hc. assert (server_inv s) as I.
  { eapply reachable_inv; [by apply init_server_inv| |exact R]. eauto using polite_step_inv. }
  assert (users_known s) as K.
  { eapply reachable_inv; [| |exact R]; [|eauto using polite_step_known]. unfold init_server.
    destruct (InitEventMode_ trigMode). intros d Hd. by apply elem_of_empty in Hd. }
  apply bool_decide_eq_true, (K c). destruct (inv_clients _ I c Hc) as [O1 _ _].
  destruct (decide (c ∈ open s)); [done|]. destruct O1 as [O1 _]. destruct O1.
  rewrite (pop_batch _ _ _ _ Hb), decide_False by done. by left.
Qed.

Lemma elem_of_delete_other {A} (i j : nat) (x : A) (l : list A) : l !! j = Some x -> i <> j -> x ∈ delete i l.
Proof.
  intros Hj Hne. apply list_elem_of_lookup. destruct (decide (j < i)%nat).
  - exists j. by rewrite list_lookup_delete_lt.
  - exists (pred j). rewrite list_lookup_delete_ge by lia. by replace (S (pred j)) with j by lia.
Qed.

Lemma one_worker i j wi wj c s :
  server_inv s -> workers s !! i = Some wi -> workers s !! j = Some wj -> worker_client wi = Some c -> worker_client wj = Some c -> i = j.
Proof.
  intros I Hi Hj Ci Cj. destruct (decide (i = j)) as [|Hne]; [done|]. exfalso.
  destruct (worker_client_facts _ _ _ _ I Hi Ci) as (_ & _ & _ & _ & _ & Hn & _). apply Hn.
  unfold in_hands. rewrite !elem_of_app. right; right. apply list_elem_of_omap. exists wj. split; [|done].
  by eapply elem_of_delete_other.
Qed.

(** C18. The epoll server, for any class of connections, any number of workers and any
    interleaving, as long as no timer fires for a client that somebody is busy with:
    a client is in the hands of at most one worker, task or pending event, and is not
    watched by epoll meanwhile; and every open connection is either watched by epoll
    or in somebody's hands: none is forgotten. *)
Theorem one_thread_per_client timeoutMS trigMode listenFd threadNum s :
  0 < listenFd -> reachable polite_step any (init_server timeoutMS trigMode listenFd threadNum) s ->
  NoDup (in_use s) /\
  (forall i j wi wj c, workers s !! i = Some wi -> workers s !! j = Some wj ->
     worker_client wi = Some c -> worker_client wj = Some c -> i = j) /\
  forall c, c <> listenFd_ s ->
    (c ∈ open s <-> c ∈ in_use s \/ watched s c) /\ (c ∈ in_use s -> ~ watched s c).
Proof.
  intros Hl R. assert (I : server_inv s).
  { eapply reachable_inv; [by apply init_server_inv| |exact R]. eauto using polite_step_inv. }
  split; [apply (inv_nodup _ I)|]. split; [intros; by eapply one_worker|].
  intros c Hc. destruct (inv_clients _ I c Hc) as [O1 _ _].
  destruct (decide (c ∈ open s)); [destruct (decide (c ∈ in_use s))|destruct O1 as [O1 O2]]; [tauto|tauto|].
  split; [|tauto]. split; [done|]. intros [?|[ev ?]]; [done|congruence].
Qed.

(** a short write: the connection is closed with the rest of the answer unsent *)
Lemma short_write_closes i c s x n errno :
  workers s !! i = Some (W_write c) -> conn_write (get_user c s) = (x, (n, errno)) ->
  0 <= n -> ToWriteBytes x <> 0 -> worker_step i s = Some (put_worker i (W_del c) (put_user c x s)).
Proof.
  intros Hi Hw Hn Hx. unfold worker_step. rewrite Hi. cbn [mbind option_bind]. rewrite Hw.
  rewrite (proj2 (Z.eqb_neq _ _) Hx), (proj2 (Z.ltb_ge _ _)) by lia. done.
Qed.

(** on an edge-triggered listening socket a refused client ends the loop, and those
    behind it stay in the backlog until yet another client comes *)
Lemma refusal_ends_accepting c answers s :
  0 < c -> c <> listenFd_ s -> c ∉ open s -> DealListen_ ((c, true) :: answers) s = Some s.
Proof.
  intros H0 Hl Ho. cbn [DealListen_]. rewrite (proj2 (Z.leb_gt _ _)), (proj2 (Z.eqb_neq _ _)), bool_decide_eq_false_2 by (lia || done). done.
Qed.
End reactor.

(** ** A server that runs *)

(** a connection that reads a request, answers it in two writes and stays open *)
#[export] Instance sample_conn : HttpConn Z := {|
  conn_new := 0; conn_init := fun _ _ => 0; Close := fun x => x;
  conn_read := fun x => (x, (10, 0)); conn_write := fun x => (x - 1, (if x =? 2 then -1 else 10, EAGAIN));
  process := fun x => (2, true); ToWriteBytes := fun x => x;
  has_continue_workd := fun _ => false; IsKeepAlive := fun _ => true; is_ws_socket := fun _ => false
|}.

(** two clients come in one burst; one is read, answered and being written to while the
    other is processed *)
Definition served_events : list action :=
  [Poll [(3, 1)]; Handle [(7, false); (8, false)]; Poll [(8, 1); (7, 1)]; Handle []; Handle [];
   Work 1; Work 0; Work 0; Work 0; Work 1; Work 0; Poll [(7, 4)]; Handle []; Work 0].

Lemma one_thread_per_client_witness :
  exists s, run polite_step served_events (init_server 60000 3 3 2) = Some s /\
    workers s = [W_write 7; W_process 8] /\
    (NoDup (in_use s) /\
     (forall i j wi wj c, workers s !! i = Some wi -> workers s !! j = Some wj ->
        worker_client wi = Some c -> worker_client wj = Some c -> i = j) /\
     forall c, c <> listenFd_ s ->
       (c ∈ open s <-> c ∈ in_use s \/ watched s c) /\ (c ∈ in_use s -> ~ watched s c)).
Proof.
  match goal with |- exists s, run ?st ?acts ?s0 = _ /\ _ => destruct (run st acts s0) as [s|] eqn:E; [|vm_compute in E; discriminate] end.
  exists s. split; [reflexivity|]. split; [vm_compute in E; injection E as <-; reflexivity|].
  apply (one_thread_per_client 60000 3 3 2 s); [lia|]. exact (run_reachable polite_step any _ _ _ (any_all _) E).
Defined.

(** a timer does not ask: the client is closed under the worker that reads from it, the
    descriptor is given to the next client, and two workers use one connection object *)
Lemma timer_breaks_one_thread :
  exists s, run step [Poll [(3, 1)]; Handle [(7, false)]; Poll [(7, 1)]; Handle []; Work 0; Tick 7;
                      Poll [(3, 1)]; Handle [(7, false)]; Poll [(7, 1)]; Handle []; Work 1] (init_server 60000 3 3 2) = Some s /\
    workers s = [W_read 7; W_read 7].
Proof. eexists. split; [vm_compute; reflexivity|]. reflexivity. Qed.
