(* ===== verification/Session.v ===== *)
(** * Sessions

    core/session.hpp and core/session_manager.hpp.  Sessions are shared: the manager's
    map holds pointers, and so do the handlers, so that the objects are a store.
    Every operation takes the mutex of the manager or of one session.  The clock's
    readings are arguments; a value of a session is a std::any, of which the model
    only knows what any_cast to the requested type gives. *)

From Stdlib Require Import ZArith Lia.
From stdpp Require Import base numbers list strings gmap fin_maps.
From S2P Require Import Prelude CStd Cookie Transition.
From S2P Require ToStr.
Local Open Scope Z_scope.

Definition to_int64 (z : Z) : Z := (z + 2 ^ 63) mod 2 ^ 64 - 2 ^ 63.
Definition SESSION_DEFAULT_EXPIRE_ : Z := 7 * 24 * 60 * 60.

Section session.
Context {A : Type}.

(** ** One session *)

Record session := mk_session {
  id_ : bytes; expire_ : Z; time_stamp_ : Z; cookie_ : cookie; is_update_ : bool; data_ : gmap bytes A
}.

(** the constructor; expire is a size_t *)
Definition new_session (now : Z) (name uuid_str : bytes) (expire : Z) (path domain : bytes) : session :=
  let e := if expire =? wrap64 (-1) then SESSION_DEFAULT_EXPIRE_ else expire in
  let stamp := to_int64 (e + now) in
  let c := set_version (set_value (set_domain (set_path (set_name (new_cookie [] []) name) path) domain) uuid_str) 0 in
  mk_session uuid_str e stamp (set_max_age c (if expire =? wrap64 (-1) then -1 else stamp)) true ∅.

Definition set_data (name : bytes) (a : A) (s : session) : session :=
  mk_session (id_ s) (expire_ s) (time_stamp_ s) (cookie_ s) (is_update_ s) (<[name := a]> (data_ s)).

(** the value, T{} where there is none, and bad_any_cast *)
Inductive got (T : Type) := Value (x : T) | Default | Bad_any_cast.
Arguments Value {T} _. Arguments Default {T}. Arguments Bad_any_cast {T}.

Definition get_data {T} (any_cast : A -> option T) (name : bytes) (s : session) : got T :=
  match data_ s !! name with
  | Some a => match any_cast a with Some x => Value x | None => Bad_any_cast end
  | None => Default
  end.

Definition has (name : bytes) (s : session) : bool := bool_decide (is_Some (data_ s !! name)).

Definition session_set_max_age (now seconds : Z) (s : session) : session :=
  let e := wrap64 (if seconds =? -1 then 86400 else seconds) in
  let stamp := to_int64 (now + e) in
  mk_session (id_ s) e stamp (set_max_age (cookie_ s) (if seconds =? -1 then -1 else stamp)) true (data_ s).



(** ** The manager *)

Notation ptr := positive (only parsing).

Record session_manager := mk_manager {
  map_ : gmap bytes ptr; manager_max_age_ : Z; manager_id_ : Z;
  store : gmap ptr session
}.

Definition put_map (f : gmap bytes ptr) (m : session_manager) : session_manager :=
  mk_manager f (manager_max_age_ m) (manager_id_ m) (store m).
Definition put_store (f : gmap ptr session) (m : session_manager) : session_manager :=
  mk_manager (map_ m) (manager_max_age_ m) (manager_id_ m) f.

(** create_session begins with id_++, on an atomic counter; ... *)
Definition count_session (m : session_manager) : session_manager :=
  mk_manager (map_ m) (manager_max_age_ m) (to_int64 (manager_id_ m + 1)) (store m).

(** ... the identifier is the time in nanoseconds and [id], what id_ is when it is read
    again; emplace, under the mutex, keeps what is there *)
Definition uuid_of (nano id : Z) : bytes := to_string nano ++ to_string id.
Definition emplace_session (nano id now : Z) (name : bytes) (expire : Z) (path domain : bytes) (m : session_manager)
  : ptr * session_manager :=
  let uuid_str := uuid_of nano id in
  let p := fresh (dom (store m)) in
  (p, mk_manager (match map_ m !! uuid_str with Some _ => map_ m | None => <[uuid_str := p]> (map_ m) end)
        (manager_max_age_ m) (manager_id_ m) (<[p := new_session now name uuid_str expire path domain]> (store m))).

(** the whole, if no other thread comes in between *)
Definition create_session (nano now : Z) (name : bytes) (expire : Z) (path domain : bytes) (m : session_manager)
  : ptr * session_manager :=
  let m := count_session m in
  emplace_session nano (manager_id_ m) now name expire path domain m.



Definition get_session (id : bytes) (m : session_manager) : option ptr := map_ m !! id.

Definition overdue (now : Z) (m : session_manager) (p : ptr) : bool :=
  match store m !! p with Some s => manager_max_age_ m <=? now - time_stamp_ s | None => false end.

Definition check_expire (now : Z) (m : session_manager) : session_manager :=
  put_map (filter (fun e => overdue now m e.2 = false) (map_ m)) m.


Definition on_session (p : ptr) (f : session -> session) (m : session_manager) : session_manager := put_store (alter f p (store m)) m.




(** ** Well-formed sessions *)







Lemma fresh_not_stored m : store m !! fresh (dom (store m)) = None.
Proof. apply not_elem_of_dom, is_fresh. Qed.






(** ** What the operations do *)

(** a new identifier is found again, and the others as before *)
Lemma created_found nano now name expire path domain m :
  let uuid_str := uuid_of nano (to_int64 (manager_id_ m + 1)) in
  get_session uuid_str m = None ->
  let (p, m') := create_session nano now name expire path domain m in
  get_session uuid_str m' = Some p /\ store m' !! p = Some (new_session now name uuid_str expire path domain) /\
  forall id, id <> uuid_str -> get_session id m' = get_session id m.
Proof.
  intros uuid_str Hn. unfold create_session, emplace_session, get_session in *. cbn [map_ store manager_id_ count_session].
  fold uuid_str. rewrite Hn. cbn. rewrite !lookup_insert_eq.
  split; [done|]. split; [done|]. intros id Hne. by rewrite lookup_insert_ne.
Qed.

(** identifiers differ if their numbers or their times do, as long as the nanosecond clock has
    19 digits (between the years 2001 and 2286) *)
Lemma uuid_of_unique n1 n2 id1 id2 :
  10 ^ 18 <= n1 < 10 ^ 19 -> 10 ^ 18 <= n2 < 10 ^ 19 -> 0 <= id1 -> 0 <= id2 ->
  uuid_of n1 id1 = uuid_of n2 id2 -> n1 = n2 /\ id1 = id2.
Proof.
  intros H1 H2 Hi1 Hi2 E. unfold uuid_of, to_string in E. rewrite !(proj2 (Z.ltb_ge _ 0)) in E by lia.
  assert (forall n, 10 ^ 18 <= n < 10 ^ 19 -> length (dec_string n) = 19%nat) as L.
  { intros n Hn. by apply (ToStr.dec_string_length n 18). }
  apply app_inj_1 in E as [E1 E2]; [|by rewrite !L].
  apply (f_equal (fun l => undigits 10 ((fun c => c - 48) <$> l))) in E1, E2. rewrite !ToStr.undigits_dec in E1, E2 by lia. lia.
Qed.

(** check_expire removes exactly the sessions that are overdue *)
Lemma check_expire_exact now id p m :
  get_session id (check_expire now m) = Some p <-> get_session id m = Some p /\ overdue now m p = false.
Proof. unfold get_session, check_expire. cbn. by rewrite map_lookup_filter_Some. Qed.

(** what one holder of a session writes, another reads *)
Lemma session_data_shared T (any_cast : A -> option T) p name a x m s :
  store m !! p = Some s -> any_cast a = Some x ->
  exists s', store (on_session p (set_data name a) m) !! p = Some s' /\ get_data any_cast name s' = Value x.
Proof.
  intros Hs Hx. exists (set_data name a s). split; [cbn; by rewrite lookup_alter_eq, Hs|].
  unfold get_data, set_data. cbn. by rewrite lookup_insert_eq, Hx.
Qed.

(** ** Flaws *)

(** Two threads create a session in the same tick of the clock, and both increment the
    counter before either reads it: they read the same number and make the same
    identifier.  The second session is not known to the manager, and its owner's cookie
    leads to the session of the first. *)
Lemma raced_sessions_share nano id now now' name name' expire expire' path path' domain domain' m :
  let (p, m1) := emplace_session nano id now name expire path domain (count_session (count_session m)) in
  let (p', m2) := emplace_session nano id now' name' expire' path' domain' m1 in
  get_session (uuid_of nano id) m = None ->
  p <> p' /\
  exists s', store m2 !! p' = Some s' /\ get_session (value_ (cookie_ s')) m2 = Some p.
Proof.
  set (m0 := count_session (count_session m)).
  destruct (emplace_session nano id now name expire path domain m0) as [p m1] eqn:E1.
  destruct (emplace_session nano id now' name' expire' path' domain' m1) as [p' m2] eqn:E2. intros Hn.
  assert (map_ m0 !! uuid_of nano id = None) as Hn0 by exact Hn. clear Hn.
  unfold emplace_session in E1. rewrite Hn0 in E1. injection E1 as Ep E1.
  assert (p <> p') as Hp.
  { intros <-. assert (p = fresh (dom (store m1))) as Hf by (unfold emplace_session in E2; congruence).
    pose proof (fresh_not_stored m1) as F. rewrite <-Hf, <-E1, <-Ep in F. cbn in F. by rewrite lookup_insert_eq in F. }
  split; [done|]. unfold emplace_session in E2. rewrite <-E1 in E2. cbn in E2. rewrite lookup_insert_eq in E2. injection E2 as Ep' E2. subst m2. cbn.
  eexists. rewrite <-Ep', lookup_insert_eq. split; [done|]. unfold get_session. cbn.
  destruct (expire' =? wrap64 (-1)); cbn; by rewrite lookup_insert_eq, Ep.
Qed.

(** the domain that is given to a session is not sent *)
Lemma session_domain_not_sent now name uuid expire path domain domain' :
  cookie_to_string (cookie_ (new_session now name uuid expire path domain)) =
  cookie_to_string (cookie_ (new_session now name uuid expire path domain')).
Proof. unfold new_session. by destruct (expire =? wrap64 (-1)). Qed.

End session.


(** the default is a week, unless it is set again *)
Lemma defaults_differ (s : @session Z) :
  expire_ (@new_session Z 0 [] [] (wrap64 (-1)) [] []) = 604800 /\ expire_ (session_set_max_age 0 (-1) s) = 86400.
Proof. split; reflexivity. Qed.
