(* ===== verification/HttpCache.v ===== *)
(** * The response cache

    include/netcore/http_cache.hpp: http_cache, and lib/uuid.hpp.  Every operation
    takes the mutex; the seconds of the clock are arguments.  The iterator cur_it_ is
    modelled as far as it is used: add measures its distance to the end, which is
    undefined when the element it points to has been erased ([None]).  What add then
    does with it has no effect, as it is assigned anew. *)

From Stdlib Require Import ZArith Lia.
From stdpp Require Import base numbers list strings gmap sets fin_maps.
From S2P Require Import Prelude Transition.
Local Open Scope Z_scope.

(** behind the last element, at an element, at one that was erased *)
Inductive iterator := At_end | At_key (key : bytes) | Dangling.

#[export] Instance iterator_dec : EqDecision iterator.
Proof. solve_decision. Defined.

Record http_cache := mk_cache {
  need_cache_ : bool;
  cache_ : gmap bytes (list bytes);
  cur_it_ : iterator;
  skip_cache_ : gset bytes; need_single_cache_ : gset bytes;
  max_cache_age_ : Z;
  cache_time_ : gmap bytes Z
}.

Definition new_cache : http_cache := mk_cache false ∅ At_end ∅ ∅ 0 ∅.

Definition put_entries (cache : gmap bytes (list bytes)) (it : iterator) (times : gmap bytes Z) (c : http_cache) : http_cache :=
  mk_cache (need_cache_ c) cache it (skip_cache_ c) (need_single_cache_ c) (max_cache_age_ c) times.

(** add: emplace keeps what is there, the time is set anew *)
Definition add (now : Z) (key : bytes) (content : list bytes) (c : http_cache) : option http_cache :=
  match cur_it_ c with
  | Dangling => None
  | _ =>
      Some (put_entries (match cache_ c !! key with Some _ => cache_ c | None => <[key := content]> (cache_ c) end)
              (At_key key) (<[key := now + max_cache_age_ c]> (cache_time_ c)) c)
  end.

(** get; the iterator behind the erased element depends on the table and is given *)
Definition get (now : Z) (next : iterator) (key : bytes) (c : http_cache) : list bytes * http_cache :=
  match cache_time_ c !! key, cache_ c !! key with
  | Some t, it => if now <=? t then (default [] it, c)
                  else match it with
                       | Some _ => ([], put_entries (delete key (cache_ c)) next (cache_time_ c) c)
                       | None => ([], c)
                       end
  | None, _ => ([], c)
  end.

Definition empty (c : http_cache) : bool := bool_decide (cache_ c = ∅).

Definition del (key : bytes) (c : http_cache) : http_cache :=
  match cache_ c !! key with
  | Some _ => put_entries (delete key (cache_ c)) (if decide (cur_it_ c = At_key key) then Dangling else cur_it_ c) (cache_time_ c) c
  | None => c
  end.

Definition add_skip (key : bytes) (c : http_cache) : http_cache :=
  mk_cache (need_cache_ c) (cache_ c) (cur_it_ c) ({[ key ]} ∪ skip_cache_ c) (need_single_cache_ c) (max_cache_age_ c) (cache_time_ c).
Definition add_single_cache (key : bytes) (c : http_cache) : http_cache :=
  mk_cache (need_cache_ c) (cache_ c) (cur_it_ c) (skip_cache_ c) ({[ key ]} ∪ need_single_cache_ c) (max_cache_age_ c) (cache_time_ c).
Definition enable_cache (b : bool) (c : http_cache) : http_cache :=
  mk_cache b (cache_ c) (cur_it_ c) (skip_cache_ c) (need_single_cache_ c) (max_cache_age_ c) (cache_time_ c).
Definition need_cache (key : bytes) (c : http_cache) : bool :=
  if need_cache_ c then need_cache_ c else bool_decide (key ∈ need_single_cache_ c).
Definition not_cache (key : bytes) (c : http_cache) : bool := bool_decide (key ∈ skip_cache_ c).
Definition set_cache_max_age (seconds : Z) (c : http_cache) : http_cache :=
  mk_cache (need_cache_ c) (cache_ c) (cur_it_ c) (skip_cache_ c) (need_single_cache_ c) seconds (cache_time_ c).

Inductive op :=
| Add (now : Z) (key : bytes) (content : list bytes)
| Get (now : Z) (next : option bytes) (key : bytes)
| Del (key : bytes) | Skip (key : bytes) | Single (key : bytes) | Enable (b : bool) | Max_age (seconds : Z).

(** erase returns an iterator to an element that is left, or the end *)
Definition do_op (o : op) (c : http_cache) : option http_cache :=
  match o with
  | Add now key content => add now key content c
  | Get now next key =>
      let c' := get now (match next with Some k => if decide (k <> key /\ is_Some (cache_ c !! k)) then At_key k else At_end | None => At_end end) key c in
      Some c'.2
  | Del key => Some (del key c)
  | Skip key => Some (add_skip key c)
  | Single key => Some (add_single_cache key c)
  | Enable b => Some (enable_cache b c)
  | Max_age seconds => Some (set_cache_max_age seconds c)
  end.

(** ** Without del the cache is sound *)

(** the iterator is where the table has something, and what is stored has a time *)
Record cache_wf (c : http_cache) : Prop := mk_wf {
  wf_it : match cur_it_ c with At_end => True | At_key k => is_Some (cache_ c !! k) | Dangling => False end;
  wf_time : forall k v, cache_ c !! k = Some v -> is_Some (cache_time_ c !! k)
}.

Definition not_del (o : op) : Prop := match o with Del _ => False | _ => True end.

Lemma cache_op_wf o c : not_del o -> cache_wf c -> exists c', do_op o c = Some c' /\ cache_wf c'.
Proof.
  intros Hd [W1 W2]. destruct o as [now key content|now next key|key|key|key|b|seconds]; [| |done|by eexists..].
  - cbn. unfold add. assert (cur_it_ c <> Dangling) as Hc by (by intros E; rewrite E in W1).
    set (c' := put_entries _ _ _ _). exists c'. split; [by destruct (cur_it_ c)|]. split; cbn.
    + destruct (cache_ c !! key) eqn:Ek; [by rewrite Ek|by rewrite lookup_insert_eq].
    + intros k v Hk. destruct (decide (key = k)) as [->|Hne]; [by rewrite lookup_insert_eq|]. rewrite lookup_insert_ne by done.
      destruct (cache_ c !! key); [by eapply W2|]. rewrite lookup_insert_ne in Hk by done. by eapply W2.
  - eexists. split; [reflexivity|]. cbn. unfold get.
    destruct (cache_time_ c !! key) as [t|]; [|by split]. destruct (now <=? t); [by split|].
    destruct (cache_ c !! key) as [v|] eqn:Ek; [|by split]. split; cbn.
    + destruct next as [k|]; [|done]. destruct (decide _) as [[Hne Hk]|]; [|done]. cbn. by rewrite lookup_delete_ne.
    + intros k v' Hk. apply lookup_delete_Some in Hk as [_ Hk]. by eapply W2.
Qed.

(** no sequence of operations without del is undefined *)
Lemma cache_defined ops : Forall not_del ops -> exists c, run do_op ops new_cache = Some c /\ cache_wf c.
Proof.
  assert (cache_wf new_cache) as W by (split; [done|]; intros k v H; unfold new_cache in H; cbn [cache_] in H; by rewrite lookup_empty in H).
  revert W. generalize new_cache. induction ops as [|o ops IH]; intros c W F; cbn [run]; [by exists c|].
  apply Forall_cons in F as [Ho F]. destruct (cache_op_wf o c Ho W) as (c' & -> & W'). by apply IH.
Qed.

(** ** What is read *)

(** what was added under a new key is read until it is too old, and not later *)
Lemma add_get now key content c c' :
  cache_ c !! key = None -> add now key content c = Some c' ->
  forall later next, (get later next key c').1 = if later <=? now + max_cache_age_ c then content else [].
Proof.
  intros Hk Ha later next. unfold add in Ha. rewrite Hk in Ha. destruct (cur_it_ c); simplify_eq; unfold get; cbn;
    rewrite !lookup_insert_eq; by destruct (later <=? now + max_cache_age_ c).
Qed.

(** another key is not concerned *)
Lemma add_get_other now key content c c' k later next :
  k <> key -> add now key content c = Some c' -> (get later next k c').1 = (get later next k c).1.
Proof.
  intros Hne Ha. unfold add in Ha. destruct (cur_it_ c); simplify_eq; unfold get; cbn; rewrite (lookup_insert_ne (cache_time_ c)) by done;
    (destruct (cache_ c !! key); [|rewrite lookup_insert_ne by done]);
    destruct (cache_time_ c !! k) as [t|]; try done; destruct (later <=? t); try done; by destruct (cache_ c !! k).
Qed.

(** ** Flaws *)

(** a key that is still stored keeps its old content and gets a new time, also when it
    had expired *)
Lemma add_revives_old now key old new c c' :
  cache_ c !! key = Some old -> add now key new c = Some c' -> 0 <= max_cache_age_ c ->
  forall next, (get now next key c').1 = old.
Proof.
  intros Hk Ha Hm next. unfold add in Ha. rewrite Hk in Ha. destruct (cur_it_ c); simplify_eq; unfold get; cbn;
    rewrite lookup_insert_eq, Hk, (proj2 (Z.leb_le _ _)) by lia; done.
Qed.

(** after del the iterator dangles, and the next add is undefined *)
Lemma add_after_del now now' key content key' content' c c' :
  add now key content c = Some c' -> add now' key' content' (del key c') = None.
Proof.
  intros Ha. unfold add in Ha.
  assert (cur_it_ c' = At_key key /\ is_Some (cache_ c' !! key)) as [E1 [v E2]].
  { destruct (cur_it_ c); simplify_eq; cbn; (split; [done|]); destruct (cache_ c !! key) eqn:E; rewrite ?E, ?lookup_insert_eq; done. }
  unfold add, del. rewrite E2. cbn. by rewrite decide_True.
Qed.

(** ** lib/uuid.hpp *)

(** UUID::get: the counter, and whether it is reset when it has reached the maximum *)
Definition uuid_get (max id : Z) : Z * Z :=
  let next := if id =? max then - max - 1 else id + 1 in    (* fetch_add wraps around *)
  (id, if next =? max then 0 else next).

Fixpoint uuids (n : nat) (max id : Z) : list Z :=
  match n with O => [] | S n => let (u, id) := uuid_get max id in u :: uuids n max id end.

(** the numbers count from zero, and begin again before the maximum *)
Lemma uuids_cycle n max id :
  0 < max -> 0 <= id < max -> uuids n max id = (fun k => (id + Z.of_nat k) mod max) <$> seq 0 n.
Proof.
  intros Hm. revert id; induction n as [|n IH]; intros id Hid; [done|]. cbn [uuids uuid_get].
  unfold uuid_get. destruct (id =? max) eqn:E; zbool; [lia|]. cbn [seq fmap list_fmap]. f_equal; [rewrite Z.add_0_r, Z.mod_small; lia|].
  rewrite <-fmap_S_seq, <-list_fmap_compose. destruct (id + 1 =? max) eqn:E1; zbool.
  - rewrite IH by lia. apply list_fmap_ext. intros k x _. cbn. rewrite <-(Z.mod_add (0 + Z.of_nat x) 1 max) by lia. f_equal. lia.
  - rewrite IH by lia. apply list_fmap_ext. intros k x _. cbn. f_equal. lia.
Qed.
