(* ===== verification/Jeaiii.v ===== *)
(** * Integer to decimal conversion, two digits at a time

    core/itoa_jeaiii.hpp: a number is turned into a fixed point number with 32
    fractional bits whose integer part is its first one or two digits; multiplying
    the fraction by 100 (or 10) brings up the next ones.  The macros LN(0) .. LN(9)
    are the cases of [LN]; [b] is represented by the text written so far. *)

From Stdlib Require Import ZArith Lia.
From stdpp Require Import base numbers list.
From S2P Require Import Prelude CStd.
Local Open Scope Z_scope.

(** s_pairs[i] *)
Definition s_pair (i : Z) : bytes := [48 + i / 10; 48 + i mod 10].

(** CINATRAA(N): the fixed point number of u < 10^(N+1); the products wrap around at 64 bits *)
Definition CINATRAA (N u : Z) : Z :=
  let shift := Z.quot (Z.quot N 5 * N * 53) 16 in
  let t := Z.quot (2 ^ (32 + shift)) (10 ^ N) + 1 + Z.quot N 6 - Z.quot N 8 in
  wrap64 (Z.shiftr (wrap64 (t * u)) shift + Z.quot N 6 * 4).

(** CINATRAD and CINATRAS: the next two digits, or the last one *)
Definition CINATRAD (t : Z) : Z := wrap64 (100 * wrap32 t).
Definition CINATRAS (t : Z) : Z := 48 + Z.shiftr (wrap64 (10 * wrap32 t)) 32.

Fixpoint pairs (n : nat) (t : Z) : bytes :=
  s_pair (Z.shiftr t 32) ++ match n with O => [] | S n => pairs n (CINATRAD t) end.
Fixpoint pairs_one (n : nat) (t : Z) : bytes :=
  s_pair (Z.shiftr t 32) ++ match n with O => [CINATRAS t] | S n => pairs_one n (CINATRAD t) end.

(** LN(N): u as N + 1 digits *)
Definition LN (N : Z) (u : Z) : bytes :=
  match N with
  | 0 => [48 + u]
  | 1 => s_pair u
  | 2 => pairs_one 0 (CINATRAA 1 u)
  | 3 => pairs 1 (CINATRAA 2 u)
  | 4 => pairs_one 1 (CINATRAA 3 u)
  | 5 => pairs 2 (CINATRAA 4 u)
  | 6 => pairs_one 2 (CINATRAA 5 u)
  | 7 => pairs 3 (CINATRAA 6 u)
  | 8 => pairs_one 3 (CINATRAA 7 u)
  | _ => pairs 4 (CINATRAA 8 u)
  end.

Definition LG (u : Z) : bytes :=
  LN (if u <? 100 then if u <? 10 then 0 else 1
      else if u <? 1000000 then if u <? 10000 then if u <? 1000 then 2 else 3 else if u <? 100000 then 4 else 5
      else if u <? 100000000 then if u <? 10000000 then 6 else 7
      else if u <? 1000000000 then 8 else 9) u.

Definition u32toa_jeaiii (u : Z) : bytes := LG u.

Definition i32toa_jeaiii (i : Z) : bytes :=
  if i <? 0 then 45 :: LG (wrap32 (0 - wrap32 i)) else LG i.

Definition u64toa_jeaiii (n : Z) : bytes :=
  if wrap32 (Z.shiftr n 32) =? 0 then LG (wrap32 n)
  else
    let a := n / 100000000 in
    (if wrap32 (Z.shiftr a 32) =? 0 then LG (wrap32 a)
     else LG (wrap32 (a / 100000000)) ++ LN 7 (wrap32 (a mod 100000000)))
    ++ LN 7 (wrap32 (n mod 100000000)).

Definition i64toa_jeaiii (i : Z) : bytes :=
  if i <? 0 then 45 :: u64toa_jeaiii (wrap64 (0 - wrap64 i)) else u64toa_jeaiii i.

(** ** Correctness *)

(** the last k digits of u *)
Fixpoint pad (k : nat) (u : Z) : bytes :=
  match k with
  | O => []
  | S k => (48 + (u / 10 ^ Z.of_nat k) mod 10) :: pad k u
  end.

Lemma pow_S k : 10 ^ Z.of_nat (S k) = 10 * 10 ^ Z.of_nat k.
Proof. rewrite Nat2Z.inj_succ, Z.pow_succ_r; lia. Qed.
Lemma pow_pos k : 0 < 10 ^ Z.of_nat k.
Proof. apply Z.pow_pos_nonneg; lia. Qed.

Lemma pad_shift k u m : pad k (u + m * 10 ^ Z.of_nat k) = pad k u.
Proof.
  revert m; induction k as [|k IH]; intros m; [done|]. cbn [pad]. rewrite pow_S. pose proof (pow_pos k).
  replace (m * (10 * 10 ^ Z.of_nat k)) with ((m * 10) * 10 ^ Z.of_nat k) by lia.
  by rewrite IH, Z.div_add, Z.mod_add by lia.
Qed.

Lemma pad_mod k u : pad k (u mod 10 ^ Z.of_nat k) = pad k u.
Proof.
  pose proof (pow_pos k). rewrite <-(pad_shift k (u mod _) (u / 10 ^ Z.of_nat k)). f_equal.
  rewrite Z.mul_comm, Z.add_comm. symmetry. apply Z.div_mod. lia.
Qed.

Lemma pad_pair k u : 0 <= u < 100 * 10 ^ Z.of_nat k -> pad (S (S k)) u = s_pair (u / 10 ^ Z.of_nat k) ++ pad k u.
Proof.
  intros Hu. cbn [pad s_pair app]. rewrite pow_S. pose proof (pow_pos k) as H.
  rewrite (Z.mul_comm 10), <-Z.div_div by lia. rewrite (Z.mod_small (_ / 10)); [done|].
  split; [repeat apply Z.div_pos; lia|]. repeat apply Z.div_lt_upper_bound; lia.
Qed.

Lemma pad_snoc k q d : 0 <= d < 10 -> pad (S k) (q * 10 + d) = pad k q ++ [48 + d].
Proof.
  intros Hd. induction k as [|k IH].
  - cbn [pad app]. rewrite Z.div_1_r, (Z.add_comm (q * 10)), Z.mod_add, Z.mod_small by lia. done.
  - change (pad (S (S k)) (q * 10 + d)) with ((48 + ((q * 10 + d) / 10 ^ Z.of_nat (S k)) mod 10) :: pad (S k) (q * 10 + d)).
    rewrite IH, pow_S. cbn [pad app]. pose proof (pow_pos k). rewrite <-Z.div_div by lia.
    by rewrite (Z.div_add_l q), (Z.div_small d), Z.add_0_r by lia.
Qed.

(** a number without its leading zeros *)
Lemma pad_dec k u : (k = O \/ 10 ^ Z.of_nat k <= u) -> 0 <= u < 10 ^ Z.of_nat (S k) -> pad (S k) u = dec_string u.
Proof.
  revert u; induction k as [|k IH]; intros u Hk Hu.
  - change (10 ^ Z.of_nat 1) with 10 in Hu. unfold dec_string. rewrite digits_small by lia.
    cbn [pad]. by rewrite Z.div_1_r, Z.mod_small.
  - destruct Hk as [?|Hk]; [done|]. rewrite !pow_S in *. pose proof (pow_pos k).
    pose proof (Z.div_mod u 10 ltac:(lia)) as E. pose proof (Z.mod_pos_bound u 10 ltac:(lia)).
    rewrite E at 1 2. rewrite (Z.mul_comm 10), pad_snoc by done.
    unfold dec_string. rewrite digits_snoc, fmap_app by lia. f_equal. apply IH; [right; lia|lia].
Qed.

(** and with further digits behind it *)
Lemma dec_pad k q r : 0 < q -> 0 <= r < 10 ^ Z.of_nat k -> dec_string (q * 10 ^ Z.of_nat k + r) = dec_string q ++ pad k r.
Proof.
  intros Hq. revert r; induction k as [|k IH]; intros r Hr.
  - change (10 ^ Z.of_nat 0) with 1 in *. cbn [pad]. rewrite app_nil_r. f_equal. lia.
  - rewrite pow_S in *. pose proof (pow_pos k).
    pose proof (Z.div_mod r 10 ltac:(lia)) as E. pose proof (Z.mod_pos_bound r 10 ltac:(lia)).
    replace (q * (10 * 10 ^ Z.of_nat k) + r) with ((q * 10 ^ Z.of_nat k + r / 10) * 10 + r mod 10) by lia.
    unfold dec_string at 1. rewrite digits_snoc, fmap_app by nia.
    change ((fun d => 48 + d) <$> digits 10 (q * 10 ^ Z.of_nat k + r / 10)) with (dec_string (q * 10 ^ Z.of_nat k + r / 10)).
    rewrite IH by lia. replace (pad (S k) r) with (pad (S k) (r / 10 * 10 + r mod 10)) by (f_equal; lia).
    by rewrite pad_snoc, app_assoc by done.
Qed.

(** ** The fixed point numbers *)

(** t is r / 10^k with less than 2^32 too much *)
Definition fixed (k : nat) (t r : Z) : Prop :=
  0 <= r < 100 * 10 ^ Z.of_nat k /\ 0 <= t * 10 ^ Z.of_nat k - r * 2 ^ 32 < 2 ^ 32.

Lemma fixed_top k t r : fixed k t r -> Z.shiftr t 32 = r / 10 ^ Z.of_nat k /\ 0 <= t < 100 * 2 ^ 32.
Proof.
  intros [Hr Ht]. rewrite Z.shiftr_div_pow2 by lia. pose proof (pow_pos k) as Hp. set (p := 10 ^ Z.of_nat k) in *.
  assert (0 <= t) by nia. assert (t < 100 * 2 ^ 32) by nia. split; [|lia].
  pose proof (Z.div_mod r p ltac:(lia)). pose proof (Z.mod_pos_bound r p ltac:(lia)).
  symmetry. apply (Z.div_unique_pos _ _ _ (t - 2 ^ 32 * (r / p))); nia.
Qed.

Lemma fixed_next k m t r : fixed k t r -> 10 ^ Z.of_nat k = m * 10 ^ Z.of_nat (k - 2) -> m = 100 ->
  fixed (k - 2) (CINATRAD t) (r mod 10 ^ Z.of_nat k).
Proof.
  intros F Em ->. destruct (fixed_top k t r F) as [Ht Hb]. destruct F as [Hr Hd]. unfold CINATRAD, wrap64, wrap32.
  rewrite Z.shiftr_div_pow2 in Ht by lia. pose proof (pow_pos (k - 2)) as Hp.
  pose proof (Z.mod_pos_bound t (2 ^ 32) ltac:(lia)). rewrite (Z.mod_small (100 * _)) by lia.
  rewrite !Z.mod_eq, Ht, Em by lia. rewrite Em in *. set (p := 10 ^ Z.of_nat (k - 2)) in *.
  set (q := r / (100 * p)) in *. split; [|lia].
  pose proof (Z.div_mod r (100 * p) ltac:(lia)). pose proof (Z.mod_pos_bound r (100 * p) ltac:(lia)). lia.
Qed.

Lemma pow_SS k : 10 ^ Z.of_nat (S (S k)) = 100 * 10 ^ Z.of_nat k.
Proof. rewrite !pow_S. lia. Qed.

Lemma pairs_pad n t r : fixed (2 * n) t r -> pairs n t = pad (S (S (2 * n))) r.
Proof.
  revert t r; induction n as [|n IH]; intros t r F; destruct (fixed_top _ _ _ F) as [Ht _];
    rewrite pad_pair by (by destruct F); cbn [pairs]; rewrite Ht; [done|]. f_equal.
  replace (2 * S n)%nat with (S (S (2 * n))) in * by lia. rewrite (IH _ (r mod 10 ^ Z.of_nat (S (S (2 * n))))), pad_mod; [done|].
  pose proof (fixed_next _ 100 _ _ F) as N. replace (S (S (2 * n)) - 2)%nat with (2 * n)%nat in N by lia.
  apply N; [apply pow_SS|done].
Qed.

Lemma pairs_one_pad n t r : fixed (S (2 * n)) t r -> pairs_one n t = pad (S (S (S (2 * n)))) r.
Proof.
  revert t r; induction n as [|n IH]; intros t r F; destruct (fixed_top _ _ _ F) as [Ht _];
    rewrite pad_pair by (by destruct F); cbn [pairs_one]; rewrite Ht; f_equal.
  - destruct F as [Hr Hd]. cbn [pad Nat.mul]. unfold CINATRAS. rewrite Z.div_1_r.
    rewrite Z.shiftr_div_pow2 in * by lia. change (10 ^ Z.of_nat (S (2 * 0))) with 10 in *.
    unfold wrap64, wrap32. pose proof (Z.mod_pos_bound t (2 ^ 32) ltac:(lia)). rewrite (Z.mod_small (10 * _)) by lia.
    rewrite Z.mod_eq, Ht by lia. do 2 f_equal. symmetry.
    pose proof (Z.div_mod r 10 ltac:(lia)). pose proof (Z.mod_pos_bound r 10 ltac:(lia)).
    apply (Z.div_unique_pos _ _ _ (10 * t - r * 2 ^ 32)); lia.
  - replace (S (2 * S n))%nat with (S (S (S (2 * n)))) in * by lia.
    rewrite (IH _ (r mod 10 ^ Z.of_nat (S (S (S (2 * n)))))), pad_mod; [done|].
    pose proof (fixed_next _ 100 _ _ F) as N. replace (S (S (S (2 * n))) - 2)%nat with (S (2 * n)) in N by lia.
    apply N; [apply pow_SS|done].
Qed.

(** the first number of each case is close enough; the fifth one has no margin for
    leading zeros *)
Ltac start_fixed :=
  intros H; unfold fixed, CINATRAA; split; [lia|];
  repeat match goal with
  | |- context [Z.quot ?a ?b] => let v := eval vm_compute in (Z.quot a b) in progress change (Z.quot a b) with v
  end;
  rewrite !Z.shiftr_div_pow2 by lia; unfold wrap64;
  repeat match goal with |- context [2 ^ ?k] => let v := eval vm_compute in (2 ^ k) in progress change (2 ^ k) with v end;
  repeat match goal with |- context [10 ^ ?k] => let v := eval vm_compute in (10 ^ k) in progress change (10 ^ k) with v end;
  cbn [Z.add Z.sub Pos.add Pos.succ Z.opp Z.pos_sub Pos.sub Pos.sub_mask];
  repeat (rewrite Z.mod_small by (Z.div_mod_to_equations; lia));
  Z.div_mod_to_equations; lia.

Lemma fixed_1 u : 0 <= u < 10 ^ 3 -> fixed 1 (CINATRAA 1 u) u.
Proof. start_fixed. Qed.
Lemma fixed_2 u : 0 <= u < 10 ^ 4 -> fixed 2 (CINATRAA 2 u) u.
Proof. start_fixed. Qed.
Lemma fixed_3 u : 0 <= u < 10 ^ 5 -> fixed 3 (CINATRAA 3 u) u.
Proof. start_fixed. Qed.
Lemma fixed_4 u : 0 <= u < 10 ^ 6 -> fixed 4 (CINATRAA 4 u) u.
Proof. start_fixed. Qed.
Lemma fixed_5 u : 10 ^ 6 <= u < 10 ^ 7 -> fixed 5 (CINATRAA 5 u) u.
Proof. start_fixed. Qed.
Lemma fixed_6 u : 0 <= u < 10 ^ 8 -> fixed 6 (CINATRAA 6 u) u.
Proof. start_fixed. Qed.
Lemma fixed_7 u : 0 <= u < 10 ^ 9 -> fixed 7 (CINATRAA 7 u) u.
Proof. start_fixed. Qed.
(** a number of 32 bits *)
Lemma fixed_8 u : 0 <= u < 2 ^ 32 -> fixed 8 (CINATRAA 8 u) u.
Proof. start_fixed. Qed.

Lemma LN_pad N u : 0 <= N <= 9 -> (N = 0 \/ 10 ^ N <= u) -> 0 <= u < 10 ^ (N + 1) -> u < 2 ^ 32 -> LN N u = pad (Z.to_nat (N + 1)) u.
Proof.
  intros HN Hl Hu Hw.
  assert (N = 0 \/ N = 1 \/ N = 2 \/ N = 3 \/ N = 4 \/ N = 5 \/ N = 6 \/ N = 7 \/ N = 8 \/ N = 9) as Hc by lia.
  destruct Hc as [->|[->|[->|[->|[->|[->|[->|[->|[->| ->]]]]]]]]]; cbn [LN Z.to_nat Z.add Pos.add Pos.succ].
  - change (10 ^ (0 + 1)) with 10 in Hu. change (Z.to_nat (0 + 1)) with 1%nat. cbn [pad]. change (10 ^ Z.of_nat 0) with 1. by rewrite Z.div_1_r, Z.mod_small by lia.
  - change (10 ^ (1 + 1)) with 100 in Hu. change (Z.to_nat (1 + 1)) with 2%nat. rewrite (pad_pair 0) by (cbn; lia).
    cbn [pad]. change (10 ^ Z.of_nat 0) with 1. by rewrite Z.div_1_r, app_nil_r.
  - apply (pairs_one_pad 0), fixed_1; lia.
  - apply (pairs_pad 1), fixed_2; lia.
  - apply (pairs_one_pad 1), fixed_3; lia.
  - apply (pairs_pad 2), fixed_4; lia.
  - apply (pairs_one_pad 2), fixed_5; lia.
  - apply (pairs_pad 3), fixed_6; lia.
  - apply (pairs_one_pad 3), fixed_7; lia.
  - apply (pairs_pad 4), fixed_8; lia.
Qed.

(** eight digits, leading zeros included *)
Lemma LN_7 u : 0 <= u < 10 ^ 8 -> LN 7 u = pad 8 u.
Proof. intros H. apply (pairs_pad 3), fixed_6. lia. Qed.

Lemma LG_dec u : 0 <= u < 2 ^ 32 -> LG u = dec_string u.
Proof.
  intros Hu. unfold LG. set (N := if u <? 100 then _ else _).
  assert (0 <= N <= 9 /\ (N = 0 \/ 10 ^ N <= u) /\ u < 10 ^ (N + 1)) as (HN & Hl & Hb).
  { subst N. repeat (match goal with |- context [u <? ?k] => destruct (Z.ltb_spec u k) end); simpl; lia. }
  rewrite LN_pad by lia. replace (Z.to_nat (N + 1)) with (S (Z.to_nat N)) by lia.
  apply pad_dec; [|rewrite Nat2Z.inj_succ, Z2Nat.id by lia; lia].
  destruct Hl as [->|Hl]; [by left|right]. by rewrite Z2Nat.id by lia.
Qed.

Lemma u64_dec n : 0 <= n < 2 ^ 64 -> u64toa_jeaiii n = dec_string n.
Proof.
  intros Hn. unfold u64toa_jeaiii, wrap32. rewrite !Z.shiftr_div_pow2 by lia.
  pose proof (Z.mod_pos_bound n 100000000 ltac:(lia)) as Hr. pose proof (Z.div_mod n 100000000 ltac:(lia)) as En.
  rewrite (Z.mod_small (n / 2 ^ 32)) by (split; [apply Z.div_pos; lia|apply Z.div_lt_upper_bound; lia]).
  destruct (n / 2 ^ 32 =? 0) eqn:E; zbool.
  - apply Z.div_small_iff in E; [|lia]. rewrite Z.mod_small by lia. apply LG_dec. lia.
  - set (a := n / 100000000) in *. assert (0 < a < 2 ^ 64 / 10 ^ 8 + 1) as Ha.
    { assert (2 ^ 32 <= n); [|split; [apply Z.div_str_pos; lia|apply Z.lt_succ_r, Z.div_le_mono; lia]].
      destruct (Z.lt_ge_cases n (2 ^ 32)); [|lia]. by rewrite Z.div_small in E by lia. }
    change (2 ^ 64 / 10 ^ 8 + 1) with 184467440738 in Ha.
    rewrite (Z.mod_small (n mod _)) by lia. rewrite (LN_7 (n mod _)) by lia.
    replace (dec_string n) with (dec_string (a * 10 ^ Z.of_nat 8 + n mod 100000000))
      by (f_equal; change (10 ^ Z.of_nat 8) with 100000000; lia).
    rewrite dec_pad by (change (10 ^ Z.of_nat 8) with 100000000; lia). f_equal.
    rewrite (Z.mod_small (a / 2 ^ 32)) by (split; [apply Z.div_pos; lia|apply Z.div_lt_upper_bound; lia]).
    destruct (a / 2 ^ 32 =? 0) eqn:E2; zbool.
    + apply Z.div_small_iff in E2; [|lia]. rewrite Z.mod_small by lia. apply LG_dec. lia.
    + assert (2 ^ 32 <= a) by (destruct (Z.lt_ge_cases a (2 ^ 32)); [by rewrite Z.div_small in E2 by lia|lia]).
      pose proof (Z.mod_pos_bound a 100000000 ltac:(lia)). pose proof (Z.div_mod a 100000000 ltac:(lia)) as Ea.
      assert (0 < a / 100000000 < 2 ^ 32) by (split; [apply Z.div_str_pos; lia|apply Z.div_lt_upper_bound; lia]).
      rewrite !Z.mod_small by lia. rewrite LN_7 by lia. 
      replace (dec_string a) with (dec_string (a / 100000000 * 10 ^ Z.of_nat 8 + a mod 100000000))
        by (f_equal; change (10 ^ Z.of_nat 8) with 100000000; lia).
      rewrite dec_pad by (change (10 ^ Z.of_nat 8) with 100000000; lia). f_equal. apply LG_dec. lia.
Qed.

(** The four conversions print what std::to_string does, for every value of their
    types, the least negative ones included. *)
Theorem jeaiii_correct :
  (forall u, 0 <= u < 2 ^ 32 -> u32toa_jeaiii u = to_string u) /\
  (forall i, - 2 ^ 31 <= i < 2 ^ 31 -> i32toa_jeaiii i = to_string i) /\
  (forall n, 0 <= n < 2 ^ 64 -> u64toa_jeaiii n = to_string n) /\
  (forall i, - 2 ^ 63 <= i < 2 ^ 63 -> i64toa_jeaiii i = to_string i).
Proof.
  unfold to_string. split_and!; intros u Hu.
  - rewrite (proj2 (Z.ltb_ge u 0)) by lia. by apply LG_dec.
  - unfold i32toa_jeaiii. destruct (u <? 0) eqn:E; zbool; [|apply LG_dec; lia].
    f_equal. replace (wrap32 (0 - wrap32 u)) with (- u); [apply LG_dec; lia|].
    unfold wrap32. rewrite Zminus_mod_idemp_r, Z.mod_small; lia.
  - rewrite (proj2 (Z.ltb_ge u 0)) by lia. by apply u64_dec.
  - unfold i64toa_jeaiii. destruct (u <? 0) eqn:E; zbool; [|apply u64_dec; lia].
    f_equal. replace (wrap64 (0 - wrap64 u)) with (- u); [apply u64_dec; lia|].
    unfold wrap64. rewrite Zminus_mod_idemp_r, Z.mod_small; lia.
Qed.

Lemma jeaiii_correct_witness :
  u32toa_jeaiii 4294967295 = to_string 4294967295 /\ i32toa_jeaiii (-2147483648) = to_string (-2147483648) /\
  u64toa_jeaiii 18446744073709551615 = to_string 18446744073709551615 /\
  i64toa_jeaiii (-9223372036854775808) = to_string (-9223372036854775808).
Proof. destruct jeaiii_correct as (H1 & H2 & H3 & H4). split_and!; [apply H1|apply H2|apply H3|apply H4]; lia. Defined.
