(* ===== verification/Uri.v ===== *)
(** * Uniform resource identifiers

    core/uri.hpp: uri_t::parse_from, url_encode and the context of a request.  The
    argument is a C string: its bytes up to the terminating NUL, none of them zero; a
    pointer is what is left of it, [*p] at the end is the NUL, and to read on from
    there is undefined ([Outside], [None]).  std::isalnum of a negative char is
    false, as it is in the "C" locale of the platform. *)

From Stdlib Require Import ZArith Lia.
From stdpp Require Import base numbers list strings sets.
From S2P Require Import Prelude CStd Utils.
Local Open Scope Z_scope.

(** ** Character classes *)

Definition is_unreserved (c : Z) : bool :=
  isalnum c || (c =? 45) || (c =? 46) || (c =? 95) || (c =? 126).
(** ! $ & ' ( ) * + , ; = *)
Definition is_sub_delim (c : Z) : bool :=
  (c =? 33) || (c =? 36) || (c =? 38) || (c =? 39) || (c =? 40) || (c =? 41) || (c =? 42) || (c =? 43) || (c =? 44) ||
  (c =? 59) || (c =? 61).
Definition is_user_info_character (c : Z) : bool := is_unreserved c || is_sub_delim c || (c =? 37) || (c =? 58).
Definition is_path_character (c : Z) : bool :=
  is_unreserved c || is_sub_delim c || (c =? 37) || (c =? 47) || (c =? 58) || (c =? 64).
Definition is_query_character (c : Z) : bool := is_path_character c || (c =? 63).
Definition is_authority_character (c : Z) : bool :=
  is_unreserved c || is_sub_delim c || (c =? 37) || (c =? 64) || (c =? 58) || (c =? 91) || (c =? 93).
Definition is_fragment_character (c : Z) : bool := is_query_character c.
Definition is_scheme_character (c : Z) : bool := isalnum c || (c =? 43) || (c =? 45) || (c =? 46).

(** ** The parser *)

Record uri_t := mk_uri {
  schema : bytes; uinfo : bytes; host : bytes; port : bytes;
  path : bytes; query : bytes; fragment : bytes;
  is_ssl : option bool           (** not initialised *)
}.

Definition new_uri : uri_t := mk_uri [] [] [] [] [] [] [] None.

Definition set_schema (s : bytes) (ssl : bool) (u : uri_t) : uri_t :=
  mk_uri s (uinfo u) (host u) (port u) (path u) (query u) (fragment u) (Some ssl).
Definition set_uinfo (s : bytes) (u : uri_t) : uri_t :=
  mk_uri (schema u) s (host u) (port u) (path u) (query u) (fragment u) (is_ssl u).
Definition set_host (s : bytes) (u : uri_t) : uri_t :=
  mk_uri (schema u) (uinfo u) s (port u) (path u) (query u) (fragment u) (is_ssl u).
Definition set_port (s : bytes) (u : uri_t) : uri_t :=
  mk_uri (schema u) (uinfo u) (host u) s (path u) (query u) (fragment u) (is_ssl u).
Definition set_path (s : bytes) (u : uri_t) : uri_t :=
  mk_uri (schema u) (uinfo u) (host u) (port u) s (query u) (fragment u) (is_ssl u).
Definition set_query (s : bytes) (u : uri_t) : uri_t :=
  mk_uri (schema u) (uinfo u) (host u) (port u) (path u) s (fragment u) (is_ssl u).
Definition set_fragment (s : bytes) (u : uri_t) : uri_t :=
  mk_uri (schema u) (uinfo u) (host u) (port u) (path u) (query u) s (is_ssl u).

(** *p *)
Definition star (p : bytes) : Z := match p with [] => 0 | c :: _ => c end.

Inductive scanned := Stops (taken rest : bytes) | Illegal | Outside.

(** for (; !stop( *p ); p++) if (!legal( *p )) return false; *)
Fixpoint scan (stop legal : Z -> bool) (p : bytes) : scanned :=
  match p with
  | [] => if stop 0 then Stops [] [] else if legal 0 then Outside else Illegal
  | c :: p' =>
      if stop c then Stops [] p
      else if legal c then
        match scan stop legal p' with Stops t rest => Stops (c :: t) rest | r => r end
      else Illegal
  end.

(** is there a colon before the first slash? *)
Fixpoint is_relative_reference (p : bytes) : bool :=
  match p with
  | [] => true
  | c :: p => if c =? 47 then true else if c =? 58 then false else is_relative_reference p
  end.

(** from the last character back over the digits: the position where the loop stops *)
Fixpoint port_begin (fuel : nat) (i : nat) (authority : bytes) : nat :=
  match fuel with
  | O => i
  | S fuel => if isdigit (nth i authority 0) && negb (i =? 0)%nat then port_begin fuel (i - 1) authority else i
  end.

(** the characters of the user info, at most up to host_end *)
Fixpoint u_end (s : bytes) (host_end : nat) : nat :=
  match host_end with
  | O => O
  | S n => if is_user_info_character (star s) then S (u_end (tail s) n) else O
  end.

(** authority_begin != authority_end; [s] is the string from authority_begin on *)
Definition parse_authority (authority s : bytes) (u : uri_t) : uri_t :=
  match authority with
  | [] => u
  | _ =>
      let i := port_begin (length authority) (length authority - 1) authority in
      let '(host_end, u) :=
        if nth i authority 0 =? 58 then (i, set_port (drop (i + 1) authority) u) else (length authority, u) in
      let e := u_end s host_end in
      let '(host_begin, u) := if star (drop e s) =? 64 then ((e + 1)%nat, set_uinfo (take e authority) u) else (0%nat, u) in
      set_host (take (host_end - host_begin) (drop host_begin authority)) u
  end.

Definition at_end (c : Z) : bool := c =? 0.
Definition ends_authority (c : Z) : bool := (c =? 47) || (c =? 63) || (c =? 35) || (c =? 0).
Definition ends_path (c : Z) : bool := (c =? 63) || (c =? 35) || (c =? 0).
Definition ends_query (c : Z) : bool := (c =? 35) || (c =? 0).

(** the fragment: behind a hash mark *)
Definition parse_fragment (p : bytes) (u : uri_t) : option (uri_t * bool) :=
  if star p =? 35 then
    match scan at_end is_fragment_character (tail p) with
    | Stops f _ => Some (set_fragment f u, true)
    | Illegal => Some (u, false)
    | Outside => None
    end
  else Some (u, true).

Definition parse_query (p : bytes) (u : uri_t) : option (uri_t * bool) :=
  if star p =? 63 then
    match scan ends_query is_query_character (tail p) with
    | Stops q p => parse_fragment p (set_query q u)
    | Illegal => Some (u, false)
    | Outside => None
    end
  else parse_fragment p u.

Definition parse_path (p : bytes) (u : uri_t) : option (uri_t * bool) :=
  if (star p =? 47) || is_path_character (star p) then
    match scan ends_path is_path_character p with
    | Stops t p => parse_query p (set_path t u)
    | Illegal => Some (u, false)
    | Outside => None
    end
  else parse_query p u.

Definition parse_hier (p : bytes) (u : uri_t) : option (uri_t * bool) :=
  if (star p =? 47) && (star (tail p) =? 47) then
    let s := tail (tail p) in
    match scan ends_authority is_authority_character s with
    | Stops authority p => parse_path p (parse_authority authority s u)
    | Illegal => Some (u, false)
    | Outside => None
    end
  else parse_path p u.

Definition is_colon (c : Z) : bool := c =? 58.

(** parse_from on an uri_t, whose members keep their values where none are found *)
Definition parse_from (encoded : bytes) (u : uri_t) : option (uri_t * bool) :=
  if is_relative_reference encoded then
    if bool_decide (schema u = []) then Some (u, false) else parse_hier encoded u
  else
    match encoded with
    | [] => None
    | c :: p =>
        if negb (isalpha c) then Some (u, false)
        else
          match scan is_colon is_scheme_character p with
          | Stops t p =>
              let s := c :: t in
              let u := set_schema s (bool_decide (s = bs "https")) u in
              match p with
              | [] => None
              | _ :: p => if bool_decide (schema u = []) then Some (u, false) else parse_hier p u
              end
          | Illegal => Some (u, false)
          | Outside => None
          end
    end.

Definition get_host (u : uri_t) : bytes := host u.
Definition get_port (u : uri_t) : bytes := if bool_decide (port u = []) then bs "80" else port u.
Definition get_path (u : uri_t) : bytes := if bool_decide (path u = []) then [47] else path u.
Definition get_query (u : uri_t) : bytes := query u.

(** sprintf "%X" of a char, which is sign extended *)
Definition upper_hex (n : Z) : bytes := hex_upper <$> digits 16 n.

Definition url_encode_char (c : Z) : bytes :=
  if isalnum c || (c =? 45) || (c =? 95) || (c =? 46) || (c =? 126) then [c]
  else (if schar c <? 16 then bs "%0" else bs "%") ++ upper_hex (wrap32 (schar c)).

Definition url_encode (str : bytes) : bytes := mjoin (url_encode_char <$> str).

Record context := mk_context {
  ctx_host : bytes; ctx_port : bytes; ctx_path : bytes; ctx_query : bytes; ctx_body : bytes;
  ctx_method : http_method
}.

Definition new_context (u : uri_t) (mthd : http_method) (b : bytes) : context :=
  mk_context (get_host u) (get_port u) (get_path u) (get_query u) b mthd.

Lemma non_ascii_encoded : url_encode [228] = bs "%0FFFFFFE4".
Proof. reflexivity. Qed.
(** what follows the authority or the scheme is not looked at when it is no path *)
Lemma rest_ignored : parse_from (bs "http:[xy") new_uri = Some (set_schema (bs "http") false new_uri, true).
Proof. reflexivity. Qed.

(** ** What parse_from reads *)

Lemma scan_stops stop legal t rest :
  Forall (fun c => stop c = false /\ legal c = true) t -> stop (star rest) = true ->
  scan stop legal (t ++ rest) = Stops t rest.
Proof.
  intros Ht Hr. induction Ht as [|c t [H1 H2] _ IH]; cbn [app scan].
  - destruct rest as [|c rest]; simpl in *; by rewrite Hr.
  - by rewrite H1, H2, IH.
Qed.

Lemma scan_inside stop legal p : (stop 0 = true \/ legal 0 = false) -> scan stop legal p <> Outside.
Proof.
  intros H. induction p as [|c p IH]; cbn [scan].
  - destruct (stop 0); [done|]. destruct H as [?|H]; [done|]. by rewrite H.
  - destruct (stop c); [done|]. destruct (legal c); [|done]. by destruct (scan stop legal p).
Qed.

Lemma scan_stop stop legal p t rest : scan stop legal p = Stops t rest -> p = t ++ rest /\ stop (star rest) = true.
Proof.
  revert t; induction p as [|c p IH]; intros t; cbn [scan].
  - destruct (stop 0) eqn:E; [|by destruct (legal 0)]. by intros [= <- <-].
  - destruct (stop c) eqn:E; [by intros [= <- <-]|]. destruct (legal c); [|done].
    destruct (scan stop legal p) as [t' r| |] eqn:Es; try done. intros [= <- <-].
    destruct (IH t' eq_refl) as [-> ?]. done.
Qed.

(** parse_from reads nothing behind the string's end *)
Lemma parse_from_inside encoded u : 0 ∉ encoded -> exists r, parse_from encoded u = Some r.
Proof.
  assert (Hf : forall p u, exists r, parse_fragment p u = Some r).
  { intros p w. unfold parse_fragment. case_match; [|eauto]. pose proof (scan_inside at_end is_fragment_character (tail p) ltac:(by left)).
    case_match; naive_solver. }
  assert (Hq : forall p u, exists r, parse_query p u = Some r).
  { intros p w. unfold parse_query. case_match; [|eauto]. pose proof (scan_inside ends_query is_query_character (tail p) ltac:(by left)).
    case_match; naive_solver. }
  assert (Hp : forall p u, exists r, parse_path p u = Some r).
  { intros p w. unfold parse_path. case_match; [|eauto]. pose proof (scan_inside ends_path is_path_character p ltac:(by left)).
    case_match; naive_solver. }
  assert (Hh : forall p u, exists r, parse_hier p u = Some r).
  { intros p w. unfold parse_hier. case_match; [|eauto].
    pose proof (scan_inside ends_authority is_authority_character (tail (tail p)) ltac:(by left)). cbv zeta. case_match; naive_solver. }
  intros H0. unfold parse_from. destruct (is_relative_reference encoded) eqn:E; [case_match; eauto|].
  destruct encoded as [|c p]; [done|]. destruct (negb (isalpha c)); [eauto|].
  pose proof (scan_inside is_colon is_scheme_character p ltac:(by right)) as Hi.
  destruct (scan is_colon is_scheme_character p) as [t rest| |] eqn:Es; [|eauto|done].
  apply scan_stop in Es as [_ Hc]. destruct rest; [done|]. case_match; eauto.
Qed.

(** ** Printing *)

Record parts := mk_parts {
  p_schema : bytes; p_uinfo : option bytes; p_host : bytes; p_port : option bytes;
  p_path : bytes; p_query : option bytes; p_fragment : option bytes
}.

Definition behind (c : Z) (o : option bytes) : bytes := from_option (fun s => c :: s) [] o.

Definition print_authority (w : parts) : bytes :=
  from_option (fun s => s ++ [64]) [] (p_uinfo w) ++ p_host w ++ behind 58 (p_port w).

Definition print_uri (w : parts) : bytes :=
  p_schema w ++ bs "://" ++ print_authority w ++ p_path w ++ behind 63 (p_query w) ++ behind 35 (p_fragment w).

Definition host_character (c : Z) : bool := is_authority_character c && negb (c =? 64).

Definition parts_ok (w : parts) : Prop :=
  match p_schema w with [] => False | c :: t => isalpha c = true /\ Forall (fun c => is_scheme_character c = true) t end /\
  from_option (Forall (fun c => is_user_info_character c = true)) True (p_uinfo w) /\
  Forall (fun c => host_character c = true) (p_host w) /\ p_host w <> [] /\
  (58 ∈ p_host w -> last (p_host w) = Some 93) /\
  from_option (Forall (fun c => isdigit c = true)) True (p_port w) /\
  Forall (fun c => is_path_character c = true) (p_path w) /\ (p_path w = [] \/ star (p_path w) = 47) /\
  from_option (Forall (fun c => is_query_character c = true)) True (p_query w) /\
  from_option (Forall (fun c => is_fragment_character c = true)) True (p_fragment w).

Definition uri_of (w : parts) : uri_t :=
  mk_uri (p_schema w) (default [] (p_uinfo w)) (p_host w) (default [] (p_port w)) (p_path w) (default [] (p_query w))
    (default [] (p_fragment w)) (Some (bool_decide (p_schema w = bs "https"))).

(** what a character class says about a delimiter: by computation *)
Lemma class_excludes (f g : Z -> bool) (l : list Z) :
  (forall c, g c = true -> c ∈ l) -> Forall (fun c => f c = false) l -> forall c, f c = true -> g c = false.
Proof.
  intros Hg Hl c Hf. destruct (g c) eqn:E; [|done]. apply Hg in E. rewrite Forall_forall in Hl.
  apply Hl in E. congruence.
Qed.

Lemma ends_authority_chars c : ends_authority c = true -> c ∈ [47; 63; 35; 0].
Proof. unfold ends_authority. intros H. zsplit; subst; set_solver. Qed.
Lemma ends_path_chars c : ends_path c = true -> c ∈ [63; 35; 0].
Proof. unfold ends_path. intros H. zsplit; subst; set_solver. Qed.
Lemma ends_query_chars c : ends_query c = true -> c ∈ [35; 0].
Proof. unfold ends_query. intros H. zsplit; subst; set_solver. Qed.
Lemma at_end_chars c : at_end c = true -> c ∈ [0].
Proof. unfold at_end. intros H. zsplit; subst; set_solver. Qed.
Lemma is_colon_chars c : is_colon c = true -> c ∈ [58].
Proof. unfold is_colon. intros H. zsplit; subst; set_solver. Qed.

Ltac class_facts := repeat (constructor; [reflexivity|]); constructor.
Lemma authority_class c : is_authority_character c = true -> ends_authority c = false.
Proof. apply (class_excludes _ _ _ ends_authority_chars). class_facts. Qed.
Lemma path_class c : is_path_character c = true -> ends_path c = false.
Proof. apply (class_excludes _ _ _ ends_path_chars). class_facts. Qed.
Lemma query_class c : is_query_character c = true -> ends_query c = false.
Proof. apply (class_excludes _ _ _ ends_query_chars). class_facts. Qed.
Lemma fragment_class c : is_fragment_character c = true -> at_end c = false.
Proof. apply (class_excludes _ _ _ at_end_chars). class_facts. Qed.
Lemma scheme_class c : is_scheme_character c = true -> is_colon c = false.
Proof. apply (class_excludes _ _ _ is_colon_chars). class_facts. Qed.

Lemma scan_class stop legal t rest :
  (forall c, legal c = true -> stop c = false) -> Forall (fun c => legal c = true) t -> stop (star rest) = true ->
  scan stop legal (t ++ rest) = Stops t rest.
Proof. intros H Ht Hr. apply scan_stops; [|done]. eapply Forall_impl; [exact Ht|]. auto. Qed.

(** ** Authorities *)

Lemma userinfo_authority c : is_user_info_character c = true -> is_authority_character c = true.
Proof. unfold is_user_info_character, is_authority_character. destruct (is_unreserved c), (is_sub_delim c), (c =? 37), (c =? 58); simpl; rewrite ?orb_true_r; done. Qed.
Lemma digit_authority c : isdigit c = true -> is_authority_character c = true.
Proof. intros H. unfold is_authority_character, is_unreserved, isalnum. rewrite H. by rewrite !orb_true_r. Qed.

Lemma print_authority_chars w : parts_ok w -> Forall (fun c => is_authority_character c = true) (print_authority w).
Proof.
  intros (_ & Hu & Hh & _ & _ & Hp & _). unfold print_authority, behind. repeat apply Forall_app_2.
  - destruct (p_uinfo w); [|constructor]. simpl in *. apply Forall_app_2; [|by repeat constructor].
    eapply Forall_impl; [exact Hu|]. apply userinfo_authority.
  - eapply Forall_impl; [exact Hh|]. unfold host_character. intros c H. simpl in H. by apply andb_true_iff in H as [H _].
  - destruct (p_port w); [|constructor]. constructor; [done|]. eapply Forall_impl; [exact Hp|]. apply digit_authority.
Qed.

(** going back over digits *)
Lemma port_begin_digits l d fuel :
  Forall (fun c => isdigit c = true) d -> (length d <= fuel)%nat -> l <> [] ->
  port_begin fuel (length l + length d - 1) (l ++ d) = port_begin (fuel - length d) (length l - 1) (l ++ d).
Proof.
  revert fuel; induction d as [|c d IH] using rev_ind; intros fuel Hd Hf Hl.
  - cbn [length]. do 2 f_equal; lia.
  - rewrite length_app in *. cbn [length] in *. apply Forall_app in Hd as [Hd Hc]. apply Forall_inv in Hc. simpl in Hc.
    assert (length l <> 0)%nat by (by destruct l). destruct fuel as [|fuel]; [lia|].
    replace (length l + (length d + 1) - 1)%nat with (length l + length d)%nat by lia.
    cbn [port_begin]. rewrite app_assoc. rewrite app_nth2 by (rewrite length_app; lia). rewrite length_app.
    replace (length l + length d - (length l + length d))%nat with 0%nat by lia. cbn [nth]. rewrite Hc.
    rewrite (proj2 (Nat.eqb_neq _ _)) by lia. cbn [andb negb].
    assert (G : forall n i s t, (i < length s)%nat -> port_begin n i (s ++ t) = port_begin n i s).
    { induction n as [|n IHn]; intros i s t Hi; [done|]. cbn [port_begin]. rewrite app_nth1 by done.
      destruct (isdigit _ && _) eqn:E; [|done]. apply IHn. lia. }
    rewrite !G by (rewrite ?length_app; lia). rewrite IH by (done || lia). rewrite <-(G _ _ _ [c]) by (rewrite ?length_app; lia).
    rewrite !G by (rewrite ?length_app; lia). f_equal. lia.
Qed.

Lemma port_begin_stop fuel i l : isdigit (nth i l 0) = false -> port_begin fuel i l = i.
Proof. intros H. destruct fuel; [done|]. cbn [port_begin]. by rewrite H. Qed.

Lemma port_begin_le fuel i l : (port_begin fuel i l <= i)%nat.
Proof. revert i; induction fuel as [|fuel IH]; intros i; cbn [port_begin]; [done|]. case_match; [|done]. specialize (IH (i - 1)%nat). lia. Qed.

Lemma nth_digit l i : Forall (fun c => isdigit c = true) l -> (i < length l)%nat -> isdigit (nth i l 0) = true.
Proof.
  intros H Hi. rewrite Forall_lookup in H. destruct (lookup_lt_is_Some_2 l i Hi) as [c Hc].
  apply (H i). rewrite Hc. f_equal. symmetry. by apply nth_lookup_Some.
Qed.

Lemma digits_behind h : exists l d, h = l ++ d /\ Forall (fun c => isdigit c = true) d /\
  (l = [] \/ exists l' c, l = l' ++ [c] /\ isdigit c = false).
Proof.
  induction h as [|c h (l & d & -> & Hd & Hl)] using rev_ind; [by exists [], []; auto|].
  destruct (isdigit c) eqn:E.
  - exists l, (d ++ [c]). rewrite app_assoc. split; [done|]. split; [|done]. apply Forall_app_2; [done|by repeat constructor].
  - exists ((l ++ d) ++ [c]), []. rewrite app_nil_r. split; [done|]. split; [constructor|]. right. eauto.
Qed.

(** where the loop over the digits stops *)
Lemma port_begin_at l c d : isdigit c = false -> Forall (fun c => isdigit c = true) d ->
  let a := (l ++ [c]) ++ d in port_begin (length a) (length a - 1) a = length l.
Proof.
  intros Hc Hd a. subst a. rewrite length_app at 1 2.
  rewrite port_begin_digits by (done || lia || by destruct l). rewrite port_begin_stop; rewrite length_app; cbn [length].
  - lia.
  - rewrite app_nth1 by (rewrite length_app; cbn; lia). rewrite app_nth2 by lia.
    by replace (length l + 1 - 1 - length l)%nat with 0%nat by lia.
Qed.

Lemma nth_at l c d : nth (length l) ((l ++ [c]) ++ d) 0 = c.
Proof. rewrite <-app_assoc, app_nth2 by lia. by rewrite Nat.sub_diag. Qed.

Lemma u_end_le s n : (u_end s n <= n)%nat.
Proof. revert s; induction n as [|n IH]; intros s; cbn [u_end]; [done|]. case_match; [|lia]. specialize (IH (tail s)). lia. Qed.

Lemma u_end_exact s r n : Forall (fun c => is_user_info_character c = true) s -> is_user_info_character (star r) = false ->
  (length s <= n)%nat -> u_end (s ++ r) n = length s.
Proof.
  intros Hs Hr. revert n; induction Hs as [|c s Hc _ IH]; intros n Hn; cbn [app length] in *.
  - destruct n; [done|]. cbn [u_end]. by rewrite Hr.
  - destruct n as [|n]; [lia|]. cbn [u_end star tail]. rewrite Hc. f_equal. apply IH. lia.
Qed.

Section authority.
Variable w : parts.
Hypothesis Hok : parts_ok w.

Definition before_host : bytes := from_option (fun s => s ++ [64]) [] (p_uinfo w).

Lemma port_found u :
  let a := print_authority w in
  let i := port_begin (length a) (length a - 1) a in
  (if nth i a 0 =? 58 then (i, set_port (drop (i + 1) a) u) else (length a, u)) =
  (length (before_host ++ p_host w), from_option set_port id (p_port w) u).
Proof.
  pose proof Hok as (_ & _ & Hh & Hne & Hlast & Hp & _). intros a i. subst a i.
  unfold print_authority, behind. fold before_host. rewrite app_assoc.
  destruct (p_port w) as [d|]; cbn [from_option] in *.
  - rewrite (cons_middle 58 _ d), app_assoc. rewrite port_begin_at by done. rewrite nth_at. cbn [Z.eqb Pos.eqb].
    f_equal. f_equal. rewrite <-app_assoc. by rewrite drop_app, drop_ge, Nat.add_sub_swap, Nat.sub_diag by lia.
  - rewrite app_nil_r.
    match goal with |- (if ?b then _ else _) = _ => assert (b = false) as ->; [|done] end.
    apply Z.eqb_neq. destruct (digits_behind (p_host w)) as (l & d & Eh & Hd & Hl). destruct Hl as [->|(l' & c & -> & Hc)].
    + cbn [app] in Eh. rewrite Eh. assert (d <> []) as Hdne by congruence. unfold before_host. destruct (p_uinfo w) as [s|]; cbn [from_option].
      * rewrite port_begin_at by done. by rewrite nth_at.
      * cbn [app]. intros E. pose proof (port_begin_le (length d) (length d - 1) d).
        assert (isdigit (nth (port_begin (length d) (length d - 1) d) d 0) = true) as Hn
          by (apply nth_digit; [done|]; destruct d; [done|cbn [length] in *; lia]).
        by rewrite E in Hn.
    + rewrite Eh. rewrite app_assoc, (app_assoc before_host l'). rewrite port_begin_at by done. rewrite nth_at. intros ->.
      rewrite Eh in Hlast. specialize (Hlast ltac:(set_solver)).
      destruct d as [|x d _] using rev_ind; [rewrite app_nil_r, last_snoc in Hlast; congruence|].
      rewrite app_assoc, last_snoc in Hlast. injection Hlast as ->. apply Forall_app in Hd as [_ Hd]. by inversion Hd.
Qed.

Lemma host_found rest u : ends_authority (star rest) = true ->
  let a := print_authority w in
  let host_end := length (before_host ++ p_host w) in
  let e := u_end (a ++ rest) host_end in
  (let '(host_begin, u) := if star (drop e (a ++ rest)) =? 64 then ((e + 1)%nat, set_uinfo (take e a) u) else (0%nat, u) in
   set_host (take (host_end - host_begin) (drop host_begin a)) u) =
  set_host (p_host w) (from_option set_uinfo id (p_uinfo w) u).
Proof.
  pose proof Hok as (_ & Hu & Hh & Hne & _). intros Hr a host_end e. subst a host_end e.
  unfold print_authority. fold before_host. unfold before_host. destruct (p_uinfo w) as [s|]; cbn [from_option] in *.
  - rewrite <-!app_assoc. rewrite u_end_exact by (done || (rewrite !length_app; lia)). rewrite drop_app_length. cbn [app star Z.eqb Pos.eqb].
    rewrite take_app_length. f_equal. rewrite (cons_middle 64 s (p_host w ++ _)), app_assoc. replace (length s + 1)%nat with (length (s ++ [64])) by (by rewrite length_app).
    rewrite drop_app_length. rewrite !length_app. cbn [length].
    replace (length s + S (length (p_host w)) - (length s + 1))%nat with (length (p_host w)) by lia. by rewrite take_app_length.
  - cbn [app]. set (r := behind 58 (p_port w)). rewrite <-app_assoc. set (e := u_end _ _).
    assert (e <= length (p_host w))%nat as He by apply u_end_le.
    assert (star (drop e (p_host w ++ r ++ rest)) <> 64) as Hs.
    { destruct (decide (e = length (p_host w))) as [->|Hlt].
      - rewrite drop_app_length. subst r. destruct (p_port w); cbn [behind from_option app star]; [done|].
        intros E. by rewrite E in Hr.
      - rewrite drop_app_le by lia. destruct (drop e (p_host w)) as [|c l] eqn:Ed.
        { apply (f_equal length) in Ed. rewrite length_drop in Ed. cbn in Ed. lia. }
        cbn [app star]. assert (c ∈ p_host w) as Hc by (rewrite <-(take_drop e (p_host w)), Ed; set_solver).
        rewrite Forall_forall in Hh. specialize (Hh c Hc). unfold host_character in Hh. simpl in Hh. zbool. lia. }
    rewrite (proj2 (Z.eqb_neq _ _)) by done. rewrite drop_0, Nat.sub_0_r. by rewrite take_app_length.
Qed.

Lemma parse_authority_print rest u : ends_authority (star rest) = true ->
  parse_authority (print_authority w) (print_authority w ++ rest) u =
  set_host (p_host w) (from_option set_uinfo id (p_uinfo w) (from_option set_port id (p_port w) u)).
Proof.
  intros Hr. pose proof Hok as (_ & _ & _ & Hne & _).
  unfold parse_authority. destruct (print_authority w) as [|c a] eqn:E.
  { unfold print_authority in E. destruct (p_host w); [done|]. by destruct (p_uinfo w) as [[]|]. }
  rewrite <-E. pose proof (port_found u) as Hp. cbv zeta in Hp. cbv zeta. rewrite Hp. by apply host_found.
Qed.
End authority.

Lemma parts_fragment w u : parts_ok w ->
  parse_fragment (behind 35 (p_fragment w)) u = Some (from_option set_fragment id (p_fragment w) u, true).
Proof.
  intros (_ & _ & _ & _ & _ & _ & _ & _ & _ & Hf). unfold parse_fragment. destruct (p_fragment w) as [f|]; [|done].
  cbn [behind from_option star tail Z.eqb Pos.eqb] in *. rewrite <-(app_nil_r f) at 1.
  by rewrite scan_class by (done || apply fragment_class).
Qed.

Lemma parts_query w u : parts_ok w ->
  parse_query (behind 63 (p_query w) ++ behind 35 (p_fragment w)) u =
  Some (from_option set_fragment id (p_fragment w) (from_option set_query id (p_query w) u), true).
Proof.
  intros Hok. pose proof Hok as (_ & _ & _ & _ & _ & _ & _ & _ & Hq & _). unfold parse_query.
  destruct (p_query w) as [q|]; cbn [behind from_option app star tail Z.eqb Pos.eqb] in *.
  - rewrite scan_class; [by apply parts_fragment|apply query_class|done|by destruct (p_fragment w)].
  - assert ((star (behind 35 (p_fragment w)) =? 63) = false) as -> by (by destruct (p_fragment w)). by apply parts_fragment.
Qed.

Lemma behind_ends_path w : ends_path (star (behind 63 (p_query w) ++ behind 35 (p_fragment w))) = true.
Proof. by destruct (p_query w), (p_fragment w). Qed.

Lemma parts_path w u : parts_ok w ->
  parse_path (p_path w ++ behind 63 (p_query w) ++ behind 35 (p_fragment w)) u =
  Some (from_option set_fragment id (p_fragment w) (from_option set_query id (p_query w)
         (match p_path w with [] => u | p => set_path p u end)), true).
Proof.
  intros Hok. pose proof Hok as (_ & _ & _ & _ & _ & _ & Hp & Hs & _). pose proof (behind_ends_path w) as He. unfold parse_path.
  destruct (p_path w) as [|c p] eqn:E.
  - cbn [app]. rewrite parts_query by done.
    assert (forall s, ends_path (star s) = true -> (star s =? 47) || is_path_character (star s) = false) as H.
    { intros s Hp'. destruct (is_path_character (star s)) eqn:Ep; [apply path_class in Ep; congruence|].
      rewrite orb_false_r. apply Z.eqb_neq. intros E'. by rewrite E' in Hp'. }
    by rewrite H.
  - destruct Hs as [?|Hs]; [done|]. cbn [star] in Hs. subst c. change (star ((47 :: p) ++ _) =? 47) with true.
    cbn iota. rewrite scan_class; [by apply parts_query|apply path_class|done|done].
Qed.

Lemma no_slash_scheme t rest : Forall (fun c => is_scheme_character c = true) t -> is_relative_reference (t ++ 58 :: rest) = false.
Proof.
  induction 1 as [|c t Hc _ IH]; [done|]. cbn [app is_relative_reference].
  destruct (c =? 47) eqn:E1; [zbool; by subst|]. by destruct (c =? 58).
Qed.

Lemma parse_printed_uri w : parts_ok w -> parse_from (print_uri w) new_uri = Some (uri_of w, true).
Proof.
  intros Hok. pose proof Hok as (Hs & _). unfold parse_from, print_uri.
  set (tl := print_authority w ++ p_path w ++ behind 63 (p_query w) ++ behind 35 (p_fragment w)).
  destruct (p_schema w) as [|c t] eqn:Es; [done|]. destruct Hs as [Hc Ht].
  assert (is_relative_reference ((c :: t) ++ bs "://" ++ tl) = false) as ->.
  { apply (no_slash_scheme (c :: t) (bs "//" ++ tl)). constructor; [|done]. unfold is_scheme_character, isalnum. by rewrite Hc. }
  cbn [app]. rewrite Hc. cbn [negb]. change (bs "://" ++ tl) with (58 :: bs "//" ++ tl).
  rewrite scan_class; [|apply scheme_class|done|done].
  cbv zeta. rewrite bool_decide_false by done. unfold parse_hier. change (star (bs "//" ++ tl) =? 47) with true.
  change (star (tail (bs "//" ++ tl)) =? 47) with true. change (tail (tail (bs "//" ++ tl))) with tl. cbn [andb].
  assert (ends_authority (star (p_path w ++ behind 63 (p_query w) ++ behind 35 (p_fragment w))) = true) as He.
  { pose proof Hok as (_ & _ & _ & _ & _ & _ & _ & Hp & _). destruct (p_path w) as [|x p]; [by destruct (p_query w), (p_fragment w)|].
    destruct Hp as [?|Hp]; [done|]. simpl in *. by subst x. }
  subst tl. rewrite scan_class; [|apply authority_class|by apply print_authority_chars|done].
  rewrite parse_authority_print by done. rewrite parts_path by done. do 2 f_equal. unfold uri_of. rewrite Es.
  by destruct (p_uinfo w), (p_port w), (p_path w), (p_query w), (p_fragment w).
Qed.

(** C39. What is printed from the parts of a URI is parsed into these parts: schema,
    user info, host (a name, an address, or an address in brackets), port, path,
    query and fragment, each of the last but the path possibly missing.  Any schema will
    do, and user info is taken, although comments in the code say that the schema must
    be http or https and that user names are not supported. *)
Theorem uri_print_parse w : parts_ok w -> parse_from (print_uri w) new_uri = Some (uri_of w, true).
Proof. apply parse_printed_uri. Qed.

Lemma uri_print_parse_witness :
  let w := mk_parts (bs "http") (Some (bs "me:pw")) (bs "[::1]") (Some (bs "8080")) (bs "/a/b") (Some (bs "x=1")) None in
  print_uri w = bs "http://me:pw@[::1]:8080/a/b?x=1" /\ parse_from (print_uri w) new_uri = Some (uri_of w, true).
Proof.
  intros w. split; [reflexivity|]. apply uri_print_parse. unfold parts_ok; cbn.
  repeat split; try (repeat constructor; fail); try discriminate; auto.
Defined.

(** ** Where the comments and the code part *)

(** "the uri must have http or https": only an empty schema is refused *)
Lemma any_schema_accepted :
  option_map (fun r => (schema r.1, r.2)) (parse_from (bs "ftp://a/b") new_uri) = Some (bs "ftp", true).
Proof. vm_compute. reflexivity. Qed.

(** "NOT currently supporting username/password in authority": they are parsed *)
Lemma user_info_accepted :
  option_map (fun r => (uinfo r.1, r.2)) (parse_from (bs "http://me:pw@a/b") new_uri) = Some (bs "me:pw", true).
Proof. vm_compute. reflexivity. Qed.
