(* ===== verification/HttpParser.v ===== *)
(** * The client's response parser

    core/http_parser.hpp: http_parser over phr_parse_response.  The string_views of
    the headers and of the reason phrase are the texts they denote while the buffer
    lives. *)

From Stdlib Require Import ZArith Lia.
From stdpp Require Import base numbers list strings.
From S2P Require Import Prelude CStd PicoHttp PicoHttpFacts Utils Cookie Response Request.
Local Open Scope Z_scope.

Record http_parser := mk_parser {
  status_ : Z; msg_ : bytes; headers_ : list (bytes * bytes); header_len_ : Z; body_len_ : Z
}.

Definition new_parser : http_parser := mk_parser 0 [] [] 0 0.

Definition get_header_value (key : bytes) (p : http_parser) : bytes := lookup_header (headers_ p) key.

(** where atoi begins to read: the value of the first field of that name, if it is not empty *)
Definition value_at (buf : bytes) (hs : list phr_header) (key : bytes) : option nat :=
  match list_find (fun h => iequal (header_view buf h).1 key = true) hs with
  | Some (_, h) => if (value_len h =? 0)%nat then None else Some (value h)
  | None => None
  end.

(** parse_response(data, size, 0) on a C string; [None] where the parser reads outside it *)
Definition parse_response (sse : bool) (buf : bytes) : option (http_parser * Z) :=
  let '(o, r) := phr_parse_response sse buf 100 0 in
  header_len ← r;
  Some (mk_parser (PicoHttp.status o) (from_option (view buf) [] (PicoHttp.msg o)) (header_view buf <$> r_headers o) header_len
          (match value_at buf (r_headers o) (bs "content-length") with
           | Some off => atoi (drop off buf)
           | None => 0
           end), header_len).

Definition is_chunked (p : http_parser) : bool := bool_decide (get_header_value (bs "transfer-encoding") p = bs "chunked").

Definition keep_alive (p : http_parser) : bool :=
  let val := get_header_value (bs "connection") p in bool_decide (val = []) || iequal val (bs "keep-alive").

Definition total_len (p : http_parser) : Z := header_len_ p + body_len_ p.

Definition set_headers (hs : list (bytes * bytes)) (p : http_parser) : http_parser :=
  mk_parser (status_ p) (msg_ p) hs (header_len_ p) (body_len_ p).

(** ** Reading a printed response *)

(** the length a printed response declares *)
Lemma value_at_printed pre hs post key :
  let buf := pre ++ concat (raw_field <$> hs) ++ post in
  (lookup_header (field_of <$> hs) key = [] -> value_at buf (printed_headers (length pre) hs) key = None) /\
  (forall n, 0 <= n < 2 ^ 31 -> lookup_header (field_of <$> hs) key = dec_string n ->
     exists off, value_at buf (printed_headers (length pre) hs) key = Some off /\ atoi (drop off buf) = n).
Proof.
  intros buf. pose proof (printed_headers_view pre hs post) as Hall. fold buf in Hall.
  rewrite <-Hall, lookup_header_find. unfold value_at.
  destruct (list_find _ (printed_headers (length pre) hs)) as [[i h]|] eqn:Ef.
  2:{ split; [done|]. intros n _ H. symmetry in H. by apply fmap_nil_inv, digits_nonempty in H. }
  apply list_find_Some in Ef as (Hi & _ & _).
  destruct (printed_headers_at pre hs post i h Hi) as (f & rest & Hf & Hd). fold buf in Hd.
  assert (slice buf (value h) (value_len h) = f.2) as Hv.
  { apply (f_equal (fun l => l !! i)) in Hall. rewrite !list_lookup_fmap, Hi, Hf in Hall.
    cbn [fmap option_fmap option_map] in Hall. apply (inj Some) in Hall. apply (f_equal snd) in Hall. done. }
  assert (value_len h = length f.2) as Hlen.
  { clear -Hi Hf. revert Hi Hf. generalize (length pre). revert i; induction hs as [|[[n ws] v] hs IH]; intros i p Hi Hf; [done|].
    destruct i as [|i]; cbn in Hi, Hf; [by simplify_eq|]. by eapply IH. }
  cbn [header_view snd]. rewrite Hv. split.
  - intros E. by rewrite Hlen, E.
  - intros n Hn E. rewrite (proj2 (Nat.eqb_neq _ _)).
    + exists (value h). split; [done|]. rewrite Hd, E. unfold atoi. change (strtoll 10) with atoll.
      rewrite atoll_dec_string by (lia || done). unfold to_int32. rewrite Z.mod_small; lia.
    + rewrite Hlen, E. intros E0. apply length_zero_iff_nil, fmap_nil_inv in E0. by apply digits_nonempty in E0.
Qed.

(** the head of a response, as print_response writes it *)
Lemma parse_printed_response sse v d1 d2 d3 msg hs :
  0 <= v <= 9 -> 0 <= d1 <= 9 -> 0 <= d2 <= 9 -> 0 <= d3 <= 9 -> Cookie.clean msg ->
  Forall raw_ok hs -> (length hs <= 100)%nat -> Forall is_byte (print_response v d1 d2 d3 msg hs) ->
  exists p, parse_response sse (print_response v d1 d2 d3 msg hs) =
    Some (p, to_int32 (Z.of_nat (length (print_response v d1 d2 d3 msg hs)))) /\
  status_ p = 100 * d1 + 10 * d2 + d3 /\ headers_ p = field_of <$> hs /\
  (lookup_header (field_of <$> hs) (bs "content-length") = [] -> body_len_ p = 0) /\
  (forall n, 0 <= n < 2 ^ 31 -> lookup_header (field_of <$> hs) (bs "content-length") = dec_string n -> body_len_ p = n).
Proof.
  intros Hv H1 H2 H3 Hmsg Hhs Hlen Hb. set (buf := print_response v d1 d2 d3 msg hs).
  unfold parse_response. unfold phr_parse_response. cbn [Nat.eqb].
  pose proof (parse_response_print sse 100 v d1 d2 d3 msg hs [] Hv H1 H2 H3 Hmsg Hhs Hlen) as Hp.
  rewrite app_nil_r in Hp. fold buf in Hp.
  rewrite Hp by done.
  cbn [phr_ret mbind option_bind r_headers PicoHttp.status PicoHttp.msg]. eexists. split; [reflexivity|].
  set (pre := bs "HTTP/1." ++ 48 + v :: 32 :: 48 + d1 :: 48 + d2 :: 48 + d3 :: 32 :: msg ++ CRLF).
  assert (15 + length msg = length pre)%nat as -> by (unfold pre; cbn; rewrite length_app; cbn; lia).
  assert (buf = pre ++ concat (raw_field <$> hs) ++ CRLF) as E.
  { unfold buf, print_response, pre. rewrite <-!app_assoc. cbn [app]. by rewrite <-!app_assoc. }
  cbn [status_ headers_ body_len_]. rewrite E. destruct (value_at_printed pre hs CRLF (bs "content-length")) as [N S].
  split_and!; [done|by rewrite printed_headers_view|by intros ->%N|].
  intros n Hn E'. by destruct (S n Hn E') as (off & -> & ->).
Qed.
