(* ===== verification/HttpClient.v ===== *)
(** * The HTTP client

    core/http_client.hpp: CTcpClient (the blocking socket) and http_client: how a
    request is written, how its response is read and who is told.  Everything runs in
    the calling thread.  A [net] is what the calls of the operating system answer, one
    after the other, and what has been sent; where the answers end, the call never
    returns ([Blocked]).  [Aborts] is undefined behaviour, a failed assertion or an
    exception nobody catches.  The file system is a parameter of uploads.  download is
    in Download.v.  Not modelled: the functions that would handle chunks (they are
    empty), the number of the socket, the timer (its functions are empty), log lines. *)

From Stdlib Require Import ZArith Lia.
From stdpp Require Import base numbers list strings sets.
From S2P Require Import Prelude CStd Utils Jeaiii Uri HttpParser.
Local Open Scope Z_scope.

Inductive reply (A : Type) := Done (a : A) | Blocked | Aborts.
Arguments Done {A} _.
Arguments Blocked {A}.
Arguments Aborts {A}.

#[export] Instance reply_ret : MRet reply := fun A a => Done a.
#[export] Instance reply_bind : MBind reply := fun A B f m =>
  match m with Done a => f a | Blocked => Blocked | Aborts => Aborts end.

(** ** The socket *)

Record net := mk_net {
  connects : list bool;          (** what ConnectToServer returns *)
  sends : list Z;                (** what ::send returns *)
  recvs : list bytes;            (** what ::recv stores; nothing: the end or an error *)
  dialed : list (bytes * Z);     (** the hosts and ports of ConnectToServer *)
  wire : bytes                   (** what has been handed to ::send and taken *)
}.

Definition put_recvs (l : list bytes) (n : net) : net := mk_net (connects n) (sends n) l (dialed n) (wire n).
Definition put_sends (l : list Z) (w : bytes) (n : net) : net := mk_net (connects n) l (recvs n) (dialed n) w.

Definition ConnectToServer (host : bytes) (port : Z) (n : net) : reply (bool * net) :=
  match connects n with
  | [] => Blocked
  | ok :: l => Done (ok, mk_net l (sends n) (recvs n) (dialed n ++ [(host, port)]) (wire n))
  end.

(** while (nLeft > 0): the result of Writen and what ::send has taken *)
Fixpoint writen_loop (results : list Z) (nLeft : Z) (total : Z) (buffer taken : bytes) : reply (Z * list Z * bytes) :=
  if nLeft <=? 0 then Done (total, results, taken)
  else match results with
       | [] => Blocked
       | nwritten :: results =>
           if nwritten <=? 0 then Done (nwritten, results, taken)
           else writen_loop results (nLeft - nwritten) total (drop (Z.to_nat nwritten) buffer)
                  (taken ++ take (Z.to_nat nwritten) buffer)
       end.

Definition Writen (buffer : bytes) (n : net) : reply (Z * net) :=
  let len := to_int32 (Z.of_nat (length buffer)) in
  r ← writen_loop (sends n) len len buffer (wire n);
  Done (r.1.1, put_sends r.1.2 r.2 n).

Definition Recv (n : net) : reply (bytes * net) :=
  match recvs n with [] => Blocked | s :: l => Done (s, put_recvs l n) end.

(** readN: while ( Siz > 0 ), appending to what was left over *)
Fixpoint readN_loop (recvs : list bytes) (Siz : Z) (recv_str : bytes) : reply (option bytes * list bytes) :=
  if Siz <=? 0 then Done (Some recv_str, recvs)
  else match recvs with
       | [] => Blocked
       | [] :: l => Done (None, l)
       | s :: l => readN_loop l (Siz - Z.of_nat (length s)) (recv_str ++ s)
       end.

Definition readN (m_recv_str_buf : bytes) (Siz : Z) (n : net) : reply (option bytes * net) :=
  r ← readN_loop (recvs n) Siz m_recv_str_buf;
  Done (r.1, put_recvs r.2 n).

(** the literal at the end of the string *)
Definition endsWith (recv_str lit : bytes) : bool :=
  (length lit <=? length recv_str)%nat && bool_decide (drop (length recv_str - length lit) recv_str = lit).

(** the loop over the bytes of one ::recv: the text up to the literal, and the rest *)
Fixpoint until_here (lit recv_str buf : bytes) : bytes * bytes + bytes :=
  match buf with
  | [] => inr recv_str
  | c :: buf =>
      let recv_str := recv_str ++ [c] in
      if endsWith recv_str lit then inl (recv_str, buf) else until_here lit recv_str buf
  end.

(** read_until: the text, or nothing; and the new m_recv_str_buf *)
Fixpoint until_loop (lit : bytes) (recvs : list bytes) (recv_str left : bytes)
  : reply (option bytes * bytes * list bytes) :=
  match recvs with
  | [] => Blocked
  | [] :: l => Done (None, left, l)
  | s :: l =>
      match until_here lit recv_str s with
      | inl (t, rest) => Done (Some t, rest, l)
      | inr recv_str => until_loop lit l recv_str left
      end
  end.

Definition read_until (lit m_recv_str_buf : bytes) (n : net) : reply (option bytes * bytes * net) :=
  r ← until_loop lit (recvs n) m_recv_str_buf m_recv_str_buf;
  Done (r.1, put_recvs r.2 n).

(** ** The client *)

Definition EC_FAIL : Z := 1.
Definition EC_in_progress : Z := 2.
Definition EC_invalid_argument : Z := 3.

(** the headers are those that resp_headers points to when the response is handed over *)
Record response_data := mk_response_data { ec : Z; resp_status : Z; resp_body : bytes; resp_headers : list (bytes * bytes) }.

Record http_client := mk_client {
  has_connected_ : bool;
  in_progress_ : bool;
  promise_ : option (option response_data);  (** a promise, and what it was given *)
  weak_ : bool;                              (** weak_ refers to the promise *)
  sync_ : bool;
  cb_ : bool;                                (** a callback is waiting *)
  called : list response_data;               (** what callbacks were called with *)
  parser_ : http_parser;
  copy_headers_ : list (bytes * bytes);
  header_str_ : bytes;
  headers_ : list (bytes * bytes);
  req_content_type_ : req_content_type;
  multipart_str_ : bytes;
  start_ : option Z;                         (** not initialised *)
  last_domain_ : bytes;
  future_ready : bool;                       (** somebody has ended future_ *)
  memFileSize : Z;
  m_recv_str_buf : bytes;
  timeout_seconds_ : Z;
  on_chunk_ : bool;                          (** a function for the chunks of a download *)
  chunks : list (Z * bytes)                  (** what it was called with *)
}.

Definition new_client : http_client :=
  mk_client false false None false false false [] new_parser [] [] [] ct_json [] None [] false (-1) [] 60 false [].

Definition put_connected (b : bool) (c : http_client) : http_client :=
  mk_client b (in_progress_ c) (promise_ c) (weak_ c) (sync_ c) (cb_ c) (called c) (parser_ c) (copy_headers_ c) (header_str_ c) (headers_ c) (req_content_type_ c) (multipart_str_ c) (start_ c) (last_domain_ c) (future_ready c) (memFileSize c) (m_recv_str_buf c) (timeout_seconds_ c) (on_chunk_ c) (chunks c).
Definition put_progress (b : bool) (c : http_client) : http_client :=
  mk_client (has_connected_ c) b (promise_ c) (weak_ c) (sync_ c) (cb_ c) (called c) (parser_ c) (copy_headers_ c) (header_str_ c) (headers_ c) (req_content_type_ c) (multipart_str_ c) (start_ c) (last_domain_ c) (future_ready c) (memFileSize c) (m_recv_str_buf c) (timeout_seconds_ c) (on_chunk_ c) (chunks c).
Definition put_promise (p : option (option response_data)) (w : bool) (c : http_client) : http_client :=
  mk_client (has_connected_ c) (in_progress_ c) p w (sync_ c) (cb_ c) (called c) (parser_ c) (copy_headers_ c) (header_str_ c) (headers_ c) (req_content_type_ c) (multipart_str_ c) (start_ c) (last_domain_ c) (future_ready c) (memFileSize c) (m_recv_str_buf c) (timeout_seconds_ c) (on_chunk_ c) (chunks c).
Definition put_sync (b : bool) (c : http_client) : http_client :=
  mk_client (has_connected_ c) (in_progress_ c) (promise_ c) (weak_ c) b (cb_ c) (called c) (parser_ c) (copy_headers_ c) (header_str_ c) (headers_ c) (req_content_type_ c) (multipart_str_ c) (start_ c) (last_domain_ c) (future_ready c) (memFileSize c) (m_recv_str_buf c) (timeout_seconds_ c) (on_chunk_ c) (chunks c).
Definition put_cb (b : bool) (l : list response_data) (c : http_client) : http_client :=
  mk_client (has_connected_ c) (in_progress_ c) (promise_ c) (weak_ c) (sync_ c) b l (parser_ c) (copy_headers_ c) (header_str_ c) (headers_ c) (req_content_type_ c) (multipart_str_ c) (start_ c) (last_domain_ c) (future_ready c) (memFileSize c) (m_recv_str_buf c) (timeout_seconds_ c) (on_chunk_ c) (chunks c).
Definition put_parser (p : http_parser) (copies : list (bytes * bytes)) (c : http_client) : http_client :=
  mk_client (has_connected_ c) (in_progress_ c) (promise_ c) (weak_ c) (sync_ c) (cb_ c) (called c) p copies (header_str_ c) (headers_ c) (req_content_type_ c) (multipart_str_ c) (start_ c) (last_domain_ c) (future_ready c) (memFileSize c) (m_recv_str_buf c) (timeout_seconds_ c) (on_chunk_ c) (chunks c).
Definition put_headers (s : bytes) (hs : list (bytes * bytes)) (c : http_client) : http_client :=
  mk_client (has_connected_ c) (in_progress_ c) (promise_ c) (weak_ c) (sync_ c) (cb_ c) (called c) (parser_ c) (copy_headers_ c) s hs (req_content_type_ c) (multipart_str_ c) (start_ c) (last_domain_ c) (future_ready c) (memFileSize c) (m_recv_str_buf c) (timeout_seconds_ c) (on_chunk_ c) (chunks c).
Definition put_upload (s : bytes) (start : option Z) (size : Z) (c : http_client) : http_client :=
  mk_client (has_connected_ c) (in_progress_ c) (promise_ c) (weak_ c) (sync_ c) (cb_ c) (called c) (parser_ c) (copy_headers_ c) (header_str_ c) (headers_ c) (req_content_type_ c) s start (last_domain_ c) (future_ready c) size (m_recv_str_buf c) (timeout_seconds_ c) (on_chunk_ c) (chunks c).
Definition put_future (b : bool) (c : http_client) : http_client :=
  mk_client (has_connected_ c) (in_progress_ c) (promise_ c) (weak_ c) (sync_ c) (cb_ c) (called c) (parser_ c) (copy_headers_ c) (header_str_ c) (headers_ c) (req_content_type_ c) (multipart_str_ c) (start_ c) (last_domain_ c) b (memFileSize c) (m_recv_str_buf c) (timeout_seconds_ c) (on_chunk_ c) (chunks c).
Definition put_request (domain : bytes) (type : req_content_type) (cb : bool) (seconds : Z) (c : http_client) : http_client :=
  mk_client (has_connected_ c) (in_progress_ c) (promise_ c) (weak_ c || bool_decide (promise_ c <> None)) (sync_ c) cb (called c) (parser_ c) (copy_headers_ c) (header_str_ c) (headers_ c) type (multipart_str_ c) (start_ c) domain (future_ready c) (memFileSize c) (m_recv_str_buf c) seconds (on_chunk_ c) (chunks c).
Definition put_left (s : bytes) (c : http_client) : http_client :=
  mk_client (has_connected_ c) (in_progress_ c) (promise_ c) (weak_ c) (sync_ c) (cb_ c) (called c) (parser_ c) (copy_headers_ c) (header_str_ c) (headers_ c) (req_content_type_ c) (multipart_str_ c) (start_ c) (last_domain_ c) (future_ready c) (memFileSize c) s (timeout_seconds_ c) (on_chunk_ c) (chunks c).

Definition put_chunk (b : bool) (l : list (Z * bytes)) (c : http_client) : http_client :=
  mk_client (has_connected_ c) (in_progress_ c) (promise_ c) (weak_ c) (sync_ c) (cb_ c) (called c) (parser_ c) (copy_headers_ c) (header_str_ c) (headers_ c) (req_content_type_ c) (multipart_str_ c) (start_ c) (last_domain_ c) (future_ready c) (memFileSize c) (m_recv_str_buf c) (timeout_seconds_ c) b l.

Definition add_header (key val : bytes) (c : http_client) : http_client :=
  if bool_decide (key = []) || bool_decide (key = bs "Host") then c
  else put_headers (header_str_ c) (headers_ c ++ [(key, val)]) c.

Definition add_header_str (pair_str : bytes) (c : http_client) : http_client :=
  if bool_decide (pair_str = []) then c
  else match find_str (bs "Host:") pair_str with
       | Some _ => c
       | None => put_headers (header_str_ c ++ pair_str) (headers_ c) c
       end.

Definition clear_headers (c : http_client) : http_client := put_headers [] [] c.

Definition get_resp_headers (c : http_client) : list (bytes * bytes) * http_client :=
  let c := if bool_decide (copy_headers_ c = []) then c
           else put_parser (set_headers (copy_headers_ c) (parser_ c)) (copy_headers_ c) c in
  (HttpParser.headers_ (parser_ c), c).

(** get_header_value: of the response that was parsed last *)
Definition resp_header_value (key : bytes) (c : http_client) : bytes := get_header_value key (parser_ c).

Definition copy_headers (c : http_client) : http_client := put_parser (parser_ c) (HttpParser.headers_ (parser_ c)) c.

(** callback(ec, status, result) *)
Definition callback (e st : Z) (result : bytes) (c : http_client) : http_client :=
  let '(hs, c) := get_resp_headers c in
  let r := mk_response_data e st result hs in
  if weak_ c then put_promise (Some (Some r)) false c
  else
    let c := if cb_ c then put_cb false (called c ++ [r]) c else c in
    let c := if on_chunk_ c then put_chunk true (chunks c ++ [(e, result)]) c else c in
    put_progress false c.

(** a promise that is set a second time throws *)
Definition set_error_value (cb : bool) (error_msg : bytes) (c : http_client) : reply http_client :=
  let r := mk_response_data EC_invalid_argument 404 error_msg [] in
  c ← match promise_ c with
      | Some (Some _) => Aborts
      | Some None => Done (put_promise (Some (Some r)) (weak_ c) c)
      | None => Done c
      end;
  Done (put_future true (if cb then put_cb (cb_ c) (called c ++ [r]) c else c)).

Definition close (c : http_client) : http_client := put_connected false c.

(** ** Writing *)

Definition BOUNDARY : bytes := bs "--netcoreBoundary2B8FAF4A80EDB307".
Definition MULTIPART_END : bytes := CRLF ++ bs "--" ++ BOUNDARY ++ bs "--" ++ CRLF ++ CRLF.

Definition has_str (p s : bytes) : bool := match find_str p s with Some _ => true | None => false end.

(** the default Content-Type is added to the headers for good *)
Definition add_content_type (c : http_client) : http_client :=
  let type_str := get_content_type_str (req_content_type_ c) in
  if has_str (bs "Content-Type") (header_str_ c) || bool_decide (type_str = []) then c
  else put_headers (header_str_ c) (headers_ c ++ [(bs "Content-Type", type_str)]) c.

Definition write_header (h : bytes * bytes) : bytes := h.1 ++ bs ": " ++ h.2 ++ CRLF.

Definition content_length_lines (ctx : context) (content_len : Z) : bytes :=
  if negb (bool_decide (ctx_body ctx = []))
  then bs "Content-Length: " ++ i32toa_jeaiii (to_int32 (Z.of_nat (length (ctx_body ctx)))) ++ CRLF
  else if bool_decide (ctx_method ctx = POST)
       then if 0 <? content_len then bs "Content-Length: " ++ i32toa_jeaiii (to_int32 content_len) ++ CRLF
            else bs "Content-Length: 0" ++ CRLF
       else [].

(** there is no blank behind "Host:", and no port *)
Definition build_write_msg (ctx : context) (content_len : Z) (c : http_client) : bytes * http_client :=
  let c := add_content_type c in
  let has_connection :=
    existsb (fun h => bool_decide (h.1 = bs "Connection")) (headers_ c) || has_str (bs "Connection") (header_str_ c) in
  (method_name (ctx_method ctx) ++ bs " " ++ ctx_path ctx ++
   (if bool_decide (ctx_query ctx = []) then [] else bs "?" ++ ctx_query ctx) ++
   bs " HTTP/1.1" ++ CRLF ++ bs "Host:" ++ ctx_host ctx ++ CRLF ++
   mjoin (write_header <$> headers_ c) ++
   (if bool_decide (header_str_ c = []) then [] else header_str_ c ++ CRLF) ++
   content_length_lines ctx content_len ++
   (if has_connection then [] else bs "Connection: keep-alive" ++ CRLF) ++
   CRLF ++ ctx_body ctx, c).

(** Write: the handler is not called *)
Definition Write (msg : bytes) (c : http_client) (n : net) : reply (http_client * net) :=
  '(ret, n) ← Writen msg n;
  Done (if ret <? 0 then callback EC_FAIL 404 [] c else c, n).

Definition send_msg (ctx : context) (c : http_client) (n : net) : reply (http_client * net) :=
  let '(msg, c) := build_write_msg ctx 0 c in Write msg c n.

Definition multipart_file_start (filename : bytes) : bytes :=
  bs "--" ++ BOUNDARY ++ CRLF ++
  bs "Content-Disposition: form-data; name=" ++ [34] ++ bs "test" ++ [34] ++ bs "; filename=" ++ [34] ++ filename ++ [34] ++ CRLF ++
  CRLF.

Definition total_multipart_size (left_file_size multipart_start_size : Z) : Z :=
  wrap64 (left_file_size + multipart_start_size + Z.of_nat (length MULTIPART_END)).

(** fs::path(filename).filename() *)
Definition path_filename (filename : bytes) : bytes :=
  match rfind_char 47 filename with Some i => drop (S i) filename | None => filename end.

Definition add_multipart_type (c : http_client) : http_client :=
  put_headers (header_str_ c ++ bs "Content-Type: multipart/form-data; boundary=" ++ BOUNDARY) (headers_ c) c.

(** make_upload_data: at most 3 MB of the file, and the end if nothing is left; or nothing *)
Definition make_upload_data (rest : bytes) : option bytes :=
  match rest with
  | [] => None
  | _ =>
      let size := Z.to_nat (3 * 1024 * 1024) in
      Some (take size rest ++ (if bool_decide (drop size rest = []) then MULTIPART_END else []))
  end.

(** send_multipart_msg: if memFileSize is not 0 that many letters are sent in place of
    a file; -1, which stands for a file, is as many as a string cannot hold *)
Definition send_multipart_msg (files : bytes -> option bytes) (ctx : context) (c : http_client) (n : net)
  : reply (http_client * net) :=
  let filename := multipart_str_ c in
  let multipart_str := multipart_file_start (path_filename filename) in
  let start_size := Z.of_nat (length multipart_str) in
  let c := put_upload [] (start_ c) (memFileSize c) c in
  if negb (memFileSize c =? 0) then
    let '(msg, c) := build_write_msg ctx (total_multipart_size (memFileSize c) start_size) (add_multipart_type c) in
    if memFileSize c <? 0 then Aborts
    else
      let text := msg ++ multipart_str ++ replicate (Z.to_nat (memFileSize c)) 97 ++ MULTIPART_END in
      Write text (put_upload text (start_ c) (memFileSize c) c) n
  else
    match files filename, start_ c with
    | None, _ => Done (callback EC_invalid_argument 404 (bs "filesize error") c, n)
    | Some _, None => Aborts
    | Some content, Some start =>
        if start =? 2 ^ 64 - 1 then Done (callback EC_invalid_argument 404 (bs "filesize error") c, n)
        else
          let size := Z.of_nat (length content) in
          let '(msg, c) := build_write_msg ctx (total_multipart_size (wrap64 (size - start)) start_size) (add_multipart_type c) in
          let c := put_upload (msg ++ multipart_str) (start_ c) (memFileSize c) c in
          match make_upload_data (drop (Z.to_nat start) content) with
          | None => Done (c, n)
          | Some data =>
              let text := multipart_str_ c ++ data in Write text (put_upload text (start_ c) (memFileSize c) c) n
          end
    end.

Definition do_write (files : bytes -> option bytes) (ctx : context) (c : http_client) (n : net) : reply (http_client * net) :=
  match req_content_type_ c with ct_multipart => send_multipart_msg files ctx c n | _ => send_msg ctx c n end.

(** ** Reading *)

(** a body is handed over whatever readN says *)
Definition do_read_body (st size_to_read : Z) (c : http_client) (n : net) : reply (http_client * net) :=
  '(body, n) ← readN (m_recv_str_buf c) (to_int32 size_to_read) n;
  Done (callback 0 st (default [] body) c, n).

Definition do_read (sse : bool) (c : http_client) (n : net) : reply (http_client * net) :=
  '(head, rest, n) ← read_until (CRLF ++ CRLF) (m_recv_str_buf c) n;
  let c := put_left rest c in
  match head with
  | None => Done (close c, n)
  | Some head =>
      match HttpParser.parse_response sse head with
      | None => Aborts
      | Some (p, ret) =>
          let c := put_parser p (copy_headers_ c) c in
          if ret <? 0 then Done (close (callback EC_invalid_argument 404 (bs "http response parse error") c), n)
          else if body_len_ p =? 0 then Done (close (callback 0 (status_ p) [] c), n)
          else
            let size_to_read := wrap64 (wrap64 (body_len_ p) - Z.of_nat (length rest)) in
            do_read_body (status_ p) size_to_read (copy_headers c) n
      end
  end.

(** ** Requests *)

(** get_uri: a URI that is not parsed is encoded and parsed again, into a string that is
    gone when the result is used; https is an assertion that fails *)
Definition get_uri (uri : bytes) : reply (bool * uri_t) :=
  match parse_from uri new_uri with
  | None => Aborts
  | Some (u, true) => if bool_decide (schema u = bs "https") then Aborts else Done (true, u)
  | Some (u, false) =>
      if bool_decide (schema u = []) then Done (false, new_uri)
      else match parse_from (url_encode uri) u with
           | Some (_, false) => Done (false, new_uri)
           | _ => Aborts
           end
  end.

Definition async_connect (sse : bool) (files : bytes -> option bytes) (ctx : context) (c : http_client) (n : net)
  : reply (http_client * net) :=
  '(succ, n) ← ConnectToServer (ctx_host ctx) (atoi (ctx_port ctx)) n;
  if negb succ then Done (callback EC_FAIL 404 [] c, n)
  else
    '(c, n) ← do_write files ctx (put_connected true c) n;
    do_read sse c n.

(** async_request_impl; on a connection that is still open, the response is not read *)
Definition async_request_impl (sse : bool) (files : bytes -> option bytes) (method : http_method) (uri : bytes) (cb : bool)
  (type : req_content_type) (seconds : Z) (body : bytes) (c : http_client) (n : net) : reply (http_client * net) :=
  let '(need_switch, c) := match promise_ c with None => (sync_ c, put_sync false c) | Some _ => (false, c) end in
  if in_progress_ c then c ← set_error_value cb (bs "last async request not finished") c; Done (c, n)
  else
    let c := put_progress true c in
    if bool_decide (method <> POST) && bool_decide (body <> []) then c ← set_error_value cb (bs "method error") c; Done (c, n)
    else
      let init := bool_decide (last_domain_ c = []) in
      c ← (if need_switch || (negb init && negb (has_str (last_domain_ c) uri))
           then if future_ready c then Done (put_future false (close c)) else Blocked
           else Done c);
      '(r, u) ← get_uri uri;
      if negb r then c ← set_error_value cb (bs "invalid_uri") c; Done (c, n)
      else
        let c := put_request (schema u ++ bs "://" ++ host u) type cb seconds c in
        let ctx := new_context u method body in
        if has_connected_ c then do_write files ctx c n else async_connect sse files ctx c n.

(** request, behind get and post: it waits [seconds] for the promise, but nobody but itself
    would fulfil it *)
Definition request (sse : bool) (method : http_method) (uri : bytes) (type : req_content_type) (seconds : Z) (body : bytes)
  (c : http_client) (n : net) : reply (response_data * http_client * net) :=
  '(c, n) ← async_request_impl sse (fun _ => None) method uri false type seconds body (put_sync true (put_promise (Some None) false c)) n;
  let answer := match promise_ c with
                | Some (Some r) => r
                | _ => mk_response_data EC_invalid_argument 404 (bs "request timeout") []
                end in
  Done (answer, put_promise None false (put_progress false c), n).

(** the overloads of get and post: what the caller may leave out, in either order *)
Definition get (sse : bool) (uri : bytes) (type : option req_content_type) (seconds : option Z) (c : http_client) (n : net) :=
  request sse GET uri (default ct_json type) (default (timeout_seconds_ c) seconds) [] c n.
Definition post (sse : bool) (uri body : bytes) (type : option req_content_type) (seconds : option Z) (c : http_client) (n : net) :=
  request sse POST uri (default ct_json type) (default (timeout_seconds_ c) seconds) body c n.

(** with a callback; [cb] is false where the caller gives a null pointer *)
Definition async_request (sse : bool) (files : bytes -> option bytes) (method : http_method) (uri : bytes) (cb : bool)
  (type : req_content_type) (seconds : Z) (body : bytes) (c : http_client) (n : net) : reply (http_client * net) :=
  async_request_impl sse files method uri cb type seconds body c n.
Definition async_get (sse : bool) (uri : bytes) (cb : bool) (type : option req_content_type) (seconds : option Z) (c : http_client) (n : net) :=
  async_request sse (fun _ => None) GET uri cb (default ct_json type) (default (timeout_seconds_ c) seconds) [] c n.
Definition async_post (sse : bool) (uri body : bytes) (cb : bool) (type : option req_content_type) (seconds : option Z) (c : http_client) (n : net) :=
  async_request sse (fun _ => None) POST uri cb (default ct_json type) (default (timeout_seconds_ c) seconds) body c n.

Definition upload_string (sse : bool) (files : bytes -> option bytes) (uri filename : bytes) (size : Z) (seconds : Z) (c : http_client) (n : net) :=
  async_request sse files POST uri true ct_multipart seconds [] (put_upload filename (start_ c) size c) n.
Definition upload (sse : bool) (files : bytes -> option bytes) (uri filename : bytes) (start : Z) (seconds : Z) (c : http_client) (n : net) :=
  async_request sse files POST uri true ct_multipart seconds [] (put_upload filename (Some start) (memFileSize c) c) n.

(** ** Reading a response *)

Lemma endsWith_spec s lit : endsWith s lit = true <-> exists p, s = p ++ lit.
Proof.
  unfold endsWith. rewrite andb_true_iff, Nat.leb_le, bool_decide_eq_true. split.
  - intros [_ H]. exists (take (length s - length lit) s).
    rewrite <-(take_drop (length s - length lit) s) at 1. by rewrite H.
  - intros [p ->]. rewrite length_app. split; [lia|]. by rewrite Nat.add_sub, drop_app_length.
Qed.

Lemma until_here_app lit s a b : until_here lit s (a ++ b) =
  match until_here lit s a with inl (t, r) => inl (t, r ++ b) | inr s' => until_here lit s' b end.
Proof. revert s; induction a as [|c a IH]; intros s; [done|]. cbn [app until_here]. by case_match. Qed.

Lemma mjoin_cons_bytes (l : bytes) ls : mjoin (l :: ls) = l ++ mjoin ls.
Proof. done. Qed.

(** however the text arrives *)
Lemma until_loop_pieces lit pieces s left t r :
  Forall (fun p => p <> []) pieces -> until_here lit s (mjoin pieces) = inl (t, r) ->
  exists rest pieces', until_loop lit pieces s left = Done (Some t, rest, pieces') /\
    rest ++ mjoin pieces' = r /\ Forall (fun p => p <> []) pieces'.
Proof.
  intros H. revert s; induction H as [|p pieces Hp Hps IH]; intros s E; [done|].
  rewrite mjoin_cons_bytes, until_here_app in E. cbn [until_loop]. destruct p as [|x p]; [done|].
  destruct (until_here lit s (x :: p)) as [[t' r']|s'] eqn:Eh.
  - injection E as -> <-. by exists r', pieces.
  - by apply IH.
Qed.

(** a body of known length *)
Lemma readN_pieces pieces left :
  Forall (fun p => p <> []) pieces ->
  readN_loop pieces (Z.of_nat (length (mjoin pieces))) left = Done (Some (left ++ mjoin pieces), []).
Proof.
  intros H. revert left; induction H as [|p pieces Hp Hps IH]; intros left; cbn [readN_loop].
  - cbn. by rewrite app_nil_r.
  - rewrite mjoin_cons_bytes, length_app. destruct p as [|x p]; [done|].
    rewrite (proj2 (Z.leb_gt _ _)) by (cbn [length]; lia).
    replace (Z.of_nat (length (x :: p) + length (mjoin pieces)) - Z.of_nat (length (x :: p)))
      with (Z.of_nat (length (mjoin pieces))) by lia.
    by rewrite IH, <-app_assoc.
Qed.

(** lines that are neither empty nor hold a line feed *)
Definition line (l : bytes) : Prop := l <> [] /\ 10 ∉ l.

Definition END : bytes := CRLF ++ CRLF.

Lemma not_end s c : c <> 10 -> endsWith (s ++ [c]) END = false.
Proof.
  intros Hc. apply not_true_iff_false. intros [p E]%endsWith_spec.
  change END with ([13; 10; 13] ++ [10]) in E. rewrite app_assoc in E. apply app_inj_tail in E as [_ E]. congruence.
Qed.

Lemma until_here_line s l rest : line l -> until_here END s (l ++ CRLF ++ rest) = until_here END (s ++ l ++ CRLF) rest.
Proof.
  intros [Hne Hl].
  assert (Hin : forall s l r, 10 ∉ l -> until_here END s (l ++ r) = until_here END (s ++ l) r).
  { clear. intros s l. revert s; induction l as [|c l IH]; intros s r Hl; [by rewrite app_nil_r|].
    cbn [app until_here]. rewrite not_end by set_solver. rewrite IH by set_solver. by rewrite <-app_assoc. }
  rewrite Hin by done. change (CRLF ++ rest) with (13 :: 10 :: rest). cbn [until_here].
  rewrite not_end by done. destruct (endsWith _ END) eqn:E.
  - apply endsWith_spec in E as [p E]. exfalso. destruct l as [|c l _] using rev_ind; [done|].
    rewrite <-!app_assoc in E. cbn [app] in E.
    change (p ++ END) with (p ++ [13; 10; 13; 10]) in E.
    replace (s ++ l ++ [c; 13; 10]) with (((s ++ l ++ [c]) ++ [13]) ++ [10]) in E by (by rewrite <-!app_assoc).
    replace (p ++ [13; 10; 13; 10]) with (((p ++ [13; 10]) ++ [13]) ++ [10]) in E by (by rewrite <-!app_assoc).
    do 2 apply app_inj_tail in E as [E _]. rewrite app_assoc in E. change [13; 10] with ([13] ++ [10]) in E.
    rewrite (app_assoc p) in E. apply app_inj_tail in E as [_ E]. subst c. set_solver.
  - f_equal. by rewrite <-!app_assoc.
Qed.

(** the head of a message: lines, and an empty line *)
Lemma until_here_head s ls rest : Forall line ls -> ls <> [] ->
  until_here END s (mjoin ((fun l => l ++ CRLF) <$> ls) ++ CRLF ++ rest) =
  inl (s ++ mjoin ((fun l => l ++ CRLF) <$> ls) ++ CRLF, rest).
Proof.
  intros H Hne. revert s; induction H as [|l ls Hl Hls IH]; intros s; [done|].
  rewrite fmap_cons, mjoin_cons_bytes, <-!app_assoc, until_here_line by done.
  destruct ls as [|l' ls].
  - cbn [fmap list_fmap mjoin list_join app]. change (CRLF ++ rest) with (13 :: 10 :: rest). cbn [until_here].
    rewrite not_end by done.
    assert (endsWith (((s ++ l ++ CRLF) ++ [13]) ++ [10]) END = true) as ->.
    { apply endsWith_spec. exists (s ++ l). unfold END, CRLF. by rewrite <-!app_assoc. }
    f_equal. f_equal. unfold CRLF. by rewrite <-!app_assoc.
  - rewrite IH by done. by rewrite <-!app_assoc.
Qed.
