(* ===== verification/ClientFacts.v ===== *)
(** * Client and server

    The client of HttpClient.v reads the responses of Response.v and writes requests
    that the server of ServerFacts.v serves. *)

From Stdlib Require Import ZArith Lia.
From stdpp Require Import base numbers list strings sets.
From S2P Require Import Prelude CStd PicoHttp PicoHttpFacts Utils Cookie Response Request Jeaiii Uri HttpParser HttpClient.
Local Open Scope Z_scope.

(** ** The head of a response *)

Definition field_line (f : bytes * bytes * bytes) : bytes := f.1.1 ++ 58 :: f.1.2 ++ f.2.
Definition status_line (v d1 d2 d3 : Z) (msg : bytes) : bytes :=
  bs "HTTP/1." ++ 48 + v :: 32 :: 48 + d1 :: 48 + d2 :: 48 + d3 :: 32 :: msg.

Lemma token_not_lf c : token_char c = true -> c <> 10.
Proof. intros H ->. done. Qed.
Lemma clean_no_lf s : Cookie.clean s -> 10 ∉ s.
Proof. intros H Hin. unfold Cookie.clean in H. rewrite Forall_forall in H. by destruct (H 10 Hin). Qed.

Lemma field_line_ok f : raw_ok f -> line (field_line f).
Proof.
  intros [[[Hne Hn] [Hv _]] Hws]. unfold field_line. split; [destruct f as [[[] ?] ?]; [done|done]|].
  rewrite !not_elem_of_app, not_elem_of_cons, not_elem_of_app. split_and!.
  - intros Hin. rewrite Forall_forall in Hn. apply (token_not_lf 10); [|done]. by apply Hn.
  - done.
  - intros Hin. rewrite Forall_forall in Hws. by destruct (Hws 10 Hin).
  - by apply clean_no_lf.
Qed.

Lemma response_lines v d1 d2 d3 msg hs :
  print_response v d1 d2 d3 msg hs = mjoin ((fun l => l ++ CRLF) <$> (status_line v d1 d2 d3 msg :: (field_line <$> hs))) ++ CRLF.
Proof.
  assert (mjoin ((fun l => l ++ CRLF) <$> (field_line <$> hs)) = concat (raw_field <$> hs)) as E.
  { induction hs as [|f hs IH]; [done|]. rewrite !fmap_cons, mjoin_cons_bytes, IH. cbn [concat]. f_equal.
    unfold field_line, raw_field. rewrite <-app_assoc. cbn [app]. by rewrite <-!app_assoc. }
  rewrite fmap_cons, mjoin_cons_bytes, E. unfold print_response, status_line. rewrite <-?app_assoc. cbn [app]. by rewrite <-?app_assoc.
Qed.

Lemma response_head_found v d1 d2 d3 msg hs rest :
  0 <= v <= 9 -> 0 <= d1 <= 9 -> 0 <= d2 <= 9 -> 0 <= d3 <= 9 -> Cookie.clean msg -> Forall raw_ok hs ->
  until_here END [] (print_response v d1 d2 d3 msg hs ++ rest) = inl (print_response v d1 d2 d3 msg hs, rest).
Proof.
  intros Hv H1 H2 H3 Hm Hf. rewrite response_lines, <-app_assoc. rewrite until_here_head; [done| |done].
  constructor; [|by apply Forall_fmap; eapply Forall_impl; [exact Hf|apply field_line_ok]].
  split; [done|]. unfold status_line. apply clean_no_lf in Hm. rewrite not_elem_of_app. split; [cbn; set_solver by lia|].
  rewrite !not_elem_of_cons. split_and!; try lia. done.
Qed.

(** ** The client reads what the server answers *)

Definition no_length_field (r : response) : Prop :=
  Forall (fun h => iequal h.1 (bs "content-length") = false) (Response.headers_ r).

Lemma lookup_header_app hs hs' key :
  Forall (fun h => iequal h.1 key = false) hs -> lookup_header (hs ++ hs') key = lookup_header hs' key.
Proof.
  intros H. induction H as [|h hs Hh _ IH]; [done|]. rewrite <-IH. unfold lookup_header. cbn [app list_find].
  rewrite decide_False by congruence. by destruct (list_find _ (hs ++ hs')) as [[]|].
Qed.

Lemma response_length_field offset now r : no_length_field r ->
  lookup_header (response_fields offset now r) (bs "content-length") = dec_string (Z.of_nat (length (content_ r))).
Proof. intros H. unfold response_fields. by rewrite lookup_header_app. Qed.

(** what the server sends, and what the client makes of it *)
Lemma response_shape offset now r : response_ok r -> exists d1 d2 d3 msg hs,
  0 <= d1 <= 9 /\ 0 <= d2 <= 9 /\ 0 <= d3 <= 9 /\ Cookie.clean msg /\ Forall raw_ok hs /\
  field_of <$> hs = response_fields offset now r /\ 100 * d1 + 10 * d2 + d3 = response_code (Response.status_ r) /\
  rep_str_ (build_response_str offset now r) = print_response 1 d1 d2 d3 msg hs ++ content_ r /\
  Forall is_byte (print_response 1 d1 d2 d3 msg hs).
Proof.
  intros Hok. rewrite build_text by done. pose proof Hok as (Hh & _ & _ & Hcontent & _).
  destruct (to_rep_string_shape (Response.status_ r)) as (d1 & d2 & d3 & msg & -> & H1 & H2 & H3 & Hmsg & <-).
  exists d1, d2, d3, msg, ((no_sp <$> Response.headers_ r) ++ (with_sp <$> standard_fields offset now r)).
  assert (Forall raw_ok ((no_sp <$> Response.headers_ r) ++ (with_sp <$> standard_fields offset now r))) as Hraw
    by (apply Forall_app_2; [by apply no_sp_ok|by apply with_sp_ok, standard_fields_ok]).
  split_and!; try done || lia.
  - by rewrite fmap_app, field_of_no_sp, field_of_with_sp.
  - unfold print_response. rewrite <-!app_assoc. cbn [app]. by rewrite <-!app_assoc.
  - apply print_response_bytes; done || lia.
Qed.

(** a client that waits for a response *)
Definition waiting (c : http_client) : Prop :=
  weak_ c = true /\ promise_ c = Some None /\ copy_headers_ c = [] /\ m_recv_str_buf c = [].

Definition answer_of (offset : Z -> Z) (now : Z) (r : response) : response_data :=
  mk_response_data 0 (response_code (Response.status_ r)) (content_ r) (response_fields offset now r).

Lemma resp_headers_keep c : let c' := (get_resp_headers c).2 in
  weak_ c' = weak_ c /\ cb_ c' = cb_ c /\ called c' = called c /\ on_chunk_ c' = on_chunk_ c /\ chunks c' = chunks c /\
  promise_ c' = promise_ c /\ last_domain_ c' = last_domain_ c /\ has_connected_ c' = has_connected_ c.
Proof. unfold get_resp_headers. by case_match. Qed.

Lemma callback_keeps e st body c :
  last_domain_ (callback e st body c) = last_domain_ c /\ has_connected_ (callback e st body c) = has_connected_ c.
Proof.
  unfold callback. destruct (resp_headers_keep c) as (H1 & H2 & _ & H3 & _ & _ & H4 & H5).
  destruct (get_resp_headers c) as [hs c']. cbn [fst snd] in *. rewrite H1, H2.
  destruct (weak_ c), (cb_ c); cbn; rewrite ?H3; destruct (on_chunk_ c); split; done.
Qed.

(** who gets the response: the promise, or the callback and the function for chunks *)
Lemma callback_promise e st body c : weak_ c = true ->
  promise_ (callback e st body c) = Some (Some (mk_response_data e st body (get_resp_headers c).1)).
Proof.
  intros Hw. unfold callback. pose proof (resp_headers_keep c) as (H1 & _ & _).
  destruct (get_resp_headers c) as [hs c']. cbn [fst snd] in *. by rewrite H1, Hw.
Qed.
Lemma callback_called e st body c : weak_ c = false ->
  called (callback e st body c) = called c ++ (if cb_ c then [mk_response_data e st body (get_resp_headers c).1] else []) /\
  chunks (callback e st body c) = chunks c ++ (if on_chunk_ c then [(e, body)] else []) /\
  cb_ (callback e st body c) = false /\ in_progress_ (callback e st body c) = false.
Proof.
  intros Hw. unfold callback. pose proof (resp_headers_keep c) as (H1 & H2 & H3 & H4 & H5 & _).
  destruct (get_resp_headers c) as [hs c']. cbn [fst snd] in *. rewrite H1, Hw, H2.
  destruct (cb_ c); cbn; rewrite ?H4; destruct (on_chunk_ c); cbn; rewrite ?H3, ?H5, ?app_nil_r; by rewrite ?H2.
Qed.

(** what the client's parser takes: an array of 100 fields, and a length that is an int *)
Definition parser_takes (offset : Z -> Z) (now : Z) (r : response) : Prop :=
  (length (response_fields offset now r) <= 100)%nat /\ Z.of_nat (length (rep_str_ (build_response_str offset now r))) < 2 ^ 31.

(** do_read ends with the callback for the response, and closes if it has no content *)
Lemma do_read_answer sse offset now r c n :
  copy_headers_ c = [] -> m_recv_str_buf c = [] ->
  response_ok r -> no_length_field r -> parser_takes offset now r ->
  Forall (fun p => p <> []) (recvs n) -> mjoin (recvs n) = rep_str_ (build_response_str offset now r) ->
  exists c1 n' (empty : bool),
    do_read sse c n = Done ((if empty then close else id) (callback 0 (response_code (Response.status_ r)) (content_ r) c1), n') /\
    (content_ r <> [] -> empty = false) /\ (get_resp_headers c1).1 = response_fields offset now r /\
    weak_ c1 = weak_ c /\ cb_ c1 = cb_ c /\ called c1 = called c /\ last_domain_ c1 = last_domain_ c /\
    has_connected_ c1 = has_connected_ c /\ wire n' = wire n /\ dialed n' = dialed n /\ on_chunk_ c1 = on_chunk_ c /\ chunks c1 = chunks c.
Proof.
  intros Hc Hl Hok Hno [H100 H31] Hne Hpieces.
  destruct (response_shape offset now r Hok) as (d1 & d2 & d3 & msg & hs & H1 & H2 & H3 & Hm & Hraw & Hf & Hcode & Htext & Hby).
  pose proof Hok as (_ & _ & Hlen & _). rewrite Htext in Hpieces, H31. rewrite length_app in H31.
  pose proof (response_head_found 1 d1 d2 d3 msg hs (content_ r) ltac:(lia) H1 H2 H3 Hm Hraw) as Hhead.
  rewrite <-Hpieces in Hhead.
  destruct (until_loop_pieces END (recvs n) [] [] _ _ Hne Hhead) as (rest & pieces & Hloop & Hrest & Hpne).
  unfold do_read, read_until. fold END. rewrite Hl, Hloop. cbn [mbind reply_bind fst snd].
  destruct (parse_printed_response sse 1 d1 d2 d3 msg hs ltac:(lia) H1 H2 H3 Hm Hraw) as (p & Hparse & Hst & Hhd & _ & Hbl);
    [by rewrite <-Hf, length_fmap in H100|done|].
  rewrite to_int32_small in Hparse by lia. rewrite Hparse. rewrite (proj2 (Z.ltb_ge _ _)) by lia.
  specialize (Hbl (Z.of_nat (length (content_ r))) ltac:(lia)). rewrite Hf, response_length_field in Hbl by done.
  specialize (Hbl eq_refl). rewrite Hbl, Hst, Hcode.
  destruct (Z.of_nat (length (content_ r)) =? 0) eqn:E0; zbool.
  - assert (content_ r = []) as Hnil by (destruct (content_ r); [done|cbn in E0; lia]). rewrite Hnil.
    eexists _, _, true. split; [reflexivity|]. split_and!; try done.
    unfold get_resp_headers. cbn [copy_headers_ put_parser put_left]. rewrite Hc, bool_decide_true by done.
    cbn [fst parser_ put_parser put_left]. congruence.
  - rewrite (wrap64_small (Z.of_nat (length (content_ r)))) by lia.
    assert (length rest + length (mjoin pieces) = length (content_ r))%nat as Hlr by (by rewrite <-Hrest, length_app).
    rewrite wrap64_small by lia. unfold do_read_body, readN. cbn [recvs put_recvs m_recv_str_buf copy_headers put_left put_parser].
    replace (to_int32 _) with (Z.of_nat (length (mjoin pieces))) by (unfold to_int32; rewrite Z.mod_small; lia).
    rewrite readN_pieces by done. cbn [mbind reply_bind fst snd default]. rewrite Hrest.
    eexists _, _, false. split; [reflexivity|]. split_and!; try done.
    unfold get_resp_headers. cbn [copy_headers_ copy_headers put_parser put_left parser_].
    case_bool_decide; cbn [fst parser_ put_parser put_left copy_headers set_headers HttpParser.headers_ copy_headers_]; congruence.
Qed.

Lemma do_read_response sse offset now r c n :
  waiting c -> response_ok r -> no_length_field r -> parser_takes offset now r ->
  Forall (fun p => p <> []) (recvs n) -> mjoin (recvs n) = rep_str_ (build_response_str offset now r) ->
  exists c' n', do_read sse c n = Done (c', n') /\ promise_ c' = Some (Some (answer_of offset now r)) /\
    wire n' = wire n /\ dialed n' = dialed n /\
    last_domain_ c' = last_domain_ c /\ (content_ r <> [] -> has_connected_ c' = has_connected_ c).
Proof.
  intros (Hw & Hp & Hc & Hl) Hok Hno H100 Hne Hpieces.
  destruct (do_read_answer sse offset now r c n Hc Hl Hok Hno H100 Hne Hpieces)
    as (c1 & n' & empty & Hread & Hemp & Hh & E1 & E2 & E3 & E4 & E5 & E6 & E7 & _).
  set (code := response_code (Response.status_ r)) in *.
  destruct (callback_keeps 0 code (content_ r) c1) as [K1 K2].
  pose proof (callback_promise 0 code (content_ r) c1 ltac:(congruence)) as Kp. rewrite Hh in Kp.
  eexists _, _. split; [exact Hread|]. split_and!; try done.
  - by destruct empty.
  - destruct empty; (etransitivity; [exact K1|done]).
  - intros Hcont. rewrite (Hemp Hcont). etransitivity; [exact K2|done].
Qed.

(** a client without a promise: the callback, if there is one, and the function for chunks *)
Lemma do_read_called sse offset now r c n :
  weak_ c = false -> copy_headers_ c = [] -> m_recv_str_buf c = [] ->
  response_ok r -> no_length_field r -> parser_takes offset now r ->
  Forall (fun p => p <> []) (recvs n) -> mjoin (recvs n) = rep_str_ (build_response_str offset now r) ->
  exists c' n', do_read sse c n = Done (c', n') /\
    called c' = called c ++ (if cb_ c then [answer_of offset now r] else []) /\
    chunks c' = chunks c ++ (if on_chunk_ c then [(0, content_ r)] else []) /\
    in_progress_ c' = false /\ wire n' = wire n.
Proof.
  intros Hw Hc Hl Hok Hno H100 Hne Hpieces.
  destruct (do_read_answer sse offset now r c n Hc Hl Hok Hno H100 Hne Hpieces)
    as (c1 & n' & empty & Hread & Hemp & Hh & E1 & E2 & E3 & E4 & E5 & E6 & E7 & E8 & E9).
  set (code := response_code (Response.status_ r)) in *.
  destruct (callback_called 0 code (content_ r) c1 ltac:(congruence)) as (K1 & K2 & K3 & K4).
  rewrite E2, Hh, E3 in K1. rewrite E8, E9 in K2.
  eexists _, _. split; [exact Hread|]. by destruct empty.
Qed.

(** ** The request a client writes *)

(** however many pieces ::send takes it in *)
Lemma writen_pieces outs total buffer taken :
  Forall (fun k => 0 < k) outs -> foldr Z.add 0 outs = Z.of_nat (length buffer) ->
  writen_loop outs (Z.of_nat (length buffer)) total buffer taken = Done (total, [], taken ++ buffer).
Proof.
  intros H. revert buffer taken; induction H as [|k outs Hk Hks IH]; intros buffer taken E; cbn [foldr] in E; cbn [writen_loop].
  - destruct buffer; [|cbn in E; lia]. by rewrite app_nil_r.
  - assert (0 <= foldr Z.add 0 outs) as Hs by (clear -Hks; induction Hks; cbn; lia).
    rewrite (proj2 (Z.leb_gt _ _)), (proj2 (Z.leb_gt k _)) by lia.
    replace (Z.of_nat (length buffer) - k) with (Z.of_nat (length (drop (Z.to_nat k) buffer))) by (rewrite length_drop; lia).
    rewrite IH by (rewrite length_drop; lia). by rewrite <-app_assoc, take_drop.
Qed.

Definition body_length (ctx : context) : option Z :=
  if bool_decide (ctx_body ctx = []) then if bool_decide (ctx_method ctx = POST) then Some 0 else None
  else Some (Z.of_nat (length (ctx_body ctx))).

(** the fields of the request, with the blanks behind their colons *)
Definition client_fields (ctx : context) (c : http_client) : list (bytes * bytes * bytes) :=
  (bs "Host", [], ctx_host ctx) ::
  (with_sp <$> (headers_ (add_content_type c) ++
     from_option (fun n => [(bs "Content-Length", dec_string n)]) [] (body_length ctx) ++
     (if existsb (fun h => bool_decide (h.1 = bs "Connection")) (headers_ (add_content_type c)) then []
      else [(bs "Connection", bs "keep-alive")]))).

Definition client_message (ctx : context) (qs : option (list (bytes * bytes))) (c : http_client) : message :=
  mk_message (method_name (ctx_method ctx)) (ctx_path ctx) qs 1 (client_fields ctx c) (body_length ctx) (ctx_body ctx).

Lemma add_content_type_keeps c : header_str_ (add_content_type c) = header_str_ c.
Proof. unfold add_content_type. by destruct (_ || _). Qed.

Lemma write_headers hs : mjoin (write_header <$> hs) = concat (raw_field <$> (with_sp <$> hs)).
Proof. induction hs as [|h hs IH]; [done|]. rewrite !fmap_cons, mjoin_cons_bytes, IH. reflexivity. Qed.

Lemma content_length_text ctx : Z.of_nat (length (ctx_body ctx)) < 2 ^ 31 ->
  content_length_lines ctx 0 =
  concat (raw_field <$> (with_sp <$> from_option (fun n => [(bs "Content-Length", dec_string n)]) [] (body_length ctx))).
Proof.
  intros Hl. unfold content_length_lines, body_length.
  destruct (bool_decide (ctx_body ctx = [])); [by destruct (bool_decide (ctx_method ctx = POST))|]. cbn [negb].
  assert (i32toa_jeaiii (to_int32 (Z.of_nat (length (ctx_body ctx)))) = dec_string (Z.of_nat (length (ctx_body ctx)))) as ->.
  { unfold to_int32. rewrite Z.mod_small by lia. unfold i32toa_jeaiii. rewrite (proj2 (Z.ltb_ge _ _)) by lia.
    replace (_ + _ - _) with (Z.of_nat (length (ctx_body ctx))) by lia. apply LG_dec. lia. }
  cbn [from_option fmap list_fmap concat with_sp raw_field fst snd]. rewrite app_nil_r. reflexivity.
Qed.

Lemma client_text ctx qs c :
  header_str_ c = [] -> Z.of_nat (length (ctx_body ctx)) < 2 ^ 31 ->
  ctx_query ctx = from_option print_query [] qs -> (qs <> None -> ctx_query ctx <> []) ->
  (build_write_msg ctx 0 c).1 = msg_head (client_message ctx qs c) ++ msg_content (client_message ctx qs c).
Proof.
  intros Hs Hl Hq Hqn. unfold build_write_msg. cbv zeta. cbn [fst]. rewrite !add_content_type_keeps, Hs.
  rewrite (bool_decide_true ([] = [])) by done. change (has_str (bs "Connection") []) with false. rewrite orb_false_r.
  rewrite content_length_text by done. rewrite write_headers.
  unfold msg_head, print_request, client_message, msg_target, client_fields.
  cbn [msg_method msg_path msg_query msg_version msg_raw msg_content].
  assert ((if bool_decide (ctx_query ctx = []) then [] else bs "?" ++ ctx_query ctx) =
    match qs with Some qs => 63 :: print_query qs | None => [] end) as ->.
  { destruct qs as [qs|]; cbn [from_option] in *.
    - rewrite bool_decide_false by (by apply Hqn). by rewrite Hq.
    - by rewrite Hq. }
  rewrite !fmap_cons, !fmap_app. cbn [concat]. rewrite !concat_app.
  change (raw_field (bs "Host", [], ctx_host ctx)) with (bs "Host:" ++ ctx_host ctx ++ CRLF).
  change (bs " HTTP/1.1") with (bs " HTTP/1." ++ [48 + 1]). rewrite <-!app_assoc. rewrite (app_nil_l (concat _ ++ _)).
  do 11 f_equal. by destruct (existsb _ _).
Qed.

Lemma query_character_range c : is_query_character c = true -> is_byte c /\ 32 < c /\ c <> 127.
Proof.
  unfold is_query_character, is_path_character, is_unreserved, is_sub_delim, isalnum, isalpha, isupper, islower, isdigit, is_byte.
  intros H. zsplit; subst; lia.
Qed.

Lemma authority_character_range c : is_authority_character c = true -> is_byte c /\ 32 < c /\ c <> 127.
Proof.
  unfold is_authority_character, is_unreserved, is_sub_delim, isalnum, isalpha, isupper, islower, isdigit, is_byte.
  intros H. zsplit; subst; lia.
Qed.

Lemma path_query_character c : is_path_character c = true -> is_query_character c = true.
Proof. unfold is_query_character. by intros ->. Qed.

Lemma query_characters_token s : Forall (fun c => is_query_character c = true) s -> token_ok s.
Proof. intros H. eapply Forall_impl; [exact H|]. apply query_character_range. Qed.

Lemma host_value s : Forall (fun c => host_character c = true) s -> field_value_ok s.
Proof.
  intros H. assert (Forall (fun c => is_byte c /\ 32 < c /\ c <> 127) s) as R.
  { eapply Forall_impl; [exact H|]. intros c Hc. unfold host_character in Hc. apply andb_true_iff in Hc as [Hc _].
    by apply authority_character_range. }
  split; [|by destruct R as [|c s (_ & ? & _) _]; cbn; split; intros E; try done; injection E; lia].
  eapply Forall_impl; [exact R|]. intros c (Hb & H32 & H127). split; [done|]. unfold is_ctl.
  rewrite (proj2 (Z.ltb_ge _ _)), (proj2 (Z.eqb_neq c 127)) by lia. done.
Qed.

(** what the caller may add: well-formed fields that do not declare a length *)
Definition user_headers_ok (hs : list (bytes * bytes)) : Prop :=
  Forall field_ok hs /\ Forall (fun h => iequal h.1 (bs "content-length") = false) hs /\ (length hs <= 28)%nat.

Definition query_parts (w : parts) (qs : option (list (bytes * bytes))) : Prop :=
  default [] (p_query w) = from_option print_query [] qs /\ (qs <> None -> default [] (p_query w) <> []) /\
  from_option (Forall query_ok) True qs.

Lemma field_by_computation h : bool_decide (field_ok h) = true -> field_ok h.
Proof. apply bool_decide_eq_true. Qed.

Lemma content_type_headers c : exists l, headers_ (add_content_type c) = headers_ c ++ l /\ Forall field_ok l /\
  Forall (fun h => iequal h.1 (bs "content-length") = false) l /\ (length l <= 1)%nat.
Proof.
  unfold add_content_type. destruct (_ || _); [exists []; rewrite app_nil_r; split_and!; try constructor; cbn; lia|]. eexists. split; [reflexivity|].
  split; [|split; [by repeat constructor|done]]. constructor; [|constructor]. apply field_by_computation.
  by destruct (req_content_type_ c).
Qed.

Lemma client_message_ok w method body qs c :
  parts_ok w -> query_parts w qs -> user_headers_ok (headers_ c) -> Z.of_nat (length body) < 2 ^ 31 -> 
  message_ok (client_message (new_context (uri_of w) method body) qs c).
Proof.
  intros Hw (Hq & Hqn & Hqs) (Hf & Hno & Hlen) Hbody. set (ctx := new_context (uri_of w) method body).
  destruct (content_type_headers c) as (l & Hl & Hlf & Hlno & Hl1).
  pose proof Hw as (_ & _ & Hh & _ & _ & _ & Hp & Hps & Hqc & _).
  assert (Hpath : exists p, ctx_path ctx = 47 :: p /\ Forall (fun c => is_path_character c = true) (ctx_path ctx)).
  { unfold ctx, new_context, get_path, uri_of. cbn [ctx_path Uri.path]. case_bool_decide as E.
    - exists []. split; [done|]. by repeat constructor.
    - destruct Hps as [?|Hps]; [done|]. destruct (p_path w) as [|x p]; [done|]. cbn in Hps. subst x. by exists p. }
  destruct Hpath as (p & Ep & Hpc).
  assert (Hfields : Forall field_ok (headers_ (add_content_type c) ++
     from_option (fun n => [(bs "Content-Length", dec_string n)]) [] (body_length ctx) ++
     (if existsb (fun h => bool_decide (h.1 = bs "Connection")) (headers_ (add_content_type c)) then []
      else [(bs "Connection", bs "keep-alive")]))).
  { rewrite Hl. repeat apply Forall_app_2; [done|done| |].
    - unfold body_length. repeat case_bool_decide; cbn [from_option]; [|constructor|];
        (constructor; [|constructor]); [by apply field_by_computation|].
      split; [split; [done|apply (bool_decide_unpack _); by vm_compute]|]. apply dec_string_value. lia.
    - destruct (existsb _ _); [constructor|]. constructor; [|constructor]. by apply field_by_computation. }
  assert (Hlook : forall v l', lookup_header ((bs "Host", v) :: (headers_ (add_content_type c) ++ l')) (bs "content-length") =
      lookup_header l' (bs "content-length")).
  { intros v l'. rewrite (app_comm_cons (headers_ (add_content_type c))). apply lookup_header_app. constructor; [done|].
    rewrite Hl. by apply Forall_app_2. }
  unfold message_ok, client_message, msg_target.
  cbn [msg_method msg_path msg_query msg_version msg_raw msg_content msg_length]. split_and!.
  - apply (bool_decide_unpack _). by destruct method.
  - by destruct method.
  - apply query_characters_token, Forall_app_2; [eapply Forall_impl; [exact Hpc|apply path_query_character]|].
    destruct qs as [qs|]; [|constructor]. constructor; [done|]. cbn [from_option] in Hq. rewrite <-Hq. by destruct (p_query w).
  - rewrite Ep. set_solver.
  - intros Hin. rewrite Forall_forall in Hpc. by specialize (Hpc 63 Hin).
  - done.
  - lia.
  - lia.
  - constructor; [split; [split; [|by apply host_value]|constructor]|by apply with_sp_ok].
    split; [done|]. apply (bool_decide_unpack _). by vm_compute.
  - cbn [client_fields length]. rewrite length_fmap, !length_app, Hl, length_app.
    unfold max_headers. destruct (body_length ctx), (existsb _ (headers_ c ++ l)); cbn [from_option length]; lia.
  - unfold msg_fields. cbn [msg_raw]. unfold client_fields. rewrite fmap_cons, field_of_with_sp.
    change (field_of (bs "Host", [], ctx_host ctx)) with (bs "Host", ctx_host ctx). rewrite Hlook.
    unfold body_length. repeat case_bool_decide; cbn [from_option].
    + split; [lia|]. reflexivity.
    + by destruct (existsb _ _).
    + split; [change (ctx_body ctx) with body; lia|]. reflexivity.
Qed.
