(* ===== verification/Exchange.v ===== *)
(** * An exchange between the client and the server

    The request that core/http_client.hpp writes arrives at the server of
    include/netcore/http_server.hpp, whatever bursts it arrives in; its handler's
    response arrives at the client, whatever pieces it arrives in. *)

From Stdlib Require Import ZArith Lia.
From stdpp Require Import base numbers list gmap strings.
From S2P Require Import Prelude CStd PicoHttpFacts Utils Response Upload Request Uri HttpParser HttpClient Connection Server Rounds ServerFacts ClientFacts.
Local Open Scope Z_scope.

(** a new client with headers of its own, when it writes the request *)
Definition fresh_client (hs : list (bytes * bytes)) : http_client := put_headers [] hs new_client.
Definition requesting (w : parts) (type : req_content_type) (seconds : Z) (hs : list (bytes * bytes)) : http_client :=
  put_request (p_schema w ++ bs "://" ++ p_host w) type false seconds
    (put_progress true (put_sync true (put_promise (Some None) false (fresh_client hs)))).

Definition request_message (w : parts) (method : http_method) (body : bytes) (type : req_content_type)
  (seconds : Z) (qs : option (list (bytes * bytes))) (hs : list (bytes * bytes)) : message :=
  client_message (new_context (uri_of w) method body) qs (requesting w type seconds hs).

(** between two requests to the same server *)
Definition kept_open (w : parts) (c : http_client) : Prop :=
  has_connected_ c = true /\ in_progress_ c = false /\ last_domain_ c = p_schema w ++ bs "://" ++ p_host w.

Lemma same_message ctx qs c c' : headers_ c' = headers_ c -> header_str_ c' = header_str_ c -> req_content_type_ c' = req_content_type_ c ->
  client_message ctx qs c' = client_message ctx qs c.
Proof.
  intros H1 H2 H3. assert (headers_ (add_content_type c') = headers_ (add_content_type c)) as E.
  { unfold add_content_type. rewrite H1, H2, H3. by destruct (_ || _). }
  unfold client_message, client_fields. by rewrite E.
Qed.

(** a client that has not connected yet, and is not to send a file *)
Definition unused (c : http_client) : Prop :=
  in_progress_ c = false /\ has_connected_ c = false /\ last_domain_ c = [] /\ header_str_ c = [] /\
  (promise_ c = None -> sync_ c = false).

(** what it is when it writes the request, and when the request has been written *)
Definition asking (w : parts) (type : req_content_type) (cb : bool) (seconds : Z) (c : http_client) : http_client :=
  put_request (p_schema w ++ bs "://" ++ p_host w) type cb seconds
    (put_progress true (match promise_ c with None => put_sync false c | Some _ => c end)).
Definition sent (w : parts) (type : req_content_type) (cb : bool) (seconds : Z) (c : http_client) : http_client :=
  add_content_type (put_connected true (asking w type cb seconds c)).

Lemma sent_keeps w type cb seconds c : let c' := sent w type cb seconds c in
  promise_ c' = promise_ c /\ weak_ c' = weak_ c || bool_decide (promise_ c <> None) /\ cb_ c' = cb /\ called c' = called c /\
  on_chunk_ c' = on_chunk_ c /\ chunks c' = chunks c /\ copy_headers_ c' = copy_headers_ c /\ m_recv_str_buf c' = m_recv_str_buf c /\
  last_domain_ c' = p_schema w ++ bs "://" ++ p_host w /\ has_connected_ c' = true /\ timeout_seconds_ c' = seconds.
Proof. unfold sent, asking, add_content_type. destruct (_ || _), (promise_ c) eqn:E; cbn; rewrite ?E; by split_and!. Qed.

(** the request goes out as the message, and what is left is to read the response *)
Lemma request_written sse files w method body cb type seconds qs c outs pieces :
  unused c -> parts_ok w -> p_schema w <> bs "https" -> query_parts w qs -> (method = POST \/ body = []) -> type <> ct_multipart ->
  let x := client_message (new_context (uri_of w) method body) qs (asking w type cb seconds c) in
  Z.of_nat (length (msg_head x ++ msg_content x)) < 2 ^ 31 ->
  Forall (fun k => 0 < k) outs -> foldr Z.add 0 outs = Z.of_nat (length (msg_head x ++ msg_content x)) ->
  async_request_impl sse files method (print_uri w) cb type seconds body c (mk_net [true] outs pieces [] []) =
  do_read sse (sent w type cb seconds c) (mk_net [] [] pieces [(p_host w, atoi (get_port (uri_of w)))] (msg_head x ++ msg_content x)).
Proof.
  intros (Hp & Hc & Hd & Hs0 & Hsync) Hw Hs (Hq1 & Hq2 & _) Hm Ht x Hlen Houts Hsum.
  unfold async_request_impl, sent, asking in *.
  set (c0 := match promise_ c with None => put_sync false c | Some _ => c end) in *.
  assert (match promise_ c with None => (sync_ c, put_sync false c) | Some _ => (false, c) end = (false, c0)) as ->.
  { unfold c0. destruct (promise_ c); [done|]. by rewrite Hsync. }
  assert (in_progress_ c0 = false /\ has_connected_ c0 = false /\ last_domain_ c0 = [] /\ header_str_ c0 = []) as (-> & Hc0 & Hd0 & Hs1)
    by (unfold c0; by destruct (promise_ c)).
  assert (bool_decide (method <> POST) && bool_decide (body <> []) = false) as ->.
  { destruct Hm as [->| ->]; [done|]. by rewrite andb_comm. }
  change (last_domain_ (put_progress true c0)) with (last_domain_ c0). rewrite Hd0.
  rewrite (bool_decide_true (@nil Z = [])) by done. cbn [orb andb negb mbind reply_bind].
  unfold get_uri. rewrite parse_printed_uri by done. rewrite bool_decide_false by done. cbn [mbind reply_bind negb].
  set (ctx := new_context (uri_of w) method body) in *. change (schema (uri_of w)) with (p_schema w). change (host (uri_of w)) with (p_host w).
  set (c1 := put_request (p_schema w ++ bs "://" ++ p_host w) type cb seconds (put_progress true c0)) in *.
  change (has_connected_ c1) with (has_connected_ c0). rewrite Hc0.
  assert (Z.of_nat (length body) < 2 ^ 31) as Hb.
  { rewrite length_app in Hlen. change (msg_content x) with body in Hlen. lia. }
  pose proof (client_text ctx qs c1 Hs1 Hb Hq1 Hq2) as Htext. change (client_message ctx qs c1) with x in Htext.
  unfold async_connect, ConnectToServer. cbn [connects mbind reply_bind negb sends recvs dialed wire].
  unfold do_write. change (req_content_type_ (put_connected true c1)) with type.
  assert (forall A (a b : A), match type with ct_multipart => a | _ => b end = b) as Hmatch by (by destruct type).
  rewrite Hmatch. unfold send_msg.
  assert (build_write_msg ctx 0 (put_connected true c1) = (msg_head x ++ msg_content x, add_content_type (put_connected true c1))) as ->.
  { rewrite <-Htext. unfold build_write_msg, add_content_type. cbn [header_str_ put_connected req_content_type_ headers_].
    by destruct (_ || _). }
  unfold HttpClient.Write, HttpClient.Writen. cbv zeta. cbn [sends wire].
  assert (to_int32 (Z.of_nat (length (msg_head x ++ msg_content x))) = Z.of_nat (length (msg_head x ++ msg_content x))) as ->
    by (unfold to_int32; rewrite Z.mod_small; lia).
  rewrite writen_pieces by done. cbn [mbind reply_bind fst snd app]. by rewrite (proj2 (Z.ltb_ge _ _)) by lia.
Qed.

Lemma fresh_unused hs p : unused (put_sync (bool_decide (p <> None)) (put_promise p false (fresh_client hs))).
Proof. split_and!; try done. cbn. by intros ->. Qed.

(** with a promise *)
Lemma client_exchange sse w method body type seconds qs hs offset now r outs pieces :
  parts_ok w -> p_schema w <> bs "https" -> query_parts w qs -> (method = POST \/ body = []) -> type <> ct_multipart ->
  let x := request_message w method body type seconds qs hs in
  Z.of_nat (length (msg_head x ++ msg_content x)) < 2 ^ 31 ->
  response_ok r -> no_length_field r -> parser_takes offset now r ->
  Forall (fun k => 0 < k) outs -> foldr Z.add 0 outs = Z.of_nat (length (msg_head x ++ msg_content x)) ->
  Forall (fun p => p <> []) pieces -> mjoin pieces = rep_str_ (build_response_str offset now r) ->
  exists c n, HttpClient.request sse method (print_uri w) type seconds body (fresh_client hs) (mk_net [true] outs pieces [] []) =
    Done (answer_of offset now r, c, n) /\ wire n = msg_head x ++ msg_content x /\
    dialed n = [(p_host w, atoi (get_port (uri_of w)))] /\ (content_ r <> [] -> kept_open w c).
Proof.
  intros Hw Hs Hq Hm Ht x Hlen Hr Hno H100 Houts Hsum Hne Hpieces.
  set (c0 := put_sync true (put_promise (Some None) false (fresh_client hs))).
  assert (x = client_message (new_context (uri_of w) method body) qs (asking w type false seconds c0)) as Ex by done.
  unfold HttpClient.request. fold c0. rewrite Ex in Hlen, Hsum.
  rewrite (request_written sse _ w method body false type seconds qs c0 outs pieces (fresh_unused hs (Some None)) Hw Hs Hq Hm Ht Hlen Houts Hsum).
  pose proof (sent_keeps w type false seconds c0) as (H1 & H2 & _ & _ & _ & _ & H3 & H4 & H5 & H6 & _).
  rewrite <-Ex.
  destruct (do_read_response sse offset now r (sent w type false seconds c0)
    (mk_net [] [] pieces [(p_host w, atoi (get_port (uri_of w)))] (msg_head x ++ msg_content x)))
    as (c3 & n3 & -> & Hprom & Hwire & Hdial & Hdom & Hkept); try done.
  cbn [mbind reply_bind]. rewrite Hprom. eexists _, _. split; [reflexivity|].
  split; [done|]. split; [done|]. intros Hr0. split; [|split; [done|]]; cbn [has_connected_ last_domain_ put_promise put_progress].
  - by rewrite Hkept.
  - by rewrite Hdom.
Qed.

(** without one: a callback or not, and a function for the chunks of a download or not *)
Lemma callback_exchange sse files w method body cb type seconds qs hs (chunked : bool) offset now r outs pieces :
  parts_ok w -> p_schema w <> bs "https" -> query_parts w qs -> (method = POST \/ body = []) -> type <> ct_multipart ->
  let x := request_message w method body type seconds qs hs in
  Z.of_nat (length (msg_head x ++ msg_content x)) < 2 ^ 31 ->
  response_ok r -> no_length_field r -> parser_takes offset now r ->
  Forall (fun k => 0 < k) outs -> foldr Z.add 0 outs = Z.of_nat (length (msg_head x ++ msg_content x)) ->
  Forall (fun p => p <> []) pieces -> mjoin pieces = rep_str_ (build_response_str offset now r) ->
  exists c n, async_request_impl sse files method (print_uri w) cb type seconds body (put_chunk chunked [] (fresh_client hs))
      (mk_net [true] outs pieces [] []) = Done (c, n) /\
    called c = (if cb then [answer_of offset now r] else []) /\ chunks c = (if chunked then [(0, content_ r)] else []) /\
    in_progress_ c = false /\ wire n = msg_head x ++ msg_content x.
Proof.
  intros Hw Hs Hq Hm Ht x Hlen Hr Hno H100 Houts Hsum Hne Hpieces.
  set (c0 := put_chunk chunked [] (fresh_client hs)). assert (unused c0) as Hunused by done.
  assert (x = client_message (new_context (uri_of w) method body) qs (asking w type cb seconds c0)) as Ex by (by apply same_message).
  rewrite Ex in Hlen, Hsum.
  rewrite (request_written sse _ w method body cb type seconds qs c0 outs pieces Hunused Hw Hs Hq Hm Ht Hlen Houts Hsum).
  pose proof (sent_keeps w type cb seconds c0) as (_ & H2 & Hcb & Hcalled & Hon & Hch & H3 & H4 & _).
  rewrite <-Ex.
  destruct (do_read_called sse offset now r (sent w type cb seconds c0)
    (mk_net [] [] pieces [(p_host w, atoi (get_port (uri_of w)))] (msg_head x ++ msg_content x)))
    as (c3 & n3 & -> & K1 & K2 & K3 & K4); try done.
  rewrite Hcb, Hcalled in K1. rewrite Hon, Hch in K2. by eexists _, _.
Qed.

(** C5. An exchange over the network. The client asks for a URI with a method, a body
    and headers of its own; the bytes it writes, cut into bursts in any way behind the
    head, make the server call the handler once, with the client's method, path,
    query, headers and body; and when the handler answers with a well-formed
    response, it is handed to ::send ([answered]: all of it is sent if the socket takes
    it in one go), and its bytes, cut into pieces in any way, if they are fewer than
    2^31 and have at most 100 header fields ([parser_takes]), give the client's caller
    the status, the header fields and the content of that response,
    however many calls of ::send the request takes: the caller of get or post as what
    it returns, the one of async_get or async_post in the one call of its callback,
    after which the client can be used again. *)
Theorem client_server_exchange {A} sse (env : environment A) h w method body type seconds qs hs
    b rest fresh_part disk res_type clock (app : A) offset t (reply : connection A -> response) :
  let x := request_message w method body type seconds qs hs in
  parts_ok w -> p_schema w <> bs "https" -> query_parts w qs -> (method = POST \/ body = []) -> type <> ct_multipart ->
  user_headers_ok hs -> plain_type x -> serves env h x ->
  Z.of_nat (length (msg_head x ++ msg_content x)) < 1024 -> Forall is_byte (msg_head x ++ msg_content x) ->
  (length (msg_head x) <= length (burst_text b))%nat -> text (b :: rest) = msg_head x ++ msg_content x ->
  (forall c, delivered x app c -> res_ (h c) = build_response_str offset t (reply c) /\ response_ok (reply c) /\
     no_length_field (reply c) /\ parser_takes offset t (reply c)) ->
  exists c, delivered x app c /\
  answered env (b :: rest) (new_connection fresh_part disk res_type clock app) (h c) /\
  forall outs pieces, Forall (fun k => 0 < k) outs -> foldr Z.add 0 outs = Z.of_nat (length (text (b :: rest))) ->
    Forall (fun p => p <> []) pieces -> mjoin pieces = response_str (res_ (h c)) ->
    exists c' n, HttpClient.request sse method (print_uri w) type seconds body (fresh_client hs) (mk_net [true] outs pieces [] []) =
      Done (answer_of offset t (reply c), c', n) /\ wire n = text (b :: rest) /\
    exists c' n, async_request sse (fun _ => None) method (print_uri w) true type seconds body (fresh_client hs)
        (mk_net [true] outs pieces [] []) = Done (c', n) /\
      called c' = [answer_of offset t (reply c)] /\ in_progress_ c' = false /\ wire n = text (b :: rest).
Proof.
  intros x Hw Hs Hq Hm Ht Hhs Hplain Hserves Hlen Hby Hhead Htext Hh.
  assert (Z.of_nat (length body) < 2 ^ 31) as Hb.
  { rewrite length_app in Hlen. change (msg_content x) with body in Hlen. lia. }
  assert (message_ok x) as Hok by (by apply client_message_ok).
  assert (whole x) as Hwhole.
  { unfold whole, msg_size, x, request_message, client_message, body_length. cbn [msg_length msg_content ctx_body ctx_method new_context].
    repeat case_bool_decide; by subst. }
  destruct (served_plain env h x b rest fresh_part disk res_type clock app Hserves Hok Hplain Hwhole Hlen Hby Hhead Htext)
    as (c & Hd & Ha).
  destruct (Hh c Hd) as (Hr & Hrok & Hno & H100). refine (ex_intro _ c (conj Hd (conj Ha _))).
  intros outs pieces Houts Hsum Hne Hpieces. rewrite Htext in Hsum. unfold response_str in Hpieces. rewrite Hr in Hpieces.
  destruct (client_exchange sse w method body type seconds qs hs offset t (reply c) outs pieces Hw Hs Hq Hm Ht ltac:(fold x; lia)
    Hrok Hno H100 Houts Hsum Hne Hpieces) as (c' & n & Hreq & Hwire & _).
  destruct (callback_exchange sse (fun _ => None) w method body true type seconds qs hs false offset t (reply c) outs pieces Hw Hs Hq Hm Ht
    ltac:(fold x; lia) Hrok Hno H100 Houts Hsum Hne Hpieces) as (c2 & n2 & Hreq2 & Hcalled & _ & Hidle & Hwire2).
  rewrite Htext. exists c', n. split; [exact Hreq|]. split; [exact Hwire|]. by exists c2, n2.
Qed.

Lemma find_str_prefix p s : find_str p (p ++ s) = Some 0%nat.
Proof.
  assert (is_prefix p (p ++ s) = true) as E by (induction p as [|x p IH]; [done|]; cbn; by rewrite Z.eqb_refl).
  destruct p as [|x p]; [by destruct s|]. cbn [app find_str] in *. by rewrite E.
Qed.

(** the client leaves the response to a second request unread *)
Lemma second_request sse w method body type seconds c outs rs cs ds wi :
  parts_ok w -> p_schema w <> bs "https" -> p_uinfo w = None -> (method = POST \/ body = []) -> type <> ct_multipart ->
  kept_open w c ->
  let msg := (build_write_msg (new_context (uri_of w) method body) 0 (put_request [] type false seconds c)).1 in
  Z.of_nat (length msg) < 2 ^ 31 -> Forall (fun k => 0 < k) outs -> foldr Z.add 0 outs = Z.of_nat (length msg) ->
  exists c' n, HttpClient.request sse method (print_uri w) type seconds body c (mk_net cs outs rs ds wi) =
    Done (mk_response_data EC_invalid_argument 404 (bs "request timeout") [], c', n) /\
    recvs n = rs /\ wire n = wi ++ msg /\ kept_open w c'.
Proof.
  intros Hw Hs Hu Hm Ht (Hc1 & Hc2 & Hc3) msg Hlen Houts Hsum.
  unfold HttpClient.request, async_request_impl. cbn [promise_ put_sync put_promise in_progress_]. rewrite Hc2.
  assert (bool_decide (method <> POST) && bool_decide (body <> []) = false) as ->.
  { destruct Hm as [->| ->]; [done|]. by rewrite andb_comm. }
  change (last_domain_ (put_progress true (put_sync true (put_promise (Some None) false c)))) with (last_domain_ c).
  assert (has_str (last_domain_ c) (print_uri w) = true) as ->.
  { assert (print_uri w = (p_schema w ++ bs "://" ++ p_host w) ++
      behind 58 (p_port w) ++ p_path w ++ behind 63 (p_query w) ++ behind 35 (p_fragment w)) as ->.
    { unfold print_uri, print_authority. rewrite Hu. cbn [from_option]. rewrite app_nil_l. by rewrite <-!app_assoc. }
    rewrite Hc3. unfold has_str. by rewrite find_str_prefix. }
  rewrite andb_false_r. cbn [orb negb mbind reply_bind]. unfold get_uri. rewrite parse_printed_uri by done.
  rewrite bool_decide_false by done. cbn [mbind reply_bind negb].
  match goal with |- context [put_request ?d ?t ?b ?s ?c0] => set (c1 := put_request d t b s c0) end.
  change (has_connected_ c1) with (has_connected_ c). rewrite Hc1. unfold do_write. change (req_content_type_ c1) with type.
  assert (forall A (a b : A), match type with ct_multipart => a | _ => b end = b) as Hmatch by (by destruct type).
  rewrite Hmatch. unfold send_msg.
  destruct (build_write_msg (new_context (uri_of w) method body) 0 c1) as [m c2] eqn:Eb.
  assert (m = msg) as ->.
  { transitivity (build_write_msg (new_context (uri_of w) method body) 0 c1).1; [by rewrite Eb|]. unfold msg, build_write_msg, add_content_type.
    cbn [header_str_ c1 put_request req_content_type_ headers_ put_progress put_sync put_promise]. by destruct (_ || _). }
  assert (c2 = add_content_type c1) as -> by (by injection Eb).
  unfold HttpClient.Write, HttpClient.Writen. cbv zeta. cbn [sends wire].
  assert (to_int32 (Z.of_nat (length msg)) = Z.of_nat (length msg)) as -> by (unfold to_int32; rewrite Z.mod_small; lia).
  rewrite writen_pieces by done. cbn [mbind reply_bind fst snd]. rewrite (proj2 (Z.ltb_ge _ _)) by lia.
  assert (promise_ (add_content_type c1) = Some None) as -> by (unfold add_content_type; by destruct (_ || _)).
  eexists _, _. split; [reflexivity|]. split; [done|]. split; [done|].
  unfold add_content_type. by destruct (_ || _).
Qed.

(** A client answers one request per connection: after an exchange whose response
    had content, a further request to the same server is written, but its response is
    left unread, whatever the server sends: the caller gets the status 404 and
    "request timeout", and so for the request after it. *)
Theorem second_request_unread sse w method body type seconds qs hs offset t r outs pieces :
  parts_ok w -> p_schema w <> bs "https" -> p_uinfo w = None -> query_parts w qs -> (method = POST \/ body = []) ->
  type <> ct_multipart ->
  let x := request_message w method body type seconds qs hs in
  Z.of_nat (length (msg_head x ++ msg_content x)) < 2 ^ 31 ->
  response_ok r -> no_length_field r -> parser_takes offset t r -> content_ r <> [] ->
  Forall (fun k => 0 < k) outs -> foldr Z.add 0 outs = Z.of_nat (length (msg_head x ++ msg_content x)) ->
  Forall (fun p => p <> []) pieces -> mjoin pieces = rep_str_ (build_response_str offset t r) ->
  exists c n, HttpClient.request sse method (print_uri w) type seconds body (fresh_client hs) (mk_net [true] outs pieces [] []) =
    Done (answer_of offset t r, c, n) /\
  forall method' body' type' seconds' outs' answer, (method' = POST \/ body' = []) -> type' <> ct_multipart ->
    let msg := (build_write_msg (new_context (uri_of w) method' body') 0 (put_request [] type' false seconds' c)).1 in
    Z.of_nat (length msg) < 2 ^ 31 -> Forall (fun k => 0 < k) outs' -> foldr Z.add 0 outs' = Z.of_nat (length msg) ->
    exists c' n', HttpClient.request sse method' (print_uri w) type' seconds' body' c (mk_net [] outs' answer [] []) =
      Done (mk_response_data EC_invalid_argument 404 (bs "request timeout") [], c', n') /\
      recvs n' = answer /\ wire n' = msg /\ kept_open w c'.
Proof.
  intros Hw Hs Hu Hq Hm Ht x Hlen Hr Hno H100 Hne Houts Hsum Hpne Hpieces.
  destruct (client_exchange sse w method body type seconds qs hs offset t r outs pieces Hw Hs Hq Hm Ht Hlen Hr Hno H100 Houts Hsum
    Hpne Hpieces) as (c & n & Hreq & _ & _ & Hk).
  exists c, n. split; [exact Hreq|]. intros. by apply second_request; auto.
Qed.

(** a request to another host waits for a promise that nobody keeps *)
Lemma other_host_blocks sse method uri type seconds body c n w :
  kept_open w c -> future_ready c = false -> last_domain_ c <> [] -> has_str (last_domain_ c) uri = false ->
  (method = POST \/ body = []) -> HttpClient.request sse method uri type seconds body c n = Blocked.
Proof.
  intros (_ & Hp & _) Hf Hd Hs Hm. unfold HttpClient.request, async_request_impl. cbn [promise_ put_sync put_promise in_progress_].
  rewrite Hp. assert (bool_decide (method <> POST) && bool_decide (body <> []) = false) as ->.
  { destruct Hm as [->| ->]; [done|]. by rewrite andb_comm. }
  change (last_domain_ (put_progress true (put_sync true (put_promise (Some None) false c)))) with (last_domain_ c).
  rewrite bool_decide_false, Hs by done. cbn [orb andb negb].
  change (future_ready (put_progress true (put_sync true (put_promise (Some None) false c)))) with (future_ready c).
  by rewrite Hf.
Qed.

(** an upload of a file counts up to the largest size_t *)
Lemma upload_aborts : upload true (fun _ => Some (bs "content")) (bs "http://localhost:8080/up") (bs "a.txt") 0 60 new_client
  (mk_net [true] [1000] [] [] []) = Aborts.
Proof. vm_compute. reflexivity. Qed.

(** a request that is refused leaves in_progress_ behind, for the requests with a callback *)
Lemma refused_stays_in_progress : exists c n,
  async_request_impl true (fun _ => None) GET (bs "http://a/") true ct_json 15 (bs "body") new_client (mk_net [] [] [] [] []) = Done (c, n) /\
  in_progress_ c = true.
Proof. eexists _, _. split; [vm_compute; reflexivity|done]. Qed.

(** ** A sample *)

Module Sample.
Definition w : parts := mk_parts (bs "http") None (bs "localhost") (Some (bs "8080")) (bs "/a") (Some (bs "x=1")) None.
Definition qs : option (list (bytes * bytes)) := Some [(bs "x", bs "1")].
Definition x : message := request_message w POST (bs "hello") ct_string 60 qs [(bs "X-A", bs "1")].
Definition r : response := set_content (put_status (new_response ct_string 0) st_ok) (bs "welcome").
Definition reply_text : bytes := rep_str_ (build_response_str (fun _ => 0) 0 r).
Definition h (c : connection (list bytes)) : connection (list bytes) :=
  put_app (default [] (body (req_ c)) :: app_ c) (put_res (build_response_str (fun _ => 0) 0 r) c).
Definition env : environment (list bytes) :=
  mk_env (fun c => Some (h c)) (fun c => Some (c, true)) None None (fun _ => true) None
    (fun _ c => c) [] (fun _ => true) true (fun _ => 0) 0 (fun _ => 0) [] [] [].
Definition b1 : burst := (80, drop 1 (take (length (msg_head x) + 2) (message_text x))).
Definition b2 : burst := (108, bs "lo").
Definition client : http_client := fresh_client [(bs "X-A", bs "1")].
Definition socket : net :=
  mk_net [true] [10; Z.of_nat (length (message_text x)) - 10] [take 30 reply_text; drop 30 reply_text] [] [].

Lemma reply_sent c : response_str (res_ (h c)) = reply_text.
Proof.
  assert (forall v, res_ (put_app (default [] (body (req_ c)) :: app_ c) (put_res v c)) = v) as E by done.
  unfold h. rewrite E. unfold response_str, reply_text. reflexivity.
Qed.
End Sample.

Lemma client_server_exchange_witness :
  exists c, delivered Sample.x [] c /\
  handle Sample.env 9 (arrivals [Sample.b1; Sample.b2]) [Took 4096] [] (new_connection [] empty_fs ct_none 0 []) =
    (Returned, Sample.h c, [Sample.reply_text]) /\
  exists c' n, HttpClient.request true POST (bs "http://localhost:8080/a?x=1") ct_string 60 (bs "hello") Sample.client Sample.socket =
    Done (mk_response_data 0 200 (bs "welcome") (response_fields (fun _ => 0) 0 Sample.r), c', n) /\
    wire n = message_text Sample.x /\
  exists c' n, async_request true (fun _ => None) POST (bs "http://localhost:8080/a?x=1") true ct_string 60 (bs "hello")
      Sample.client Sample.socket = Done (c', n) /\
    called c' = [mk_response_data 0 200 (bs "welcome") (response_fields (fun _ => 0) 0 Sample.r)].
Proof.
  destruct (client_server_exchange true Sample.env Sample.h Sample.w POST (bs "hello") ct_string 60 Sample.qs [(bs "X-A", bs "1")]
    Sample.b1 [Sample.b2] [] empty_fs ct_none 0 [] (fun _ => 0) 0 (fun _ => Sample.r)) as (c & Hd & Ha & Hc).
  - unfold parts_ok. cbn. split_and!; try done; check_bool.
  - done.
  - unfold query_parts. split_and!; [done|done|check_bool].
  - by left.
  - done.
  - unfold user_headers_ok. split_and!; [check_bool|check_bool|cbn; lia].
  - check_bool.
  - split; [done|split; done].
  - check_bool.
  - check_bool.
  - vm_compute. lia.
  - vm_compute. reflexivity.
  - intros c _. split; [reflexivity|]. split; [|split; [check_bool|split; vm_compute; [lia|reflexivity]]].
    unfold response_ok. split_and!; try done; check_bool.
  - rewrite Sample.reply_sent in Hc. pose proof (answered_loop _ _ _ _ Ha 9%nat [] [Took 4096] [] ltac:(cbn; lia)) as Hl. rewrite Sample.reply_sent in Hl. exists c. split; [exact Hd|].
    split; [exact Hl|].
    destruct (Hc [10; Z.of_nat (length (message_text Sample.x)) - 10] [take 30 Sample.reply_text; drop 30 Sample.reply_text])
      as (c' & n & Hreq & Hwire & c2 & n2 & Hreq2 & Hcalled & _).
    + check_bool.
    + vm_compute. reflexivity.
    + check_bool.
    + vm_compute. reflexivity.
    + exists c', n. split; [exact Hreq|]. split; [etransitivity; [exact Hwire|vm_compute; reflexivity]|].
      exists c2, n2. split; [exact Hreq2|exact Hcalled].
Defined.

Lemma second_request_unread_witness :
  exists c n, HttpClient.request true GET (bs "http://localhost:8080/a?x=1") ct_none 15 [] (fresh_client [])
      (mk_net [true] [63] [Sample.reply_text] [] []) =
    Done (answer_of (fun _ => 0) 0 Sample.r, c, n) /\
  (let msg := (build_write_msg (new_context (uri_of Sample.w) GET []) 0 (put_request [] ct_none false 15 c)).1 in
   forall outs, Z.of_nat (length msg) < 2 ^ 31 -> Forall (fun k => 0 < k) outs -> foldr Z.add 0 outs = Z.of_nat (length msg) ->
   exists c' n', HttpClient.request true GET (bs "http://localhost:8080/a?x=1") ct_none 15 [] c (mk_net [] outs [Sample.reply_text] [] []) =
    Done (mk_response_data EC_invalid_argument 404 (bs "request timeout") [], c', n') /\ recvs n' = [Sample.reply_text] /\
    wire n' = msg /\ kept_open Sample.w c').
Proof.
  destruct (second_request_unread true Sample.w GET [] ct_none 15 Sample.qs [] (fun _ => 0) 0 Sample.r [63] [Sample.reply_text])
    as (c & n & Hreq & Hnext).
  - unfold parts_ok. cbn. split_and!; try done; check_bool.
  - done.
  - done.
  - unfold query_parts. split_and!; [done|done|check_bool].
  - by right.
  - done.
  - vm_compute. reflexivity.
  - unfold response_ok. split_and!; try done; check_bool.
  - check_bool.
  - split; vm_compute; [lia|reflexivity].
  - done.
  - check_bool.
  - vm_compute. reflexivity.
  - check_bool.
  - vm_compute. reflexivity.
  - exists c, n. split; [exact Hreq|]. intros msg outs H1 H2 H3. apply (Hnext GET [] ct_none 15 outs [Sample.reply_text]); auto || done.
Defined.
