(* ===== verification/Download.v ===== *)
(** * Downloads of the client

    core/http_client.hpp: download and download_impl, over HttpClient.v.  A file system
    is a map of names to contents; whether directories can be made and the file can be
    opened is given. *)

From Stdlib Require Import ZArith Lia.
From stdpp Require Import base numbers list strings gmap.
From S2P Require Import Prelude CStd PicoHttpFacts Utils Jeaiii Response Request Uri HttpParser HttpClient Rounds ServerFacts ClientFacts Exchange.
Local Open Scope Z_scope.

Record file_store := mk_file_store {
  contents : gmap bytes bytes;
  creates : bool;        (** create_directories of the parent *)
  opens : bool           (** the file can be opened for appending *)
}.

(** fs::file_size; there is an error code where there is no file *)
Definition file_size (d : file_store) (name : bytes) : option Z := (fun s => Z.of_nat (length s)) <$> contents d !! name.

(** std::ofstream with std::ios::app *)
Definition open_append (d : file_store) (name : bytes) : file_store :=
  mk_file_store (match contents d !! name with Some _ => contents d | None => <[name := []]> (contents d) end) (creates d) (opens d).

(** the header that tells the server where to go on; [size] is what the caller asks for *)
Definition start_pos (d : file_store) (dest_file : bytes) (size : Z) (c : http_client) : http_client :=
  if 0 <? size then add_header (bs "cinatra_start_pos") (i64toa_jeaiii size) c
  else match file_size d dest_file with
       | Some n => if 0 <? n then add_header (bs "cinatra_start_pos") (i64toa_jeaiii n) c else c
       | None => c
       end.

Definition download_impl (sse : bool) (src_file dest_file : bytes) (size : Z) (cb : bool) (seconds : Z) (d : file_store) (c : http_client) (n : net)
  : reply (http_client * net) * file_store :=
  if negb (creates d) then (Done (callback EC_invalid_argument 404 (bs "invalid file path") (put_cb cb (called c) c), n), d)
  else
    let c := start_pos d dest_file size c in
    if negb (opens d) then (Done (callback EC_invalid_argument 404 (bs "open file failed") (put_cb cb (called c) c), n), d)
    else
      let d := open_append d dest_file in
      let c := start_pos d dest_file size c in
      (async_get sse src_file cb (Some ct_none) (Some seconds) c n, d).

(** download with a function for the chunks in place of a file *)
Definition download (sse : bool) (src_file : bytes) (seconds : Z) (c : http_client) (n : net) : reply (http_client * net) :=
  async_get sse src_file false (Some ct_none) (Some seconds) (put_chunk true (chunks c) c) n.

(** ** Gathering chunks *)

(** what is gathered without a file, and the file, which may be closed; request clears the
    former, which is empty, as nobody calls append_chunk *)
Record chunk_store := mk_chunk_store { chunked_result_ : bytes; download_file_ : option (bool * bytes) }.

(** nothing is written to a file that is closed *)
Definition append_chunk (chunk : bytes) (c : http_client) (s : chunk_store) : http_client * chunk_store :=
  if on_chunk_ c then (put_chunk true (chunks c ++ [(0, chunk)]) c, s)
  else (c, match download_file_ s with
           | Some (is_open, text) => mk_chunk_store (chunked_result_ s) (Some (is_open, if is_open : bool then text ++ chunk else text))
           | None => mk_chunk_store (chunked_result_ s ++ chunk) None
           end).

Definition clear_chunk_buffer (c : http_client) (s : chunk_store) : chunk_store :=
  match download_file_ s with
  | Some (_, text) => mk_chunk_store (chunked_result_ s) (Some (false, text))
  | None => if negb (sync_ c) && bool_decide (chunked_result_ s <> []) then mk_chunk_store [] None else s
  end.

Definition read_or_close (sse keep_alive : bool) (c : http_client) (n : net) : reply (http_client * net) :=
  if keep_alive then do_read sse c n else Done (close c, n).

Definition append_chunks (l : list bytes) (c : http_client) (s : chunk_store) : http_client * chunk_store :=
  foldl (fun cs chunk => append_chunk chunk cs.1 cs.2) (c, s) l.

(** all chunks arrive in order where the first of these wants them: the function, the open
    file, the result *)
Theorem chunks_gathered l c s : let (c', s') := append_chunks l c s in
  (on_chunk_ c = true -> chunks c' = chunks c ++ ((fun k => (0, k)) <$> l) /\ s' = s) /\
  (on_chunk_ c = false -> c' = c /\
    match download_file_ s with
    | Some (true, text) => s' = mk_chunk_store (chunked_result_ s) (Some (true, text ++ mjoin l))
    | Some (false, text) => s' = s
    | None => s' = mk_chunk_store (chunked_result_ s ++ mjoin l) None
    end).
Proof.
  unfold append_chunks. revert c s; induction l as [|k l IH]; intros c s.
  - split; [by rewrite app_nil_r|]. intros _. split; [done|]. destruct s as [r [[[] t]|]]; cbn; by rewrite ?app_nil_r.
  - cbn [foldl]. unfold append_chunk at 2. cbn [fst snd]. rewrite mjoin_cons_bytes. destruct (on_chunk_ c) eqn:E.
    + specialize (IH (put_chunk true (chunks c ++ [(0, k)]) c) s). destruct (foldl _ _ l) as [c' s']. split; [|done].
      intros _. destruct (proj1 IH eq_refl) as [-> ->]. split; [|done]. cbn [chunks put_chunk]. by rewrite <-app_assoc.
    + set (s1 := match download_file_ s with Some _ => _ | None => _ end). specialize (IH c s1).
      destruct (foldl _ _ l) as [c' s']. split; [done|]. intros _. destruct (proj2 IH E) as [-> H]. split; [done|]. revert H.
      unfold s1. destruct s as [r [[[] t]|]]; cbn [download_file_ chunked_result_]; intros ->; by rewrite <-?app_assoc.
Qed.

(** the function for chunks gets the body, in one piece *)
Theorem download_delivered sse w seconds qs hs offset now r outs pieces :
  parts_ok w -> p_schema w <> bs "https" -> query_parts w qs ->
  let x := request_message w GET [] ct_none seconds qs hs in
  Z.of_nat (length (msg_head x ++ msg_content x)) < 2 ^ 31 ->
  response_ok r -> no_length_field r -> parser_takes offset now r ->
  Forall (fun k => 0 < k) outs -> foldr Z.add 0 outs = Z.of_nat (length (msg_head x ++ msg_content x)) ->
  Forall (fun p => p <> []) pieces -> mjoin pieces = rep_str_ (build_response_str offset now r) ->
  exists c n, download sse (print_uri w) seconds (fresh_client hs) (mk_net [true] outs pieces [] []) = Done (c, n) /\
    chunks c = [(0, content_ r)] /\ called c = [] /\ in_progress_ c = false /\ wire n = msg_head x ++ msg_content x.
Proof.
  intros Hw Hs Hq x Hlen Hr Hno H100 Houts Hsum Hne Hpieces.
  destruct (callback_exchange sse (fun _ => None) w GET [] false ct_none seconds qs hs true offset now r outs pieces)
    as (c & n & Hreq & Hc1 & Hc2 & Hc3 & Hc4); try done; [by right|]. by exists c, n.
Qed.

(** ** Flaws *)

(** the function for chunks is kept: it also gets the errors of later requests *)
Lemma chunk_function_stays sse src dest size cb seconds d c n :
  creates d = false -> weak_ c = false -> on_chunk_ c = true ->
  exists c', (download_impl sse src dest size cb seconds d c n).1 = Done (c', n) /\
    chunks c' = chunks c ++ [(EC_invalid_argument, bs "invalid file path")].
Proof.
  intros Hd Hw Ho. unfold download_impl. rewrite Hd. cbn [negb fst]. eexists. split; [reflexivity|].
  destruct (callback_called EC_invalid_argument 404 (bs "invalid file path") (put_cb cb (called c) c) Hw) as (_ & -> & _).
  change (on_chunk_ (put_cb cb (called c) c)) with (on_chunk_ c). by rewrite Ho.
Qed.

Lemma callback_timeout e st body c : timeout_seconds_ (callback e st body c) = timeout_seconds_ c.
Proof.
  unfold callback. assert (timeout_seconds_ (get_resp_headers c).2 = timeout_seconds_ c) as E by (unfold get_resp_headers; by case_match).
  destruct (get_resp_headers c) as [hs c']. cbn [snd] in E. rewrite <-E.
  destruct (weak_ c'); [done|]. destruct (cb_ c') eqn:Ec; cbn; by destruct (on_chunk_ c').
Qed.

Lemma do_read_timeout sse c n c' n' : do_read sse c n = Done (c', n') -> timeout_seconds_ c' = timeout_seconds_ c.
Proof.
  unfold do_read, do_read_body. intros H.
  repeat (match type of H with context [mbind _ ?m] => destruct m; cbn [mbind reply_bind] in H end || case_match); simplify_eq;
    cbn [close put_connected timeout_seconds_]; by rewrite ?callback_timeout.
Qed.

(** the timeout that one request names is the default of the requests behind it *)
Lemma timeout_becomes_default sse files w method body cb type seconds qs c outs pieces c' n' :
  unused c -> parts_ok w -> p_schema w <> bs "https" -> query_parts w qs -> (method = POST \/ body = []) -> type <> ct_multipart ->
  let x := client_message (new_context (uri_of w) method body) qs (asking w type cb seconds c) in
  Z.of_nat (length (msg_head x ++ msg_content x)) < 2 ^ 31 ->
  Forall (fun k => 0 < k) outs -> foldr Z.add 0 outs = Z.of_nat (length (msg_head x ++ msg_content x)) ->
  async_request sse files method (print_uri w) cb type seconds body c (mk_net [true] outs pieces [] []) = Done (c', n') ->
  forall uri n, async_get sse uri cb None None c' n = async_get sse uri cb None (Some seconds) c' n.
Proof.
  intros Hu Hw Hs Hq Hm Ht x Hlen Houts Hsum H uri n. unfold async_request in H.
  rewrite (request_written sse files w method body cb type seconds qs c outs pieces) in H by done.
  apply do_read_timeout in H. unfold async_get. cbn [default]. rewrite H.
  by destruct (sent_keeps w type cb seconds c) as (_ & _ & _ & _ & _ & _ & _ & _ & _ & _ & ->).
Qed.

(** the header is added before the file is opened and once more behind it *)
Lemma start_pos_twice d dest size c :
  headers_ (start_pos (open_append d dest) dest size (start_pos d dest size c)) =
  headers_ c ++
  (if 0 <? size then [(bs "cinatra_start_pos", i64toa_jeaiii size); (bs "cinatra_start_pos", i64toa_jeaiii size)]
   else match file_size d dest with
        | Some n => if 0 <? n then [(bs "cinatra_start_pos", i64toa_jeaiii n); (bs "cinatra_start_pos", i64toa_jeaiii n)] else []
        | None => []
        end).
Proof.
  assert (A : forall v c, headers_ (add_header (bs "cinatra_start_pos") v c) = headers_ c ++ [(bs "cinatra_start_pos", v)]) by done.
  unfold start_pos. destruct (0 <? size); [rewrite !A, <-app_assoc; done|].
  unfold file_size, open_append. cbn [contents]. destruct (contents d !! dest) as [s|] eqn:E.
  - rewrite E. cbn [fmap option_fmap option_map]. destruct (0 <? Z.of_nat (length s)); [rewrite !A, <-app_assoc; done|by rewrite app_nil_r].
  - rewrite lookup_insert_eq. cbn. by rewrite app_nil_r.
Qed.

(** whatever the server answers, the file is left as it was, or empty if there was none:
    the functions that would write to it are never called *)
Lemma download_writes_nothing sse src dest size cb seconds d c n :
  let (_, d') := download_impl sse src dest size cb seconds d c n in
  forall name, contents d' !! name = contents d !! name \/ (contents d !! name = None /\ contents d' !! name = Some []).
Proof.
  unfold download_impl. destruct (negb (creates d)); [by left|]. destruct (negb (opens d)); [by left|]. intros name. cbn [open_append contents].
  destruct (contents d !! dest) eqn:E; [by left|]. destruct (decide (dest = name)) as [->|Hne].
  - right. by rewrite lookup_insert_eq.
  - left. by rewrite lookup_insert_ne.
Qed.
