(* ===== verification/ClientUpload.v ===== *)
(** * An upload from the client to the server's disk

    upload_string of core/http_client.hpp writes a multipart request; the server of
    include/netcore/http_server.hpp stores what it carries and calls the handler, whose
    response reaches the client's callback. *)

From Stdlib Require Import ZArith Lia.
From stdpp Require Import base numbers list gmap strings.
From S2P Require Import Prelude CStd PicoHttpFacts Utils MultipartReader Response Upload Request Jeaiii Uri HttpParser HttpClient.
From S2P Require Import Connection Server Rounds ServerFacts Forms Uploads ClientFacts Exchange.
Local Open Scope Z_scope.

(** ** The message *)

Definition MULTIPART_TYPE : bytes := bs "multipart/form-data; boundary=".
Definition type_field : bytes * bytes := (bs "Content-Type", MULTIPART_TYPE ++ BOUNDARY).

(** the letters that upload_string sends in place of a file *)
Definition letters (size : nat) : bytes := replicate size 97.
Definition upload_body (filename : bytes) (size : nat) : bytes :=
  multipart_file_start (HttpClient.path_filename filename) ++ letters size ++ MULTIPART_END.

(** the client's own headers come first, the type of the body behind them *)
Definition upload_request (w : parts) (filename : bytes) (size : nat) (qs : option (list (bytes * bytes)))
  (hs : list (bytes * bytes)) : message :=
  request_message w POST (upload_body filename size) ct_none 60 qs (hs ++ [type_field]).

Definition upload_item (filename : bytes) (size : nat) : item :=
  File (bs "test") (HttpClient.path_filename filename) None (letters size).

(** the body is a printed multipart body *)
Lemma upload_body_print filename size :
  upload_body filename size = print_body (bs "--" ++ BOUNDARY) (item_part <$> [upload_item filename size]) (CRLF ++ CRLF).
Proof.
  unfold upload_body, print_body, multipart_file_start, MULTIPART_END. cbn [fmap list_fmap item_part upload_item type_header].
  unfold print_part. cbn [p_headers p_data fmap list_fmap]. unfold print_header. cbn [fst snd].
  change (CONTENT_DISPOSITION) with (bs "Content-Disposition"). unfold file_value.
  set (name := HttpClient.path_filename filename). set (data := letters size).
  change (mjoin [?l]) with (l ++ []). rewrite app_nil_r.
  change (bs "Content-Disposition: form-data; name=") with (bs "Content-Disposition" ++ bs ": " ++ bs "form-data; name=").
  repeat first [rewrite <-app_assoc | progress cbn [app]]. reflexivity.
Qed.

Lemma path_filename_no_slash filename : (47 ∉ HttpClient.path_filename filename).
Proof.
  unfold HttpClient.path_filename. induction filename as [|x s IH]; [apply not_elem_of_nil|]. cbn [rfind_char].
  destruct (rfind_char 47 s) as [i|] eqn:E; [exact IH|]. destruct (x =? 47) eqn:Ex; zbool; [exact IH|].
  rewrite not_elem_of_cons. by split; [congruence|].
Qed.

(** what stands in header_str_ could as well stand in headers_, and a body that is
    appended could as well be the body of the request *)
Lemma multipart_write_msg u body c c' :
  0 < Z.of_nat (length body) < 2 ^ 31 -> header_str_ c = bs "Content-Type: multipart/form-data; boundary=" ++ BOUNDARY ->
  header_str_ c' = [] -> headers_ c' = headers_ c ++ [type_field] -> req_content_type_ c' = ct_none ->
  (build_write_msg (new_context u POST []) (Z.of_nat (length body)) c).1 ++ body = (build_write_msg (new_context u POST body) 0 c').1.
Proof.
  intros Hlen Hc Hc' Hh Ht. assert (body <> []) as Hne by (intros ->; cbn in Hlen; lia). unfold build_write_msg. cbv zeta. cbn [fst].
  assert (add_content_type c = c) as -> by (unfold add_content_type; by rewrite Hc).
  assert (add_content_type c' = c') as -> by (unfold add_content_type; by rewrite Hc', Ht).
  rewrite Hc, Hc', Hh. unfold content_length_lines. cbn [ctx_body ctx_method ctx_path ctx_query ctx_host new_context].
  rewrite (bool_decide_true ([] = [])), (bool_decide_true (POST = POST)), !(bool_decide_false (body = [])) by done.
  rewrite (proj2 (Z.ltb_lt _ _)) by lia. cbn [negb].
  rewrite existsb_app, fmap_app, !app_nil_l.
  change (existsb (fun h => bool_decide (h.1 = bs "Connection")) [type_field]) with false.
  change (has_str (bs "Connection") []) with false.
  change (has_str (bs "Connection") (bs "Content-Type: multipart/form-data; boundary=" ++ BOUNDARY)) with false.
  rewrite !orb_false_r.
  assert (mjoin (write_header <$> headers_ c) ++ (bs "Content-Type: multipart/form-data; boundary=" ++ BOUNDARY) ++ CRLF =
    mjoin ((write_header <$> headers_ c) ++ (write_header <$> [type_field]))) as <-.
  { rewrite join_app. reflexivity. }
  rewrite (bool_decide_false (_ ++ BOUNDARY = [])) by done.
  repeat first [rewrite <-app_assoc | progress cbn [app]]. reflexivity.
Qed.

(** ** The client's side *)

Lemma client_uploads sse files w filename size seconds qs hs offset now r outs pieces :
  parts_ok w -> p_schema w <> bs "https" -> query_parts w qs -> (0 < size)%nat ->
  let x := upload_request w filename size qs hs in
  Z.of_nat (length (msg_head x ++ msg_content x)) < 2 ^ 31 ->
  response_ok r -> no_length_field r -> parser_takes offset now r ->
  Forall (fun k => 0 < k) outs -> foldr Z.add 0 outs = Z.of_nat (length (msg_head x ++ msg_content x)) ->
  Forall (fun p => p <> []) pieces -> mjoin pieces = rep_str_ (build_response_str offset now r) ->
  exists c n, upload_string sse files (print_uri w) filename (Z.of_nat size) seconds (fresh_client hs) (mk_net [true] outs pieces [] []) =
    Done (c, n) /\ called c = [answer_of offset now r] /\ wire n = msg_head x ++ msg_content x.
Proof.
  intros Hw Hs Hq Hsize x Hlen Hr Hno H100 Houts Hsum Hne Hpieces. pose proof Hq as (Hq1 & Hq2 & _).
  unfold upload_string, async_request, async_request_impl.
  cbn [promise_ put_sync put_upload in_progress_ fresh_client put_headers new_client sync_].
  change (bool_decide (POST <> POST) && bool_decide (@nil Z <> [])) with false.
  match goal with |- context [last_domain_ ?c] => change (last_domain_ c) with (@nil Z) end.
  rewrite (bool_decide_true (@nil Z = [])) by done. cbn [orb andb negb mbind reply_bind].
  unfold get_uri. rewrite parse_printed_uri by done. rewrite bool_decide_false by done. cbn [mbind reply_bind negb].
  set (ctx := new_context (uri_of w) POST []). set (body := upload_body filename size).
  match goal with |- context [put_request ?d ?t ?b ?s ?c] => set (c1 := put_request d t b s c) end.
  change (has_connected_ c1) with false. cbn iota.
  assert (Z.of_nat (length body) < 2 ^ 31 /\ 0 < Z.of_nat (length body)) as [Hb Hb0].
  { rewrite length_app in Hlen. change (msg_content x) with body in Hlen.
    unfold body, upload_body, letters. rewrite !length_app, length_replicate. split; [|lia].
    unfold body, upload_body, letters in Hlen. rewrite !length_app, length_replicate in Hlen. lia. }
  unfold async_connect, ConnectToServer. cbn [connects mbind reply_bind negb sends recvs dialed wire].
  unfold do_write. change (req_content_type_ (put_connected true c1)) with ct_multipart. cbn iota.
  unfold send_multipart_msg. change (multipart_str_ (put_connected true c1)) with filename.
  set (start := multipart_file_start (HttpClient.path_filename filename)).
  set (c2 := put_upload [] (start_ (put_connected true c1)) (memFileSize (put_connected true c1)) (put_connected true c1)).
  change (memFileSize c2) with (Z.of_nat size). rewrite (proj2 (Z.eqb_neq _ _)) by lia. cbn [negb].
  assert (total_multipart_size (Z.of_nat size) (Z.of_nat (length start)) = Z.of_nat (length body)) as ->.
  { unfold total_multipart_size, body, upload_body, letters. fold start. rewrite !length_app, length_replicate.
    unfold body, upload_body, letters in Hb. fold start in Hb. rewrite !length_app, length_replicate in Hb.
    rewrite wrap64_small by lia. lia. }
  set (c3 := add_multipart_type c2).
  pose proof (multipart_write_msg (uri_of w) body c3 (requesting w ct_none 60 (hs ++ [type_field])) (conj Hb0 Hb) eq_refl eq_refl eq_refl eq_refl)
    as Htext.
  rewrite (client_text (new_context (uri_of w) POST body) qs (requesting w ct_none 60 (hs ++ [type_field])) eq_refl Hb Hq1 Hq2) in Htext.
  change (client_message (new_context (uri_of w) POST body) qs (requesting w ct_none 60 (hs ++ [type_field]))) with x in Htext.
  assert ((build_write_msg ctx (Z.of_nat (length body)) c3).2 = c3) as E3 by
    (unfold build_write_msg, add_content_type; by cbn [header_str_ c3 add_multipart_type put_headers]).
  fold ctx in Htext. destruct (build_write_msg ctx (Z.of_nat (length body)) c3) as [msg c4]. cbn [fst snd] in *. subst c4.
  change (memFileSize c3) with (Z.of_nat size). rewrite (proj2 (Z.ltb_ge _ _)) by lia. rewrite Nat2Z.id.
  assert (msg ++ start ++ replicate size 97 ++ MULTIPART_END = msg_head x ++ msg_content x) as Etext by (by rewrite <-Htext).
  rewrite Etext. set (text := msg_head x ++ msg_content x) in *.
  unfold HttpClient.Write, HttpClient.Writen. cbv zeta. cbn [sends wire].
  assert (to_int32 (Z.of_nat (length text)) = Z.of_nat (length text)) as ->
    by (unfold to_int32; rewrite Z.mod_small; lia).
  rewrite writen_pieces by done. cbn [mbind reply_bind fst snd app]. rewrite (proj2 (Z.ltb_ge _ _)) by lia.
  set (c5 := put_upload text (start_ c3) (Z.of_nat size) c3).
  destruct (do_read_called sse offset now r c5 (put_sends [] text (mk_net [] outs pieces [(ctx_host ctx, atoi (ctx_port ctx))] [])))
    as (c6 & n6 & Hread & Hcalled & _ & _ & Hwire); try done.
  rewrite Hread. eexists _, _. split; [reflexivity|]. split; [by rewrite Hcalled|by rewrite Hwire].
Qed.

Lemma upload_request_ok w filename size qs hs :
  parts_ok w -> query_parts w qs -> user_headers_ok (hs ++ [type_field]) ->
  Z.of_nat (length (upload_body filename size)) < 2 ^ 31 -> message_ok (upload_request w filename size qs hs).
Proof. intros. by apply client_message_ok. Qed.

(** C6. An upload over the network. The letters that the client's upload_string sends in
    place of a file, with the name of the file, arrive on the server's disk: the server
    creates one file under its own name for it with the extension of the client's, with
    exactly these letters, leaves every other path as it was, and calls the handler with
    the file in files_; and when the handler answers with a well-formed response, it is
    handed to ::send ([answered]), and from its bytes (at most 100 header fields and
    fewer than 2^31 bytes) the client's callback is called once, with the status, the header fields and the
    content of that response, however many calls of ::send the request takes and
    whatever pieces the response comes in. *)
Theorem client_upload_served {A} sse files (env : environment A) clock h w filename size seconds qs hs
    b fresh_part disk res_type now (app : A) offset t (reply : connection A -> response) :
  let x := upload_request w filename size qs hs in
  let name := HttpClient.path_filename filename in
  parts_ok w -> p_schema w <> bs "https" -> query_parts w qs -> user_headers_ok (hs ++ [type_field]) ->
  (0 < size)%nat -> name <> [] -> (CR ∉ name) ->
  multipart_type x BOUNDARY -> serves env h x -> upload_check_ env = None -> multipart_begin_ env = None ->
  can_store env clock disk ->
  burst_text b = msg_head x ++ msg_content x -> Forall is_byte (burst_text b) ->
  Z.of_nat (length (burst_text b)) < 1024 ->
  (forall c, at_route x c -> res_ (h c) = build_response_str offset t (reply c) /\ response_ok (reply c) /\
     no_length_field (reply c) /\ parser_takes offset t (reply c)) ->
  let path := stamp env clock 0 (get_extension name) in
  exists c, at_route x c /\ app_ c = app /\
  files_ c = [mk_file path None false (Z.of_nat size)] /\
  (forall q, read_file (disk_ c) q = if decide (q = path) then Some (letters size) else read_file disk q) /\
  answered env [b] (new_connection fresh_part disk res_type now app) (h c) /\
  forall outs pieces, Forall (fun k => 0 < k) outs -> foldr Z.add 0 outs = Z.of_nat (length (burst_text b)) ->
    Forall (fun p => p <> []) pieces -> mjoin pieces = response_str (res_ (h c)) ->
    exists c' n, upload_string sse files (print_uri w) filename (Z.of_nat size) seconds (fresh_client hs) (mk_net [true] outs pieces [] []) =
      Done (c', n) /\ called c' = [answer_of offset t (reply c)] /\ wire n = burst_text b.
Proof.
  intros x name Hw Hs Hq Hhs Hsize Hname Hcr Htype Hserves Hup Hbegin Hstore Hb Hby Hlen Hh path.
  pose proof (f_equal length Hb) as Hl. rewrite length_app in Hl.
  assert (Z.of_nat (length (upload_body filename size)) < 2 ^ 31) as Hbody.
  { change (msg_content x) with (upload_body filename size) in Hl. lia. }
  assert (Z.of_nat (length (letters size)) < 2 ^ 31) as Hletters.
  { unfold upload_body in Hbody. rewrite !length_app in Hbody. lia. }
  destruct (items_served env clock h x BOUNDARY [upload_item filename size] (CRLF ++ CRLF) b fresh_part disk res_type now app)
    as (c & Hroute & (_ & Hf & Hd) & Happ & Ha); try done.
  - by apply upload_request_ok.
  - check_bool.
  - check_bool.
  - apply NoDup_nil_2.
  - apply Forall_singleton. unfold item_ok, upload_item. split_and!; try done.
    + check_bool.
    + apply path_filename_no_slash.
    + apply not_elem_of_nil.
    + lia.
    + intros (u & v & E). assert (CR ∈ letters size) as Hin by (rewrite E, !elem_of_app; right; left; left; constructor).
      unfold letters in Hin. by apply elem_of_replicate in Hin as [? _].
  - change (msg_content x) with (upload_body filename size). apply upload_body_print.
  - cbn [file_items upload_item] in Hf, Hd. unfold stored in Hf, Hd. cbn [imap fst snd fmap list_fmap] in Hf, Hd.
    exists c. split; [exact Hroute|]. split; [exact Happ|]. split.
    { rewrite Hf. unfold upload_of. cbn [fst snd]. unfold letters. by rewrite length_replicate. }
    split.
    { intros q. rewrite Hd. destruct (decide (q = path)) as [->|Hne]; cbn [list_to_map foldr fst snd].
      - pose proof (lookup_insert_eq (M:=gmap bytes) (∅ : smap) path (letters size)) as E.
        match goal with |- match ?X with _ => _ end = _ => replace X with (Some (letters size)) by (symmetry; exact E) end. done.
      - pose proof (lookup_insert_ne (M:=gmap bytes) (∅ : smap) path q (letters size) ltac:(done)) as E.
        match goal with |- match ?X with _ => _ end = _ => replace X with (@None bytes) by (symmetry; exact E) end. done. }
    split; [exact Ha|].
    destruct (Hh c Hroute) as (Hr & Hrok & Hno & H100). intros outs pieces Houts Hsum Hne Hpieces.
    unfold response_str in Hpieces. rewrite Hr in Hpieces. rewrite Hb in Hsum |- *.
    apply (client_uploads sse files w filename size seconds qs hs offset t (reply c) outs pieces); try done.
    fold x. rewrite <-Hb. lia.
Qed.

(** ** A sample *)

Module UploadSample.
Definition w : parts := mk_parts (bs "http") None (bs "localhost") (Some (bs "8080")) (bs "/up") None None.
Definition hs : list (bytes * bytes) := [(bs "X-A", bs "1")].
Definition x : message := upload_request w (bs "/tmp/a.txt") 5 None hs.
Definition h (c : connection (list bytes)) : connection (list bytes) :=
  put_res (build_response_str (fun _ => 0) 0 Sample.r) c.
Definition env : environment (list bytes) :=
  mk_env (fun c => Some (h c)) (fun c => Some (c, true)) None None (fun _ => true) None
    (fun _ c => c) (bs "up") (fun _ => true) true (fun _ => 0) 0 (fun c => upload_clock (length (files_ c))) [] [] [].
Definition b : burst := (80, drop 1 (message_text x)).
Definition socket : net :=
  mk_net [true] [100; Z.of_nat (length (message_text x)) - 100] [take 30 Sample.reply_text; drop 30 Sample.reply_text] [] [].

Lemma env_can_store : can_store env upload_clock upload_disk.
Proof. destruct upload_can_store as [H1 H2 H3 H4 H5 H6]. by constructor. Qed.

Lemma replied c : res_ (h c) = build_response_str (fun _ => 0) 0 Sample.r.
Proof.
  assert (forall v, res_ (put_res v c) = v) as E by done. unfold h. by rewrite E.
Qed.
Lemma upload_reply_sent c : response_str (res_ (h c)) = Sample.reply_text.
Proof. rewrite replied. unfold response_str, Sample.reply_text. reflexivity. Qed.
End UploadSample.

Lemma client_upload_served_witness : exists c,
  at_route UploadSample.x c /\ read_file (disk_ c) (bs "up/1700000000.txt") = Some (bs "aaaaa") /\
  read_file (disk_ c) (bs "readme") = Some (bs "old") /\
  handle UploadSample.env 9 (arrivals [UploadSample.b]) [Took 4096] [] (new_connection [] upload_disk ct_none 0 []) =
    (Returned, UploadSample.h c, [Sample.reply_text]) /\
  exists c' n, upload_string true (fun _ => None) (bs "http://localhost:8080/up") (bs "/tmp/a.txt") 5 60
      (fresh_client UploadSample.hs) UploadSample.socket = Done (c', n) /\
    called c' = [mk_response_data 0 200 (bs "welcome") (response_fields (fun _ => 0) 0 Sample.r)] /\
    wire n = message_text UploadSample.x.
Proof.
  destruct (client_upload_served true (fun _ => None) UploadSample.env upload_clock UploadSample.h UploadSample.w (bs "/tmp/a.txt")
    5 60 None UploadSample.hs UploadSample.b [] upload_disk ct_none 0 [] (fun _ => 0) 0 (fun _ => Sample.r))
    as (c & Hr & _ & _ & Hd & Ha & Hc).
  - unfold parts_ok. cbn. split_and!; try done; check_bool.
  - done.
  - unfold query_parts. split_and!; done.
  - unfold user_headers_ok. split_and!; [check_bool|check_bool|cbn; lia].
  - lia.
  - done.
  - check_bool.
  - check_bool.
  - split; [done|split; done].
  - done.
  - done.
  - exact UploadSample.env_can_store.
  - vm_compute. reflexivity.
  - check_bool.
  - vm_compute. reflexivity.
  - intros c _. split; [apply UploadSample.replied|]. split; [|split; [check_bool|split; vm_compute; [lia|reflexivity]]].
    unfold response_ok. split_and!; try done; check_bool.
  - rewrite UploadSample.upload_reply_sent in Hc. pose proof (answered_loop _ _ _ _ Ha 9%nat [] [Took 4096] [] ltac:(cbn; lia)) as Hl. rewrite UploadSample.upload_reply_sent in Hl. exists c. split; [exact Hr|]. rewrite !Hd.
    split; [vm_compute; reflexivity|]. split; [vm_compute; reflexivity|].
    split; [exact Hl|].
    destruct (Hc [100; Z.of_nat (length (message_text UploadSample.x)) - 100] [take 30 Sample.reply_text; drop 30 Sample.reply_text])
      as (c' & n & Hreq & Hcalled & Hwire).
    + check_bool.
    + vm_compute. reflexivity.
    + check_bool.
    + vm_compute. reflexivity.
    + exists c', n. split; [exact Hreq|]. split; [exact Hcalled|]. etransitivity; [exact Hwire|vm_compute; reflexivity].
Defined.
